(** * CMDkey / CMDread: the line editing and expansion engine of edit.c

    A shallow embedding of the parts of [edit.c] that the specification's
    testable properties talk about: the text buffer primitives, the history
    ring, the definition lists (symbols, macros, associations), the internal
    command recognition and the line expansion passes (brace expansion,
    escape removal, association, symbol and macro expansion, variable
    substitution).

    Conventions of the embedding.
    - A [WCHAR] is a [Z]; a run of characters is a [list WCHAR].
    - The C global [line] is the pair [line.txt], [line.len]; the embedding
      keeps the sequence [line.txt[0 .. line.len)] as the list [line st] and
      [line.len] is its length ([len st]).  Characters of the buffer that lie
      behind [line.len] are never read by the functions embedded here, except
      where a comment says so.
    - [DWORD] arithmetic of the buffer primitives is written with [dw], the
      reduction modulo [2^32].  Scanning positions stay below
      [line.len + 2] and are plain [Z].
    - Every [malloc] of the source takes its outcome from the field [heap],
      a list of future outcomes ([true]: memory was granted); an exhausted
      list grants every request.
    - Loops that change the line while they scan it run on fuel and return
      [None] when the fuel is used up; the theorems show that the fuel given
      by the callers is enough.
    - [None] is also the result where the source reads through a pointer
      that is [NULL] or takes a length below zero for a [DWORD], where a read
      of the keyboard finds no line to come, and where a key is pressed that
      is not a plain character key: the functions of the editing keys are
      not embedded.
    - The handlers of the key and list commands are a parameter [ext]; see
      [Handlers]. *)

From Stdlib Require Import String Ascii ZArith Bool Lia List Permutation.
Import ListNotations.
Open Scope Z_scope.

(** ** Characters and strings *)

Definition WCHAR := Z.

Definition wchar_of_ascii (a : ascii) : WCHAR := Z.of_nat (nat_of_ascii a).

(** [wstr s] is the wide string literal of [s] without its terminator. *)
Definition wstr (s : string) : list WCHAR :=
  map wchar_of_ascii (list_ascii_of_string s).

Definition ESCAPE : WCHAR := 94.      (* '^' *)
Definition CMDSEP : WCHAR := 19.
Definition VARIABLE : WCHAR := 37.    (* '%' *)
Definition DQUOTE : WCHAR := 34.      (* the double quote *)
Definition BACKSLASH : WCHAR := 92.
Definition SLASH : WCHAR := 47.
Definition LBRACE : WCHAR := 123.
Definition RBRACE : WCHAR := 125.
Definition COMMA : WCHAR := 44.
Definition SPACE : WCHAR := 32.
Definition TAB : WCHAR := 9.

Definition BRACE_TERM : list WCHAR := wstr " " ++ [TAB] ++ wstr ",;+".
Definition BRACE_STOP : list WCHAR := wstr "<|>&".
Definition BRACE_ESCAPE : list WCHAR := wstr "{},^".
Definition DEF_TERM : list WCHAR := wstr " " ++ [TAB] ++ wstr "<|>/".
Definition VAR_ESCAPE : list WCHAR := wstr "%^".
Definition ARG_ESCAPE : list WCHAR := wstr "%*^".

(** [wcschr set c]: is [c] one of the characters of the literal [set]?  As in
    C, the terminating NUL of the literal is found as well. *)
Definition wcschr (set : list WCHAR) (c : WCHAR) : bool :=
  existsb (Z.eqb c) set || (c =? 0).

Definition isblank (c : WCHAR) : bool := (c =? SPACE) || (c =? TAB).

(** [towlower] of the C locale: only the letters A to Z are folded. *)
Definition towlower (c : WCHAR) : WCHAR :=
  if (65 <=? c) && (c <=? 90) then c + 32 else c.

(** [_wcsnicmp( s1, s2, n )]:
<<
  if (n) { do { f = towlower( *s1++ ); l = towlower( *s2++ ); }
           while (--n && f && f == l);
           return f - l; }
  return 0;
>>
    A read behind the end of a list gives 0, the terminator of a literal. *)
Fixpoint wcsnicmp (s1 s2 : list WCHAR) (n : nat) : Z :=
  match n with
  | O => 0
  | S n' =>
      let f := towlower (hd 0 s1) in
      let l := towlower (hd 0 s2) in
      if (f =? l) && negb (f =? 0)
      then wcsnicmp (tl s1) (tl s2) n'
      else f - l
  end.

(** [memchr( p, c, WSZ(n) )] over the bytes of little-endian 16-bit
    characters: the byte [c] is found when it is the low or the high byte of
    one of the characters. *)
Definition memchr (s : list WCHAR) (c : Z) : bool :=
  existsb (fun w => (w mod 256 =? c) || ((w / 256) mod 256 =? c)) s.

Definition list_eqb (a b : list WCHAR) : bool :=
  (length a =? length b)%nat && forallb (fun p => fst p =? snd p) (combine a b).

(** [sub l pos cnt]: the characters [l[pos .. pos+cnt)]. *)
Definition sub (l : list WCHAR) (pos cnt : Z) : list WCHAR :=
  firstn (Z.to_nat cnt) (skipn (Z.to_nat pos) l).

Definition char_at (l : list WCHAR) (pos : Z) : WCHAR :=
  if pos <? 0 then 0 else nth (Z.to_nat pos) l 0.

Definition dw (x : Z) : Z := x mod 2 ^ 32.

(** ** The data model *)

(** [Option] of CMDread.h, the fields read by the code embedded here. *)
Record Options := mkOptions {
  silent : bool;            (* don't beep on errors? *)
  disable_macro : bool;     (* disable macro & symbol translation *)
  ignore_char : WCHAR;      (* prefix character to disable translation *)
  min_length : Z;           (* UCHAR: minimum line length to store in history *)
  opt_histsize : Z;         (* UCHAR option.histsize: number of commands to store *)
  overwrite : bool;         (* default insert/overwrite mode *)
  auto_recall : bool        (* auto-recall commands *)
}.

(** [Define]: a definition with its name and its list of lines ([LineList];
    [NULL] is the empty list). *)
Record Define := mkDefine {
  name : list WCHAR;
  lines : list (list WCHAR)
}.

(** [mcmd], the buffer for multiple commands: [mcmd.txt] is [NULL] ([None])
    or holds the text; the marker [(PWSTR)1] of an empty rest is [Some []]. *)
Record Mcmd := mkMcmd {
  mcmd_txt : option (list WCHAR);
  mcmd_len : Z
}.

(** The globals of edit.c. [history] lists the ring from [history.next]
    (oldest) to [history.prev] (most recent) without the sentinel. *)
Record State := mkState {
  opt : Options;
  line : list WCHAR;
  max : Z;
  dispbeg : Z;
  dispend : Z;
  beeps : nat;                       (* calls of MessageBeep so far *)
  history : list (list WCHAR);
  histsize : Z;
  sym_head : list Define;
  mac_head : list Define;
  assoc_head : list Define;
  macro_stk : list Define;
  mcmd : Mcmd;
  kbd : bool;
  def_macro : bool;
  check_break : Z;
  found_quote : bool;
  assoc_pos : Z;
  heap : list bool;
  input : list (list WCHAR);         (* the lines that will be typed at the keyboard:
                                        each one the characters of its plain keys,
                                        ended by the Enter key *)
  file : option (list (list WCHAR)); (* the open command file: the strings that the
                                        calls of fgets will give, each with the
                                        line feed that ends it, if there is one *)
  envvar_len : Z                     (* envvar.len: the size of the buffer for an
                                        environment variable *)
}.

Definition len (st : State) : Z := Z.of_nat (length (line st)).

Definition set_line (l : list WCHAR) (st : State) : State :=
  mkState (opt st) l (max st) (dispbeg st) (dispend st) (beeps st)
    (history st) (histsize st) (sym_head st) (mac_head st) (assoc_head st)
    (macro_stk st) (mcmd st) (kbd st) (def_macro st) (check_break st)
    (found_quote st) (assoc_pos st) (heap st) (input st) (file st) (envvar_len st).

Definition set_max (m : Z) (st : State) : State :=
  mkState (opt st) (line st) m (dispbeg st) (dispend st) (beeps st)
    (history st) (histsize st) (sym_head st) (mac_head st) (assoc_head st)
    (macro_stk st) (mcmd st) (kbd st) (def_macro st) (check_break st)
    (found_quote st) (assoc_pos st) (heap st) (input st) (file st) (envvar_len st).

Definition set_disp (b e : Z) (st : State) : State :=
  mkState (opt st) (line st) (max st) b e (beeps st)
    (history st) (histsize st) (sym_head st) (mac_head st) (assoc_head st)
    (macro_stk st) (mcmd st) (kbd st) (def_macro st) (check_break st)
    (found_quote st) (assoc_pos st) (heap st) (input st) (file st) (envvar_len st).

Definition set_beeps (n : nat) (st : State) : State :=
  mkState (opt st) (line st) (max st) (dispbeg st) (dispend st) n
    (history st) (histsize st) (sym_head st) (mac_head st) (assoc_head st)
    (macro_stk st) (mcmd st) (kbd st) (def_macro st) (check_break st)
    (found_quote st) (assoc_pos st) (heap st) (input st) (file st) (envvar_len st).

Definition set_history (h : list (list WCHAR)) (n : Z) (st : State) : State :=
  mkState (opt st) (line st) (max st) (dispbeg st) (dispend st) (beeps st)
    h n (sym_head st) (mac_head st) (assoc_head st)
    (macro_stk st) (mcmd st) (kbd st) (def_macro st) (check_break st)
    (found_quote st) (assoc_pos st) (heap st) (input st) (file st) (envvar_len st).

Definition set_sym_head (d : list Define) (st : State) : State :=
  mkState (opt st) (line st) (max st) (dispbeg st) (dispend st) (beeps st)
    (history st) (histsize st) d (mac_head st) (assoc_head st)
    (macro_stk st) (mcmd st) (kbd st) (def_macro st) (check_break st)
    (found_quote st) (assoc_pos st) (heap st) (input st) (file st) (envvar_len st).

Definition set_mac_head (d : list Define) (st : State) : State :=
  mkState (opt st) (line st) (max st) (dispbeg st) (dispend st) (beeps st)
    (history st) (histsize st) (sym_head st) d (assoc_head st)
    (macro_stk st) (mcmd st) (kbd st) (def_macro st) (check_break st)
    (found_quote st) (assoc_pos st) (heap st) (input st) (file st) (envvar_len st).

Definition set_assoc_head (d : list Define) (st : State) : State :=
  mkState (opt st) (line st) (max st) (dispbeg st) (dispend st) (beeps st)
    (history st) (histsize st) (sym_head st) (mac_head st) d
    (macro_stk st) (mcmd st) (kbd st) (def_macro st) (check_break st)
    (found_quote st) (assoc_pos st) (heap st) (input st) (file st) (envvar_len st).

Definition set_macro_stk (d : list Define) (st : State) : State :=
  mkState (opt st) (line st) (max st) (dispbeg st) (dispend st) (beeps st)
    (history st) (histsize st) (sym_head st) (mac_head st) (assoc_head st)
    d (mcmd st) (kbd st) (def_macro st) (check_break st)
    (found_quote st) (assoc_pos st) (heap st) (input st) (file st) (envvar_len st).

Definition set_mcmd (m : Mcmd) (st : State) : State :=
  mkState (opt st) (line st) (max st) (dispbeg st) (dispend st) (beeps st)
    (history st) (histsize st) (sym_head st) (mac_head st) (assoc_head st)
    (macro_stk st) m (kbd st) (def_macro st) (check_break st)
    (found_quote st) (assoc_pos st) (heap st) (input st) (file st) (envvar_len st).

Definition set_kbd (b : bool) (st : State) : State :=
  mkState (opt st) (line st) (max st) (dispbeg st) (dispend st) (beeps st)
    (history st) (histsize st) (sym_head st) (mac_head st) (assoc_head st)
    (macro_stk st) (mcmd st) b (def_macro st) (check_break st)
    (found_quote st) (assoc_pos st) (heap st) (input st) (file st) (envvar_len st).

Definition set_def_macro (b : bool) (st : State) : State :=
  mkState (opt st) (line st) (max st) (dispbeg st) (dispend st) (beeps st)
    (history st) (histsize st) (sym_head st) (mac_head st) (assoc_head st)
    (macro_stk st) (mcmd st) (kbd st) b (check_break st)
    (found_quote st) (assoc_pos st) (heap st) (input st) (file st) (envvar_len st).

Definition set_check_break (n : Z) (st : State) : State :=
  mkState (opt st) (line st) (max st) (dispbeg st) (dispend st) (beeps st)
    (history st) (histsize st) (sym_head st) (mac_head st) (assoc_head st)
    (macro_stk st) (mcmd st) (kbd st) (def_macro st) n
    (found_quote st) (assoc_pos st) (heap st) (input st) (file st) (envvar_len st).

Definition set_found_quote (b : bool) (st : State) : State :=
  mkState (opt st) (line st) (max st) (dispbeg st) (dispend st) (beeps st)
    (history st) (histsize st) (sym_head st) (mac_head st) (assoc_head st)
    (macro_stk st) (mcmd st) (kbd st) (def_macro st) (check_break st)
    b (assoc_pos st) (heap st) (input st) (file st) (envvar_len st).

Definition set_assoc_pos (n : Z) (st : State) : State :=
  mkState (opt st) (line st) (max st) (dispbeg st) (dispend st) (beeps st)
    (history st) (histsize st) (sym_head st) (mac_head st) (assoc_head st)
    (macro_stk st) (mcmd st) (kbd st) (def_macro st) (check_break st)
    (found_quote st) n (heap st) (input st) (file st) (envvar_len st).

Definition set_heap (h : list bool) (st : State) : State :=
  mkState (opt st) (line st) (max st) (dispbeg st) (dispend st) (beeps st)
    (history st) (histsize st) (sym_head st) (mac_head st) (assoc_head st)
    (macro_stk st) (mcmd st) (kbd st) (def_macro st) (check_break st)
    (found_quote st) (assoc_pos st) h (input st) (file st) (envvar_len st).

Definition set_input (i : list (list WCHAR)) (st : State) : State :=
  mkState (opt st) (line st) (max st) (dispbeg st) (dispend st) (beeps st)
    (history st) (histsize st) (sym_head st) (mac_head st) (assoc_head st)
    (macro_stk st) (mcmd st) (kbd st) (def_macro st) (check_break st)
    (found_quote st) (assoc_pos st) (heap st) i (file st) (envvar_len st).

Definition set_file (f : option (list (list WCHAR))) (st : State) : State :=
  mkState (opt st) (line st) (max st) (dispbeg st) (dispend st) (beeps st)
    (history st) (histsize st) (sym_head st) (mac_head st) (assoc_head st)
    (macro_stk st) (mcmd st) (kbd st) (def_macro st) (check_break st)
    (found_quote st) (assoc_pos st) (heap st) (input st) f (envvar_len st).

Definition set_envvar_len (n : Z) (st : State) : State :=
  mkState (opt st) (line st) (max st) (dispbeg st) (dispend st) (beeps st)
    (history st) (histsize st) (sym_head st) (mac_head st) (assoc_head st)
    (macro_stk st) (mcmd st) (kbd st) (def_macro st) (check_break st)
    (found_quote st) (assoc_pos st) (heap st) (input st) (file st) n.

(** [malloc]: the next outcome of the heap. *)
Definition malloc (st : State) : bool * State :=
  match heap st with
  | [] => (true, st)
  | b :: h => (b, set_heap h st)
  end.

(** ** Line manipulation *)

(** [bell]: audible alert, unless the silent option is set. *)
Definition bell (st : State) : State :=
  if silent (opt st) then st else set_beeps (S (beeps st)) st.

Definition set_display_marks (beg end_ : Z) (st : State) : State :=
  set_disp (if beg <? dispbeg st then beg else dispbeg st)
           (if end_ >? dispend st then end_ else dispend st) st.

(** [copy_chars( str, cnt )]: set the line to [str], which is [cnt]
    characters. *)
Definition copy_chars (str : list WCHAR) (cnt : Z) (st : State) : State :=
  let st := set_display_marks 0 (len st) st in
  let '(cnt, st) := if cnt >? max st then (max st, bell st) else (cnt, st) in
  let st := set_line (sub str 0 cnt) st in
  set_display_marks 0 (len st) st.

(** [remove_chars( pos, cnt )]: the characters behind the removed ones move
    down, [line.len -= cnt]. *)
Definition remove_chars (pos cnt : Z) (st : State) : State :=
  let st := set_display_marks pos (len st) st in
  set_line (sub (line st) 0 pos ++ sub (line st) (pos + cnt) (dw (len st - pos - cnt))) st.

(** [insert_chars( pos, str, cnt )]. *)
Definition insert_chars (pos : Z) (str : list WCHAR) (cnt : Z) (st : State) : State :=
  let '(cnt, st) :=
    if dw (len st + cnt) >? max st then (dw (max st - len st), bell st) else (cnt, st) in
  let st := set_line (sub (line st) 0 pos ++ sub str 0 cnt
                      ++ sub (line st) pos (dw (len st - pos))) st in
  set_display_marks pos (len st) st.

(** [replace_chars( pos, old, str, cnt )]. *)
Definition replace_chars (pos old : Z) (str : list WCHAR) (cnt : Z) (st : State) : State :=
  if old >=? cnt then
    let st := set_display_marks pos (pos + cnt) st in
    let st := set_line (sub (line st) 0 pos ++ sub str 0 cnt
                        ++ skipn (Z.to_nat (pos + cnt)) (line st)) st in
    if negb (old =? cnt) then remove_chars (pos + cnt) (old - cnt) st else st
  else
    let st := set_display_marks pos (pos + old) st in
    let st := set_line (sub (line st) 0 pos ++ sub str 0 old
                        ++ skipn (Z.to_nat (pos + old)) (line st)) st in
    insert_chars (pos + old) (skipn (Z.to_nat old) str) (cnt - old) st.

(** The operations of the text buffer as data, to speak about sequences of
    them. *)
Inductive buf_op :=
| SetAll (str : list WCHAR) (cnt : Z)
| Remove (pos cnt : Z)
| Insert (pos : Z) (str : list WCHAR) (cnt : Z)
| Replace (pos old : Z) (str : list WCHAR) (cnt : Z).

Definition run_op (o : buf_op) (st : State) : State :=
  match o with
  | SetAll str cnt => copy_chars str cnt st
  | Remove pos cnt => remove_chars pos cnt st
  | Insert pos str cnt => insert_chars pos str cnt st
  | Replace pos old str cnt => replace_chars pos old str cnt st
  end.

Definition run_ops (os : list buf_op) (st : State) : State :=
  fold_left (fun s o => run_op o s) os st.

(** An operation is in range when the positions it names lie in the line and
    the count it gives for a source text does not leave that text; outside
    this range the C code reads or writes behind its buffers. *)
Definition in_range (o : buf_op) (st : State) : Prop :=
  match o with
  | SetAll str cnt => 0 <= cnt <= Z.of_nat (length str)
  | Remove pos cnt => 0 <= pos /\ 0 <= cnt /\ pos + cnt <= len st
  | Insert pos str cnt =>
      0 <= pos <= len st /\ 0 <= cnt <= Z.of_nat (length str) /\ len st + cnt < 2 ^ 32
  | Replace pos old str cnt =>
      0 <= pos /\ 0 <= old /\ pos + old <= len st /\
      0 <= cnt <= Z.of_nat (length str) /\ len st + cnt < 2 ^ 32
  end.

Fixpoint all_in_range (os : list buf_op) (st : State) : Prop :=
  match os with
  | [] => True
  | o :: os' => in_range o st /\ all_in_range os' (run_op o st)
  end.

(** ** History *)

(** A [PHistory] is a position in the ring: 0 is the sentinel [&history], the
    constant empty line; [S k] is the entry [nth k (history st)]. *)
Definition PHistory := nat.

Definition ring_next (st : State) (h : PHistory) : PHistory :=
  if (h =? length (history st))%nat then O else S h.

Definition ring_prev (st : State) (h : PHistory) : PHistory :=
  match h with
  | O => length (history st)
  | S k => k
  end.

Definition node_line (st : State) (h : PHistory) : list WCHAR :=
  match h with
  | O => []
  | S k => nth k (history st) []
  end.

Fixpoint remove_nth {A : Type} (n : nat) (l : list A) {struct l} : list A :=
  match l, n with
  | [], _ => []
  | _ :: t, O => t
  | x :: t, S n' => x :: remove_nth n' t
  end.

(** [remove_from_history( h )] for the entry [nth k (history st)].  (Called on
    an empty ring with [history.next], the C code unlinks and frees the
    sentinel; the list stays empty here.) *)
Definition remove_from_history (k : nat) (st : State) : State :=
  set_history (remove_nth k (history st)) (histsize st - 1) st.

(** The walk [for (h = history.prev; h != &history; h = h->prev)] of
    [add_to_history], over the entries from the most recent one: the index of
    the first entry found with [h->len == line.len] and equal characters. *)
Fixpoint find_identical (rev_entries : list (list WCHAR)) (l : list WCHAR)
  : option nat :=
  match rev_entries with
  | [] => None
  | h :: t => if list_eqb h l then Some (length t) else find_identical t l
  end.

(** [add_to_history()]. *)
Definition add_to_history (st : State) : State :=
  if len st <? min_length (opt st) then st
  else
    match find_identical (rev (history st)) (line st) with
    | None =>
        let st :=
          if negb (opt_histsize (opt st) =? 0) && (histsize st =? opt_histsize (opt st))
          then remove_from_history 0 st else st in
        let '(ok, st) := malloc st in
        if ok then set_history (history st ++ [line st]) (histsize st + 1) st
        else st
    | Some k =>
        set_history (remove_nth k (history st) ++ [nth k (history st) []])
                    (histsize st) st
    end.

(** The test of [search_history]:
    [h->len >= len && _wcsnicmp( h->line, line.txt, len ) == 0]. *)
Definition hist_match (st : State) (plen : Z) (h : PHistory) : bool :=
  (Z.of_nat (length (node_line st h)) >=? plen)
  && (wcsnicmp (node_line st h) (line st) (Z.to_nat plen) =? 0).

(** The do-while loop of [search_history]; [None] when the fuel is used up. *)
Fixpoint search_loop (fuel : nat) (st : State) (hist : PHistory) (plen : Z)
  (back : bool) (h : PHistory) : option (option PHistory) :=
  match fuel with
  | O => None
  | S f =>
      let h := if back then ring_prev st h else ring_next st h in
      if hist_match st plen h then Some (Some h)
      else if (h =? hist)%nat then Some None
      else search_loop f st hist plen back h
  end.

(** [search_history( hist, len, back )]: [Some None] is the C result [NULL]. *)
Definition search_history (st : State) (hist : PHistory) (plen : Z) (back : bool)
  : option (option PHistory) :=
  search_loop (S (length (history st))) st hist plen back hist.

(** The order in which a search from [hist] meets the [n + 1] nodes of a ring
    of [n] entries.  Forward: the nodes behind [hist] up to the most recent
    entry, then the sentinel and the entries up to [hist].  Backward: the nodes
    before [hist] down to the sentinel, then the entries from the most recent
    one down to [hist].  [hist] itself comes last. *)
Definition visit_order (n : nat) (hist : PHistory) (back : bool) : list PHistory :=
  if back then rev (seq 0 hist) ++ rev (seq hist (S n - hist))
  else seq (S hist) (n - hist) ++ seq 0 (S hist).

(** Does [text] begin, ignoring case, with the first [plen] characters of
    [buf]? *)
Definition begins_with_ci (text buf : list WCHAR) (plen : Z) : bool :=
  (plen <=? Z.of_nat (length text))
  && list_eqb (map towlower (sub text 0 plen)) (map towlower (sub buf 0 plen)).

(** ** A small monad for loops on fuel

    [None]: the model has no result (the fuel of a loop was used up, or the
    code called is not part of the embedding). *)
Definition bind {A B : Type} (m : option A) (f : A -> option B) : option B :=
  match m with
  | Some a => f a
  | None => None
  end.

Notation "x <- m ;; k" := (bind m (fun x => k))
  (at level 61, m at next level, right associativity).
Notation "' p <- m ;; k" := (bind m (fun x => match x with p => k end))
  (at level 61, p pattern, m at next level, right associativity).

(** ** Utility *)

Fixpoint skip_while (p : WCHAR -> bool) (l : list WCHAR) (pos : Z) : Z :=
  match l with
  | [] => pos
  | c :: t => if p c then skip_while p t (pos + 1) else pos
  end.

(** [skip_blank( pos )]: [while (pos < line.len && isblank( line.txt[pos] )) ++pos;] *)
Definition skip_blank (st : State) (pos : Z) : Z :=
  skip_while isblank (skipn (Z.to_nat pos) (line st)) pos.

Definition skip_nonblank (st : State) (pos : Z) : Z :=
  skip_while (fun c => negb (isblank c)) (skipn (Z.to_nat pos) (line st)) pos.

Definition skip_nondelim (st : State) (pos : Z) : Z :=
  skip_while (fun c => negb (wcschr DEF_TERM c)) (skipn (Z.to_nat pos) (line st)) pos.

(** The loop [while (--pos >= 0 && line.txt[pos] == '\\') lit ^= TRUE;] of
    [is_quote], over the characters before the quote, nearest first. *)
Fixpoint backslash_parity (before : list WCHAR) (lit : bool) : bool :=
  match before with
  | [] => lit
  | c :: t => if c =? BACKSLASH then backslash_parity t (negb lit) else lit
  end.

(** [is_quote( pos )]: a quote character not made literal by an odd number of
    backslashes before it. *)
Definition is_quote_at (l : list WCHAR) (pos : Z) : bool :=
  if (0 <=? pos) && (pos <? Z.of_nat (length l)) && (char_at l pos =? DQUOTE)
  then backslash_parity (rev (firstn (Z.to_nat pos) l)) true
  else false.

Definition is_quote (st : State) (pos : Z) : bool := is_quote_at (line st) pos.

(** [line.txt[pos] = c]. *)
Definition set_char (pos : Z) (c : WCHAR) (st : State) : State :=
  set_line (sub (line st) 0 pos ++ [c] ++ skipn (Z.to_nat (pos + 1)) (line st)) st.

(** The [for] loop of [get_string]; the result is the position at which the
    loop was left, with [oq], [cq] and the state. [cq] is [None] for [~0]. *)
Fixpoint get_string_loop (fuel : nat) (keep : bool) (start pos : Z)
  (quote oq : bool) (cq : option Z) (st : State)
  : option (Z * bool * option Z * State) :=
  match fuel with
  | O => None
  | S f =>
      if negb (pos <? len st) then Some (pos, oq, cq, st)
      else if quote then
        if is_quote st pos then
          if keep then get_string_loop f keep start (pos + 1) false oq cq st
          else
            match cq with
            | Some c =>
                let st := remove_chars c 1 st in
                let pos := pos - 1 in
                get_string_loop f keep start (pos + 1) false oq (Some pos) st
            | None => get_string_loop f keep start (pos + 1) false oq (Some pos) st
            end
        else get_string_loop f keep start (pos + 1) quote oq cq st
      else if is_quote st pos then
        let st := set_found_quote true st in
        if keep then get_string_loop f keep start (pos + 1) true oq cq st
        else if oq then
          let st := remove_chars pos 1 st in
          get_string_loop f keep start (pos - 1 + 1) true oq cq st
        else if negb (pos =? start) then
          (* memmove( line.txt + start + 1, line.txt + start, WSZ(pos - start) );
             line.txt[start] = the quote *)
          let st := set_line (sub (line st) 0 start ++ [DQUOTE]
                              ++ sub (line st) start (pos - start)
                              ++ skipn (Z.to_nat (pos + 1)) (line st)) st in
          let st := set_display_marks start (pos + 1) st in
          get_string_loop f keep start (pos + 1) true true cq st
        else get_string_loop f keep start (pos + 1) true true cq st
      else if isblank (char_at (line st) pos) then Some (pos, oq, cq, st)
      else get_string_loop f keep start (pos + 1) quote oq cq st
  end.

(** [get_string( pos, &cnt, keep )]: the start of the string, its length
    and the state. *)
Definition get_string (pos : Z) (keep : bool) (st : State) : option (Z * Z * State) :=
  let st := set_found_quote false st in
  let start := skip_blank st pos in
  '(pos, oq, cq, st) <-
     get_string_loop (S (length (line st))) keep start start false false None st ;;
  if keep then Some (start, dw (pos - start), st)
  else
    let start := if oq then start + 1 else start in
    match cq with
    | Some c =>
        let pos := pos - 1 in
        if negb (c =? pos) then
          (* memcpy( line.txt + cq, line.txt + cq + 1, WSZ(pos - cq) );
             line.txt[pos] = the quote *)
          let st := set_line (sub (line st) 0 c ++ sub (line st) (c + 1) (pos - c)
                              ++ [DQUOTE] ++ skipn (Z.to_nat (pos + 1)) (line st)) st in
          let st := set_display_marks c (pos + 1) st in
          Some (start, dw (pos - start), st)
        else Some (start, dw (pos - start), st)
    | None => Some (start, dw (pos - start), st)
    end.

(** The [for] loop of [un_escape]; [unq] is [None] for [NULL]. *)
Fixpoint un_escape_loop (fuel : nat) (unq : option (list WCHAR)) (quote : bool)
  (pos : Z) (st : State) : option State :=
  match fuel with
  | O => None
  | S f =>
      if negb (pos <? len st) then Some st
      else if quote then
        if is_quote st pos then un_escape_loop f unq false (pos + 1) st
        else
          match unq with
          | Some set =>
              if (char_at (line st) pos =? ESCAPE) && (pos + 1 <? len st)
                 && wcschr set (char_at (line st) (pos + 1))
              then un_escape_loop f unq quote (pos + 1) (remove_chars pos 1 st)
              else un_escape_loop f unq quote (pos + 1) st
          | None => un_escape_loop f unq quote (pos + 1) st
          end
      else if is_quote st pos then un_escape_loop f unq true (pos + 1) st
      else
        match unq with
        | None =>
            if (char_at (line st) pos =? ESCAPE) && (pos + 1 <? len st)
            then un_escape_loop f unq quote (pos + 1) (remove_chars pos 1 st)
            else un_escape_loop f unq quote (pos + 1) st
        | Some _ => un_escape_loop f unq quote (pos + 1) st
        end
  end.

(** [un_escape( unq )]. *)
Definition un_escape (unq : option (list WCHAR)) (st : State) : option State :=
  if negb (memchr (line st) ESCAPE) then Some st
  else un_escape_loop (S (length (line st))) unq false 0 st.

(** ** Definitions (macro, symbol and association) *)

(** The lists a [PDefine*] may point to. *)
Inductive Head := SymHead | MacHead | AssocHead | MacroStk.

Definition get_head (h : Head) (st : State) : list Define :=
  match h with
  | SymHead => sym_head st
  | MacHead => mac_head st
  | AssocHead => assoc_head st
  | MacroStk => macro_stk st
  end.

Definition set_head (h : Head) (l : list Define) (st : State) : State :=
  match h with
  | SymHead => set_sym_head l st
  | MacHead => set_mac_head l st
  | AssocHead => set_assoc_head l st
  | MacroStk => set_macro_stk l st
  end.

(** [add_define( head, pos, cnt )]: the result is [true] when the definition
    was allocated; it is then the head of the list, without lines. *)
Definition add_define (h : Head) (pos cnt : Z) (st : State) : bool * State :=
  let '(ok, st) := malloc st in
  if ok
  then (true, set_head h (mkDefine (sub (line st) pos cnt) [] :: get_head h st) st)
  else (false, st).

(** The test of [find_define]:
    [d->len == cnt && _wcsnicmp( d->name, line.txt + pos, cnt ) == 0]. *)
Definition define_match (key : list WCHAR) (cnt : Z) (d : Define) : bool :=
  (Z.of_nat (length (name d)) =? cnt) && (wcsnicmp (name d) key (Z.to_nat cnt) =? 0).

(** The walk of [find_define] and [find_assoc]: [before] holds the
    definitions already passed, nearest first.  A definition that is found is
    moved to the head. *)
Fixpoint find_walk (test : Define -> bool) (before l : list Define)
  : option (list Define) :=
  match l with
  | [] => None
  | d :: t => if test d then Some (d :: rev before ++ t)
              else find_walk test (d :: before) t
  end.

(** [find_define( head, pos, cnt )]: [true] when the definition was found; it
    is then the head of the list. *)
Definition find_define (h : Head) (pos cnt : Z) (st : State) : bool * State :=
  match find_walk (define_match (skipn (Z.to_nat pos) (line st)) cnt) [] (get_head h st) with
  | Some l => (true, set_head h l st)
  | None => (false, st)
  end.

(** The loop of [match_ext( ext, cnt, extlist, extlen )]: the position of
    [ext] in the list of extensions. *)
Fixpoint match_ext_loop (fuel : nat) (ext : list WCHAR) (cnt : Z)
  (extlist : list WCHAR) (pos : Z) : option (option Z) :=
  match fuel with
  | O => None
  | S f =>
      let extlen := Z.of_nat (length extlist) in
      if negb (pos <? extlen) then Some None
      else
        let end_ :=
          skip_while (fun c => negb ((c =? 46) || (c =? 59) || (c =? 58)))
                     (skipn (Z.to_nat (pos + 1)) extlist) (pos + 1) in
        if (end_ - pos =? cnt)
           && (wcsnicmp (skipn (Z.to_nat pos) extlist) ext (Z.to_nat cnt) =? 0)
        then Some (Some pos)
        else if end_ =? extlen then Some None
        else if negb (char_at extlist end_ =? 46)
        then match_ext_loop f ext cnt extlist (end_ + 1)
        else match_ext_loop f ext cnt extlist end_
  end.

Definition match_ext (ext : list WCHAR) (cnt : Z) (extlist : list WCHAR)
  : option (option Z) :=
  match_ext_loop (S (length extlist)) ext cnt extlist 0.

(** The walk of [find_assoc]; the position found by [match_ext] comes with
    the list. *)
Fixpoint find_assoc_walk (ext : list WCHAR) (cnt : Z) (before l : list Define)
  : option (option (Z * list Define)) :=
  match l with
  | [] => Some None
  | a :: t =>
      r <- match_ext ext cnt (name a) ;;
      match r with
      | Some p => Some (Some (p, a :: rev before ++ t))
      | None => find_assoc_walk ext cnt (a :: before) t
      end
  end.

(** [find_assoc( ext, cnt )]: [true] when an association was found; it is
    then the head of [assoc_head], and [assoc_pos] is set. *)
Definition find_assoc (ext : list WCHAR) (cnt : Z) (st : State) : option (bool * State) :=
  r <- find_assoc_walk ext cnt [] (assoc_head st) ;;
  match r with
  | Some (p, l) => Some (true, set_assoc_pos p (set_assoc_head l st))
  | None => Some (false, st)
  end.

(** [del_define( head )]: remove the head of the list. *)
Definition del_define (h : Head) (st : State) : State :=
  set_head h (tl (get_head h st)) st.

(** [delete_define( head, pos )]. *)
Fixpoint delete_define_loop (fuel : nat) (h : Head) (pos : Z) (st : State)
  : option State :=
  match fuel with
  | O => None
  | S f =>
      if negb (pos <? len st) then Some st
      else
        let end_ := skip_nonblank st pos in
        let '(d, st) := find_define h pos (end_ - pos) st in
        let st := if d then del_define h st else st in
        delete_define_loop f h (skip_blank st end_) st
  end.

Definition delete_define (h : Head) (pos : Z) (st : State) : option State :=
  delete_define_loop (S (length (line st))) h pos st.

(** [reset_define( head )]. *)
Definition reset_define (h : Head) (st : State) : State := set_head h [] st.

(** [add_line( pos )]: a copy of the line from [pos]; [None] is [NULL]. *)
Definition add_line (pos : Z) (st : State) : option (list WCHAR) * State :=
  let '(ok, st) := malloc st in
  if ok then (Some (sub (line st) pos (dw (len st - pos))), st) else (None, st).

(** [sym->line = ll] for the definition at the head of a list. *)
Definition set_head_lines (h : Head) (ls : list (list WCHAR)) (st : State) : State :=
  match get_head h st with
  | [] => st
  | d :: t => set_head h (mkDefine (name d) ls :: t) st
  end.

(** [new_txt( txt, len )]. *)
Definition new_txt (txt : list WCHAR) (n : Z) (st : State) : option (list WCHAR) * State :=
  let '(ok, st) := malloc st in
  if ok then (Some (sub txt 0 n), st) else (None, st).

(** ** Line output *)

(** The [for] loop of [multi_cmd]. *)
Fixpoint multi_cmd_loop (fuel : nat) (quote : bool) (pos : Z) (st : State)
  : option State :=
  match fuel with
  | O => None
  | S f =>
      if negb (pos <? len st) then Some st
      else
        let c := char_at (line st) pos in
        if quote then multi_cmd_loop f (negb (c =? DQUOTE)) (pos + 1) st
        else if c =? DQUOTE then multi_cmd_loop f true (pos + 1) st
        else if c =? ESCAPE then multi_cmd_loop f quote (pos + 1 + 1) st
        else if c =? CMDSEP then
          let pos := pos + 1 in
          let n := dw (len st - pos) in
          if n =? 0 then
            Some (set_line (sub (line st) 0 (pos - 1)) (set_mcmd (mkMcmd (Some []) n) st))
          else
            let '(t, st) := new_txt (skipn (Z.to_nat pos) (line st)) n st in
            match t with
            | None => Some (set_mcmd (mkMcmd None n) st)
            | Some _ => Some (set_line (sub (line st) 0 (pos - 1)) (set_mcmd (mkMcmd t n) st))
            end
        else multi_cmd_loop f quote (pos + 1) st
  end.

(** [multi_cmd()]: chop the line at the first unquoted, unescaped CMDSEP and
    keep what follows in [mcmd]. *)
Definition multi_cmd (st : State) : option State :=
  if negb (memchr (line st) CMDSEP) then Some st
  else multi_cmd_loop (S (length (line st))) false 0 st.

(** [dosify()]. *)
Fixpoint dosify_loop (fuel : nat) (pos : Z) (st : State) : option State :=
  match fuel with
  | O => None
  | S f =>
      if negb (pos <? len st) then Some st
      else
        let c := char_at (line st) pos in
        if (c =? SLASH) || (c =? BACKSLASH) then
          let st := set_char pos BACKSLASH st in
          if ((pos + 1 =? len st) || isblank (char_at (line st) (pos + 1)))
             && (pos >? 0) && negb (char_at (line st) (pos - 1) =? 58)
             && negb (isblank (char_at (line st) (pos - 1)))
          then dosify_loop f (pos + 1) (set_char pos SPACE st)
          else dosify_loop f (pos + 1) st
        else if (c =? 45) && (pos >? 0) && isblank (char_at (line st) (pos - 1))
        then dosify_loop f (pos + 1) (set_char pos SLASH st)
        else dosify_loop f (pos + 1) st
  end.

Definition dosify (st : State) : option State :=
  dosify_loop (S (length (line st))) 0 st.

(** *** Brace expansion *)

(** The first [for] loop of [brace_expansion]: find the opening brace and the
    start of the prepend.  The result is [pos], [quote], [term], [prepos] when
    the loop is left. *)
Fixpoint find_open (fuel : nat) (l : list WCHAR) (pos : Z) (quote : bool)
  (term : WCHAR) (prepos : Z) : option (Z * bool * WCHAR * Z) :=
  match fuel with
  | O => None
  | S f =>
      if negb (pos <? Z.of_nat (length l)) then Some (pos, quote, term, prepos)
      else
        let quote := if is_quote_at l pos then negb quote else quote in
        let c := char_at l pos in
        if c =? ESCAPE then find_open f l (pos + 1 + 1) quote term prepos
        else if c =? LBRACE then Some (pos, quote, term, prepos)
        else if negb quote then
          if wcschr BRACE_TERM c then find_open f l (pos + 1) quote c (pos + 1)
          else if wcschr BRACE_STOP c then find_open f l (pos + 1) quote term (pos + 1)
          else find_open f l (pos + 1) quote term prepos
        else find_open f l (pos + 1) quote term prepos
  end.

(** The second [for] loop: find the closing brace, checking for at least two
    items.  The inner [None] is the [return FALSE] of a quoted item with a
    quoted prepend; otherwise [postpos], [q1], [count], [comma] when the loop
    is left. *)
Fixpoint find_close (fuel : nat) (l : list WCHAR) (quote : bool) (postpos : Z)
  (q1 : bool) (count : Z) (comma : bool) : option (option (Z * bool * Z * bool)) :=
  match fuel with
  | O => None
  | S f =>
      if negb (postpos <? Z.of_nat (length l)) then Some (Some (postpos, q1, count, comma))
      else
        let c := char_at l postpos in
        if q1 then
          find_close f l quote (postpos + 1) (negb (is_quote_at l postpos)) count comma
        else if is_quote_at l postpos then
          if quote then Some None
          else find_close f l quote (postpos + 1) true count comma
        else if c =? ESCAPE then find_close f l quote (postpos + 1 + 1) q1 count comma
        else if c =? LBRACE then find_close f l quote (postpos + 1) q1 (count + 1) comma
        else if c =? RBRACE then
          if count - 1 =? 0 then Some (Some (postpos, q1, count - 1, comma))
          else find_close f l quote (postpos + 1) q1 (count - 1) comma
        else if (c =? COMMA) && (count =? 1)
        then find_close f l quote (postpos + 1) q1 count true
        else find_close f l quote (postpos + 1) q1 count comma
  end.

(** What the [while (!comma)] loop hands to the rest of [brace_expansion]. *)
Record BraceGroup := mkBraceGroup {
  bg_prepos : Z;
  bg_prelen : Z;
  bg_postpos : Z;      (* position of the closing brace *)
  bg_term : WCHAR;
  bg_quote : bool;
  bg_q1 : bool
}.

(** The [while (!comma)] loop.  The inner [None] is [return FALSE].  (The
    quick scan [memchr( line.txt + pos, ... , WSZ(line.len) )] of the source
    runs [pos] characters over the end of the line; whatever it meets there,
    the loop that follows it looks at the line only and returns FALSE where
    the scan of the line alone does.) *)
Fixpoint brace_scan (fuel : nat) (l : list WCHAR) (pos prepos : Z) (term : WCHAR)
  (quote : bool) : option (option BraceGroup) :=
  match fuel with
  | O => None
  | S f =>
      if negb (memchr (skipn (Z.to_nat pos) l) LBRACE) then Some None
      else
        '(pos, quote, term, prepos) <- find_open (S (length l)) l pos quote term prepos ;;
        if pos >=? Z.of_nat (length l) then Some None
        else
          let prelen := pos - prepos in
          let pos := pos + 1 in
          r <- find_close (S (length l)) l quote pos false 1 false ;;
          match r with
          | None => Some None
          | Some (postpos, q1, count, comma) =>
              if negb (count =? 0) then Some None
              else if comma
              then Some (Some (mkBraceGroup prepos prelen postpos term quote q1))
              else brace_scan f l pos prepos term quote
          end
  end.

(** The third [for] loop: find the end of the postpend.  The result is
    [postlen], [count], [quote], [term] when the loop is left. *)
Fixpoint find_postpend (fuel : nat) (l : list WCHAR) (postlen count : Z)
  (q1 quote : bool) (term : WCHAR) : option (Z * Z * bool * WCHAR) :=
  match fuel with
  | O => None
  | S f =>
      if negb (postlen <? Z.of_nat (length l)) then Some (postlen, count, quote, term)
      else
        let c := char_at l postlen in
        if negb (count =? 0) then
          if q1 then
            find_postpend f l (postlen + 1) count (negb (is_quote_at l postlen)) quote term
          else if is_quote_at l postlen then find_postpend f l (postlen + 1) count true quote term
          else if c =? ESCAPE then find_postpend f l (postlen + 1 + 1) count q1 quote term
          else if c =? LBRACE then find_postpend f l (postlen + 1) (count + 1) q1 quote term
          else if c =? RBRACE then find_postpend f l (postlen + 1) (count - 1) q1 quote term
          else find_postpend f l (postlen + 1) count q1 quote term
        else
          let quote := if is_quote_at l postlen then negb quote else quote in
          if c =? ESCAPE then find_postpend f l (postlen + 1 + 1) count q1 quote term
          else if c =? LBRACE then find_postpend f l (postlen + 1) (count + 1) q1 quote term
          else if negb quote then
            if wcschr BRACE_TERM c
            then Some (postlen, count, quote, if term =? SPACE then c else term)
            else if wcschr BRACE_STOP c then Some (postlen, count, quote, term)
            else find_postpend f l (postlen + 1) count q1 quote term
          else find_postpend f l (postlen + 1) count q1 quote term
  end.

(** The last [for] loop: add the postpend and the prepend to all subsequent
    items.  The result is [pos] when the loop is left, and the state. *)
Fixpoint brace_items (fuel : nat) (pend : list WCHAR) (postlen prepos prelen : Z)
  (pos count : Z) (quote : bool) (st : State) : option (Z * State) :=
  match fuel with
  | O => None
  | S f =>
      if negb (count >=? 0) then Some (pos, st)
      else
        let c := char_at (line st) pos in
        if quote then
          brace_items f pend postlen prepos prelen (pos + 1) count
                      (negb (is_quote st pos)) st
        else if is_quote st pos then
          brace_items f pend postlen prepos prelen (pos + 1) count true st
        else if c =? ESCAPE then
          brace_items f pend postlen prepos prelen (pos + 1 + 1) count quote st
        else if c =? LBRACE then
          brace_items f pend postlen prepos prelen (pos + 1) (count + 1) quote st
        else if c =? RBRACE then
          brace_items f pend postlen prepos prelen (pos + 1) (count - 1) quote st
        else if (c =? COMMA) && (count =? 0) then
          let st := replace_chars pos 1 pend postlen st in
          let st := insert_chars (pos + postlen) (skipn (Z.to_nat prepos) (line st)) prelen st in
          brace_items f pend postlen prepos prelen (pos + (postlen + prelen - 1) + 1)
                      count quote st
        else brace_items f pend postlen prepos prelen (pos + 1) count quote st
  end.

(** [brace_expansion()]: expand the first set of braces with at least two
    items.  (A postpend that ends in a lone escape character makes the source
    copy one character from behind the line; the model has no result
    there.) *)
Definition brace_expansion (st : State) : option (bool * State) :=
  let l := line st in
  g <- brace_scan (S (length l)) l 0 0 SPACE false ;;
  match g with
  | None => Some (false, st)
  | Some g =>
      let postpos := bg_postpos g + 1 in
      '(postlen, count, quote, term) <-
         find_postpend (S (length l)) l postpos 0 (bg_q1 g) (bg_quote g) (bg_term g) ;;
      if quote || negb (count =? 0) then Some (false, st)
      else
        let postlen := postlen - postpos in
        let postlen := if postlen <? 0 then 0 else postlen in
        if postpos + postlen >? len st then None
        else
          let '(pend, st) := new_txt (skipn (Z.to_nat postpos) l) (postlen + 1) st in
          match pend with
          | None => Some (false, st)
          | Some _ =>
              let pend := sub l postpos postlen ++ [term] in
              let postlen := postlen + 1 in
              let pos := bg_prepos g + bg_prelen g in
              let st := remove_chars pos 1 st in
              '(pos, st) <-
                 brace_items (S (S (Z.to_nat (len st + max st)))) pend postlen
                             (bg_prepos g) (bg_prelen g) pos count quote st ;;
              Some (true, remove_chars (pos - 1) 1 st)
          end
  end.

(** [expand_braces()]: [while (brace_expansion()) ; un_escape( BRACE_ESCAPE );] *)
Fixpoint expand_braces_loop (fuel : nat) (st : State) : option State :=
  match fuel with
  | O => None
  | S f =>
      '(b, st) <- brace_expansion st ;;
      if b then expand_braces_loop f st else Some st
  end.

Definition expand_braces (st : State) : option State :=
  st <- expand_braces_loop (S (Z.to_nat (len st + max st))) st ;;
  un_escape (Some BRACE_ESCAPE) st.

(** *** Association, symbols and macros *)

(** The loop [for (cnt = 1; line.txt[ext] != '.'; ++cnt, --ext)] of
    [associate]: walk back to the dot of the extension.  The inner [None] is
    [return FALSE]. *)
Fixpoint find_dot (fuel : nat) (l : list WCHAR) (beg ext cnt : Z)
  : option (option (Z * Z)) :=
  match fuel with
  | O => None
  | S f =>
      let c := char_at l ext in
      if c =? 46 then Some (Some (ext, cnt))
      else if (ext =? beg) || (c =? SLASH) || (c =? BACKSLASH) || (c =? 58)
      then Some None
      else find_dot f l beg (ext - 1) (cnt + 1)
  end.

(** The first line of the definition at the head of a list:
    [a->line->line], [a->line->len]. *)
Definition head_line (h : Head) (st : State) : list WCHAR :=
  match get_head h st with
  | [] => []
  | d :: _ => hd [] (lines d)
  end.

(** [associate()]: if the first word has an extension in the association
    list, insert its definition at the start of the line.  There is no result
    when the association found has no line: the code reads through
    [a->line], which is [NULL]. *)
Definition associate (st : State) : option (bool * State) :=
  '(beg, cnt, st) <- get_string 0 false st ;;
  if cnt =? 0 then Some (false, st)
  else
    let ext := beg + cnt - 1 in
    let '(alt, ext, cnt) :=
      if (cnt >? 1) && (char_at (line st) ext =? 61) then (1, ext - 1, cnt - 1)
      else (0, ext, cnt) in
    let finish (alt ext cnt : Z) (st : State) : option (bool * State) :=
      let st := if negb (alt =? 0) then remove_chars (ext + cnt) 1 st else st in
      match get_head AssocHead st with
      | d :: _ =>
          match lines d with
          | a :: _ =>
              let n := Z.of_nat (length a) in
              let st := insert_chars 0 a n st in
              Some (true, insert_chars n [SPACE] 1 st)
          | [] => None        (* a->line is NULL ([defa] could not allocate it) *)
          end
      | [] => None
      end in
    if (char_at (line st) ext =? SLASH) || (char_at (line st) ext =? BACKSLASH) then
      let st := set_char ext BACKSLASH st in
      let '(a, st) := find_define AssocHead ext (1 + alt) st in
      if negb a then Some (false, st)
      else if (cnt >? 1) && negb (char_at (line st) (ext - 1) =? 58)
      then finish 0 ext cnt (remove_chars ext (1 + alt) st)
      else finish alt ext 1 st
    else if (char_at (line st) ext =? 46)
            && ((ext =? beg) || (char_at (line st) (ext - 1) =? 46))
    then Some (false, st)
    else
      r <- find_dot (S (length (line st))) (line st) beg ext 1 ;;
      match r with
      | None => Some (false, st)
      | Some (ext, cnt) =>
          '(a, st) <- find_assoc (skipn (Z.to_nat ext) (line st)) (cnt + alt) st ;;
          if negb a then Some (false, st) else finish alt ext cnt st
      end.

(** [expand_symbol()]: if the first word is a symbol, replace it with its
    definition. *)
Definition expand_symbol (st : State) : bool * State :=
  let sym := skip_blank st 0 in
  let end_ := skip_nondelim st sym in
  let '(s, st) := find_define SymHead sym (end_ - sym) st in
  if negb s then (false, st)
  else
    let sp := (end_ <? len st) && negb (isblank (char_at (line st) end_)) in
    let d := head_line SymHead st in
    let n := Z.of_nat (length d) in
    let st := replace_chars sym (end_ - sym) d n st in
    (true, if sp then insert_chars (sym + n) [SPACE] 1 st else st).

(** [pop_macro()]. *)
Definition pop_macro (st : State) : State :=
  set_macro_stk (tl (macro_stk st)) st.

(** The loop [do arg = get_string( arg + cnt, &cnt, TRUE ); while (--argnum);]
    of [get_macro_line], run on the macro's invocation as the line. *)
Fixpoint get_arg (argnum : nat) (arg cnt : Z) (st : State) : option (Z * Z * State) :=
  match argnum with
  | O => Some (arg, cnt, st)
  | S n =>
      '(arg, cnt, st) <- get_string (arg + cnt) true st ;;
      get_arg n arg cnt st
  end.

(** The [for] loop of [get_macro_line]: replace [%n], [%*] and [%n*] by the
    arguments of the invocation [args] ([macro_stk->name]). *)
Fixpoint macro_args_loop (fuel : nat) (args : list WCHAR) (pos : Z) (st : State)
  : option State :=
  match fuel with
  | O => None
  | S f =>
      if negb (pos <? len st) then Some st
      else
        let c := char_at (line st) pos in
        if c =? ESCAPE then macro_args_loop f args (pos + 1 + 1) st
        else
          let c1 := char_at (line st) (pos + 1) in
          if (c =? VARIABLE) && (pos + 1 <? len st)
             && ((c1 =? 42) || ((48 <=? c1) && (c1 <=? 57)))
          then
            let pos := pos + 1 in
            let argnum := if c1 =? 42 then 2 else c1 - 48 + 1 in
            '(arg, cnt, sa) <- get_arg (Z.to_nat argnum) 0 0 (set_line args st) ;;
            let st := set_found_quote (found_quote sa) st in
            let '(pos, var) :=
              if negb (c1 =? 42) && (pos + 1 <? len st)
                 && (char_at (line st) (pos + 1) =? 42)
              then (pos + 1, 3) else (pos, 2) in
            let cnt := if char_at (line st) pos =? 42
                       then dw (Z.of_nat (length args) - arg) else cnt in
            let st := replace_chars (pos - var + 1) var (skipn (Z.to_nat arg) args) cnt st in
            macro_args_loop f args (pos + 1) st
          else macro_args_loop f args (pos + 1) st
  end.

(** [get_macro_line()]: the next line of the macro on top of the stack. *)
Definition get_macro_line (st : State) : option State :=
  match macro_stk st with
  | [] => None
  | m :: rest =>
      let l := hd [] (lines m) in
      let st := copy_chars l (Z.of_nat (length l)) st in
      st <- macro_args_loop (S (Z.to_nat (len st + max st))) (name m) 0 st ;;
      st <- un_escape (Some ARG_ESCAPE) st ;;
      let st := set_macro_stk (mkDefine (name m) (tl (lines m)) :: rest) st in
      match tl (lines m) with
      | [] => Some (pop_macro st)
      | _ => Some st
      end
  end.

(** [expand_macro()]: if the first word is a macro, replace the line with
    its definition. *)
Definition expand_macro (st : State) : option (bool * State) :=
  let mac := skip_blank st 0 in
  let end_ := skip_nondelim st mac in
  let '(m, st) := find_define MacHead mac (end_ - mac) st in
  if negb m then Some (false, st)
  else
    let '(ok, st) := add_define MacroStk 0 (len st) st in
    if negb ok then Some (false, st)
    else
      let ls := match mac_head st with [] => [] | d :: _ => lines d end in
      let st := set_head_lines MacroStk ls st in
      st <- get_macro_line st ;;
      Some (true, st).

(** *** Variable substitution *)

(** The characters of a C string: up to the first NUL. *)
Fixpoint c_string (l : list WCHAR) : list WCHAR :=
  match l with
  | [] => []
  | c :: t => if c =? 0 then [] else c :: c_string t
  end.

(** [get_env_var( var, NULL )] for a variable whose value is [v] (empty:
    there is no such variable, and the result is 0).  The result is the
    text found in [envvar.txt]; it is empty as well when the buffer had to
    grow and [realloc] refused.  [GetEnvironmentVariableW] gives the length of
    the value when the value and its terminator fit the buffer, and the size
    needed otherwise. *)
Definition get_env_var (v : list WCHAR) (st : State) : list WCHAR * State :=
  match v with
  | [] => ([], st)
  | _ :: _ =>
      let n := Z.of_nat (length v) in
      if n <? envvar_len st then (v, st)
      else
        let '(ok, st) := malloc st in
        if ok then (v, set_envvar_len (n + 1) st) else ([], st)
  end.

(** The value that [expand_vars] gives the name [line.txt[s .. s+cnt)]: the
    environment first, when [env] is set, then the symbols; with the state
    behind the look-up.  [getenv] is the environment: the value of a
    variable, empty when there is none. *)
Definition resolve_var (env : bool) (getenv : list WCHAR -> list WCHAR)
  (s cnt : Z) (st : State) : list WCHAR * State :=
  let '(var, st) :=
    if env then get_env_var (getenv (c_string (sub (line st) s cnt))) st
    else ([], st) in
  match var with
  | [] =>
      let '(d, st) := find_define SymHead s cnt st in
      if d then (head_line SymHead st, st) else ([], st)
  | _ => (var, st)
  end.

(** The [for] loop of [expand_vars( env )].  [start] is [None] for [~0]. *)
Fixpoint expand_vars_loop (fuel : nat) (env : bool)
  (getenv : list WCHAR -> list WCHAR) (start : option Z) (pos : Z) (st : State)
  : option State :=
  match fuel with
  | O => None
  | S f =>
      if negb (pos <? len st) then Some st
      else
        let c := char_at (line st) pos in
        if c =? ESCAPE then expand_vars_loop f env getenv start (pos + 1 + 1) st
        else if c =? VARIABLE then
          match start with
          | None => expand_vars_loop f env getenv (Some (pos + 1)) (pos + 1) st
          | Some s =>
              let cnt := pos - s in
              let '(var, st) := resolve_var env getenv s cnt st in
              match var with
              | [] => expand_vars_loop f env getenv (Some (pos + 1)) (pos + 1) st
              | _ =>
                  let st := replace_chars (s - 1) (cnt + 2) var (Z.of_nat (length var)) st in
                  expand_vars_loop f env getenv None (pos + 1) st
              end
          end
        else expand_vars_loop f env getenv start (pos + 1) st
  end.

(** [expand_vars( env )]. *)
Definition expand_vars (env : bool) (getenv : list WCHAR -> list WCHAR)
  (st : State) : option State :=
  st <- expand_vars_loop (S (Z.to_nat (len st + max st))) env getenv None 0 st ;;
  un_escape (Some VAR_ESCAPE) st.

(** ** Line input *)

Definition ENDM : list WCHAR := wstr "endm".
Definition ENDM_LEN : Z := 4.

(** The loop [do fgets( buf, ... ) while ( *buf == '\n' || *buf == '-')] of
    [get_file_line]: blank lines and lines starting with '-' are ignored. *)
Fixpoint skip_ignored (ls : list (list WCHAR)) : list (list WCHAR) :=
  match ls with
  | [] => []
  | b :: rest =>
      if (hd 0 b =? 10) || (hd 0 b =? 45) then skip_ignored rest else ls
  end.

(** The three ways in which [get_file_line] ends: with a line (TRUE), at the
    end of the file (FALSE, [line.txt] is [NULL] and [line.len] is 0), and
    with [realloc] refused (FALSE, [line.txt] is [NULL] and [line.len] is
    not 0). *)
Inductive FileLine := FL_line | FL_eof | FL_nomem.

(** [get_file_line()].  The strings of [file] are what [fgets] gives, in
    wide characters (one for each character of the file, as
    [MultiByteToWideChar] gives them for a single-byte code page); a string
    ends at its first NUL.  Whatever the string is, [line.len -= 2] takes
    two characters off for the line feed and the terminator: of a string that
    does not end in a line feed the last character is lost.  There is no
    result for the empty string, where [line.len] wraps, and none without an
    open file.  With [realloc] refused the line is [NULL]; it is given as
    empty, and the callers tell this case by the [FL_nomem]. *)
Definition get_file_line (st : State) : option (FileLine * State) :=
  match file st with
  | None => None
  | Some ls =>
      match skip_ignored ls with
      | [] =>
          let st := set_file (Some []) st in
          if def_macro st then Some (FL_line, set_line ENDM st)
          else Some (FL_eof, set_line [] st)
      | b :: rest =>
          let st := set_file (Some rest) st in
          let buf := c_string b in
          match buf with
          | [] => None
          | _ :: _ =>
              let n := Z.of_nat (length buf) + 1 in
              if n >? max st then
                let '(ok, st) := malloc st in
                if ok then Some (FL_line, set_line (removelast buf) (set_max n st))
                else Some (FL_nomem, set_line [] st)
              else Some (FL_line, set_line (removelast buf) st)
          end
      end
  end.

(** The variables of [edit_line] that the typing of characters uses: [pos],
    [hist], [recall] and [cont_recall]. *)
Record Edit := mkEdit {
  ed_pos : Z;
  ed_hist : PHistory;
  ed_recall : bool;
  ed_cont : bool
}.

(** One pass of the loop of [edit_line] for a plain key: a key that [get_key]
    hands over as the character [c], not NUL, with the function [Default].
    No keyboard macro is played or recorded.  [ovr] is the insert/overwrite
    flag.  The pass starts with [dispbeg = dispend = 0] and
    [recall &= cont_recall; cont_recall = 0]; the [switch] does nothing for
    such a key, and the code behind it puts the character in the line, or
    sounds the bell when there is no room. *)
Definition type_char (ovr : bool) (c : WCHAR) (e : Edit) (st : State)
  : option (Edit * State) :=
  let st := set_disp 0 0 st in
  let recall := ed_recall e && ed_cont e in
  let pos := ed_pos e in
  let st :=
    if ovr || recall then
      if negb (pos =? max st) then
        let st := set_display_marks pos (pos + 1) st in
        (* if (pos == line.len) ++line.len;  the new character is set below *)
        if pos =? len st then set_line (line st ++ [c]) st else st
      else st
    else if len st <? max st then
      (* memmove( line.txt + pos + 1, line.txt + pos, WSZ(line.len - pos) ) *)
      let st := set_line (sub (line st) 0 pos ++ [c] ++ skipn (Z.to_nat pos) (line st)) st in
      set_display_marks pos (len st) st
    else st in
  if negb (dispend st =? 0) then
    let st := set_char pos c st in
    let pos := pos + 1 in
    if recall then
      r <- search_history st (ring_next st (ed_hist e)) pos true ;;
      match r with
      | None =>
          let st := set_display_marks pos (len st) st in
          Some (mkEdit pos (ed_hist e) recall false, set_line (sub (line st) 0 pos) st)
      | Some h =>
          Some (mkEdit pos h recall true,
                copy_chars (node_line st h) (Z.of_nat (length (node_line st h))) st)
      end
    else Some (mkEdit pos (ed_hist e) recall false, st)
  else Some (mkEdit pos (ed_hist e) recall false, bell st).

(** The passes for the plain keys of a line.  A character below 32 is not the
    character of a plain key ([get_key] looks its function up in the keymap
    of the control keys, and NUL comes with the keys that have no character):
    no result. *)
Fixpoint type_chars (ovr : bool) (l : list WCHAR) (e : Edit) (st : State)
  : option (Edit * State) :=
  match l with
  | [] => Some (e, st)
  | c :: t =>
      if c <? 32 then None
      else
        '(e, st) <- type_char ovr c e st ;;
        type_chars ovr t e st
  end.

(** [edit_line()] for the editing session in which the user types the plain
    keys of the next line of [input] and then the Enter key:
    [case Enter: add_to_history(); done = TRUE;].  The session starts with
    the cursor at 0, [hist] at the sentinel, and the flags of [option].
    Without a next line the read blocks: no result.  With a Control+Break
    pending ([check_break > 1]) [get_key] gives the function [Erase] in place
    of the key: no result either. *)
Definition edit_line (st : State) : option State :=
  match input st with
  | [] => None
  | l :: rest =>
      if check_break st >? 1 then None
      else
        let st := set_input rest st in
        '(_, st) <- type_chars (overwrite (opt st)) l
                               (mkEdit 0 O (auto_recall (opt st)) true) st ;;
        Some (add_to_history (set_disp 0 0 st))
  end.

(** [get_next_line()]: read the next line from the appropriate source. *)
Definition get_next_line (st : State) : option State :=
  let st := set_kbd false (set_line [] st) in
  match file st with
  | Some _ =>
      '(r, st) <- get_file_line st ;;
      match r with
      | FL_nomem => None      (* the callers read the line through NULL *)
      | _ => Some st
      end
  | None =>
      match macro_stk st with
      | _ :: _ => get_macro_line st
      | [] =>
          match mcmd_txt (mcmd st) with
          | Some t =>
              let st := if negb (mcmd_len (mcmd st) =? 0)
                        then copy_chars t (mcmd_len (mcmd st)) st else st in
              Some (set_mcmd (mkMcmd None (mcmd_len (mcmd st))) st)
          | None => edit_line (set_kbd true st)
          end
      end
  end.

(** ** Internal commands *)

(** [execute_dela( pos )]. *)
Fixpoint execute_dela_loop (fuel : nat) (pos : Z) (st : State) : option State :=
  match fuel with
  | O => None
  | S f =>
      if negb (pos <? len st) then Some st
      else
        let end_ := skip_nonblank st pos in
        let cnt := end_ - pos in
        let '(a, st) := find_define AssocHead pos cnt st in
        st <-
          (if a then Some (del_define AssocHead st)
           else
             '(a, st) <- find_assoc (skipn (Z.to_nat pos) (line st)) cnt st ;;
             if negb a then Some st
             else
               match assoc_head st with
               | [] => Some st
               | d :: t =>
                   let alen := Z.of_nat (length (name d)) in
                   if alen =? cnt then Some (del_define AssocHead st)
                   else
                     let p := assoc_pos st in
                     let c := char_at (name d) (p + cnt) in
                     let cnt := if (p + cnt <? alen) && ((c =? 59) || (c =? 58))
                                then cnt + 1 else cnt in
                     Some (set_assoc_head
                             (mkDefine (sub (name d) 0 p
                                        ++ sub (name d) (p + cnt) (dw (alen - p - cnt)))
                                       (lines d) :: t) st)
               end) ;;
        execute_dela_loop f (skip_blank st end_) st
  end.

Definition execute_dela (pos : Z) (st : State) : option State :=
  execute_dela_loop (S (length (line st))) pos st.

(** [execute_defa( pos )]. *)
Definition execute_defa (pos : Z) (st : State) : option State :=
  if pos =? len st then Some st
  else
    st <- execute_dela pos st ;;
    let end_ := skip_nonblank st pos in
    let def := skip_blank st end_ in
    if def =? len st then Some st
    else
      let '(a, st) := add_define AssocHead pos (end_ - pos) st in
      if a then
        let '(ll, st) := add_line def st in
        match ll with
        | Some l => Some (set_head_lines AssocHead [l] st)
        | None => Some st
        end
      else Some st.

(** The number of lines that [get_next_line] can still deliver without
    blocking, plus one: the fuel of the loops that read lines. *)
Definition lines_left (st : State) : nat :=
  S (length (input st)
     + match file st with Some ls => S (length ls) | None => O end
     + fold_right (fun d n => S (length (lines d) + n)) O (macro_stk st)
     + 1)%nat.

(** The multi-line definition loop of [execute_defm]; [ll] tells whether a
    line has been added. *)
Fixpoint defm_lines (fuel : nat) (ll : bool) (st : State) : option (bool * State) :=
  match fuel with
  | O => None
  | S f =>
      st <- get_next_line st ;;
      let pos := skip_blank st 0 in
      let end_ := skip_nonblank st pos in
      if (end_ - pos =? ENDM_LEN)
         && (wcsnicmp (skipn (Z.to_nat pos) (line st)) ENDM (Z.to_nat ENDM_LEN) =? 0)
      then Some (ll, st)
      else
        let '(l, st) := add_line 0 st in
        match l with
        | None => Some (false, st)
        | Some l =>
            let old := match mac_head st with [] => [] | d :: _ => lines d end in
            defm_lines f true (set_head_lines MacHead (old ++ [l]) st)
        end
  end.

(** [execute_defm( pos )]: define a macro.  If the macro already exists as a
    symbol, delete it; if it is already a macro, redefine it. *)
Definition execute_defm (pos : Z) (st : State) : option State :=
  if def_macro st then Some st
  else
    let st := set_def_macro true st in
    let end_ := skip_nondelim st pos in
    if (end_ <? len st) && negb (isblank (char_at (line st) end_))
    then Some (set_def_macro false st)
    else
      let cnt := end_ - pos in
      let '(s, st) := find_define SymHead pos cnt st in
      let st := if s then del_define SymHead st else st in
      let '(m, st) := find_define MacHead pos cnt st in
      let '(ok, st) :=
        if m then (true, set_head_lines MacHead [] st)
        else add_define MacHead pos cnt st in
      if negb ok then Some (set_def_macro false st)
      else
        let def := skip_blank st end_ in
        if negb (def =? len st) then
          let '(l, st) := add_line def st in
          match l with
          | Some l => Some (set_def_macro false (set_head_lines MacHead [l] st))
          | None => Some (set_def_macro false (del_define MacHead st))
          end
        else
          '(ll, st) <- defm_lines (lines_left st) false st ;;
          let st := if ll then st else del_define MacHead st in
          Some (set_def_macro false st).

(** [execute_defs( pos )]: define a symbol.  If the name already exists as a
    macro, delete it; if it is already a symbol, redefine it. *)
Definition execute_defs (pos : Z) (st : State) : State :=
  if pos =? len st then st
  else
    let end_ := skip_nondelim st pos in
    if (end_ <? len st) && negb (isblank (char_at (line st) end_)) then st
    else
      let cnt := end_ - pos in
      let '(m, st) := find_define MacHead pos cnt st in
      let st := if m then del_define MacHead st else st in
      let '(sym, st) := find_define SymHead pos cnt st in
      let st := if sym then set_head_lines SymHead [] st else st in
      let def := skip_blank st end_ in
      if def =? len st then
        if sym then del_define SymHead st else st
      else
        let '(ok, st) := if sym then (true, st) else add_define SymHead pos cnt st in
        if negb ok then st
        else
          let '(l, st) := add_line def st in
          match l with
          | Some l => set_head_lines SymHead [l] st
          | None => del_define SymHead st
          end.

(** The inner loop of [execute_delh]: does the text occur in the entry,
    ignoring case?  [end_] runs from [h->len - n] down to 0. *)
Fixpoint occurs_from (fuel : nat) (entry text : list WCHAR) (end_ : Z) : bool :=
  match fuel with
  | O => false
  | S f =>
      if end_ <? 0 then false
      else if wcsnicmp (skipn (Z.to_nat end_) entry) text (length text) =? 0 then true
      else occurs_from f entry text (end_ - 1)
  end.

Definition occurs_in (entry text : list WCHAR) : bool :=
  occurs_from (S (length entry)) entry text
              (Z.of_nat (length entry) - Z.of_nat (length text)).

(** [execute_delh( pos )]: delete history lines containing text, including
    the DELH line itself. *)
Definition execute_delh (pos : Z) (st : State) : State :=
  let st := remove_from_history (Nat.pred (length (history st))) st in
  if pos =? len st then st
  else
    let text := skipn (Z.to_nat pos) (line st) in
    let kept := filter (fun h => negb (occurs_in h text)) (history st) in
    set_history kept
      (histsize st - (Z.of_nat (length (history st)) - Z.of_nat (length kept))) st.

Definition execute_delm (pos : Z) (st : State) : option State :=
  delete_define MacHead pos st.

Definition execute_dels (pos : Z) (st : State) : option State :=
  delete_define SymHead pos st.

Definition execute_rsta (pos : Z) (st : State) : State := reset_define AssocHead st.

(** [execute_rsth( pos )]: delete the history. *)
Definition execute_rsth (pos : Z) (st : State) : State := set_history [] 0 st.

Definition execute_rstm (pos : Z) (st : State) : State := reset_define MacHead st.

Definition execute_rsts (pos : Z) (st : State) : State := reset_define SymHead st.

(** The handlers of the internal commands, [IntFunc]. *)
Inductive IntFunc :=
| DEFA | DEFK | DEFM | DEFS | DELA | DELH | DELK | DELM | DELS
| LSTA | LSTH | LSTK | LSTM | LSTS | RSTA | RSTH | RSTM | RSTS.

(** The table [internal[]], as sorted in the source. *)
Definition internal : list (list WCHAR * IntFunc) :=
  [ (wstr "defa", DEFA); (wstr "defk", DEFK); (wstr "defm", DEFM);
    (wstr "defs", DEFS); (wstr "dela", DELA); (wstr "delh", DELH);
    (wstr "delk", DELK); (wstr "delm", DELM); (wstr "dels", DELS);
    (wstr "lsta", LSTA); (wstr "lsth", LSTH); (wstr "lstk", LSTK);
    (wstr "lstm", LSTM); (wstr "lsts", LSTS); (wstr "rsta", RSTA);
    (wstr "rsth", RSTH); (wstr "rstm", RSTM); (wstr "rsts", RSTS) ].

Definition CMD_LEN : Z := 4.
Definition INTERNAL_CMDS : Z := Z.of_nat (length internal).

(** The loop of [search_cfg( name, cnt, cfg, end )]: binary search; the inner
    [None] is the result -1. *)
Fixpoint search_cfg_loop {F : Type} (fuel : nat) (nm : list WCHAR) (cnt : Z)
  (cfg : list (list WCHAR * F)) (beg end_ : Z) : option (option F) :=
  match fuel with
  | O => None
  | S f =>
      if negb (end_ >=? beg) then Some None
      else
        let mid := (beg + end_) / 2 in
        match nth_error cfg (Z.to_nat mid) with
        | None => None
        | Some (cname, func) =>
            let rc := wcsnicmp cname nm (Z.to_nat cnt) in
            if (rc =? 0) && (char_at cname cnt =? 0) then Some (Some func)
            else if rc >=? 0 then search_cfg_loop f nm cnt cfg beg (mid - 1)
            else search_cfg_loop f nm cnt cfg (mid + 1) end_
        end
  end.

Definition search_cfg {F : Type} (nm : list WCHAR) (cnt : Z)
  (cfg : list (list WCHAR * F)) (end_ : Z) : option (option F) :=
  search_cfg_loop (S (length cfg)) nm cnt cfg 0 end_.

(** The recognition part of [internal_cmd]: the handler the first word of the
    line stands for, with the position of the word. *)
Definition internal_lookup (st : State) : option (option (IntFunc * Z)) :=
  let pos := skip_blank st 0 in
  let cnt := skip_nonblank st pos - pos in
  if negb (cnt =? CMD_LEN) then Some None
  else
    r <- search_cfg (skipn (Z.to_nat pos) (line st)) cnt internal (INTERNAL_CMDS - 1) ;;
    match r with
    | None => Some None
    | Some func => Some (Some (func, pos))
    end.

(** The handlers of the key commands ([defk], [delk], [lstk]) act on the
    keymaps and on the list of keyboard macros, and those of the list commands
    ([lsta], [lsth], [lstm], [lsts]) open, write and close the list output.
    [State] holds none of these, so what such a handler does to the state,
    and whether it returns, is not fixed by the state: it is a parameter
    [ext] of every function that can reach the call, and the properties hold
    for every [ext]. *)
Definition Handlers := IntFunc -> Z -> State -> option State.

(** The call [((IntFunc* )func)( pos )]. *)
Definition execute (ext : Handlers) (func : IntFunc) (pos : Z) (st : State)
  : option State :=
  match func with
  | DEFA => execute_defa pos st
  | DEFM => execute_defm pos st
  | DEFS => Some (execute_defs pos st)
  | DELA => execute_dela pos st
  | DELH => Some (execute_delh pos st)
  | DELM => execute_delm pos st
  | DELS => execute_dels pos st
  | RSTA => Some (execute_rsta pos st)
  | RSTH => Some (execute_rsth pos st)
  | RSTM => Some (execute_rstm pos st)
  | RSTS => Some (execute_rsts pos st)
  | DEFK | DELK | LSTA | LSTH | LSTK | LSTM | LSTS => ext func pos st
  end.

(** [internal_cmd()]: determine if the first word is meant for CMDkey and
    execute it if so. *)
Definition internal_cmd (ext : Handlers) (st : State) : option (bool * State) :=
  if check_break st >? 1 then
    Some (true, set_macro_stk [] (set_check_break 1 st))
  else
    r <- internal_lookup st ;;
    match r with
    | None => Some (false, st)
    | Some (func, pos) =>
        st <- (if kbd st then un_escape None st else Some st) ;;
        let pos := skip_blank st (pos + CMD_LEN) in
        st <- execute ext func pos st ;;
        Some (true, st)
    end.

(** The loop [while (get_file_line()) if (!internal_cmd()) add_to_history();]
    of [read_cmdfile]. *)
Fixpoint read_cmdfile_loop (fuel : nat) (ext : Handlers) (st : State) : option State :=
  match fuel with
  | O => None
  | S f =>
      '(r, st) <- get_file_line st ;;
      match r with
      | FL_line =>
          '(b, st) <- internal_cmd ext st ;;
          read_cmdfile_loop f ext (if b then st else add_to_history st)
      | _ => Some st
      end
  end.

(** [read_cmdfile( name )] for a file that could be opened and from which
    [fgets] gives the strings [content]. *)
Definition read_cmdfile (ext : Handlers) (content : list (list WCHAR)) (st : State)
  : option State :=
  let st := set_max 0 (set_line [] (set_file (Some content) (set_kbd false st))) in
  st <- read_cmdfile_loop (S (length content)) ext st ;;
  Some (set_file None st).

(** ** The expansion pipeline of MyReadConsoleW *)

(** One pass of the inner do-while loop: the state behind the pass, and
    whether the loop goes on (one of [associate], [expand_symbol],
    [expand_macro] fired). *)
Definition expand_pass (st : State) : option (bool * State) :=
  if check_break st >? 1 then Some (false, st)
  else
    st <- (if negb (len st =? 0) && (char_at (line st) 0 =? 64)
           then dosify (remove_chars 0 1 st) else Some st) ;;
    if negb (len st =? 0) && (char_at (line st) 0 =? ignore_char (opt st))
    then Some (false, remove_chars 0 1 st)
    else
      st <- expand_braces st ;;
      '(a, st) <- associate st ;;
      if a then Some (true, st)
      else
        let '(s, st) := expand_symbol st in
        if s then Some (true, st)
        else expand_macro st.

Fixpoint expand_loop (fuel : nat) (st : State) : option State :=
  match fuel with
  | O => None
  | S f =>
      '(again, st) <- expand_pass st ;;
      if again then expand_loop f st else Some st
  end.

(** One pass of the outer do-while loop: read a line, split it, expand it and
    try it as an internal command.  [fuel] bounds the passes of the inner
    loop, which need not come to an end. *)
Definition read_pass (fuel : nat) (ext : Handlers) (st : State)
  : option (bool * State) :=
  st <- get_next_line st ;;
  st <- multi_cmd st ;;
  st <- expand_loop fuel st ;;
  internal_cmd ext st.

Fixpoint read_loop (fuel : nat) (ext : Handlers) (st : State) : option State :=
  match fuel with
  | O => None
  | S f =>
      '(again, st) <- read_pass fuel ext st ;;
      if again then read_loop f ext st else Some st
  end.

(** The body of [MyReadConsoleW] when CMDkey is enabled, from
    [line.txt = lpBuffer] on: the line handed to the host shell, with its
    CRLF.  [nchars] is [nNumberOfCharsToRead]. *)
Definition MyReadConsoleW (fuel : nat) (ext : Handlers) (nchars : Z) (st : State)
  : option State :=
  let st := set_max (dw (nchars - 2)) st in
  st <- (if disable_macro (opt st) then get_next_line st
         else
           st <- read_loop fuel ext st ;;
           expand_vars false (fun _ => []) st) ;;
  Some (set_line (line st ++ [13; 10]) st).

(** ** Initial values *)

(** The initial value of [option] in the source. *)
Definition default_option : Options :=
  mkOptions false false SPACE 1 50 false false.

(** The globals as the program starts, with a line buffer of capacity [m]. *)
Definition initial (o : Options) (m : Z) : State :=
  mkState o [] m 0 0 O [] 0 [] [] [] [] (mkMcmd None 0) false false 0 false 0
          [] [] None 0.

(** ** Notions used to state the properties *)

(** The definition of a name in a list: the first one that [find_define]
    takes for it. *)
Definition lookup_define (head : list Define) (nm : list WCHAR) : option Define :=
  find (define_match nm (Z.of_nat (length nm))) head.

(** A character that the scan of [expand_vars] passes over. *)
Definition plain (c : WCHAR) : bool :=
  negb (c =? ESCAPE) && negb (c =? VARIABLE).



(** What [find_define] compares of a name: its length and its characters up
    to the first NUL, ignoring case. *)
Definition canon (nm : list WCHAR) : nat * list WCHAR :=
  (length nm, map towlower (c_string nm)).

Definition names (head : list Define) : list (nat * list WCHAR) :=
  map (fun d => canon (name d)) head.

(** The name exists in the list. *)
Definition defined_in (head : list Define) (nm : list WCHAR) : Prop :=
  In (canon nm) (names head).

(** No name is defined twice, be it in the symbol list, in the macro list or
    across the two. *)
Definition stores_ok (st : State) : Prop :=
  NoDup (names (sym_head st) ++ names (mac_head st)).

(** The name that a [defs] or [defm] command at [pos] gives: the characters
    up to the first delimiter. *)
Definition name_at (st : State) (pos : Z) : list WCHAR :=
  sub (line st) pos (skip_nondelim st pos - pos).

(** A [defs] or [defm] command: the line that holds it and the position
    behind the command word, as [internal_cmd] passes it to the handler. *)
Inductive def_cmd :=
| Defs (l : list WCHAR) (pos : Z)
| Defm (l : list WCHAR) (pos : Z).

Definition run_def_cmd (c : def_cmd) (st : State) : option State :=
  match c with
  | Defs l pos => Some (execute_defs pos (set_line l st))
  | Defm l pos => execute_defm pos (set_line l st)
  end.

Fixpoint run_def_cmds (cs : list def_cmd) (st : State) : option State :=
  match cs with
  | [] => Some st
  | c :: cs' => st <- run_def_cmd c st ;; run_def_cmds cs' st
  end.

(** The test of [execute_defs] and [execute_defm] on the character behind
    the name: the end of the line or a blank, else the name is invalid. *)
Definition name_ok (st : State) (pos : Z) : bool :=
  let end_ := skip_nondelim st pos in
  negb ((end_ <? len st) && negb (isblank (char_at (line st) end_))).

(** The text of a single-line definition, as [add_line] copies it: the line
    from the first non-blank behind the name. *)
Definition def_text (st : State) (pos : Z) : list WCHAR :=
  let def := skip_blank st (skip_nondelim st pos) in
  sub (line st) def (dw (len st - def)).

(** The three definition lists of a state. *)
Definition defs_of (st : State) : list Define * list Define * list Define :=
  (sym_head st, mac_head st, assoc_head st).

(** A comma at nesting depth 1 outside quotes, in the brace group whose text
    starts at [pos]: [inq] tells whether a quoted item is open, [depth]
    counts the open braces, an escape character takes the character behind it
    along, and the group ends with the brace that closes depth 1.  [n] bounds
    the number of characters looked at. *)
Fixpoint top_level_comma (n : nat) (l : list WCHAR) (pos : Z) (inq : bool)
  (depth : nat) : bool :=
  match n with
  | O => false
  | S n' =>
      if negb (pos <? Z.of_nat (length l)) then false
      else
        let c := char_at l pos in
        if inq then top_level_comma n' l (pos + 1) (negb (is_quote_at l pos)) depth
        else if is_quote_at l pos then top_level_comma n' l (pos + 1) true depth
        else if c =? ESCAPE then top_level_comma n' l (pos + 2) inq depth
        else if c =? LBRACE then top_level_comma n' l (pos + 1) inq (S depth)
        else if c =? RBRACE then
          match depth with
          | S (S d) => top_level_comma n' l (pos + 1) inq (S d)
          | _ => false
          end
        else if (c =? COMMA) && (depth =? 1)%nat then true
        else top_level_comma n' l (pos + 1) inq depth
  end.

(** The brace group opened at position [p] has two items at least. *)
Definition group_has_comma (l : list WCHAR) (p : Z) : bool :=
  top_level_comma (length l) l (p + 1) false 1.

(** No opening brace of the line, wherever it is, opens a group that has a
    comma at depth 1 outside quotes. *)
Definition no_group_has_comma (l : list WCHAR) : bool :=
  forallb (fun i => negb (char_at l (Z.of_nat i) =? LBRACE)
                    || negb (group_has_comma l (Z.of_nat i)))
          (seq 0 (length l)).

(** [l'] is [l] with some of its escape characters taken out. *)
Inductive removes_escapes : list WCHAR -> list WCHAR -> Prop :=
| re_nil : removes_escapes [] []
| re_keep c l l' : removes_escapes l l' -> removes_escapes (c :: l) (c :: l')
| re_drop l l' : removes_escapes l l' -> removes_escapes (ESCAPE :: l) l'.

(** The first blank-delimited word of the line. *)
Definition first_word (st : State) : list WCHAR :=
  let pos := skip_blank st 0 in
  sub (line st) pos (skip_nonblank st pos - pos).

(** The handler of the command name that a word is, ignoring case: the table
    searched from its first entry. *)
Definition command_of (w : list WCHAR) : option IntFunc :=
  option_map snd (find (fun e => list_eqb (fst e) (map towlower w)) internal).

(** A walk round the ring: every node is the successor of the one before, and
    the walk ends at the first return to [hist]. *)
Fixpoint ring_walk (step : PHistory -> PHistory) (hist h : PHistory)
  (path : list PHistory) : Prop :=
  match path with
  | [] => False
  | p :: rest =>
      p = step h /\
      match rest with
      | [] => p = hist
      | _ => p <> hist /\ ring_walk step hist p rest
      end
  end.

(** The history as [add_to_history] keeps it: the counter agrees with the
    ring, no line is there twice, the configured maximum (0: none) is kept,
    and no entry is shorter than the configured minimum. *)
Definition hist_ok (st : State) : Prop :=
  histsize st = Z.of_nat (length (history st))
  /\ NoDup (history st)
  /\ (0 < opt_histsize (opt st) -> histsize st <= opt_histsize (opt st))
  /\ Forall (fun h => min_length (opt st) <= Z.of_nat (length h)) (history st).

(** The lines [ls] are submitted one after the other. *)
Definition submit_all (ls : list (list WCHAR)) (st : State) : State :=
  fold_left (fun s l => add_to_history (set_line l s)) ls st.

(** The text occurs in the entry, ignoring case. *)
Definition contains_ci (entry text : list WCHAR) : Prop :=
  exists a mid b,
    entry = a ++ mid ++ b
    /\ length mid = length text
    /\ map towlower mid = map towlower text.

(** The place of the first command separator of a text that is neither
    quoted nor escaped, counted from the start of the text; [quote] tells
    whether a quote is open. *)
Fixpoint first_sep (quote : bool) (l : list WCHAR) : option nat :=
  match l with
  | [] => None
  | c :: t =>
      if quote then option_map S (first_sep (negb (c =? DQUOTE)) t)
      else if c =? DQUOTE then option_map S (first_sep true t)
      else if c =? ESCAPE then
        match t with
        | [] => None
        | _ :: t' => option_map (fun k => S (S k)) (first_sep false t')
        end
      else if c =? CMDSEP then Some O
      else option_map S (first_sep false t)
  end.

(** The lines [bs] are what the next calls of [get_next_line] deliver, one
    after the other, and the macro stack is [stk] behind them. *)
Fixpoint delivers (bs : list (list WCHAR)) (stk : list Define) (s : State) : Prop :=
  match bs with
  | [] => macro_stk s = stk
  | b :: bs' =>
      exists s', get_next_line s = Some s' /\ line s' = b /\ delivers bs' stk s'
  end.

(** The longest prefix of a text whose characters satisfy [p], and what is
    behind it. *)
Fixpoint take_while (p : WCHAR -> bool) (l : list WCHAR) : list WCHAR :=
  match l with
  | [] => []
  | c :: t => if p c then c :: take_while p t else []
  end.

Fixpoint drop_while (p : WCHAR -> bool) (l : list WCHAR) : list WCHAR :=
  match l with
  | [] => []
  | c :: t => if p c then drop_while p t else l
  end.

(** The words of a text, separated by blanks ([n] bounds their number; a text
    that starts with a blank has the empty word first). *)
Fixpoint blank_words (n : nat) (l : list WCHAR) : list (list WCHAR) :=
  match n with
  | O => []
  | S n' =>
      match l with
      | [] => []
      | _ :: _ =>
          take_while (fun c => negb (isblank c)) l
          :: blank_words n' (drop_while isblank
                               (drop_while (fun c => negb (isblank c)) l))
      end
  end.

Definition words_of (l : list WCHAR) : list (list WCHAR) :=
  blank_words (length l) l.

(** Characters that the loops of [brace_expansion] pass over: not a quote, an
    escape character or an opening brace; in an item of a brace group also
    no closing brace and no comma; in a prepend or postpend also none of the
    separators and terminators. *)
Definition brace_plain (c : WCHAR) : bool :=
  negb (c =? DQUOTE) && negb (c =? ESCAPE) && negb (c =? LBRACE).

Definition item_char (c : WCHAR) : bool :=
  brace_plain c && negb (c =? RBRACE) && negb (c =? COMMA).

Definition pend_char (c : WCHAR) : bool :=
  brace_plain c && negb (wcschr BRACE_TERM c) && negb (wcschr BRACE_STOP c).

(** The texts [ls], with [sep] between them. *)
Fixpoint join (sep : WCHAR) (ls : list (list WCHAR)) : list WCHAR :=
  match ls with
  | [] => []
  | x :: t => match t with [] => x | _ :: _ => x ++ sep :: join sep t end
  end.

(** The texts [ls], with the text [sep] between them. *)
Fixpoint joinl (sep : list WCHAR) (ls : list (list WCHAR)) : list WCHAR :=
  match ls with
  | [] => []
  | x :: t => match t with [] => x | _ :: _ => x ++ sep ++ joinl sep t end
  end.

(** The character that brace expansion puts between the expanded items when
    the prepend starts the line or follows a space: the character behind the
    postpend when it is one of BRACE_TERM, else a space. *)
Definition brace_sep (tail : list WCHAR) : WCHAR :=
  match tail with
  | [] => SPACE
  | t :: _ => if wcschr BRACE_TERM t then t else SPACE
  end.

(** A character of an extension in the first word of the line, as
    [associate] walks over it: none of the characters that end the walk or
    that mark the alternative association. *)
Definition ext_char (c : WCHAR) : bool :=
  negb (isblank c) && negb (c =? DQUOTE) && negb (c =? 46) && negb (c =? SLASH)
  && negb (c =? BACKSLASH) && negb (c =? 58) && negb (c =? 61) && negb (c =? 0).

(** The characters that separate the extensions of an association. *)
Definition ext_sep (c : WCHAR) : bool := (c =? 46) || (c =? 59) || (c =? 58).

(** The strings of a command file that [get_file_line] hands over: not those
    that start with the line feed or with '-'. *)
Definition file_line_kept (b : list WCHAR) : bool :=
  negb ((hd 0 b =? 10) || (hd 0 b =? 45)).

(** The line that [get_file_line] makes of a string: the string without its
    last character, the line feed. *)
Definition file_line (b : list WCHAR) : list WCHAR := removelast (c_string b).

(** The first blank-delimited word of a text. *)
Definition word_of (l : list WCHAR) : list WCHAR :=
  take_while (fun c => negb (isblank c)) (drop_while isblank l).

(** The internal command that a line is: its first word has [CMD_LEN]
    characters and is the name of a command. *)
Definition line_command (l : list WCHAR) : option IntFunc :=
  if (length (word_of l) =? 4)%nat then command_of (word_of l) else None.

(** The lines of a command file that the property on the history of such a
    file covers: ordinary lines and the commands [defs], [rsta], [rstm] and
    [rsts]. *)
Definition history_neutral (l : list WCHAR) : bool :=
  match line_command l with
  | None | Some DEFS | Some RSTA | Some RSTM | Some RSTS => true
  | Some _ => false
  end.

(** What [dosify] may make of a character: a slash or backslash becomes a
    backslash or a space, a dash stays or becomes a slash, and every other
    character stays. *)
Definition dosified (c c' : WCHAR) : Prop :=
  if (c =? SLASH) || (c =? BACKSLASH) then c' = BACKSLASH \/ c' = SPACE
  else if c =? 45 then c' = 45 \/ c' = SLASH
  else c' = c.

(** The character that [associate] looks at first in the string [w] it got
    from [get_string], the last one or the one before a final [=]: is it a
    slash? *)
Definition assoc_tests_slash (w : list WCHAR) : bool :=
  let n := Z.of_nat (length w) in
  char_at w (if (n >? 1) && (char_at w (n - 1) =? 61) then n - 2 else n - 1) =? SLASH.

(** What the reading of a command file depends on, besides the line. *)
Definition reading (s : State) :=
  (history s, histsize s, opt s, file s, def_macro s, check_break s, kbd s).

(** The test of [execute_defm] for the end of a multi-line definition: the
    first blank-delimited word of the line is [endm], ignoring case. *)
Definition endm_line (l : list WCHAR) : bool :=
  let pos := skip_while isblank l 0 in
  let end_ := skip_while (fun c => negb (isblank c)) (skipn (Z.to_nat pos) l) pos in
  (end_ - pos =? ENDM_LEN)
  && (wcsnicmp (skipn (Z.to_nat pos) l) ENDM (Z.to_nat ENDM_LEN) =? 0).

(** A string as [fgets] gives it to [get_file_line]: it does not start with
    NUL and fits the buffer of 1024 characters. *)
Definition fgets_string (b : list WCHAR) : bool :=
  negb (hd 0 b =? 0) && (Z.of_nat (length b) <? 1024).

(** The lines that a command file gives while a macro is being defined: those
    of the strings that are kept and, at the end of the file, [endm]. *)
Definition file_lines (content : list (list WCHAR)) : list (list WCHAR) :=
  map file_line (filter file_line_kept content) ++ [ENDM].

(** What a multi-line [defm] of the name [nm] with the lines [body] makes of
    the macro list [before]: the macro is at the head of the list [after]
    with these lines, and the list is as long as before when the name was a
    macro already; without lines the name is no macro. *)
Definition macro_defined (before after : list Define) (nm : list WCHAR)
  (body : list (list WCHAR)) : Prop :=
  match body with
  | [] => ~ defined_in after nm
  | _ :: _ =>
      (defined_in before nm -> length after = length before)
      /\ exists d t, after = d :: t /\ canon (name d) = canon nm /\ lines d = body
  end.

(** The lines [ls] are the next that the command file being read gives while
    a macro is being defined. *)
Definition file_gives (ls : list (list WCHAR)) (st : State) : Prop :=
  def_macro st = true
  /\ exists content more,
       file st = Some content /\ forallb fgets_string content = true
       /\ file_lines content = ls ++ more.

(** The lines [ls] are the next that are typed, each with plain keys (the
    characters from 32 on) and within the buffer, while auto-recall is off,
    no Control+Break is pending and the keyboard is the source of the
    lines. *)
Definition keyboard_gives (ls : list (list WCHAR)) (st : State) : Prop :=
  file st = None /\ macro_stk st = [] /\ mcmd_txt (mcmd st) = None
  /\ auto_recall (opt st) = false /\ check_break st <= 1
  /\ (exists rest, input st = ls ++ rest)
  /\ Forall (fun l => forallb (fun c => 32 <=? c) l = true
                      /\ Z.of_nat (length l) <= max st) ls.

(** No character at the positions [a .. b) of the text is one that [is_quote]
    takes for a quote. *)
Definition no_quote_in (l : list WCHAR) (a b : Z) : bool :=
  forallb (fun i => negb (is_quote_at l (a + Z.of_nat i))) (seq 0 (Z.to_nat (b - a))).

(** The position [n] of the text is inside quotes: the number of quotes
    before it is odd. *)
Fixpoint quote_open (l : list WCHAR) (n : nat) : bool :=
  match n with
  | O => false
  | S k => xorb (quote_open l k) (is_quote_at l (Z.of_nat k))
  end.

(** What [un_escape( set )] removes: an escape character inside quotes that
    stands before one of the characters of [set]. *)
Definition quoted_escape_at (set l : list WCHAR) (i : nat) : bool :=
  quote_open l i
  && (char_at l (Z.of_nat i) =? ESCAPE)
  && (Z.of_nat i + 1 <? Z.of_nat (length l))
  && wcschr set (char_at l (Z.of_nat i + 1)).

Definition no_quoted_escape (set l : list WCHAR) : bool :=
  forallb (fun i => negb (quoted_escape_at set l i)) (seq 0 (length l)).

(** The first string of the line, where [get_string( 0, &cnt, FALSE )] has no
    quote to move: a word without quotes, or a string that follows an opening
    quote and goes to the end of the line, or one between two quotes at the
    end of the line or before a blank.  [first_string st beg cnt]: the string
    starts at [beg] and has [cnt] characters. *)
Inductive first_string (st : State) : Z -> Z -> Prop :=
| fs_word :
    no_quote_in (line st) (skip_blank st 0) (skip_nonblank st (skip_blank st 0)) = true ->
    first_string st (skip_blank st 0) (skip_nonblank st (skip_blank st 0) - skip_blank st 0)
| fs_open (n : Z) :
    is_quote_at (line st) (skip_blank st 0) = true ->
    0 <= n ->
    no_quote_in (line st) (skip_blank st 0 + 1) (skip_blank st 0 + 1 + n) = true ->
    skip_blank st 0 + 1 + n = len st ->
    first_string st (skip_blank st 0 + 1) n
| fs_quoted (n : Z) :
    is_quote_at (line st) (skip_blank st 0) = true ->
    0 <= n ->
    no_quote_in (line st) (skip_blank st 0 + 1) (skip_blank st 0 + 1 + n) = true ->
    is_quote_at (line st) (skip_blank st 0 + 1 + n) = true ->
    skip_blank st 0 + n + 2 = len st
    \/ isblank (char_at (line st) (skip_blank st 0 + n + 2)) = true ->
    first_string st (skip_blank st 0 + 1) n.

(* ===================================================================== *)
(** * Properties *)
(* ===================================================================== *)

(** ** Lists and characters *)

Lemma sub_length (l : list WCHAR) (pos cnt : Z) :
  0 <= pos -> 0 <= cnt -> pos + cnt <= Z.of_nat (length l) ->
  Z.of_nat (length (sub l pos cnt)) = cnt.
Proof.
  intros Hp Hc Hl. unfold sub.
  rewrite length_firstn, length_skipn. lia.
Qed.

Lemma sub_length_le (l : list WCHAR) (pos cnt : Z) :
  0 <= cnt -> Z.of_nat (length (sub l pos cnt)) <= cnt.
Proof.
  intros Hc. unfold sub. rewrite length_firstn. lia.
Qed.

Lemma sub_0 (l : list WCHAR) (cnt : Z) : sub l 0 cnt = firstn (Z.to_nat cnt) l.
Proof. reflexivity. Qed.

Lemma sub_all (l : list WCHAR) (pos : Z) :
  0 <= pos <= Z.of_nat (length l) ->
  sub l pos (Z.of_nat (length l) - pos) = skipn (Z.to_nat pos) l.
Proof.
  intros H. unfold sub. apply firstn_all2. rewrite length_skipn. lia.
Qed.

Lemma dw_small (x : Z) : 0 <= x < 2 ^ 32 -> dw x = x.
Proof. intros H. unfold dw. apply Z.mod_small. exact H. Qed.

Lemma list_eqb_eq (a b : list WCHAR) : list_eqb a b = true <-> a = b.
Proof.
  unfold list_eqb. revert b.
  induction a as [|x a IH]; intros [|y b]; simpl; try (split; congruence).
  specialize (IH b).
  rewrite andb_true_iff in IH. rewrite !andb_true_iff, Z.eqb_eq.
  split.
  - intros [Hl [Hx Hf]]. f_equal; [exact Hx | apply IH; split; assumption].
  - intros E. injection E as -> ->. destruct IH as [_ IH].
    destruct (IH eq_refl) as [H1 H2]. repeat split; auto.
Qed.

Lemma list_eqb_refl (a : list WCHAR) : list_eqb a a = true.
Proof. apply list_eqb_eq. reflexivity. Qed.

(** ** The text buffer *)

Lemma len_set_line (l : list WCHAR) (st : State) :
  len (set_line l st) = Z.of_nat (length l).
Proof. reflexivity. Qed.

Lemma len_nonneg (st : State) : 0 <= len st.
Proof. unfold len. lia. Qed.

Lemma bell_line (st : State) : line (bell st) = line st.
Proof. unfold bell. destruct (silent (opt st)); reflexivity. Qed.

Lemma bell_max (st : State) : max (bell st) = max st.
Proof. unfold bell. destruct (silent (opt st)); reflexivity. Qed.

Lemma bell_len (st : State) : len (bell st) = len st.
Proof. unfold len. rewrite bell_line. reflexivity. Qed.

Lemma bell_beeps (st : State) :
  beeps (bell st) = if silent (opt st) then beeps st else S (beeps st).
Proof. unfold bell. destruct (silent (opt st)); reflexivity. Qed.

Lemma copy_chars_max (str : list WCHAR) (cnt : Z) (st : State) :
  max (copy_chars str cnt st) = max st.
Proof.
  unfold copy_chars. simpl. destruct (cnt >? max st); simpl; auto using bell_max.
  unfold bell. simpl. destruct (silent (opt st)); reflexivity.
Qed.

Lemma copy_chars_line (str : list WCHAR) (cnt : Z) (st : State) :
  line (copy_chars str cnt st)
  = sub str 0 (if cnt >? max st then max st else cnt).
Proof.
  unfold copy_chars. simpl. destruct (cnt >? max st); reflexivity.
Qed.

Lemma remove_chars_max (pos cnt : Z) (st : State) :
  max (remove_chars pos cnt st) = max st.
Proof. reflexivity. Qed.

Lemma remove_chars_line (pos cnt : Z) (st : State) :
  line (remove_chars pos cnt st)
  = sub (line st) 0 pos ++ sub (line st) (pos + cnt) (dw (len st - pos - cnt)).
Proof. reflexivity. Qed.

Lemma remove_chars_len (pos cnt : Z) (st : State) :
  0 <= pos -> 0 <= cnt -> pos + cnt <= len st -> len st < 2 ^ 32 ->
  len (remove_chars pos cnt st) = len st - cnt.
Proof.
  intros Hp Hc Hl Hm. unfold len in *. rewrite remove_chars_line.
  rewrite length_app, Nat2Z.inj_add.
  unfold len. rewrite dw_small by lia.
  rewrite !sub_length by lia. lia.
Qed.

Lemma insert_chars_max (pos : Z) (str : list WCHAR) (cnt : Z) (st : State) :
  max (insert_chars pos str cnt st) = max st.
Proof.
  unfold insert_chars. destruct (dw (len st + cnt) >? max st); simpl; auto using bell_max.
Qed.

Lemma insert_chars_line (pos : Z) (str : list WCHAR) (cnt : Z) (st : State) :
  line (insert_chars pos str cnt st)
  = sub (line st) 0 pos
    ++ sub str 0 (if dw (len st + cnt) >? max st then dw (max st - len st) else cnt)
    ++ sub (line st) pos (dw (len st - pos)).
Proof.
  unfold insert_chars. destruct (dw (len st + cnt) >? max st); simpl;
    rewrite ?bell_line, ?bell_len; reflexivity.
Qed.

Lemma insert_chars_beeps (pos : Z) (str : list WCHAR) (cnt : Z) (st : State) :
  beeps (insert_chars pos str cnt st)
  = if dw (len st + cnt) >? max st then beeps (bell st) else beeps st.
Proof.
  unfold insert_chars. destruct (dw (len st + cnt) >? max st); reflexivity.
Qed.

Lemma copy_chars_beeps (str : list WCHAR) (cnt : Z) (st : State) :
  beeps (copy_chars str cnt st)
  = if cnt >? max st then beeps (bell st) else beeps st.
Proof.
  unfold copy_chars. simpl. destruct (cnt >? max st); simpl; [|reflexivity].
  unfold bell. simpl. destruct (silent (opt st)); reflexivity.
Qed.

Lemma insert_chars_len_le (pos : Z) (str : list WCHAR) (cnt : Z) (st : State) :
  0 <= max st < 2 ^ 32 -> len st <= max st ->
  0 <= pos <= len st -> 0 <= cnt -> len st + cnt < 2 ^ 32 ->
  len (insert_chars pos str cnt st) <= max st.
Proof.
  intros Hm Hl Hp Hc Ho. unfold len at 1. rewrite insert_chars_line.
  pose proof (len_nonneg st) as Hn.
  rewrite !length_app, !Nat2Z.inj_add.
  rewrite (dw_small (len st + cnt)) by lia.
  rewrite (dw_small (len st - pos)) by lia.
  rewrite (sub_length (line st) 0 pos) by (unfold len in *; lia).
  rewrite (sub_length (line st) pos (len st - pos)) by (unfold len in *; lia).
  destruct (len st + cnt >? max st) eqn:E.
  - rewrite dw_small by lia.
    pose proof (sub_length_le str 0 (max st - len st)). lia.
  - pose proof (sub_length_le str 0 cnt). lia.
Qed.

Lemma replace_chars_max (pos old : Z) (str : list WCHAR) (cnt : Z) (st : State) :
  max (replace_chars pos old str cnt st) = max st.
Proof.
  unfold replace_chars. destruct (old >=? cnt).
  - destruct (negb (old =? cnt)); reflexivity.
  - rewrite insert_chars_max. reflexivity.
Qed.

Lemma overwrite_length (l str : list WCHAR) (pos n : Z) :
  0 <= pos -> 0 <= n -> pos + n <= Z.of_nat (length l) ->
  n <= Z.of_nat (length str) ->
  Z.of_nat (length (sub l 0 pos ++ sub str 0 n ++ skipn (Z.to_nat (pos + n)) l))
  = Z.of_nat (length l).
Proof.
  intros Hp Hn Hl Hs.
  rewrite !length_app, !Nat2Z.inj_add, length_skipn.
  rewrite !sub_length by lia. lia.
Qed.

Lemma replace_chars_len_le (pos old : Z) (str : list WCHAR) (cnt : Z) (st : State) :
  0 <= max st < 2 ^ 32 -> len st <= max st ->
  0 <= pos -> 0 <= old -> pos + old <= len st ->
  0 <= cnt <= Z.of_nat (length str) -> len st + cnt < 2 ^ 32 ->
  len (replace_chars pos old str cnt st) <= max st.
Proof.
  intros Hm Hl Hp Ho Hr Hc Hw. unfold replace_chars.
  destruct (old >=? cnt) eqn:E.
  - set (st' := set_line _ _).
    assert (Hlen : len st' = len st).
    { subst st'. rewrite len_set_line. simpl. apply overwrite_length; unfold len in *; lia. }
    destruct (old =? cnt) eqn:E2; simpl negb; cbv iota.
    + rewrite Hlen. exact Hl.
    + rewrite remove_chars_len; rewrite ?Hlen; lia.
  - set (st' := set_line _ _).
    assert (Hlen : len st' = len st).
    { subst st'. rewrite len_set_line. simpl. apply overwrite_length; unfold len in *; lia. }
    assert (Hmax : max st' = max st) by reflexivity.
    rewrite <- Hmax.
    apply insert_chars_len_le; rewrite ?Hmax, ?Hlen; try lia.
Qed.

Lemma run_op_max (o : buf_op) (st : State) : max (run_op o st) = max st.
Proof.
  destruct o; simpl;
    auto using copy_chars_max, remove_chars_max, insert_chars_max, replace_chars_max.
Qed.

Lemma run_op_len_le (o : buf_op) (st : State) :
  0 <= max st < 2 ^ 32 -> len st <= max st -> in_range o st ->
  len (run_op o st) <= max st.
Proof.
  intros Hm Hl Hr. destruct o; simpl in *.
  - unfold len. rewrite copy_chars_line.
    destruct (cnt >? max st) eqn:E.
    + pose proof (sub_length_le str 0 (max st)). lia.
    + pose proof (sub_length_le str 0 cnt). lia.
  - rewrite remove_chars_len; lia.
  - apply insert_chars_len_le; lia.
  - apply replace_chars_len_le; lia.
Qed.

Lemma run_ops_len_le (os : list buf_op) (st : State) :
  0 <= max st < 2 ^ 32 -> len st <= max st -> all_in_range os st ->
  len (run_ops os st) <= max (run_ops os st) /\ max (run_ops os st) = max st.
Proof.
  revert st. induction os as [|o os IH]; intros st Hm Hl Hr.
  - split; [exact Hl | reflexivity].
  - destruct Hr as [Ho Hr].
    pose proof (run_op_max o st) as Hmax.
    pose proof (run_op_len_le o st Hm Hl Ho) as Hlen.
    change (run_ops (o :: os) st) with (run_ops os (run_op o st)).
    destruct (IH (run_op o st)) as [H1 H2]; rewrite ?Hmax; auto.
    rewrite H2, Hmax in *. split; [exact H1 | reflexivity].
Qed.

(** C3, as the code has it.  Whatever sequence of setAll ([copy_chars]),
    remove, insert and replace operations with positions inside the line and
    counts inside the source text is run on a buffer whose length is within
    its capacity, the length stays within the capacity.  An insert or a
    setAll that asks for more than the capacity stores only what fits and
    calls the alert, which sounds unless the silent option is set.  The
    operations are total: they have no error result. *)
Theorem text_buffer_within_capacity :
  forall (os : list buf_op) (st : State),
    0 <= max st < 2 ^ 32 -> len st <= max st -> all_in_range os st ->
    len (run_ops os st) <= max (run_ops os st)
    /\ max (run_ops os st) = max st
    /\ (forall pos str cnt,
          in_range (Insert pos str cnt) st -> len st + cnt > max st ->
          line (insert_chars pos str cnt st)
            = sub (line st) 0 pos ++ sub str 0 (max st - len st)
              ++ skipn (Z.to_nat pos) (line st)
          /\ len (insert_chars pos str cnt st) = max st
          /\ beeps (insert_chars pos str cnt st)
             = if silent (opt st) then beeps st else S (beeps st))
    /\ (forall str cnt,
          in_range (SetAll str cnt) st -> cnt > max st ->
          line (copy_chars str cnt st) = sub str 0 (max st)
          /\ len (copy_chars str cnt st) = max st
          /\ beeps (copy_chars str cnt st)
             = if silent (opt st) then beeps st else S (beeps st)).
Proof.
  intros os st Hm Hl Hr.
  destruct (run_ops_len_le os st Hm Hl Hr) as [H1 H2].
  split; [exact H1|]. split; [exact H2|]. split.
  - intros pos str cnt (Hp & Hc & Ho) Hbig.
    pose proof (len_nonneg st) as Hn.
    assert (E : (dw (len st + cnt) >? max st) = true).
    { rewrite dw_small by lia. apply Z.gtb_lt. lia. }
    assert (L : line (insert_chars pos str cnt st)
                = sub (line st) 0 pos ++ sub str 0 (max st - len st)
                  ++ skipn (Z.to_nat pos) (line st)).
    { rewrite insert_chars_line, E.
      rewrite (dw_small (max st - len st)) by lia.
      rewrite (dw_small (len st - pos)) by lia.
      unfold len. rewrite sub_all by (unfold len in *; lia). reflexivity. }
    split; [exact L|]. split.
    + unfold len at 1. rewrite L.
      rewrite !length_app, !Nat2Z.inj_add, length_skipn.
      rewrite (sub_length (line st) 0 pos) by (unfold len in *; lia).
      rewrite (sub_length str 0 (max st - len st)) by (unfold len in *; lia).
      unfold len in *. lia.
    + rewrite insert_chars_beeps, E. apply bell_beeps.
  - intros str cnt Hc Hbig. simpl in Hc.
    assert (E : (cnt >? max st) = true) by (apply Z.gtb_lt; lia).
    assert (L : line (copy_chars str cnt st) = sub str 0 (max st)).
    { rewrite copy_chars_line, E. reflexivity. }
    split; [exact L|]. split.
    + unfold len. rewrite L. apply sub_length; lia.
    + rewrite copy_chars_beeps, E. apply bell_beeps.
Qed.

(** A buffer of capacity 3 holding [ab], and an insert of two characters
    at its end. *)
Lemma text_buffer_within_capacity_witness :
  let st := set_line (wstr "ab") (initial default_option 3) in
  let os := [Insert 2 (wstr "cd") 2; Remove 0 1; SetAll (wstr "wxyz") 4] in
  line (run_ops os st) = wstr "wxy"
  /\ len (run_ops os st) <= max (run_ops os st)
  /\ line (insert_chars 2 (wstr "cd") 2 st) = wstr "abc"
  /\ beeps (insert_chars 2 (wstr "cd") 2 st) = 1%nat.
Proof.
  intros st os.
  assert (Hm : 0 <= max st < 2 ^ 32) by (vm_compute; split; [discriminate | reflexivity]).
  assert (Hl : len st <= max st) by (vm_compute; discriminate).
  assert (Hr : all_in_range os st).
  { vm_compute. repeat split; discriminate. }
  destruct (text_buffer_within_capacity os st Hm Hl Hr) as (H1 & _ & H3 & _).
  split; [reflexivity|]. split; [exact H1|].
  assert (Hi : in_range (Insert 2 (wstr "cd") 2) st).
  { vm_compute. repeat split; discriminate. }
  assert (Hb : len st + 2 > max st) by (vm_compute; reflexivity).
  destruct (H3 2 (wstr "cd") 2 Hi Hb) as (L & _ & B).
  split; [rewrite L; reflexivity | rewrite B; reflexivity].
Defined.

(** C3 as stated fails when the silent option is set: the insert is cut to
    fit the capacity and nothing is heard. *)
Lemma text_buffer_silent_counterexample :
  let st := set_line (wstr "ab") (initial (mkOptions true false SPACE 1 50 false false) 3) in
  in_range (Insert 2 (wstr "cd") 2) st
  /\ len st + 2 > max st
  /\ line (insert_chars 2 (wstr "cd") 2 st) = wstr "abc"
  /\ beeps (insert_chars 2 (wstr "cd") 2 st) = beeps st.
Proof.
  vm_compute. repeat split; discriminate.
Qed.

(** ** The history *)

Lemma remove_nth_app_last (A : Type) (h : list A) (x : A) :
  remove_nth (length h) (h ++ [x]) = h.
Proof.
  induction h as [|y h IH]; simpl; [reflexivity | rewrite IH; reflexivity].
Qed.

Lemma remove_nth_app_lt (A : Type) (k : nat) (h t : list A) :
  (k < length h)%nat -> remove_nth k (h ++ t) = remove_nth k h ++ t.
Proof.
  revert k. induction h as [|y h IH]; intros k Hk; simpl in *; [lia|].
  destruct k; [reflexivity|]. simpl. rewrite IH by lia. reflexivity.
Qed.

Lemma remove_nth_length (A : Type) (k : nat) (h : list A) :
  (k < length h)%nat -> length (remove_nth k h) = Nat.pred (length h).
Proof.
  revert k. induction h as [|y h IH]; intros k Hk; simpl in *; [lia|].
  destruct k; [reflexivity|]. simpl. rewrite IH by lia. lia.
Qed.

Lemma remove_nth_head (A : Type) (h : list A) : remove_nth 0 h = tl h.
Proof. destruct h; reflexivity. Qed.

Lemma In_remove_nth (A : Type) (k : nat) (h : list A) (x : A) :
  In x (remove_nth k h) -> In x h.
Proof.
  revert k. induction h as [|y h IH]; intros k H; simpl in *; [exact H|].
  destruct k; [right; exact H|]. destruct H as [H|H]; [left; exact H | right; eauto].
Qed.

(** What the backward walk of [add_to_history] finds: nothing when no entry
    equals the line, and otherwise the last entry that equals it. *)
Lemma find_identical_spec (h : list (list WCHAR)) (l : list WCHAR) :
  match find_identical (rev h) l with
  | None => ~ In l h
  | Some k => (k < length h)%nat /\ nth k h [] = l /\ ~ In l (skipn (S k) h)
  end.
Proof.
  induction h as [|x h IH] using rev_ind.
  - simpl. intros [].
  - rewrite rev_app_distr.
    change (find_identical (rev [x] ++ rev h) l)
      with (if list_eqb x l then Some (length (rev h)) else find_identical (rev h) l).
    destruct (list_eqb x l) eqn:E.
    + apply list_eqb_eq in E. subst x. rewrite length_rev.
      rewrite length_app. split; [simpl; lia|]. split.
      * rewrite app_nth2 by lia. replace (length h - length h)%nat with O by lia.
        reflexivity.
      * rewrite skipn_all2 by (rewrite length_app; simpl; lia). intros [].
    + assert (Hx : x <> l).
      { intros ->. rewrite list_eqb_refl in E. discriminate. }
      destruct (find_identical (rev h) l) as [k|].
      * destruct IH as (Hk & Hn & Hs). rewrite length_app.
        split; [simpl; lia|]. split.
        -- rewrite app_nth1 by lia. exact Hn.
        -- rewrite skipn_app. replace (S k - length h)%nat with O by lia.
           rewrite skipn_O. intros Hin. apply in_app_or in Hin.
           destruct Hin as [Hin|[Hin|[]]]; [apply Hs; exact Hin | apply Hx; exact Hin].
      * intros Hin. apply in_app_or in Hin.
        destruct Hin as [Hin|[Hin|[]]]; [apply IH; exact Hin | apply Hx; exact Hin].
Qed.

Lemma NoDup_remove_nth (A : Type) (k : nat) (h : list A) :
  NoDup h -> NoDup (remove_nth k h).
Proof.
  revert k. induction h as [|y h IH]; intros k H; simpl; [constructor|].
  inversion H as [|? ? Hy Hh]; subst.
  destruct k; [exact Hh|]. constructor; [|apply IH; exact Hh].
  intros Hin. apply Hy. eapply In_remove_nth. exact Hin.
Qed.

Lemma NoDup_snoc (A : Type) (h : list A) (x : A) :
  NoDup h -> ~ In x h -> NoDup (h ++ [x]).
Proof.
  intros Hh Hx. induction h as [|y h IH]; simpl.
  - constructor; [intros [] | constructor].
  - inversion Hh as [|? ? Hy Hh']; subst. constructor.
    + intros Hin. apply in_app_or in Hin. destruct Hin as [Hin|[Hin|[]]].
      * apply Hy. exact Hin.
      * apply Hx. left. symmetry. exact Hin.
    + apply IH; [exact Hh' | intros Hin; apply Hx; right; exact Hin].
Qed.

Lemma NoDup_not_in_remove_nth (A : Type) (k : nat) (h : list A) (d : A) :
  NoDup h -> (k < length h)%nat -> ~ In (nth k h d) (remove_nth k h).
Proof.
  revert k. induction h as [|y h IH]; intros k Hh Hk; simpl in *; [lia|].
  inversion Hh as [|? ? Hy Hh']; subst.
  destruct k.
  - exact Hy.
  - simpl. intros [Hin|Hin].
    + apply Hy. rewrite Hin. apply nth_In. lia.
    + eapply IH; [exact Hh' | | exact Hin]. lia.
Qed.

Lemma malloc_granted (st : State) :
  hd true (heap st) = true ->
  fst (malloc st) = true /\ history (snd (malloc st)) = history st
  /\ histsize (snd (malloc st)) = histsize st /\ line (snd (malloc st)) = line st.
Proof.
  unfold malloc. destruct (heap st) as [|b t]; simpl; intros H.
  - repeat split.
  - subst b. repeat split.
Qed.

(** C1.  [add_to_history] on a history whose counter [histsize] agrees with
    the ring, when the allocation of the new entry is granted: a line shorter
    than the minimum leaves everything as it was; a line that is already
    there is unlinked and appended as the most recent entry (the number of
    entries stays, and a history without duplicates stays without); a new
    line is appended, after the oldest entry was removed when the count
    equals the configured maximum.  With a minimum of 1, submitting abc, xyz,
    abc leaves exactly xyz, abc. *)
Theorem add_to_history_spec :
  forall st : State,
    histsize st = Z.of_nat (length (history st)) ->
    hd true (heap st) = true ->
    (len st < min_length (opt st) -> add_to_history st = st)
    /\ (min_length (opt st) <= len st -> In (line st) (history st) ->
        exists k, (k < length (history st))%nat
          /\ nth k (history st) [] = line st
          /\ history (add_to_history st) = remove_nth k (history st) ++ [line st]
          /\ histsize (add_to_history st) = histsize st
          /\ (NoDup (history st) -> NoDup (history (add_to_history st))))
    /\ (min_length (opt st) <= len st -> ~ In (line st) (history st) ->
        histsize st = opt_histsize (opt st) ->
        history (add_to_history st) = tl (history st) ++ [line st])
    /\ (min_length (opt st) <= len st -> ~ In (line st) (history st) ->
        histsize st <> opt_histsize (opt st) ->
        history (add_to_history st) = history st ++ [line st])
    /\ (let submit l s := add_to_history (set_line l s) in
        let s0 := initial (mkOptions false false SPACE 1 50 false false) 100 in
        history (submit (wstr "abc") (submit (wstr "xyz") (submit (wstr "abc") s0)))
        = [wstr "xyz"; wstr "abc"]).
Proof.
  intros st Hinv Hheap.
  pose proof (find_identical_spec (history st) (line st)) as Hf.
  split; [|split; [|split; [|split]]].
  - intros Hlt. unfold add_to_history.
    apply Z.ltb_lt in Hlt. rewrite Hlt. reflexivity.
  - intros Hge Hin. unfold add_to_history.
    assert (E : (len st <? min_length (opt st)) = false) by (apply Z.ltb_ge; lia).
    rewrite E.
    destruct (find_identical (rev (history st)) (line st)) as [k|]; [|contradiction].
    destruct Hf as (Hk & Hn & Hs). exists k. simpl. rewrite Hn.
    repeat split; auto.
    intros Hnd. apply NoDup_snoc; [apply NoDup_remove_nth; exact Hnd|].
    rewrite <- Hn. apply NoDup_not_in_remove_nth; assumption.
  - intros Hge Hnin Hfull. unfold add_to_history.
    assert (E : (len st <? min_length (opt st)) = false) by (apply Z.ltb_ge; lia).
    rewrite E.
    destruct (find_identical (rev (history st)) (line st)) as [k|].
    { destruct Hf as (Hk & Hn & _). exfalso. apply Hnin. rewrite <- Hn. apply nth_In. exact Hk. }
    rewrite <- Hfull, Z.eqb_refl, andb_true_r.
    destruct (histsize st =? 0) eqn:E0; simpl negb; cbv iota.
    + apply Z.eqb_eq in E0.
      destruct (malloc_granted st Hheap) as (Hm & Hh & _ & Hl).
      destruct (malloc st) as [ok st']. simpl in *. subst ok. simpl.
      rewrite Hh, Hl. destruct (history st); [reflexivity | simpl in *; lia].
    + set (st1 := remove_from_history 0 st).
      assert (Hheap1 : hd true (heap st1) = true) by exact Hheap.
      destruct (malloc_granted st1 Hheap1) as (Hm & Hh & _ & Hl).
      destruct (malloc st1) as [ok st']. simpl in *. subst ok. simpl.
      rewrite Hh, Hl. rewrite remove_nth_head. reflexivity.
  - intros Hge Hnin Hfull. unfold add_to_history.
    assert (E : (len st <? min_length (opt st)) = false) by (apply Z.ltb_ge; lia).
    rewrite E.
    destruct (find_identical (rev (history st)) (line st)) as [k|].
    { destruct Hf as (Hk & Hn & _). exfalso. apply Hnin. rewrite <- Hn. apply nth_In. exact Hk. }
    assert (E1 : (histsize st =? opt_histsize (opt st)) = false) by (apply Z.eqb_neq; exact Hfull).
    rewrite E1, andb_false_r.
    destruct (malloc_granted st Hheap) as (Hm & Hh & _ & Hl).
    destruct (malloc st) as [ok st']. simpl in *. subst ok. simpl.
    rewrite Hh, Hl. reflexivity.
  - vm_compute. reflexivity.
Qed.

(** A full history of two entries, to which a third line is submitted. *)
Lemma add_to_history_spec_witness :
  let st := set_line (wstr "c")
              (set_history [wstr "a"; wstr "b"] 2
                 (initial (mkOptions false false SPACE 1 2 false false) 100)) in
  history (add_to_history st) = [wstr "b"; wstr "c"].
Proof.
  intros st.
  assert (Hinv : histsize st = Z.of_nat (length (history st))) by reflexivity.
  assert (Hheap : hd true (heap st) = true) by reflexivity.
  destruct (add_to_history_spec st Hinv Hheap) as (_ & _ & H3 & _).
  rewrite H3; [reflexivity | vm_compute; discriminate | | reflexivity].
  vm_compute. intros [H|[H|[]]]; discriminate.
Defined.

(** C9, the failing input.  The history is full (two entries, maximum two),
    the line is new, and the allocation of its entry fails: the oldest entry
    has been removed all the same, and the count is one short. *)
Lemma add_to_history_alloc_failure :
  let st := set_heap [false]
              (set_line (wstr "c")
                 (set_history [wstr "a"; wstr "b"] 2
                    (initial (mkOptions false false SPACE 1 2 false false) 100))) in
  history (add_to_history st) = [wstr "b"]
  /\ histsize (add_to_history st) = 1
  /\ line (add_to_history st) = wstr "c".
Proof.
  vm_compute. repeat split.
Qed.

(** *** Searching the history *)

Lemma search_loop_walk (st : State) (hist : PHistory) (plen : Z) (back : bool)
  (path : list PHistory) :
  forall (fuel : nat) (h : PHistory),
    ring_walk (if back then ring_prev st else ring_next st) hist h path ->
    (length path <= fuel)%nat ->
    search_loop fuel st hist plen back h = Some (find (hist_match st plen) path).
Proof.
  induction path as [|p rest IH]; intros fuel h Hw Hf; simpl in Hw; [contradiction|].
  destruct Hw as [Hp Hrest].
  destruct fuel as [|fuel]; [simpl in Hf; lia|].
  simpl search_loop.
  replace (if back then ring_prev st h else ring_next st h) with p
    by (rewrite Hp; destruct back; reflexivity).
  simpl find. destruct (hist_match st plen p); [reflexivity|].
  destruct rest as [|q rest].
  - rewrite Hrest, Nat.eqb_refl. reflexivity.
  - destruct Hrest as [Hne Hw].
    apply Nat.eqb_neq in Hne. rewrite Hne.
    apply IH; [exact Hw | simpl in *; lia].
Qed.

Lemma ring_walk_cons (step : PHistory -> PHistory) (hist h p : PHistory)
  (rest : list PHistory) :
  rest <> [] -> p = step h -> p <> hist -> ring_walk step hist p rest ->
  ring_walk step hist h (p :: rest).
Proof.
  intros Hne Hp Hh Hw. simpl. split; [exact Hp|].
  destruct rest; [contradiction | split; assumption].
Qed.

Lemma last_cons_default (A : Type) (a d : A) (l : list A) :
  last (a :: l) d = last l a.
Proof.
  revert a d. induction l as [|b l IH]; intros a d; [reflexivity|].
  change (last (a :: b :: l) d) with (last (b :: l) d).
  rewrite (IH b d), (IH b a). reflexivity.
Qed.

Lemma ring_walk_app (step : PHistory -> PHistory) (hist : PHistory)
  (p1 p2 : list PHistory) :
  forall h,
    p2 <> [] ->
    (forall x, In x p1 -> x <> hist) ->
    (match p1 with
     | [] => True
     | a :: _ => a = step h
     end) ->
    (forall i, (S i < length p1)%nat -> nth (S i) p1 O = step (nth i p1 O)) ->
    ring_walk step hist (last p1 h) p2 ->
    ring_walk step hist h (p1 ++ p2).
Proof.
  induction p1 as [|a p1 IH]; intros h Hne Hall Hhd Hstep Hw.
  - exact Hw.
  - change ((a :: p1) ++ p2) with (a :: (p1 ++ p2)).
    apply ring_walk_cons.
    + destruct p1; simpl; [exact Hne | discriminate].
    + exact Hhd.
    + apply Hall. left. reflexivity.
    + apply IH.
      * exact Hne.
      * intros x Hx. apply Hall. right. exact Hx.
      * destruct p1 as [|b p1]; [exact I|]. apply (Hstep O). simpl. lia.
      * intros i Hi. apply (Hstep (S i)). simpl. lia.
      * rewrite <- last_cons_default with (d := h). exact Hw.
Qed.

Lemma last_seq (a m d : nat) : last (seq a (S m)) d = (a + m)%nat.
Proof.
  revert a. induction m as [|m IH]; intros a.
  - simpl. lia.
  - change (seq a (S (S m))) with (a :: seq (S a) (S m)).
    change (last (a :: seq (S a) (S m)) d) with (last (seq (S a) (S m)) d).
    rewrite IH. lia.
Qed.

Lemma last_rev_seq (a m d : nat) : last (rev (seq a (S m))) d = a.
Proof.
  simpl. rewrite last_last. reflexivity.
Qed.

Lemma nth_rev_seq (a m i : nat) :
  (i < m)%nat -> nth i (rev (seq a m)) O = (a + m - 1 - i)%nat.
Proof.
  intros Hi. rewrite rev_nth by (rewrite length_seq; exact Hi).
  rewrite length_seq, seq_nth by lia. lia.
Qed.

Lemma ring_walk_forward (st : State) (hist : PHistory) :
  (hist <= length (history st))%nat ->
  ring_walk (ring_next st) hist hist (visit_order (length (history st)) hist false).
Proof.
  intros Hh. unfold visit_order. set (n := length (history st)) in *.
  assert (Hnext : forall k, (k < n)%nat -> ring_next st k = S k).
  { intros k Hk. unfold ring_next. fold n.
    destruct (Nat.eqb_spec k n); [lia | reflexivity]. }
  assert (Hlast : ring_next st n = O).
  { unfold ring_next. fold n. rewrite Nat.eqb_refl. reflexivity. }
  assert (Hsecond : forall h0, h0 = O \/ True ->
            ring_next st h0 = O ->
            ring_walk (ring_next st) hist h0 (seq 0 (S hist))).
  { intros h0 _ Hh0.
    replace (seq 0 (S hist)) with (seq 0 hist ++ [hist])
      by (rewrite seq_S; reflexivity).
    apply ring_walk_app.
    - discriminate.
    - intros x Hx. apply in_seq in Hx. lia.
    - destruct hist; simpl; [exact I | symmetry; exact Hh0].
    - intros i Hi. rewrite length_seq in Hi. rewrite !seq_nth by lia.
      simpl. symmetry. apply Hnext. lia.
    - simpl. split; [|reflexivity].
      destruct hist as [|k].
      + simpl. symmetry. exact Hh0.
      + rewrite last_seq. simpl. symmetry. apply Hnext. lia. }
  destruct (Nat.eq_dec hist n) as [E|E].
  - replace (n - hist)%nat with O by lia. simpl app.
    apply Hsecond; [right; exact I|]. rewrite E. exact Hlast.
  - apply ring_walk_app.
    + discriminate.
    + intros x Hx. apply in_seq in Hx. lia.
    + destruct (n - hist)%nat eqn:E1; [lia|]. simpl. symmetry. apply Hnext. lia.
    + intros i Hi. rewrite length_seq in Hi. rewrite !seq_nth by lia.
      symmetry. rewrite Hnext by lia. lia.
    + apply Hsecond; [right; exact I|].
      destruct (n - hist)%nat eqn:E1; [lia|]. rewrite last_seq.
      replace (S hist + n0)%nat with n by lia. exact Hlast.
Qed.

Lemma ring_walk_backward (st : State) (hist : PHistory) :
  (hist <= length (history st))%nat ->
  ring_walk (ring_prev st) hist hist (visit_order (length (history st)) hist true).
Proof.
  intros Hh. unfold visit_order. set (n := length (history st)) in *.
  assert (Hprev : forall k, ring_prev st (S k) = k) by reflexivity.
  assert (Hzero : ring_prev st O = n) by reflexivity.
  assert (Hsecond : forall h0,
            ring_prev st h0 = n ->
            ring_walk (ring_prev st) hist h0 (rev (seq hist (S n - hist)))).
  { intros h0 Hh0.
    replace (S n - hist)%nat with (S (n - hist)) by lia.
    change (seq hist (S (n - hist))) with (hist :: seq (S hist) (n - hist)).
    change (rev (hist :: seq (S hist) (n - hist)))
      with (rev (seq (S hist) (n - hist)) ++ [hist]).
    apply ring_walk_app.
    - discriminate.
    - intros x Hx. apply in_rev in Hx. apply in_seq in Hx. lia.
    - destruct (n - hist)%nat eqn:E1; [exact I|].
      assert (Hn : nth 0 (rev (seq (S hist) (S n0))) O = n).
      { rewrite nth_rev_seq by lia. lia. }
      destruct (rev (seq (S hist) (S n0))) eqn:E2.
      + exact I.
      + simpl in Hn. rewrite Hn. symmetry. exact Hh0.
    - intros i Hi. rewrite length_rev, length_seq in Hi.
      rewrite !nth_rev_seq by lia.
      replace (S hist + (n - hist) - 1 - i)%nat
        with (S (S hist + (n - hist) - 1 - S i)) by lia.
      rewrite Hprev. reflexivity.
    - simpl. split; [|reflexivity].
      destruct (n - hist)%nat eqn:E1.
      + simpl. assert (hist = n) by lia. subst hist. symmetry. exact Hh0.
      + rewrite last_rev_seq. rewrite Hprev. reflexivity. }
  destruct hist as [|k].
  - simpl app. apply Hsecond. exact Hzero.
  - apply ring_walk_app.
    + replace (S n - S k)%nat with (S (n - S k)) by lia. simpl.
      destruct (rev (seq (S (S k)) (n - S k))); discriminate.
    + intros x Hx. apply in_rev in Hx. apply in_seq in Hx. lia.
    + assert (Hn : nth 0 (rev (seq 0 (S k))) O = k).
      { rewrite nth_rev_seq by lia. lia. }
      destruct (rev (seq 0 (S k))) eqn:E2; [exact I|].
      simpl in Hn. rewrite Hn. reflexivity.
    + intros i Hi. rewrite length_rev, length_seq in Hi.
      rewrite !nth_rev_seq by lia.
      replace (0 + S k - 1 - i)%nat with (S (0 + S k - 1 - S i)) by lia.
      rewrite Hprev. reflexivity.
    + apply Hsecond. rewrite last_rev_seq. exact Hzero.
Qed.

Lemma visit_order_length (n hist : nat) (back : bool) :
  (hist <= n)%nat -> length (visit_order n hist back) = S n.
Proof.
  intros H. unfold visit_order. destruct back;
    rewrite length_app, ?length_rev, !length_seq; lia.
Qed.

Lemma towlower_zero (c : WCHAR) : towlower c = 0 <-> c = 0.
Proof.
  unfold towlower. destruct ((65 <=? c) && (c <=? 90)) eqn:E.
  - apply andb_true_iff in E. destruct E as [E1 E2].
    apply Z.leb_le in E1. lia.
  - tauto.
Qed.

(** [_wcsnicmp] gives 0 exactly when the two texts agree, ignoring case, on
    their first [n] characters, as long as the second holds no NUL there. *)
Lemma wcsnicmp_zero_iff (n : nat) :
  forall s1 s2 : list WCHAR,
    (n <= length s1)%nat -> (n <= length s2)%nat ->
    (forall c, In c (firstn n s2) -> c <> 0) ->
    wcsnicmp s1 s2 n = 0 <-> map towlower (firstn n s1) = map towlower (firstn n s2).
Proof.
  induction n as [|n IH]; intros s1 s2 H1 H2 Hnul.
  - simpl. tauto.
  - destruct s1 as [|a s1]; [simpl in H1; lia|].
    destruct s2 as [|b s2]; [simpl in H2; lia|].
    simpl in H1, H2. simpl wcsnicmp. simpl firstn. simpl map.
    assert (Hb : towlower b <> 0).
    { intros E. apply (proj1 (towlower_zero b)) in E.
      apply (Hnul b); [left; reflexivity | exact E]. }
    destruct (towlower a =? towlower b) eqn:E.
    + apply Z.eqb_eq in E.
      assert (E0 : (towlower a =? 0) = false) by (apply Z.eqb_neq; lia).
      rewrite E0. simpl.
      rewrite IH; [| lia | lia | intros c Hc; apply Hnul; right; exact Hc].
      split; [intros ->; rewrite E; reflexivity | intros H; injection H; auto].
    + apply Z.eqb_neq in E. simpl. split; [lia | intros H; injection H; intros; lia].
Qed.

Lemma hist_match_begins (st : State) (plen : Z) (h : PHistory) :
  0 <= plen <= len st ->
  (forall c, In c (sub (line st) 0 plen) -> c <> 0) ->
  hist_match st plen h = begins_with_ci (node_line st h) (line st) plen.
Proof.
  intros Hp Hnul. unfold hist_match, begins_with_ci.
  destruct (Z.of_nat (length (node_line st h)) >=? plen) eqn:E.
  - assert (E' : (plen <=? Z.of_nat (length (node_line st h))) = true)
      by (apply Z.leb_le; apply Z.geb_le in E; lia).
    rewrite E'. simpl. apply Z.geb_le in E.
    pose proof (wcsnicmp_zero_iff (Z.to_nat plen) (node_line st h) (line st)) as W.
    unfold len in Hp. unfold sub in *. simpl skipn in *.
    specialize (W ltac:(lia) ltac:(lia) Hnul).
    destruct (wcsnicmp (node_line st h) (line st) (Z.to_nat plen) =? 0) eqn:E1.
    + apply Z.eqb_eq in E1. symmetry. apply list_eqb_eq. apply W. exact E1.
    + apply Z.eqb_neq in E1. symmetry. apply not_true_is_false. intros E2.
      apply list_eqb_eq in E2. apply E1. apply W. exact E2.
  - assert (E' : (plen <=? Z.of_nat (length (node_line st h))) = false).
    { apply Z.leb_gt. rewrite Z.geb_leb in E. apply Z.leb_gt in E. lia. }
    rewrite E'. reflexivity.
Qed.

Lemma find_ext_in (A : Type) (f g : A -> bool) (l : list A) :
  (forall x, In x l -> f x = g x) -> find f l = find g l.
Proof.
  induction l as [|x l IH]; intros H; simpl; [reflexivity|].
  rewrite (H x) by (left; reflexivity).
  destruct (g x); [reflexivity|]. apply IH. intros y Hy. apply H. right. exact Hy.
Qed.

(** C7, as the code has it.  A search from the node [hist] of the ring meets
    the nodes in the order [visit_order]: the entries and also the sentinel,
    the constant empty line; [hist] comes last.  The result is the first node
    met whose text begins, ignoring case, with the first [plen] characters of
    the line, and NULL when there is none.  The sentinel has the empty text:
    it is a match exactly for the empty prefix. *)
Theorem search_history_first_match :
  forall (st : State) (hist : PHistory) (plen : Z) (back : bool),
    (hist <= length (history st))%nat ->
    0 <= plen <= len st ->
    (forall c, In c (sub (line st) 0 plen) -> c <> 0) ->
    search_history st hist plen back
    = Some (find (fun h => begins_with_ci (node_line st h) (line st) plen)
                 (visit_order (length (history st)) hist back))
    /\ node_line st O = []
    /\ (begins_with_ci (node_line st O) (line st) plen = true <-> plen = 0).
Proof.
  intros st hist plen back Hh Hp Hnul. split; [|split].
  - unfold search_history.
    rewrite (search_loop_walk st hist plen back
               (visit_order (length (history st)) hist back)).
    + f_equal. apply find_ext_in. intros h _. apply hist_match_begins; assumption.
    + destruct back; [apply ring_walk_backward | apply ring_walk_forward]; exact Hh.
    + rewrite visit_order_length by exact Hh. lia.
  - reflexivity.
  - unfold begins_with_ci. simpl node_line. simpl length.
    split.
    + intros H. apply andb_true_iff in H. destruct H as [H _].
      apply Z.leb_le in H. lia.
    + intros ->. reflexivity.
Qed.

(** History a, ab, b; the line is A; a backward search from the sentinel for
    one character of prefix finds the entry ab before the entry a. *)
Lemma search_history_first_match_witness :
  let st := set_line (wstr "A")
              (set_history [wstr "a"; wstr "ab"; wstr "b"] 3
                 (initial default_option 100)) in
  search_history st 0%nat 1 true = Some (Some 2%nat).
Proof.
  intros st.
  assert (Hh : (0 <= length (history st))%nat) by (vm_compute; lia).
  assert (Hp : 0 <= 1 <= len st) by (vm_compute; split; discriminate).
  assert (Hnul : forall c, In c (sub (line st) 0 1) -> c <> 0).
  { vm_compute. intros c [H|[]]. subst c. discriminate. }
  destruct (search_history_first_match st 0%nat 1 true Hh Hp Hnul) as [H _].
  rewrite H. reflexivity.
Defined.

(** C7 as stated fails for the empty prefix, where the sentinel is a match.
    With an empty history the search reports a match although there is no
    entry; with the one entry abc, a forward search from that entry returns
    the sentinel and not the entry, which does begin with the empty prefix. *)
Lemma search_history_sentinel_counterexample :
  let st0 := initial default_option 100 in
  let st1 := set_history [wstr "abc"] 1 (initial default_option 100) in
  history st0 = []
  /\ search_history st0 0%nat 0 true = Some (Some 0%nat)
  /\ search_history st1 1%nat 0 false = Some (Some 0%nat)
  /\ node_line st1 1%nat = wstr "abc"
  /\ begins_with_ci (node_line st1 1%nat) (line st1) 0 = true.
Proof.
  vm_compute. repeat split.
Qed.

(** ** Reading characters of a line *)

Lemma char_at_app_mid (a b : list WCHAR) (c : WCHAR) :
  char_at (a ++ c :: b) (Z.of_nat (length a)) = c.
Proof.
  unfold char_at. destruct (Z.of_nat (length a) <? 0) eqn:E;
    [apply Z.ltb_lt in E; lia|].
  rewrite Nat2Z.id, app_nth2 by lia.
  replace (length a - length a)%nat with O by lia. reflexivity.
Qed.




(** ** Variable substitution *)

Lemma ev_exit (env : bool) (getenv : list WCHAR -> list WCHAR) (f : nat)
  (start : option Z) (pos : Z) (st : State) :
  len st <= pos -> expand_vars_loop (S f) env getenv start pos st = Some st.
Proof.
  intros H. simpl.
  assert (E : (pos <? len st) = false) by (apply Z.ltb_ge; exact H).
  rewrite E. reflexivity.
Qed.

Lemma ev_step_plain (env : bool) (getenv : list WCHAR -> list WCHAR) (f : nat)
  (start : option Z) (pos : Z) (st : State) :
  pos < len st -> plain (char_at (line st) pos) = true ->
  expand_vars_loop (S f) env getenv start pos st
  = expand_vars_loop f env getenv start (pos + 1) st.
Proof.
  intros H Hp. simpl.
  assert (E : (pos <? len st) = true) by (apply Z.ltb_lt; exact H).
  rewrite E. simpl negb. cbv iota.
  unfold plain in Hp. apply andb_true_iff in Hp. destruct Hp as [H1 H2].
  apply negb_true_iff in H1, H2. rewrite H1, H2. reflexivity.
Qed.

Lemma ev_run_plain (env : bool) (getenv : list WCHAR -> list WCHAR)
  (start : option Z) (st : State) (k : nat) :
  forall (f : nat) (pos : Z),
    pos + Z.of_nat k <= len st ->
    (forall i, 0 <= i < Z.of_nat k -> plain (char_at (line st) (pos + i)) = true) ->
    expand_vars_loop (k + f) env getenv start pos st
    = expand_vars_loop f env getenv start (pos + Z.of_nat k) st.
Proof.
  induction k as [|k IH]; intros f pos Hl Hp.
  - simpl. f_equal. lia.
  - change (S k + f)%nat with (S (k + f)).
    rewrite ev_step_plain.
    + rewrite IH.
      * f_equal. lia.
      * lia.
      * intros i Hi. replace (pos + 1 + i) with (pos + (1 + i)) by lia.
        apply Hp. lia.
    + lia.
    + replace pos with (pos + 0) at 1 by lia. apply Hp. lia.
Qed.

Lemma ev_step_open (env : bool) (getenv : list WCHAR -> list WCHAR) (f : nat)
  (pos : Z) (st : State) :
  pos < len st -> char_at (line st) pos = VARIABLE ->
  expand_vars_loop (S f) env getenv None pos st
  = expand_vars_loop f env getenv (Some (pos + 1)) (pos + 1) st.
Proof.
  intros H Hc. simpl.
  assert (E : (pos <? len st) = true) by (apply Z.ltb_lt; exact H).
  rewrite E, Hc. reflexivity.
Qed.

Lemma ev_step_close (env : bool) (getenv : list WCHAR -> list WCHAR) (f : nat)
  (s pos : Z) (st : State) :
  pos < len st -> char_at (line st) pos = VARIABLE ->
  expand_vars_loop (S f) env getenv (Some s) pos st
  = match fst (resolve_var env getenv s (pos - s) st) with
    | [] => expand_vars_loop f env getenv (Some (pos + 1)) (pos + 1)
              (snd (resolve_var env getenv s (pos - s) st))
    | v => expand_vars_loop f env getenv None (pos + 1)
             (replace_chars (s - 1) (pos - s + 2) v (Z.of_nat (length v))
                (snd (resolve_var env getenv s (pos - s) st)))
    end.
Proof.
  intros H Hc. simpl.
  assert (E : (pos <? len st) = true) by (apply Z.ltb_lt; exact H).
  rewrite E, Hc. simpl negb. cbv iota.
  change (VARIABLE =? ESCAPE) with false. change (VARIABLE =? VARIABLE) with true.
  cbv iota.
  destruct (resolve_var env getenv s (pos - s) st) as [var st1].
  destruct var; reflexivity.
Qed.

(** *** Looking a name up *)

Lemma wcsnicmp_key_prefix (n : nat) :
  forall s a b : list WCHAR,
    (n <= length a)%nat -> wcsnicmp s (a ++ b) n = wcsnicmp s a n.
Proof.
  induction n as [|n IH]; intros s a b H; [reflexivity|].
  destruct a as [|x a]; [simpl in H; lia|].
  simpl. rewrite IH by (simpl in H; lia). reflexivity.
Qed.

Lemma define_match_key_prefix (nm rest : list WCHAR) (d : Define) :
  define_match (nm ++ rest) (Z.of_nat (length nm)) d
  = define_match nm (Z.of_nat (length nm)) d.
Proof.
  unfold define_match. rewrite Nat2Z.id, wcsnicmp_key_prefix by lia. reflexivity.
Qed.

Lemma find_walk_found (test : Define -> bool) (l : list Define) (d : Define) :
  forall before,
    find test l = Some d -> exists l', find_walk test before l = Some (d :: l').
Proof.
  induction l as [|x l IH]; intros before H; simpl in *; [discriminate|].
  destruct (test x).
  - injection H as ->. eexists. reflexivity.
  - apply IH. exact H.
Qed.


Lemma find_ext_eq (A : Type) (f g : A -> bool) (l : list A) :
  (forall x, f x = g x) -> find f l = find g l.
Proof. intros H. apply find_ext_in. intros x _. apply H. Qed.

Lemma find_define_lookup (h : Head) (pos : Z) (nm rest : list WCHAR)
  (st : State) (d : Define) :
  skipn (Z.to_nat pos) (line st) = nm ++ rest ->
  lookup_define (get_head h st) nm = Some d ->
  exists l', find_define h pos (Z.of_nat (length nm)) st = (true, set_head h (d :: l') st).
Proof.
  intros Hk Hl. unfold find_define. rewrite Hk.
  unfold lookup_define in Hl.
  rewrite (find_ext_eq Define (define_match nm (Z.of_nat (length nm)))
             (define_match (nm ++ rest) (Z.of_nat (length nm)))) in Hl
    by (intros x; symmetry; apply define_match_key_prefix).
  destruct (find_walk_found _ _ _ [] Hl) as [l' E]. rewrite E. exists l'. reflexivity.
Qed.


(** *** Replacing a token in place *)

Lemma skipn_app_exact (A : Type) (a b : list A) : skipn (length a) (a ++ b) = b.
Proof.
  rewrite skipn_app, skipn_all, Nat.sub_diag. reflexivity.
Qed.

Lemma firstn_app_exact (A : Type) (a b : list A) : firstn (length a) (a ++ b) = a.
Proof.
  rewrite firstn_app, firstn_all, Nat.sub_diag. simpl. apply app_nil_r.
Qed.

Lemma skipn_app_plus (A : Type) (a b : list A) (n : nat) :
  skipn (length a + n) (a ++ b) = skipn n b.
Proof.
  rewrite skipn_app, skipn_all2 by lia.
  replace (length a + n - length a)%nat with n by lia. reflexivity.
Qed.

Lemma replace_chars_token (st : State) (pre tok post val : list WCHAR) :
  line st = pre ++ tok ++ post ->
  Z.of_nat (length pre) + Z.of_nat (length val) + Z.of_nat (length post) <= max st ->
  max st < 2 ^ 32 -> len st < 2 ^ 32 ->
  line (replace_chars (Z.of_nat (length pre)) (Z.of_nat (length tok)) val
                      (Z.of_nat (length val)) st)
  = pre ++ val ++ post.
Proof.
  intros Hl Hfit Hmax Hlen. unfold replace_chars.
  assert (Hlen' : len st = Z.of_nat (length pre) + Z.of_nat (length tok)
                           + Z.of_nat (length post)).
  { unfold len. rewrite Hl, !length_app. lia. }
  destruct (Z.of_nat (length tok) >=? Z.of_nat (length val)) eqn:E.
  - apply Z.geb_le in E.
    set (st1 := set_line _ _).
    assert (L1 : line st1 = pre ++ val ++ skipn (length val) tok ++ post).
    { subst st1. simpl. rewrite Hl. unfold sub. simpl skipn.
      rewrite !Nat2Z.id, firstn_app_exact, firstn_all.
      f_equal. f_equal.
      replace (Z.to_nat (Z.of_nat (length pre) + Z.of_nat (length val)))
        with (length pre + length val)%nat by lia.
      rewrite skipn_app_plus, skipn_app.
      replace (length val - length tok)%nat with O by lia. reflexivity. }
    destruct (Z.of_nat (length tok) =? Z.of_nat (length val)) eqn:E2; simpl negb; cbv iota.
    + apply Z.eqb_eq in E2. rewrite L1.
      rewrite skipn_all2 by lia. reflexivity.
    + apply Z.eqb_neq in E2. rewrite remove_chars_line, L1.
      assert (Hl1 : len st1 = len st).
      { unfold len. rewrite L1, Hl, !length_app, length_skipn. lia. }
      rewrite Hl1, dw_small by lia.
      unfold sub. simpl skipn.
      replace (Z.to_nat (Z.of_nat (length pre) + Z.of_nat (length val)))
        with (length (pre ++ val)) by (rewrite length_app; lia).
      rewrite !app_assoc. rewrite <- (app_assoc (pre ++ val)).
      rewrite firstn_app_exact.
      match goal with
      | |- context [skipn ?n ((pre ++ val) ++ _)] =>
          replace n with (length ((pre ++ val) ++ skipn (length val) tok))
            by (rewrite !length_app, length_skipn; lia)
      end.
      rewrite (app_assoc (pre ++ val)), skipn_app_exact.
      rewrite firstn_all2 by (rewrite Hlen'; lia).
      reflexivity.
  - rewrite Z.geb_leb in E. apply Z.leb_gt in E.
    set (st1 := set_line _ _).
    assert (L1 : line st1 = pre ++ firstn (length tok) val ++ post).
    { subst st1. simpl. rewrite Hl. unfold sub. simpl skipn.
      rewrite !Nat2Z.id, firstn_app_exact.
      f_equal. f_equal.
      replace (Z.to_nat (Z.of_nat (length pre) + Z.of_nat (length tok)))
        with (length pre + length tok)%nat by lia.
      rewrite skipn_app_plus, skipn_app_exact.
      reflexivity. }
    assert (Hl1 : len st1 = len st).
    { unfold len. rewrite L1, Hl, !length_app, length_firstn. lia. }
    rewrite insert_chars_line, L1, Hl1.
    assert (M1 : max st1 = max st) by reflexivity. rewrite M1.
    rewrite (dw_small (len st + _)) by lia.
    assert (E3 : (len st + (Z.of_nat (length val) - Z.of_nat (length tok)) >? max st) = false).
    { rewrite Z.gtb_ltb. apply Z.ltb_ge. lia. }
    rewrite E3, dw_small by lia.
    unfold sub. simpl skipn.
    replace (Z.to_nat (Z.of_nat (length pre) + Z.of_nat (length tok)))
      with (length (pre ++ firstn (length tok) val))
      by (rewrite length_app, length_firstn; lia).
    rewrite (app_assoc pre (firstn (length tok) val) post).
    rewrite firstn_app_exact, skipn_app_exact.
    rewrite Nat2Z.id.
    rewrite (firstn_all2 (skipn (length tok) val)) by (rewrite length_skipn; lia).
    rewrite (firstn_all2 post) by (rewrite Hlen'; lia).
    rewrite <- !app_assoc. f_equal.
    rewrite app_assoc, firstn_skipn. reflexivity.
Qed.

Lemma char_at_sub (l : list WCHAR) (pos i : Z) (k : nat) :
  0 <= pos -> 0 <= i < Z.of_nat k -> pos + Z.of_nat k <= Z.of_nat (length l) ->
  In (char_at l (pos + i)) (sub l pos (Z.of_nat k)).
Proof.
  intros Hp Hi Hl. unfold sub, char_at.
  destruct (pos + i <? 0) eqn:E; [apply Z.ltb_lt in E; lia|].
  rewrite Nat2Z.id.
  replace (Z.to_nat (pos + i)) with (Z.to_nat pos + Z.to_nat i)%nat by lia.
  rewrite <- (firstn_skipn (Z.to_nat pos) l) at 1.
  rewrite app_nth2 by (rewrite length_firstn; lia).
  rewrite length_firstn.
  replace (Z.to_nat pos + Z.to_nat i - Nat.min (Z.to_nat pos) (length l))%nat
    with (Z.to_nat i) by lia.
  rewrite <- (firstn_skipn k (skipn (Z.to_nat pos) l)) at 1.
  rewrite app_nth1 by (rewrite length_firstn, length_skipn; lia).
  apply nth_In. rewrite length_firstn, length_skipn. lia.
Qed.

Lemma plain_run (l : list WCHAR) (pos : Z) (k : nat) :
  0 <= pos -> pos + Z.of_nat k <= Z.of_nat (length l) ->
  forallb plain (sub l pos (Z.of_nat k)) = true ->
  forall i, 0 <= i < Z.of_nat k -> plain (char_at l (pos + i)) = true.
Proof.
  intros Hp Hl Hf i Hi. rewrite forallb_forall in Hf. apply Hf.
  apply char_at_sub; assumption.
Qed.

(** C5.  When [sym] is defined as [-expansion-] in the symbol list and the
    buffer has room for the result, [expand_vars] turns the line [%sym%sym%]
    into [-expansion-sym%]: the first token is replaced, the scan goes on
    behind the place of its closing character, and the last [%] stays as it
    is.  The environment is asked first when [env] is set; it holds no
    variable of that name here. *)
Theorem expand_vars_sym_sym :
  forall (st : State) (env : bool) (getenv : list WCHAR -> list WCHAR) (d : Define),
    line st = wstr "%sym%sym%" ->
    15 <= max st < 2 ^ 32 ->
    lookup_define (sym_head st) (wstr "sym") = Some d ->
    hd [] (lines d) = wstr "-expansion-" ->
    (env = true -> getenv (wstr "sym") = []) ->
    exists st', expand_vars env getenv st = Some st'
                /\ line st' = wstr "-expansion-sym%".
Proof.
  intros st env getenv d Hline Hmax Hlook Hdef Henv.
  assert (Hlen : len st = 9) by (unfold len; rewrite Hline; reflexivity).
  unfold expand_vars. rewrite Hlen.
  replace (S (Z.to_nat (9 + max st)))
    with (16 + (Z.to_nat (9 + max st) - 15))%nat by lia.
  set (f := (Z.to_nat (9 + max st) - 15)%nat).
  (* the opening character *)
  change (16 + f)%nat with (S (15 + f)).
  rewrite ev_step_open by (rewrite ?Hlen, ?Hline; reflexivity).
  (* the name *)
  change (15 + f)%nat with (3 + (12 + f))%nat.
  rewrite ev_run_plain;
    [ | rewrite Hlen; vm_compute; discriminate
      | apply plain_run; rewrite ?Hline; [lia | vm_compute; discriminate | reflexivity] ].
  (* the closing character *)
  change (12 + f)%nat with (S (11 + f)).
  change (0 + 1 + Z.of_nat 3) with 4.
  rewrite ev_step_close by (rewrite ?Hlen, ?Hline; reflexivity).
  assert (Hres : exists l', resolve_var env getenv (0 + 1) (4 - (0 + 1)) st
                            = (wstr "-expansion-", set_sym_head (d :: l') st)).
  { unfold resolve_var.
    assert (Hn : (if env
                  then get_env_var (getenv (c_string (sub (line st) (0 + 1) (4 - (0 + 1))))) st
                  else ([], st)) = ([], st)).
    { destruct env; [|reflexivity]. rewrite Hline.
      change (c_string (sub (wstr "%sym%sym%") (0 + 1) (4 - (0 + 1)))) with (wstr "sym").
      rewrite (Henv eq_refl). reflexivity. }
    rewrite Hn.
    destruct (find_define_lookup SymHead (0 + 1) (wstr "sym") (wstr "%sym%") st d)
      as [l' E]; [rewrite Hline; reflexivity | exact Hlook |].
    change (Z.of_nat (length (wstr "sym"))) with (4 - (0 + 1)) in E.
    rewrite E. exists l'. simpl set_head.
    unfold head_line. simpl get_head. cbv iota. rewrite Hdef. reflexivity. }
  destruct Hres as [l' Hres]. rewrite Hres.
  cbv beta iota zeta delta [fst snd wstr list_ascii_of_string map wchar_of_ascii].
  simpl nat_of_ascii. simpl Z.of_nat.
  set (st1 := set_sym_head (d :: l') st).
  set (st2 := replace_chars _ _ _ _ st1).
  assert (L2 : line st2 = wstr "-expansion-sym%").
  { subst st2.
    apply (replace_chars_token st1 [] (wstr "%sym%") (wstr "sym%") (wstr "-expansion-")).
    - exact Hline.
    - simpl length. change (max st1) with (max st). lia.
    - change (max st1) with (max st). lia.
    - change (len st1) with (len st). lia. }
  assert (Hlen2 : len st2 = 15) by (unfold len; rewrite L2; reflexivity).
  (* the rest of the line *)
  change (11 + f)%nat with (9 + (2 + f))%nat.
  rewrite ev_run_plain;
    [ | rewrite Hlen2; vm_compute; discriminate
      | apply plain_run; rewrite ?L2; [lia | vm_compute; discriminate | reflexivity] ].
  change (2 + f)%nat with (S (S f)).
  rewrite ev_step_open by (rewrite ?Hlen2, ?L2; reflexivity).
  rewrite ev_exit by (rewrite Hlen2; vm_compute; discriminate).
  simpl bind. unfold un_escape. rewrite L2.
  exists st2. split; [reflexivity | exact L2].
Qed.

(** The scenario of C5: the symbol is defined by the line
    [defs sym -expansion-], then the line [%sym%sym%] is expanded as
    [MyReadConsoleW] does it for a submitted line. *)
Lemma expand_vars_sym_sym_witness :
  let st0 := set_line (wstr "defs sym -expansion-") (initial default_option 100) in
  let st := set_line (wstr "%sym%sym%") (execute_defs 5 st0) in
  exists st', expand_vars false (fun _ => []) st = Some st'
              /\ line st' = wstr "-expansion-sym%".
Proof.
  intros st0 st.
  apply (expand_vars_sym_sym st false (fun _ => [])
           (mkDefine (wstr "sym") [wstr "-expansion-"])).
  - reflexivity.
  - vm_compute. split; [discriminate | reflexivity].
  - reflexivity.
  - reflexivity.
  - intros _. reflexivity.
Defined.



(** ** The definition lists *)

Lemma c_string_cons (x : WCHAR) (l : list WCHAR) :
  c_string (x :: l) = if x =? 0 then [] else x :: c_string l.
Proof. reflexivity. Qed.

(** [_wcsnicmp] on two names of the same length is 0 exactly when the names
    agree, ignoring case, up to their first NUL. *)
Lemma wcsnicmp_canon (a : list WCHAR) :
  forall b : list WCHAR,
    length a = length b ->
    wcsnicmp a b (length a) = 0
    <-> map towlower (c_string a) = map towlower (c_string b).
Proof.
  induction a as [|x a IH]; intros [|y b] H; simpl in H; try discriminate.
  - simpl. tauto.
  - injection H as H. simpl length. simpl wcsnicmp. rewrite !c_string_cons.
    pose proof (towlower_zero x) as Zx. pose proof (towlower_zero y) as Zy.
    destruct (towlower x =? towlower y) eqn:E.
    + apply Z.eqb_eq in E.
      destruct (towlower x =? 0) eqn:E0.
      * apply Z.eqb_eq in E0. simpl.
        assert (x = 0) by (apply Zx; exact E0).
        assert (y = 0) by (apply Zy; lia).
        subst x y. simpl. split; [reflexivity | lia].
      * apply Z.eqb_neq in E0. simpl.
        assert (Hx : (x =? 0) = false) by (apply Z.eqb_neq; intros ->; apply E0; reflexivity).
        assert (Hy : (y =? 0) = false).
        { apply Z.eqb_neq. intros ->. apply E0. rewrite E. reflexivity. }
        rewrite Hx, Hy. simpl map. rewrite IH by exact H.
        split; [intros ->; rewrite E; reflexivity | intros H1; injection H1; auto].
    + apply Z.eqb_neq in E. simpl. split; [lia|].
      intros H1. exfalso.
      destruct (x =? 0) eqn:Hx; destruct (y =? 0) eqn:Hy; simpl in H1;
        try discriminate.
      * apply Z.eqb_eq in Hx, Hy. subst. apply E. reflexivity.
      * injection H1 as H1 _. apply E. exact H1.
Qed.

Lemma define_match_canon (nm : list WCHAR) (d : Define) :
  define_match nm (Z.of_nat (length nm)) d = true <-> canon (name d) = canon nm.
Proof.
  unfold define_match, canon. rewrite andb_true_iff, !Z.eqb_eq, Nat2Z.id.
  split.
  - intros [Hl Hc]. apply Nat2Z.inj in Hl. rewrite <- Hl in Hc.
    rewrite wcsnicmp_canon in Hc by exact Hl. rewrite Hl, Hc. reflexivity.
  - intros H. injection H as Hl Hc. split; [lia|].
    rewrite <- Hl. apply wcsnicmp_canon; assumption.
Qed.

Lemma lookup_define_defined (head : list Define) (nm : list WCHAR) :
  defined_in head nm <-> lookup_define head nm <> None.
Proof.
  unfold defined_in, names, lookup_define. split.
  - intros H. apply in_map_iff in H. destruct H as (d & Hc & Hin).
    intros Hn. apply (find_none _ _ Hn) in Hin.
    apply define_match_canon in Hc. rewrite Hc in Hin. discriminate.
  - intros H. destruct (find _ head) as [d|] eqn:E; [|contradiction].
    apply find_some in E. destruct E as [Hin Hm].
    apply in_map_iff. exists d. split; [|exact Hin].
    apply define_match_canon. exact Hm.
Qed.

Lemma skip_while_bounds (p : WCHAR -> bool) (l : list WCHAR) :
  forall pos, pos <= skip_while p l pos <= pos + Z.of_nat (length l).
Proof.
  induction l as [|c l IH]; intros pos; simpl.
  - lia.
  - destruct (p c); [specialize (IH (pos + 1)) |]; lia.
Qed.

(** The name of a command is a prefix of the key that [find_define] is given
    for it. *)
Lemma name_at_key (st : State) (pos : Z) :
  exists rest,
    skipn (Z.to_nat pos) (line st) = name_at st pos ++ rest
    /\ Z.of_nat (length (name_at st pos)) = skip_nondelim st pos - pos.
Proof.
  unfold name_at, skip_nondelim, sub.
  pose proof (skip_while_bounds (fun c => negb (wcschr DEF_TERM c))
                (skipn (Z.to_nat pos) (line st)) pos) as B.
  exists (skipn (Z.to_nat (skip_while (fun c => negb (wcschr DEF_TERM c))
                                     (skipn (Z.to_nat pos) (line st)) pos - pos))
                (skipn (Z.to_nat pos) (line st))).
  split; [symmetry; apply firstn_skipn|].
  rewrite length_firstn. lia.
Qed.

Lemma find_walk_some (test : Define -> bool) (l : list Define) :
  forall before r,
    find_walk test before l = Some r ->
    exists d l1 l2,
      l = l1 ++ d :: l2 /\ test d = true /\ r = d :: rev before ++ l1 ++ l2.
Proof.
  induction l as [|x l IH]; intros before r H; simpl in H; [discriminate|].
  destruct (test x) eqn:E.
  - injection H as <-. exists x, [], l. repeat split; auto.
  - destruct (IH _ _ H) as (d & l1 & l2 & Hl & Ht & Hr).
    exists d, (x :: l1), l2. subst l r. simpl. repeat split; auto.
    rewrite <- app_assoc. reflexivity.
Qed.

Lemma find_walk_none_all (test : Define -> bool) (l : list Define) :
  forall before,
    find_walk test before l = None -> forall x, In x l -> test x = false.
Proof.
  induction l as [|y l IH]; intros before H x Hin; simpl in *; [contradiction|].
  destruct (test y) eqn:E; [discriminate|].
  destruct Hin as [<-|Hin]; [exact E | eapply IH; eauto].
Qed.

(** What [find_define] does for the name [nm] of a command: the line and the
    other lists stay; a definition that is found has the name and is moved to
    the head, the rest of the list keeping its entries. *)
Lemma find_define_spec (h : Head) (pos : Z) (nm rest : list WCHAR) (st : State) :
  skipn (Z.to_nat pos) (line st) = nm ++ rest ->
  line (snd (find_define h pos (Z.of_nat (length nm)) st)) = line st
  /\ heap (snd (find_define h pos (Z.of_nat (length nm)) st)) = heap st
  /\ (forall h', h' <> h ->
        get_head h' (snd (find_define h pos (Z.of_nat (length nm)) st)) = get_head h' st)
  /\ if fst (find_define h pos (Z.of_nat (length nm)) st)
     then exists d l',
            get_head h (snd (find_define h pos (Z.of_nat (length nm)) st)) = d :: l'
            /\ canon (name d) = canon nm
            /\ Permutation (get_head h st) (d :: l')
     else snd (find_define h pos (Z.of_nat (length nm)) st) = st
          /\ ~ defined_in (get_head h st) nm.
Proof.
  intros Hk. unfold find_define. rewrite Hk.
  destruct (find_walk _ [] (get_head h st)) as [r|] eqn:E; simpl.
  - apply find_walk_some in E. destruct E as (d & l1 & l2 & Hl & Ht & Hr).
    simpl in Hr.
    split; [destruct h; reflexivity|]. split; [destruct h; reflexivity|].
    split; [intros h' Hh; destruct h, h'; try reflexivity; contradiction|].
    exists d, (l1 ++ l2). split; [destruct h; simpl; rewrite Hr; reflexivity|].
    split.
    + rewrite define_match_key_prefix in Ht. apply define_match_canon. exact Ht.
    + rewrite Hl. symmetry. apply Permutation_middle.
  - split; [reflexivity|]. split; [reflexivity|]. split; [reflexivity|].
    split; [reflexivity|].
    intros Hin. unfold defined_in, names in Hin. apply in_map_iff in Hin.
    destruct Hin as (d & Hc & Hd).
    pose proof (find_walk_none_all _ _ _ E d Hd) as Hf.
    rewrite define_match_key_prefix in Hf.
    apply define_match_canon in Hc. rewrite Hc in Hf. discriminate.
Qed.

Lemma get_head_set_same (h : Head) (l : list Define) (st : State) :
  get_head h (set_head h l st) = l.
Proof. destruct h; reflexivity. Qed.

Lemma get_head_set_other (h h' : Head) (l : list Define) (st : State) :
  h' <> h -> get_head h' (set_head h l st) = get_head h' st.
Proof. intros H. destruct h, h'; try reflexivity; contradiction. Qed.

Lemma line_set_head (h : Head) (l : list Define) (st : State) :
  line (set_head h l st) = line st.
Proof. destruct h; reflexivity. Qed.

Lemma heap_set_head (h : Head) (l : list Define) (st : State) :
  heap (set_head h l st) = heap st.
Proof. destruct h; reflexivity. Qed.

Lemma names_set_lines (h : Head) (ls : list (list WCHAR)) (st : State) :
  names (get_head h (set_head_lines h ls st)) = names (get_head h st)
  /\ length (get_head h (set_head_lines h ls st)) = length (get_head h st)
  /\ (forall h', h' <> h -> get_head h' (set_head_lines h ls st) = get_head h' st)
  /\ line (set_head_lines h ls st) = line st
  /\ heap (set_head_lines h ls st) = heap st.
Proof.
  unfold set_head_lines. destruct (get_head h st) as [|d t] eqn:E.
  - rewrite E. repeat split.
  - rewrite get_head_set_same. simpl. repeat split.
    + intros h' Hh. apply get_head_set_other. exact Hh.
    + apply line_set_head.
    + apply heap_set_head.
Qed.

Lemma head_set_lines (h : Head) (ls : list (list WCHAR)) (st : State)
  (d : Define) (t : list Define) :
  get_head h st = d :: t ->
  get_head h (set_head_lines h ls st) = mkDefine (name d) ls :: t.
Proof.
  intros E. unfold set_head_lines. rewrite E. apply get_head_set_same.
Qed.

Lemma malloc_frame (st : State) :
  line (snd (malloc st)) = line st
  /\ (forall h, get_head h (snd (malloc st)) = get_head h st)
  /\ heap (snd (malloc st)) = tl (heap st)
  /\ fst (malloc st) = hd true (heap st).
Proof.
  unfold malloc. destruct (heap st) eqn:E; simpl; rewrite ?E; repeat split;
    try (intros h; destruct h); reflexivity.
Qed.

Lemma add_define_spec (h : Head) (pos cnt : Z) (st : State) :
  line (snd (add_define h pos cnt st)) = line st
  /\ heap (snd (add_define h pos cnt st)) = tl (heap st)
  /\ fst (add_define h pos cnt st) = hd true (heap st)
  /\ (forall h', h' <> h ->
        get_head h' (snd (add_define h pos cnt st)) = get_head h' st)
  /\ get_head h (snd (add_define h pos cnt st))
     = if fst (add_define h pos cnt st)
       then mkDefine (sub (line st) pos cnt) [] :: get_head h st
       else get_head h st.
Proof.
  unfold add_define. destruct (malloc_frame st) as (Ml & Mh & Mp & Mf).
  destruct (malloc st) as [ok st1]. simpl in *. subst ok.
  destruct (hd true (heap st)); simpl.
  - rewrite line_set_head, heap_set_head, get_head_set_same, Ml, Mp, !Mh.
    repeat split. intros h' Hh. rewrite get_head_set_other by exact Hh. apply Mh.
  - rewrite Ml, Mp, !Mh. repeat split. intros h' _. apply Mh.
Qed.

Lemma add_line_spec (pos : Z) (st : State) :
  line (snd (add_line pos st)) = line st
  /\ heap (snd (add_line pos st)) = tl (heap st)
  /\ (forall h, get_head h (snd (add_line pos st)) = get_head h st)
  /\ fst (add_line pos st)
     = if hd true (heap st) then Some (sub (line st) pos (dw (len st - pos))) else None.
Proof.
  unfold add_line. destruct (malloc_frame st) as (Ml & Mh & Mp & Mf).
  destruct (malloc st) as [ok st1]. simpl in *. subst ok.
  destruct (hd true (heap st)); simpl; unfold len; rewrite ?Ml; repeat split; auto.
Qed.

Lemma del_define_spec (h : Head) (st : State) :
  line (del_define h st) = line st
  /\ heap (del_define h st) = heap st
  /\ get_head h (del_define h st) = tl (get_head h st)
  /\ (forall h', h' <> h -> get_head h' (del_define h st) = get_head h' st).
Proof.
  unfold del_define. rewrite line_set_head, heap_set_head, get_head_set_same.
  repeat split. intros h' Hh. apply get_head_set_other. exact Hh.
Qed.

Lemma names_perm (l l' : list Define) :
  Permutation l l' -> Permutation (names l) (names l').
Proof. apply Permutation_map. Qed.

(** The step that [execute_defs] and [execute_defm] begin with: look the name
    up in the other list and delete the definition found there. *)
Lemma find_del_spec (h : Head) (pos : Z) (nm rest : list WCHAR) (st : State) :
  skipn (Z.to_nat pos) (line st) = nm ++ rest ->
  let r := find_define h pos (Z.of_nat (length nm)) st in
  let st2 := if fst r then del_define h (snd r) else snd r in
  line st2 = line st
  /\ heap st2 = heap st
  /\ (forall h', h' <> h -> get_head h' st2 = get_head h' st)
  /\ (Permutation (names (get_head h st)) (canon nm :: names (get_head h st2))
      \/ (get_head h st2 = get_head h st /\ ~ defined_in (get_head h st) nm)).
Proof.
  intros Hk r st2.
  destruct (find_define_spec h pos nm rest st Hk) as (Fl & Fh & Fo & Fs).
  fold r in Fl, Fh, Fo, Fs. subst st2.
  destruct (fst r).
  - destruct Fs as (d & l' & Hd & Hc & Hp).
    destruct (del_define_spec h (snd r)) as (Dl & Dh & Dt & Do).
    rewrite Dl, Dh, Fl, Fh. repeat split.
    + intros h' Hh. rewrite Do by exact Hh. apply Fo. exact Hh.
    + left. rewrite Dt, Hd. simpl tl.
      apply names_perm in Hp. simpl in Hp. rewrite Hc in Hp. exact Hp.
  - destruct Fs as [Fs Hn]. rewrite Fs. repeat split. right. split; [reflexivity | exact Hn].
Qed.

Lemma NoDup_app_remove_l {A : Type} {a a' b : list A} {c : A} :
  NoDup (a ++ b) -> Permutation a (c :: a') ->
  NoDup (a' ++ b) /\ ~ In c (a' ++ b).
Proof.
  intros Hn Hp.
  assert (Hp' : Permutation (a ++ b) (c :: a' ++ b)).
  { change (c :: a' ++ b) with ((c :: a') ++ b). apply Permutation_app_tail. exact Hp. }
  apply (Permutation_NoDup Hp') in Hn. inversion Hn; subst. split; assumption.
Qed.

Lemma NoDup_app_remove_r {A : Type} {a b b' : list A} {c : A} :
  NoDup (a ++ b) -> Permutation b (c :: b') ->
  NoDup (a ++ b') /\ ~ In c (a ++ b').
Proof.
  intros Hn Hp.
  assert (Hp' : Permutation (a ++ b) (c :: a ++ b')).
  { rewrite (Permutation_app_head a Hp). symmetry. apply Permutation_middle. }
  apply (Permutation_NoDup Hp') in Hn. inversion Hn; subst. split; assumption.
Qed.

Lemma NoDup_app_perm_l {A : Type} {a a' b : list A} :
  NoDup (a ++ b) -> Permutation a a' -> NoDup (a' ++ b).
Proof.
  intros Hn Hp. eapply Permutation_NoDup; [|exact Hn].
  apply Permutation_app_tail. exact Hp.
Qed.

Lemma NoDup_app_perm_r {A : Type} {a b b' : list A} :
  NoDup (a ++ b) -> Permutation b b' -> NoDup (a ++ b').
Proof.
  intros Hn Hp. eapply Permutation_NoDup; [|exact Hn].
  apply Permutation_app_head. exact Hp.
Qed.

Lemma NoDup_app_tl_l {A : Type} {a b : list A} : NoDup (a ++ b) -> NoDup (tl a ++ b).
Proof. destruct a; simpl; [auto | intros H; inversion H; assumption]. Qed.

Lemma NoDup_app_tl_r {A : Type} {a b : list A} : NoDup (a ++ b) -> NoDup (a ++ tl b).
Proof.
  destruct b; simpl; [auto|]. intros H. apply NoDup_remove_1 in H. exact H.
Qed.

Lemma stores_ok_disjoint (st : State) (nm : list WCHAR) :
  stores_ok st -> ~ (defined_in (sym_head st) nm /\ defined_in (mac_head st) nm).
Proof.
  unfold stores_ok, defined_in. intros Hn [H1 H2].
  induction (names (sym_head st)) as [|x l IH]; simpl in *; [contradiction|].
  inversion Hn as [|? ? Hx Hl]; subst.
  destruct H1 as [->|H1].
  - apply Hx. apply in_or_app. right. exact H2.
  - apply IH; assumption.
Qed.

Lemma skip_blank_line (st st' : State) (p : Z) :
  line st' = line st -> skip_blank st' p = skip_blank st p.
Proof. intros H. unfold skip_blank. rewrite H. reflexivity. Qed.

Lemma len_line (st st' : State) : line st' = line st -> len st' = len st.
Proof. intros H. unfold len. rewrite H. reflexivity. Qed.

Lemma execute_defs_spec (st : State) (pos : Z) :
  stores_ok st ->
  stores_ok (execute_defs pos st)
  /\ (pos <> len st -> name_ok st pos = true ->
      ~ defined_in (mac_head (execute_defs pos st)) (name_at st pos))
  /\ (pos <> len st -> name_ok st pos = true ->
      defined_in (sym_head st) (name_at st pos) ->
      skip_blank st (skip_nondelim st pos) <> len st ->
      hd true (heap st) = true ->
      length (sym_head (execute_defs pos st)) = length (sym_head st)
      /\ exists d t,
           sym_head (execute_defs pos st) = d :: t
           /\ canon (name d) = canon (name_at st pos)
           /\ lines d = [sub (line st) (skip_blank st (skip_nondelim st pos))
                             (dw (len st - skip_blank st (skip_nondelim st pos)))]).
Proof.
  intros Hok. unfold execute_defs.
  destruct (pos =? len st) eqn:Epos.
  { apply Z.eqb_eq in Epos. split; [exact Hok|]. split; intros; contradiction. }
  unfold name_ok.
  destruct ((skip_nondelim st pos <? len st)
            && negb (isblank (char_at (line st) (skip_nondelim st pos)))) eqn:Ename.
  { split; [exact Hok|]. split; intros; discriminate. }
  destruct (name_at_key st pos) as (rest & Hk & Hcnt).
  set (nm := name_at st pos) in *.
  rewrite <- Hcnt.
  (* the macro list *)
  pose proof (find_del_spec MacHead pos nm rest st Hk) as Hm. cbv zeta in Hm.
  destruct (find_define MacHead pos (Z.of_nat (length nm)) st) as [m st1].
  simpl fst in Hm. simpl snd in Hm.
  set (st2 := if m then del_define MacHead st1 else st1) in *.
  destruct Hm as (L2 & H2 & O2 & M2).
  assert (S2 : sym_head st2 = sym_head st) by (apply (O2 SymHead); discriminate).
  assert (Hok2 : stores_ok st2 /\ ~ defined_in (mac_head st2) nm).
  { unfold stores_ok, defined_in in *. rewrite S2.
    change (mac_head st2) with (get_head MacHead st2).
    destruct M2 as [M2|[M2 M2']].
    - destruct (NoDup_app_remove_r Hok M2) as [N1 N2]. split; [exact N1|].
      intros Hin. apply N2. apply in_or_app. right. exact Hin.
    - rewrite M2. split; [exact Hok | exact M2']. }
  destruct Hok2 as [Hok2 Hnm2].
  (* the symbol list *)
  assert (Hk2 : skipn (Z.to_nat pos) (line st2) = nm ++ rest) by (rewrite L2; exact Hk).
  destruct (find_define_spec SymHead pos nm rest st2 Hk2) as (L3 & H3 & O3 & F3).
  destruct (find_define SymHead pos (Z.of_nat (length nm)) st2) as [sym st3].
  simpl fst in *. simpl snd in *.
  change (mac_head st2) with (get_head MacHead st2) in *.
  change (sym_head st2) with (get_head SymHead st2) in *.
  assert (M3 : get_head MacHead st3 = get_head MacHead st2) by (apply O3; discriminate).
  set (def := skip_blank st (skip_nondelim st pos)).
  destruct sym.
  - (* the name is a symbol already *)
    destruct F3 as (d & l' & Hd & Hc & Hp).
    destruct (names_set_lines SymHead [] st3) as (_ & _ & O4 & L4 & H4).
    pose proof (head_set_lines SymHead [] st3 _ _ Hd) as S4.
    set (st4 := set_head_lines SymHead [] st3) in *.
    assert (M4 : get_head MacHead st4 = get_head MacHead st2)
      by (rewrite O4 by discriminate; exact M3).
    assert (Ldef : skip_blank st4 (skip_nondelim st pos) = def)
      by (apply skip_blank_line; rewrite L4, L3, L2; reflexivity).
    assert (Llen : len st4 = len st)
      by (apply len_line; rewrite L4, L3, L2; reflexivity).
    rewrite Ldef, Llen.
    apply names_perm in Hp. simpl in Hp. rewrite Hc in Hp.
    destruct (NoDup_app_remove_l Hok2 Hp) as [N1 N2].
    destruct (def =? len st) eqn:Edef.
    + destruct (del_define_spec SymHead st4) as (_ & _ & Dt & Do).
      assert (SX : sym_head (del_define SymHead st4) = l')
        by (change (get_head SymHead (del_define SymHead st4) = l'); rewrite Dt, S4; reflexivity).
      assert (MX : mac_head (del_define SymHead st4) = get_head MacHead st2)
        by (change (get_head MacHead (del_define SymHead st4) = get_head MacHead st2);
            rewrite Do, M4 by discriminate; reflexivity).
      unfold stores_ok, defined_in. rewrite SX, MX.
      split; [exact N1|]. split; [intros _ _; exact Hnm2|].
      intros _ _ _ Hne. apply Z.eqb_eq in Edef. contradiction.
    + simpl negb. cbv beta iota.
      destruct (add_line_spec def st4) as (L6 & H6 & O6 & A6).
      destruct (add_line def st4) as [l0 st6]. simpl in L6, H6, O6, A6.
      assert (S6 : get_head SymHead st6 = mkDefine (name d) [] :: l')
        by (rewrite O6; exact S4).
      destruct l0 as [l0|].
      * destruct (names_set_lines SymHead [l0] st6) as (_ & _ & O7 & _ & _).
        pose proof (head_set_lines SymHead [l0] st6 _ _ S6) as S7.
        assert (SX : sym_head (set_head_lines SymHead [l0] st6) = mkDefine (name d) [l0] :: l')
          by exact S7.
        assert (MX : mac_head (set_head_lines SymHead [l0] st6) = get_head MacHead st2)
          by (change (get_head MacHead (set_head_lines SymHead [l0] st6) = get_head MacHead st2);
              rewrite O7, O6, M4 by discriminate; reflexivity).
        unfold stores_ok, defined_in. rewrite SX, MX.
        simpl names. rewrite Hc.
        split; [exact (NoDup_app_perm_l Hok2 Hp)|].
        split; [intros _ _; exact Hnm2|].
        intros _ _ _ _ Hheap. split.
        -- apply Permutation_length in Hp. unfold names in Hp.
           rewrite length_map in Hp. simpl length in Hp. rewrite length_map in Hp.
           rewrite <- S2. simpl length. lia.
        -- exists (mkDefine (name d) [l0]), l'. split; [reflexivity|].
           split; [exact Hc|]. simpl.
           rewrite H4, H3, H2, Hheap in A6. injection A6 as ->.
           rewrite Llen, L4, L3, L2. reflexivity.
      * destruct (del_define_spec SymHead st6) as (_ & _ & Dt & Do).
        assert (SX : sym_head (del_define SymHead st6) = l')
          by (change (get_head SymHead (del_define SymHead st6) = l'); rewrite Dt, S6; reflexivity).
        assert (MX : mac_head (del_define SymHead st6) = get_head MacHead st2)
          by (change (get_head MacHead (del_define SymHead st6) = get_head MacHead st2);
              rewrite Do, O6, M4 by discriminate; reflexivity).
        unfold stores_ok, defined_in. rewrite SX, MX.
        split; [exact N1|]. split; [intros _ _; exact Hnm2|].
        intros _ _ _ _ Hheap. rewrite H4, H3, H2, Hheap in A6. discriminate.
  - (* the name is no symbol yet *)
    destruct F3 as [E3 Hn3]. subst st3.
    assert (Ldef : skip_blank st2 (skip_nondelim st pos) = def)
      by (apply skip_blank_line; exact L2).
    assert (Llen : len st2 = len st) by (apply len_line; exact L2).
    rewrite Ldef, Llen.
    assert (Hthird : defined_in (sym_head st) nm -> False).
    { intros Hin. apply Hn3. rewrite S2. exact Hin. }
    destruct (def =? len st) eqn:Edef.
    + split; [exact Hok2|]. split; [intros _ _; exact Hnm2|].
      intros _ _ Hin. contradiction.
    + destruct (add_define_spec SymHead pos (Z.of_nat (length nm)) st2)
        as (L5 & H5 & A5 & O5 & S5).
      destruct (add_define SymHead pos (Z.of_nat (length nm)) st2) as [ok st5].
      simpl in L5, H5, A5, O5, S5.
      assert (M5 : get_head MacHead st5 = get_head MacHead st2) by (apply O5; discriminate).
      destruct ok; simpl negb; cbv iota.
      * assert (Hnm : sub (line st2) pos (Z.of_nat (length nm)) = nm).
        { rewrite L2, Hcnt. reflexivity. }
        rewrite Hnm in S5.
        assert (N5 : NoDup (canon nm :: names (get_head SymHead st2)
                            ++ names (get_head MacHead st2))).
        { constructor; [|exact Hok2]. intros Hin. apply in_app_or in Hin.
          destruct Hin as [Hin|Hin]; [apply Hn3 | apply Hnm2]; exact Hin. }
        destruct (add_line_spec def st5) as (L6 & H6 & O6 & A6).
        destruct (add_line def st5) as [l0 st6]. simpl in L6, H6, O6, A6.
        assert (S6 : get_head SymHead st6 = mkDefine nm [] :: get_head SymHead st2)
          by (rewrite O6; exact S5).
        destruct l0 as [l0|].
        -- destruct (names_set_lines SymHead [l0] st6) as (_ & _ & O7 & _ & _).
           pose proof (head_set_lines SymHead [l0] st6 _ _ S6) as S7.
           assert (SX : sym_head (set_head_lines SymHead [l0] st6)
                        = mkDefine nm [l0] :: get_head SymHead st2) by exact S7.
           assert (MX : mac_head (set_head_lines SymHead [l0] st6) = get_head MacHead st2)
             by (change (get_head MacHead (set_head_lines SymHead [l0] st6) = get_head MacHead st2);
                 rewrite O7, O6, M5 by discriminate; reflexivity).
           unfold stores_ok, defined_in. rewrite SX, MX.
           split; [exact N5|]. split; [intros _ _; exact Hnm2|].
           intros _ _ Hin. contradiction.
        -- destruct (del_define_spec SymHead st6) as (_ & _ & Dt & Do).
           assert (SX : sym_head (del_define SymHead st6) = get_head SymHead st2)
             by (change (get_head SymHead (del_define SymHead st6) = get_head SymHead st2);
                 rewrite Dt, S6; reflexivity).
           assert (MX : mac_head (del_define SymHead st6) = get_head MacHead st2)
             by (change (get_head MacHead (del_define SymHead st6) = get_head MacHead st2);
                 rewrite Do, O6, M5 by discriminate; reflexivity).
           unfold stores_ok, defined_in. rewrite SX, MX.
           split; [exact Hok2|]. split; [intros _ _; exact Hnm2|].
           intros _ _ Hin. contradiction.
      * assert (SX : sym_head st5 = get_head SymHead st2) by exact S5.
        assert (MX : mac_head st5 = get_head MacHead st2) by exact M5.
        unfold stores_ok, defined_in. rewrite SX, MX.
        split; [exact Hok2|]. split; [intros _ _; exact Hnm2|].
        intros _ _ Hin. contradiction.
Qed.

(** *** What does not touch the definition lists *)

Ltac frame_defs :=
  repeat match goal with
         | |- context [if ?c then _ else _] => destruct c
         | |- context [match ?x with _ => _ end] => destruct x
         end;
  try reflexivity.

Lemma defs_bell (st : State) : defs_of (bell st) = defs_of st.
Proof. unfold bell. frame_defs. Qed.

Lemma defs_copy_chars (str : list WCHAR) (cnt : Z) (st : State) :
  defs_of (copy_chars str cnt st) = defs_of st.
Proof.
  unfold copy_chars. destruct (cnt >? max (set_display_marks 0 (len st) st));
    simpl; rewrite ?defs_bell; try reflexivity.
  unfold bell. simpl. destruct (silent (opt st)); reflexivity.
Qed.

Lemma defs_remove_chars (pos cnt : Z) (st : State) :
  defs_of (remove_chars pos cnt st) = defs_of st.
Proof. reflexivity. Qed.

Lemma defs_insert_chars (pos : Z) (str : list WCHAR) (cnt : Z) (st : State) :
  defs_of (insert_chars pos str cnt st) = defs_of st.
Proof.
  unfold insert_chars. destruct (dw (len st + cnt) >? max st); simpl;
    [|reflexivity].
  unfold bell. destruct (silent (opt st)); reflexivity.
Qed.

Lemma defs_replace_chars (pos old : Z) (str : list WCHAR) (cnt : Z) (st : State) :
  defs_of (replace_chars pos old str cnt st) = defs_of st.
Proof.
  unfold replace_chars. destruct (old >=? cnt).
  - destruct (negb (old =? cnt)); reflexivity.
  - rewrite defs_insert_chars. reflexivity.
Qed.

Lemma defs_get_string_loop (fuel : nat) (keep : bool) :
  forall start pos quote oq cq st r,
    get_string_loop fuel keep start pos quote oq cq st = Some r ->
    defs_of (snd r) = defs_of st.
Proof.
  induction fuel as [|f IH]; intros start pos quote oq cq st r H; [discriminate|].
  simpl in H.
  repeat match type of H with
         | (if ?c then _ else _) = _ => destruct c
         | match ?x with _ => _ end = _ => destruct x
         end;
    try (injection H as <-; reflexivity);
    try (apply IH in H; rewrite H; reflexivity).
Qed.

Lemma defs_get_string (pos : Z) (keep : bool) (st : State) (r : Z * Z * State) :
  get_string pos keep st = Some r -> defs_of (snd r) = defs_of st.
Proof.
  unfold get_string, bind. intros H.
  destruct (get_string_loop _ _ _ _ _ _ _ _) as [[[[p oq] cq] st1]|] eqn:E;
    [|discriminate].
  apply defs_get_string_loop in E. simpl snd in E.
  change (defs_of (set_found_quote false st)) with (defs_of st) in E.
  repeat match type of H with
         | (if ?c then _ else _) = _ => destruct c
         | match ?x with _ => _ end = _ => destruct x
         end;
    injection H as <-; simpl snd; (etransitivity; [|exact E]); reflexivity.
Qed.

Lemma defs_un_escape_loop (fuel : nat) (unq : option (list WCHAR)) :
  forall quote pos st r,
    un_escape_loop fuel unq quote pos st = Some r -> defs_of r = defs_of st.
Proof.
  induction fuel as [|f IH]; intros quote pos st r H; [discriminate|].
  simpl in H.
  repeat match type of H with
         | (if ?c then _ else _) = _ => destruct c
         | match ?x with _ => _ end = _ => destruct x
         end;
    try (injection H as <-; reflexivity);
    try (apply IH in H; rewrite H; reflexivity).
Qed.

Lemma defs_un_escape (unq : option (list WCHAR)) (st r : State) :
  un_escape unq st = Some r -> defs_of r = defs_of st.
Proof.
  unfold un_escape. destruct (negb (memchr (line st) ESCAPE)).
  - intros H. injection H as <-. reflexivity.
  - apply defs_un_escape_loop.
Qed.

Lemma defs_get_arg (n : nat) :
  forall arg cnt st r, get_arg n arg cnt st = Some r -> defs_of (snd r) = defs_of st.
Proof.
  induction n as [|n IH]; intros arg cnt st r H; simpl in H.
  - injection H as <-. reflexivity.
  - unfold bind in H.
    destruct (get_string (arg + cnt) true st) as [[[a c] st1]|] eqn:E; [|discriminate].
    apply defs_get_string in E. apply IH in H. rewrite H. exact E.
Qed.

Lemma defs_macro_args_loop (fuel : nat) (args : list WCHAR) :
  forall pos st r, macro_args_loop fuel args pos st = Some r -> defs_of r = defs_of st.
Proof.
  induction fuel as [|f IH]; intros pos st r H; [discriminate|].
  simpl in H.
  destruct (negb (pos <? len st)); [injection H as <-; reflexivity|].
  destruct (char_at (line st) pos =? ESCAPE); [apply IH in H; exact H|].
  match type of H with (if ?c then _ else _) = _ => destruct c end;
    [|apply IH in H; exact H].
  unfold bind in H.
  destruct (get_arg _ 0 0 (set_line args st)) as [[[a c] sa]|]; [|discriminate].
  match type of H with
  | (let '(_, _) := ?c in _) = _ => destruct c
  end.
  apply IH in H. rewrite H, defs_replace_chars. reflexivity.
Qed.

Lemma defs_get_macro_line (st r : State) :
  get_macro_line st = Some r -> defs_of r = defs_of st.
Proof.
  unfold get_macro_line, bind. destruct (macro_stk st) as [|m rest]; [discriminate|].
  intros H.
  destruct (macro_args_loop _ _ _ _) as [s1|] eqn:E1; [|discriminate].
  destruct (un_escape _ s1) as [s2|] eqn:E2; [|discriminate].
  apply defs_macro_args_loop in E1. apply defs_un_escape in E2.
  rewrite defs_copy_chars in E1.
  destruct (tl (lines m)); injection H as <-; unfold defs_of in *; simpl;
    congruence.
Qed.

Lemma defs_get_file_line (st : State) (r : FileLine * State) :
  get_file_line st = Some r -> defs_of (snd r) = defs_of st.
Proof.
  unfold get_file_line. destruct (file st) as [ls|]; [|discriminate].
  destruct (skip_ignored ls) as [|l rest].
  - simpl. destruct (def_macro st); intros H; injection H as <-; reflexivity.
  - destruct (c_string l) as [|c buf]; [discriminate|].
    destruct (_ >? _); [|intros H; injection H as <-; reflexivity].
    unfold malloc. simpl heap.
    destruct (heap st) as [|[] t]; intros H; injection H as <-; reflexivity.
Qed.

Lemma defs_type_char (ovr : bool) (c : WCHAR) (e : Edit) (st : State)
  (r : Edit * State) :
  type_char ovr c e st = Some r -> defs_of (snd r) = defs_of st.
Proof.
  unfold type_char. cbv zeta.
  set (s1 := if ovr || (ed_recall e && ed_cont e) then _ else _).
  assert (H1 : defs_of s1 = defs_of st).
  { unfold s1. destruct (ovr || _).
    - destruct (negb _); [|reflexivity]. destruct (_ =? _); reflexivity.
    - destruct (_ <? _); reflexivity. }
  clearbody s1.
  destruct (negb (dispend s1 =? 0)).
  - destruct (ed_recall e && ed_cont e).
    + unfold bind. destruct (search_history _ _ _ _) as [[h|]|]; [| |discriminate];
        intros H; injection H as <-; simpl snd;
        rewrite ?defs_copy_chars; exact H1.
    + intros H. injection H as <-. exact H1.
  - intros H. injection H as <-. simpl snd.
    unfold bell. destruct (silent (opt s1)); exact H1.
Qed.

Lemma defs_add_to_history (st : State) : defs_of (add_to_history st) = defs_of st.
Proof.
  unfold add_to_history. destruct (len st <? min_length (opt st)); [reflexivity|].
  destruct (find_identical _ _); [reflexivity|].
  destruct (_ && _); unfold malloc; simpl; destruct (heap st) as [|[] t]; reflexivity.
Qed.

Lemma defs_type_chars (ovr : bool) (l : list WCHAR) :
  forall e st r, type_chars ovr l e st = Some r -> defs_of (snd r) = defs_of st.
Proof.
  induction l as [|c l IH]; intros e st r H; simpl in H.
  - injection H as <-. reflexivity.
  - destruct (c <? 32); [discriminate|]. unfold bind in H.
    destruct (type_char ovr c e st) as [[e1 s1]|] eqn:E; [|discriminate].
    apply defs_type_char in E. apply IH in H. rewrite H. exact E.
Qed.

Lemma defs_edit_line (st r : State) : edit_line st = Some r -> defs_of r = defs_of st.
Proof.
  unfold edit_line. destruct (input st) as [|l rest]; [discriminate|].
  destruct (check_break st >? 1); [discriminate|].
  unfold bind.
  destruct (type_chars _ _ _ _) as [[e1 s1]|] eqn:E; [|discriminate].
  intros H. injection H as <-. rewrite defs_add_to_history.
  apply defs_type_chars in E. exact E.
Qed.

Lemma defs_get_next_line (st r : State) :
  get_next_line st = Some r -> defs_of r = defs_of st.
Proof.
  unfold get_next_line. simpl.
  destruct (file st).
  - unfold bind.
    destruct (get_file_line _) as [[fl s1]|] eqn:E; [|discriminate].
    apply defs_get_file_line in E.
    destruct fl; try discriminate; intros H; injection H as <-; exact E.
  - destruct (macro_stk st) eqn:Em.
    + destruct (mcmd_txt (mcmd st)).
      * intros H. injection H as <-.
        destruct (negb (mcmd_len (mcmd st) =? 0)); simpl; [|reflexivity].
        change (defs_of (copy_chars l (mcmd_len (mcmd st)) (set_kbd false (set_line [] st)))
                = defs_of st).
        rewrite defs_copy_chars. reflexivity.
      * intros H. apply defs_edit_line in H. exact H.
    + intros H. apply defs_get_macro_line in H. exact H.
Qed.

(** ** [execute_defm] and the sequences of definitions *)

Lemma defm_lines_spec (fuel : nat) :
  forall ll st r,
    defm_lines fuel ll st = Some r ->
    sym_head (snd r) = sym_head st
    /\ names (mac_head (snd r)) = names (mac_head st).
Proof.
  induction fuel as [|f IH]; intros ll st r H; [discriminate|].
  simpl in H. unfold bind in H.
  destruct (get_next_line st) as [st1|] eqn:E1; [|discriminate].
  apply defs_get_next_line in E1. unfold defs_of in E1.
  injection E1 as Es Em _.
  destruct (_ && _).
  - injection H as <-. simpl. rewrite Es, Em. split; reflexivity.
  - destruct (add_line_spec 0 st1) as (_ & _ & O2 & _).
    destruct (add_line 0 st1) as [l st2]. simpl in O2.
    destruct l as [l|].
    + apply IH in H. destruct H as [H1 H2].
      destruct (names_set_lines MacHead
                  (match mac_head st2 with [] => [] | d :: _ => lines d end ++ [l]) st2)
        as (N3 & _ & O3 & _).
      rewrite H1, H2.
      change (sym_head (set_head_lines MacHead
                 (match mac_head st2 with [] => [] | d :: _ => lines d end ++ [l]) st2))
        with (get_head SymHead (set_head_lines MacHead
                 (match mac_head st2 with [] => [] | d :: _ => lines d end ++ [l]) st2)).
      rewrite O3 by discriminate.
      change (names (get_head MacHead (set_head_lines MacHead
                 (match mac_head st2 with [] => [] | d :: _ => lines d end ++ [l]) st2))
              = names (get_head MacHead st2)) in N3.
      change (mac_head (set_head_lines MacHead
                 (match mac_head st2 with [] => [] | d :: _ => lines d end ++ [l]) st2))
        with (get_head MacHead (set_head_lines MacHead
                 (match mac_head st2 with [] => [] | d :: _ => lines d end ++ [l]) st2)).
      rewrite N3, !O2. simpl. rewrite Es, Em. split; reflexivity.
    + injection H as <-. simpl.
      change (sym_head st2) with (get_head SymHead st2).
      change (mac_head st2) with (get_head MacHead st2).
      rewrite !O2. simpl. rewrite Es, Em. split; reflexivity.
Qed.

Lemma execute_defm_spec (st st' : State) (pos : Z) :
  stores_ok st ->
  execute_defm pos st = Some st' ->
  stores_ok st'
  /\ (def_macro st = false -> name_ok st pos = true ->
      ~ defined_in (sym_head st') (name_at st pos))
  /\ (def_macro st = false -> name_ok st pos = true ->
      defined_in (mac_head st) (name_at st pos) ->
      skip_blank st (skip_nondelim st pos) <> len st ->
      hd true (heap st) = true ->
      length (mac_head st') = length (mac_head st)
      /\ exists d t,
           mac_head st' = d :: t
           /\ canon (name d) = canon (name_at st pos)
           /\ lines d = [sub (line st) (skip_blank st (skip_nondelim st pos))
                             (dw (len st - skip_blank st (skip_nondelim st pos)))]).
Proof.
  intros Hok. unfold execute_defm.
  destruct (def_macro st) eqn:Edm.
  { intros H. injection H as <-. split; [exact Hok|]. split; intros; discriminate. }
  unfold name_ok.
  change (skip_nondelim (set_def_macro true st) pos) with (skip_nondelim st pos).
  change (len (set_def_macro true st)) with (len st).
  change (line (set_def_macro true st)) with (line st).
  destruct ((skip_nondelim st pos <? len st)
            && negb (isblank (char_at (line st) (skip_nondelim st pos)))) eqn:Ename.
  { intros H. injection H as <-. split; [exact Hok|]. split; intros; discriminate. }
  destruct (name_at_key st pos) as (rest & Hk & Hcnt).
  set (nm := name_at st pos) in *.
  rewrite <- Hcnt.
  set (st0 := set_def_macro true st).
  assert (Hk0 : skipn (Z.to_nat pos) (line st0) = nm ++ rest) by exact Hk.
  (* the symbol list *)
  pose proof (find_del_spec SymHead pos nm rest st0 Hk0) as Hs. cbv zeta in Hs.
  destruct (find_define SymHead pos (Z.of_nat (length nm)) st0) as [s st1].
  simpl fst in Hs. simpl snd in Hs.
  set (st2 := if s then del_define SymHead st1 else st1) in *.
  destruct Hs as (L2 & H2 & O2 & S2).
  assert (M2 : get_head MacHead st2 = mac_head st) by (apply (O2 MacHead); discriminate).
  assert (Hok2 : NoDup (names (get_head SymHead st2) ++ names (get_head MacHead st2))
                 /\ ~ defined_in (get_head SymHead st2) nm).
  { unfold stores_ok, defined_in in *. rewrite M2.
    destruct S2 as [S2|[S2 S2']].
    - destruct (NoDup_app_remove_l Hok S2) as [N1 N2]. split; [exact N1|].
      intros Hin. apply N2. apply in_or_app. left. exact Hin.
    - rewrite S2. split; [exact Hok | exact S2']. }
  destruct Hok2 as [Hok2 Hnm2].
  (* the macro list *)
  assert (Hk2 : skipn (Z.to_nat pos) (line st2) = nm ++ rest) by (rewrite L2; exact Hk).
  destruct (find_define_spec MacHead pos nm rest st2 Hk2) as (L3 & H3 & O3 & F3).
  destruct (find_define MacHead pos (Z.of_nat (length nm)) st2) as [m st3].
  simpl fst in *. simpl snd in *.
  assert (S3 : get_head SymHead st3 = get_head SymHead st2) by (apply O3; discriminate).
  set (def := skip_blank st (skip_nondelim st pos)).
  assert (Hgoal : forall s4 : State,
             NoDup (names (get_head SymHead s4) ++ names (get_head MacHead s4)) ->
             get_head SymHead s4 = get_head SymHead st2 ->
             stores_ok (set_def_macro false s4)
             /\ (false = false -> negb false = true ->
                 ~ defined_in (sym_head (set_def_macro false s4)) nm)).
  { intros s4 N4 E4. split; [exact N4|]. intros _ _.
    change (~ defined_in (get_head SymHead s4) nm). rewrite E4. exact Hnm2. }
  assert (Htl : forall s4 : State,
             NoDup (names (get_head SymHead s4) ++ names (get_head MacHead s4)) ->
             NoDup (names (get_head SymHead (del_define MacHead s4))
                    ++ names (get_head MacHead (del_define MacHead s4)))
             /\ get_head SymHead (del_define MacHead s4) = get_head SymHead s4).
  { intros s4 N4. destruct (del_define_spec MacHead s4) as (_ & _ & Dt & Do).
    rewrite Dt, Do by discriminate. split; [|reflexivity].
    replace (names (tl (get_head MacHead s4))) with (tl (names (get_head MacHead s4)))
      by (destruct (get_head MacHead s4); reflexivity).
    apply NoDup_app_tl_r. exact N4. }
  (* the state in which the definition's lines are read *)
  assert (H4 : forall ok st4,
             (if m then (true, set_head_lines MacHead [] st3)
              else add_define MacHead pos (Z.of_nat (length nm)) st3) = (ok, st4) ->
             NoDup (names (get_head SymHead st4) ++ names (get_head MacHead st4))
             /\ get_head SymHead st4 = get_head SymHead st2
             /\ line st4 = line st
             /\ (m = true ->
                 ok = true /\ heap st4 = heap st
                 /\ exists d t, get_head MacHead st4 = mkDefine (name d) [] :: t
                                /\ canon (name d) = canon nm
                                /\ Permutation (mac_head st) (d :: t))).
  { intros ok st4 E4. destruct m.
    - injection E4 as <- <-.
      destruct F3 as (d & l' & Hd & Hc & Hp).
      destruct (names_set_lines MacHead [] st3) as (N5 & _ & O5 & L5 & H5).
      rewrite N5, O5, S3 by discriminate. rewrite L5, L3, L2, H5, H3, H2.
      pose proof (names_perm _ _ Hp) as Hpn. rewrite Hd.
      split; [exact (NoDup_app_perm_r Hok2 Hpn)|].
      split; [reflexivity|]. split; [reflexivity|]. intros _.
      split; [reflexivity|]. split; [reflexivity|].
      exists d, l'. split; [apply (head_set_lines MacHead [] st3 _ _ Hd)|].
      split; [exact Hc|]. rewrite <- M2. exact Hp.
    - destruct F3 as [E3 Hn3]. subst st3.
      destruct (add_define_spec MacHead pos (Z.of_nat (length nm)) st2)
        as (L5 & _ & A5 & O5 & S5).
      rewrite E4 in L5, A5, O5, S5. simpl fst in A5, S5. simpl snd in L5, O5, S5.
      rewrite O5 by discriminate. rewrite S5, L5, L2.
      split; [|split; [reflexivity|split; [reflexivity|discriminate]]].
      destruct ok; [|exact Hok2].
      assert (Hnm : sub (line st) pos (Z.of_nat (length nm)) = nm).
      { rewrite Hcnt. reflexivity. }
      change (line st0) with (line st). rewrite Hnm. simpl names.
      apply (Permutation_NoDup (Permutation_middle _ _ _)).
      constructor; [|exact Hok2]. intros Hin. apply in_app_or in Hin.
      destruct Hin as [Hin|Hin]; [apply Hnm2 | apply Hn3]; exact Hin. }
  destruct (if m then (true, set_head_lines MacHead [] st3)
            else add_define MacHead pos (Z.of_nat (length nm)) st3) as [ok st4].
  specialize (H4 ok st4 eq_refl). destruct H4 as (N4 & E4 & L4 & R4).
  assert (Hthird : m = false -> defined_in (mac_head st) nm -> False).
  { intros -> Hin. destruct F3 as [_ Hn3]. apply Hn3. rewrite M2. exact Hin. }
  destruct ok; simpl negb; cbv iota.
  2:{ intros H. injection H as <-. destruct (Hgoal st4 N4 E4) as [G1 G2].
      split; [exact G1|]. split; [exact G2|].
      intros _ _ Hin _ _. destruct m; [|destruct (Hthird eq_refl Hin)].
      destruct (R4 eq_refl) as [R _]. discriminate. }
  assert (Ldef : skip_blank st4 (skip_nondelim st pos) = def)
    by (apply skip_blank_line; exact L4).
  assert (Llen : len st4 = len st) by (apply len_line; exact L4).
  rewrite Ldef, Llen.
  destruct (def =? len st) eqn:Edef; simpl negb; cbv iota.
  - (* the lines are read up to the end of the definition *)
    unfold bind.
    destruct (defm_lines (lines_left st4) false st4) as [[ll st5]|] eqn:E5;
      [|discriminate].
    apply defm_lines_spec in E5. simpl in E5. destruct E5 as [Es Em].
    assert (N5 : NoDup (names (get_head SymHead st5) ++ names (get_head MacHead st5))).
    { change (NoDup (names (sym_head st5) ++ names (mac_head st5))).
      rewrite Es, Em. exact N4. }
    assert (E5 : get_head SymHead st5 = get_head SymHead st2)
      by (rewrite <- E4; exact Es).
    intros H. injection H as <-.
    assert (G : stores_ok (set_def_macro false (if ll then st5 else del_define MacHead st5))
             /\ (false = false -> negb false = true ->
                 ~ defined_in (sym_head (set_def_macro false
                                 (if ll then st5 else del_define MacHead st5))) nm)).
    { destruct ll; [exact (Hgoal st5 N5 E5)|].
      destruct (Htl st5 N5) as [N6 E6]. apply Hgoal; [exact N6|].
      rewrite E6. exact E5. }
    destruct G as [G1 G2]. split; [exact G1|]. split; [exact G2|].
    intros _ _ _ Hne. apply Z.eqb_eq in Edef. contradiction.
  - (* the definition is the rest of the line *)
    destruct (add_line_spec def st4) as (L6 & H6 & O6 & A6).
    destruct (add_line def st4) as [l0 st6]. simpl in L6, H6, O6, A6.
    assert (N6 : NoDup (names (get_head SymHead st6) ++ names (get_head MacHead st6)))
      by (rewrite !O6; exact N4).
    assert (E6 : get_head SymHead st6 = get_head SymHead st2)
      by (rewrite O6; exact E4).
    destruct l0 as [l0|]; intros H; injection H as <-.
    + destruct (names_set_lines MacHead [l0] st6) as (N7 & _ & O7 & _ & _).
      assert (G : stores_ok (set_def_macro false (set_head_lines MacHead [l0] st6))
               /\ (false = false -> negb false = true ->
                   ~ defined_in (sym_head (set_def_macro false
                                   (set_head_lines MacHead [l0] st6))) nm)).
      { apply Hgoal.
        - rewrite N7, O7 by discriminate. exact N6.
        - rewrite O7 by discriminate. exact E6. }
      destruct G as [G1 G2]. split; [exact G1|]. split; [exact G2|].
      intros _ _ Hin _ Hheap. destruct m; [|destruct (Hthird eq_refl Hin)].
      destruct (R4 eq_refl) as (_ & Hh & d & t & Hd & Hc & Hp).
      assert (S6 : get_head MacHead st6 = mkDefine (name d) [] :: t)
        by (rewrite O6; exact Hd).
      pose proof (head_set_lines MacHead [l0] st6 _ _ S6) as S7.
      change (mac_head (set_def_macro false (set_head_lines MacHead [l0] st6)))
        with (get_head MacHead (set_head_lines MacHead [l0] st6)).
      rewrite S7. split.
      * apply Permutation_length in Hp. rewrite Hp. reflexivity.
      * exists (mkDefine (name d) [l0]), t. split; [reflexivity|].
        split; [exact Hc|]. simpl.
        rewrite Hh, Hheap in A6. injection A6 as ->.
        rewrite Llen, L4. reflexivity.
    + destruct (Htl st6 N6) as [N7 E7].
      destruct (Hgoal (del_define MacHead st6) N7) as [G1 G2];
        [rewrite E7; exact E6|].
      split; [exact G1|]. split; [exact G2|].
      intros _ _ Hin _ Hheap. destruct m; [|destruct (Hthird eq_refl Hin)].
      destruct (R4 eq_refl) as (_ & Hh & _).
      rewrite Hh, Hheap in A6. discriminate.
Qed.

(** Whatever of the state neither the definition lists nor the allocator
    hold is left alone by the commands that define. *)
Section Frame.
Context {T : Type} (proj : State -> T).
Hypothesis proj_head : forall h l st, proj (set_head h l st) = proj st.
Hypothesis proj_heap : forall h st, proj (set_heap h st) = proj st.

Lemma frame_malloc (st : State) : proj (snd (malloc st)) = proj st.
Proof. unfold malloc. destruct (heap st); [reflexivity | apply proj_heap]. Qed.

Lemma frame_find_define (h : Head) (pos cnt : Z) (st : State) :
  proj (snd (find_define h pos cnt st)) = proj st.
Proof.
  unfold find_define. destruct (find_walk _ _ _); simpl snd;
    [apply proj_head | reflexivity].
Qed.

Lemma frame_del_define (h : Head) (st : State) :
  proj (del_define h st) = proj st.
Proof. apply proj_head. Qed.

Lemma frame_set_head_lines (h : Head) (ls : list (list WCHAR)) (st : State) :
  proj (set_head_lines h ls st) = proj st.
Proof.
  unfold set_head_lines. destruct (get_head h st); [reflexivity | apply proj_head].
Qed.

Lemma frame_add_define (h : Head) (pos cnt : Z) (st : State) :
  proj (snd (add_define h pos cnt st)) = proj st.
Proof.
  unfold add_define. pose proof (frame_malloc st) as H.
  destruct (malloc st) as [[|] s]; simpl snd in *; [rewrite proj_head|]; exact H.
Qed.

Lemma frame_add_line (pos : Z) (st : State) :
  proj (snd (add_line pos st)) = proj st.
Proof.
  unfold add_line. pose proof (frame_malloc st) as H.
  destruct (malloc st) as [[|] s]; simpl snd in *; exact H.
Qed.

Lemma frame_execute_defs (pos : Z) (st : State) :
  proj (execute_defs pos st) = proj st.
Proof.
  unfold execute_defs.
  destruct (pos =? len st); [reflexivity|].
  destruct (_ && _); [reflexivity|].
  pose proof (frame_find_define MacHead pos (skip_nondelim st pos - pos) st) as H1.
  destruct (find_define MacHead pos (skip_nondelim st pos - pos) st) as [m st1].
  simpl snd in H1.
  assert (H2 : proj (if m then del_define MacHead st1 else st1) = proj st)
    by (destruct m; [rewrite frame_del_define|]; exact H1).
  set (st2 := if m then del_define MacHead st1 else st1) in *.
  pose proof (frame_find_define SymHead pos (skip_nondelim st pos - pos) st2) as H3.
  destruct (find_define SymHead pos (skip_nondelim st pos - pos) st2) as [sym st3].
  simpl snd in H3. rewrite H2 in H3.
  assert (H4 : proj (if sym then set_head_lines SymHead [] st3 else st3) = proj st)
    by (destruct sym; [rewrite frame_set_head_lines|]; exact H3).
  set (st4 := if sym then set_head_lines SymHead [] st3 else st3) in *.
  destruct (skip_blank st4 (skip_nondelim st pos) =? len st4).
  { destruct sym; [rewrite frame_del_define|]; exact H4. }
  assert (H5 : forall ok st5,
             (if sym then (true, st4)
              else add_define SymHead pos (skip_nondelim st pos - pos) st4) = (ok, st5) ->
             proj st5 = proj st).
  { intros ok st5 E. destruct sym.
    - injection E as _ <-. exact H4.
    - pose proof (frame_add_define SymHead pos (skip_nondelim st pos - pos) st4) as H.
      rewrite E in H. simpl snd in H. rewrite H. exact H4. }
  destruct (if sym then (true, st4)
            else add_define SymHead pos (skip_nondelim st pos - pos) st4) as [ok st5].
  specialize (H5 ok st5 eq_refl).
  destruct ok; simpl negb; cbv iota; [|exact H5].
  pose proof (frame_add_line (skip_blank st4 (skip_nondelim st pos)) st5) as H6.
  destruct (add_line (skip_blank st4 (skip_nondelim st pos)) st5) as [[l|] st6];
    simpl snd in H6; [rewrite frame_set_head_lines | rewrite frame_del_define];
    rewrite H6; exact H5.
Qed.

End Frame.

Lemma dm_execute_defs (pos : Z) (st : State) :
  def_macro (execute_defs pos st) = def_macro st.
Proof.
  apply (frame_execute_defs def_macro); [intros h; destruct h|]; reflexivity.
Qed.

Lemma history_execute_defs (pos : Z) (st : State) :
  history (execute_defs pos st) = history st.
Proof.
  apply (frame_execute_defs history); [intros h; destruct h|]; reflexivity.
Qed.

Lemma dm_execute_defm (pos : Z) (st st' : State) :
  def_macro st = false -> execute_defm pos st = Some st' -> def_macro st' = false.
Proof.
  intros Hd. unfold execute_defm. rewrite Hd.
  destruct (_ && _); [intros H; injection H as <-; reflexivity|].
  destruct (find_define SymHead _ _ _) as [s st1].
  destruct (find_define MacHead _ _ _) as [m st3].
  destruct (if m then _ else _) as [ok st4].
  destruct (negb ok); [intros H; injection H as <-; reflexivity|].
  destruct (negb _).
  - destruct (add_line _ _) as [[l|] st5]; intros H; injection H as <-; reflexivity.
  - unfold bind. destruct (defm_lines _ _ _) as [[ll st5]|]; [|discriminate].
    intros H; injection H as <-; reflexivity.
Qed.

Lemma find_define_line (h : Head) (pos cnt : Z) (st : State) :
  line (snd (find_define h pos cnt st)) = line st.
Proof.
  unfold find_define. destruct (find_walk _ _ _); simpl snd;
    [apply line_set_head | reflexivity].
Qed.

Lemma execute_defm_single (pos : Z) (st : State) :
  skip_blank st (skip_nondelim st pos) <> len st ->
  exists st', execute_defm pos st = Some st'.
Proof.
  intros Hne. unfold execute_defm.
  destruct (def_macro st); [eexists; reflexivity|].
  destruct (_ && _); [eexists; reflexivity|].
  change (skip_nondelim (set_def_macro true st) pos) with (skip_nondelim st pos).
  set (cnt := skip_nondelim st pos - pos).
  pose proof (find_define_line SymHead pos cnt (set_def_macro true st)) as L1.
  destruct (find_define SymHead pos cnt (set_def_macro true st)) as [s st1].
  simpl snd in L1.
  assert (L2 : line (if s then del_define SymHead st1 else st1) = line st).
  { destruct s; [|exact L1].
    destruct (del_define_spec SymHead st1) as (Dl & _). rewrite Dl. exact L1. }
  set (st2 := if s then del_define SymHead st1 else st1) in *.
  pose proof (find_define_line MacHead pos cnt st2) as L3.
  destruct (find_define MacHead pos cnt st2) as [m st3]. simpl snd in L3.
  assert (L4 : forall ok st4,
             (if m then (true, set_head_lines MacHead [] st3)
              else add_define MacHead pos cnt st3) = (ok, st4) ->
             line st4 = line st).
  { intros ok st4 E. destruct m.
    - injection E as _ <-.
      destruct (names_set_lines MacHead [] st3) as (_ & _ & _ & L & _).
      rewrite L, L3. exact L2.
    - destruct (add_define_spec MacHead pos cnt st3) as (L & _).
      rewrite E in L. simpl snd in L. rewrite L, L3. exact L2. }
  destruct (if m then (true, set_head_lines MacHead [] st3)
            else add_define MacHead pos cnt st3) as [ok st4].
  specialize (L4 ok st4 eq_refl).
  destruct (negb ok); [eexists; reflexivity|].
  rewrite (skip_blank_line st st4 _ L4), (len_line st st4 L4).
  destruct (Z.eqb_spec (skip_blank st (skip_nondelim st pos)) (len st)) as [E|_];
    [contradiction|].
  simpl negb. cbv iota.
  destruct (add_line _ st4) as [[l|] st5]; eexists; reflexivity.
Qed.

Lemma run_def_cmds_inv (cs : list def_cmd) :
  forall st st' : State,
    stores_ok st -> def_macro st = false ->
    run_def_cmds cs st = Some st' ->
    stores_ok st' /\ def_macro st' = false.
Proof.
  induction cs as [|c cs IH]; intros st st' Hok Hdm H.
  - injection H as <-. split; assumption.
  - simpl in H. unfold bind in H.
    destruct (run_def_cmd c st) as [s1|] eqn:E; [|discriminate].
    apply (IH s1 st'); [| |exact H]; destruct c as [l pos|l pos]; simpl in E.
    + injection E as <-.
      apply (proj1 (execute_defs_spec (set_line l st) pos Hok)).
    + apply (proj1 (execute_defm_spec (set_line l st) s1 pos Hok E)).
    + injection E as <-. rewrite dm_execute_defs. exact Hdm.
    + apply (dm_execute_defm pos (set_line l st) s1 Hdm E).
Qed.

(** ** Brace expansion *)

Lemma find_open_spec (l : list WCHAR) (f : nat) :
  forall pos quote term prepos,
    (0 < f)%nat -> Z.of_nat (length l) - pos < Z.of_nat f ->
    exists pos' q t pp,
      find_open f l pos quote term prepos = Some (pos', q, t, pp)
      /\ pos <= pos'
      /\ (pos' < Z.of_nat (length l) -> char_at l pos' = LBRACE).
Proof.
  induction f as [|f IH]; intros pos quote term prepos H0 Hf; [lia|].
  simpl find_open.
  destruct (pos <? Z.of_nat (length l)) eqn:Ep; simpl negb; cbv iota.
  2:{ apply Z.ltb_ge in Ep. exists pos, quote, term, prepos.
      split; [reflexivity|]. split; lia. }
  apply Z.ltb_lt in Ep.
  set (q := if is_quote_at l pos then negb quote else quote).
  assert (Hrec : forall p q' t' pp', pos + 1 <= p ->
             exists pos' q0 t0 pp0,
               find_open f l p q' t' pp' = Some (pos', q0, t0, pp0)
               /\ pos <= pos'
               /\ (pos' < Z.of_nat (length l) -> char_at l pos' = LBRACE)).
  { intros p q' t' pp' Hp.
    destruct (IH p q' t' pp') as (pos' & q0 & t0 & pp0 & E & Hle & Hb); [lia|lia|].
    exists pos', q0, t0, pp0. split; [exact E|]. split; [lia | exact Hb]. }
  destruct (char_at l pos =? ESCAPE); [apply Hrec; lia|].
  destruct (char_at l pos =? LBRACE) eqn:Eb.
  { apply Z.eqb_eq in Eb. exists pos, q, term, prepos.
    split; [reflexivity|]. split; [lia|]. intros _. exact Eb. }
  destruct (negb q); [|apply Hrec; lia].
  destruct (wcschr BRACE_TERM (char_at l pos)); [apply Hrec; lia|].
  destruct (wcschr BRACE_STOP (char_at l pos)); apply Hrec; lia.
Qed.

Lemma find_close_total (l : list WCHAR) (quote : bool) (f : nat) :
  forall postpos q1 count comma,
    (0 < f)%nat -> Z.of_nat (length l) - postpos < Z.of_nat f ->
    exists r, find_close f l quote postpos q1 count comma = Some r.
Proof.
  induction f as [|f IH]; intros postpos q1 count comma H0 Hf; [lia|].
  simpl find_close.
  destruct (postpos <? Z.of_nat (length l)) eqn:Ep; simpl negb; cbv iota;
    [|eexists; reflexivity].
  apply Z.ltb_lt in Ep.
  destruct q1; [apply IH; lia|].
  destruct (is_quote_at l postpos).
  { destruct quote; [eexists; reflexivity | apply IH; lia]. }
  destruct (char_at l postpos =? ESCAPE); [apply IH; lia|].
  destruct (char_at l postpos =? LBRACE); [apply IH; lia|].
  destruct (char_at l postpos =? RBRACE).
  { destruct (count - 1 =? 0); [eexists; reflexivity | apply IH; lia]. }
  destruct ((char_at l postpos =? COMMA) && (count =? 1)); apply IH; lia.
Qed.

(** The comma that [find_close] reports is a comma at depth 1 outside
    quotes. *)
Lemma find_close_comma (l : list WCHAR) (quote : bool) (f : nat) :
  forall (n : nat) postpos q1 (depth : nat) comma pp q c cm,
    (1 <= depth)%nat ->
    Z.of_nat (length l) - postpos <= Z.of_nat n ->
    find_close f l quote postpos q1 (Z.of_nat depth) comma = Some (Some (pp, q, c, cm)) ->
    top_level_comma n l postpos q1 depth = false ->
    cm = comma.
Proof.
  induction f as [|f IH]; intros n postpos q1 depth comma pp q c cm Hd Hn E T;
    [discriminate|].
  simpl find_close in E.
  destruct (postpos <? Z.of_nat (length l)) eqn:Ep; simpl negb in E; cbv iota in E.
  2:{ injection E as _ _ _ <-. reflexivity. }
  pose proof Ep as Ep'. apply Z.ltb_lt in Ep'.
  destruct n as [|n]; [lia|].
  simpl top_level_comma in T. rewrite Ep in T. simpl negb in T. cbv iota in T.
  destruct q1.
  { eapply IH; [ | | exact E | exact T]; lia. }
  destruct (is_quote_at l postpos).
  { destruct quote; [discriminate|].
    eapply IH; [ | | exact E | exact T]; lia. }
  destruct (char_at l postpos =? ESCAPE).
  { replace (postpos + 1 + 1) with (postpos + 2) in E by lia.
    eapply IH; [ | | exact E | exact T]; lia. }
  destruct (char_at l postpos =? LBRACE).
  { replace (Z.of_nat depth + 1) with (Z.of_nat (S depth)) in E by lia.
    eapply IH; [ | | exact E | exact T]; lia. }
  destruct (char_at l postpos =? RBRACE).
  { destruct depth as [|[|d]]; [lia| |].
    - change (Z.of_nat 1 - 1 =? 0) with true in E. cbv iota in E.
      injection E as _ _ _ <-. reflexivity.
    - replace (Z.of_nat (S (S d)) - 1) with (Z.of_nat (S d)) in E by lia.
      destruct (Z.eqb_spec (Z.of_nat (S d)) 0) as [E0|_]; [lia|].
      eapply IH; [ | | exact E | exact T]; lia. }
  assert (Ec : (Z.of_nat depth =? 1) = (depth =? 1)%nat).
  { destruct (Nat.eqb_spec depth 1) as [->|Hne]; [reflexivity|].
    apply Z.eqb_neq. lia. }
  rewrite Ec in E.
  destruct ((char_at l postpos =? COMMA) && (depth =? 1)%nat); [discriminate|].
  eapply IH; [ | | exact E | exact T]; lia.
Qed.

Lemma no_group_has_comma_at (l : list WCHAR) (p : Z) :
  no_group_has_comma l = true ->
  0 <= p < Z.of_nat (length l) ->
  char_at l p = LBRACE ->
  group_has_comma l p = false.
Proof.
  unfold no_group_has_comma. intros H Hp Hc.
  rewrite forallb_forall in H.
  specialize (H (Z.to_nat p)).
  rewrite Z2Nat.id in H by lia. rewrite Hc in H.
  change (LBRACE =? LBRACE) with true in H. simpl in H.
  apply negb_true_iff. apply H. apply in_seq. lia.
Qed.

Lemma brace_scan_no_comma (l : list WCHAR) :
  no_group_has_comma l = true ->
  forall (f : nat) pos prepos term quote,
    0 <= pos -> (0 < f)%nat ->
    Z.of_nat (length l) - pos < Z.of_nat f ->
    brace_scan f l pos prepos term quote = Some None.
Proof.
  intros H. induction f as [|f IH]; intros pos prepos term quote Hp H0 Hf; [lia|].
  cbn [brace_scan].
  destruct (memchr (skipn (Z.to_nat pos) l) LBRACE); [|reflexivity].
  simpl negb. cbv iota.
  destruct (find_open_spec l (S (length l)) pos quote term prepos)
    as (pos' & q & t & pp & E & Hle & Hb); [lia|lia|].
  rewrite E. unfold bind at 1. cbv beta iota.
  destruct (pos' >=? Z.of_nat (length l)) eqn:Ege; [reflexivity|].
  assert (Hlt : pos' < Z.of_nat (length l)) by (rewrite Z.geb_leb in Ege; apply Z.leb_gt in Ege; lia).
  destruct (find_close_total l q (S (length l)) (pos' + 1) false 1 false) as [r Er];
    [lia|lia|].
  rewrite Er. unfold bind. cbv beta iota.
  destruct r as [[[[postpos q1] count] comma]|]; [|reflexivity].
  destruct (count =? 0); simpl negb; cbv iota; [|reflexivity].
  assert (Hc : comma = false).
  { apply (find_close_comma l q (S (length l)) (length l) (pos' + 1) false 1 false
             postpos q1 count comma); [lia | lia | exact Er |].
    apply (no_group_has_comma_at l pos' H); [lia | apply Hb; exact Hlt]. }
  rewrite Hc. apply IH; lia.
Qed.

(** ** Removal of escape characters *)

Lemma removes_escapes_refl (l : list WCHAR) : removes_escapes l l.
Proof. induction l; constructor; assumption. Qed.

Lemma removes_escapes_trans (a b c : list WCHAR) :
  removes_escapes a b -> removes_escapes b c -> removes_escapes a c.
Proof.
  intros H. revert c. induction H as [|x l l' H IH|l l' H IH]; intros c Hc.
  - exact Hc.
  - inversion Hc as [|y m m' Hm|m m' Hm]; subst.
    + apply re_keep. apply IH. exact Hm.
    + apply re_drop. apply IH. exact Hm.
  - apply re_drop. apply IH. exact Hc.
Qed.

Lemma removes_escapes_at (a b : list WCHAR) :
  removes_escapes (a ++ ESCAPE :: b) (a ++ b).
Proof.
  induction a as [|x a IH]; simpl.
  - apply re_drop. apply removes_escapes_refl.
  - apply re_keep. exact IH.
Qed.

Lemma remove_one_escape (pos : Z) (st : State) :
  0 <= pos -> pos < len st -> len st < 2 ^ 32 ->
  char_at (line st) pos = ESCAPE ->
  removes_escapes (line st) (line (remove_chars pos 1 st))
  /\ len (remove_chars pos 1 st) = len st - 1.
Proof.
  intros Hp Hl Hm Hc. split; [|apply remove_chars_len; lia].
  rewrite remove_chars_line. unfold sub, len in *.
  rewrite dw_small by lia.
  change (Z.to_nat 0) with O. rewrite skipn_O.
  rewrite (firstn_all2 (n := Z.to_nat (Z.of_nat (length (line st)) - pos - 1)))
    by (rewrite length_skipn; lia).
  replace (Z.to_nat (pos + 1)) with (S (Z.to_nat pos)) by lia.
  unfold char_at in Hc. destruct (pos <? 0) eqn:E0; [apply Z.ltb_lt in E0; lia|].
  assert (Hn : (Z.to_nat pos < length (line st))%nat) by lia.
  revert Hn Hc. generalize (Z.to_nat pos) as n. generalize (line st) as l.
  clear. induction l as [|x l IH]; intros n Hn Hc; simpl in Hn; [lia|].
  destruct n as [|n]; simpl in *.
  - subst x. apply re_drop. apply removes_escapes_refl.
  - apply re_keep. apply IH; [lia | exact Hc].
Qed.

Lemma un_escape_loop_spec (unq : option (list WCHAR)) (f : nat) :
  forall quote pos st,
    0 <= pos -> len st < 2 ^ 32 -> (0 < f)%nat ->
    len st - pos < Z.of_nat f ->
    exists st', un_escape_loop f unq quote pos st = Some st'
                /\ removes_escapes (line st) (line st').
Proof.
  induction f as [|f IH]; intros quote pos st Hp Hm H0 Hf; [lia|].
  simpl un_escape_loop.
  destruct (pos <? len st) eqn:Ep; simpl negb; cbv iota.
  2:{ exists st. split; [reflexivity | apply removes_escapes_refl]. }
  apply Z.ltb_lt in Ep.
  assert (Hkeep : forall q, exists st',
             un_escape_loop f unq q (pos + 1) st = Some st'
             /\ removes_escapes (line st) (line st')).
  { intros q. apply IH; lia. }
  assert (Hdrop : forall q, char_at (line st) pos = ESCAPE -> exists st',
             un_escape_loop f unq q (pos + 1) (remove_chars pos 1 st) = Some st'
             /\ removes_escapes (line st) (line st')).
  { intros q Hc.
    destruct (remove_one_escape pos st Hp Ep Hm Hc) as [Hr Hlen].
    destruct (IH q (pos + 1) (remove_chars pos 1 st)) as (st' & E & Hr');
      [lia | lia | lia | lia |].
    exists st'. split; [exact E|].
    apply (removes_escapes_trans _ _ _ Hr Hr'). }
  destruct quote.
  - destruct (is_quote st pos); [apply Hkeep|].
    destruct unq as [set|]; [|apply Hkeep].
    destruct (char_at (line st) pos =? ESCAPE) eqn:Ec; simpl andb; [|apply Hkeep].
    destruct ((pos + 1 <? len st) && wcschr set (char_at (line st) (pos + 1)));
      [|apply Hkeep].
    apply Hdrop. apply Z.eqb_eq. exact Ec.
  - destruct (is_quote st pos); [apply Hkeep|].
    destruct unq as [set|]; [apply Hkeep|].
    destruct (char_at (line st) pos =? ESCAPE) eqn:Ec; simpl andb; [|apply Hkeep].
    destruct (pos + 1 <? len st); [|apply Hkeep].
    apply Hdrop. apply Z.eqb_eq. exact Ec.
Qed.

Lemma un_escape_spec (unq : option (list WCHAR)) (st : State) :
  len st < 2 ^ 32 ->
  exists st', un_escape unq st = Some st'
              /\ removes_escapes (line st) (line st').
Proof.
  intros Hm. unfold un_escape.
  destruct (memchr (line st) ESCAPE); simpl negb; cbv iota.
  - apply un_escape_loop_spec; [lia | exact Hm | lia |]. unfold len. lia.
  - exists st. split; [reflexivity | apply removes_escapes_refl].
Qed.

Lemma brace_expansion_no_comma (st : State) :
  no_group_has_comma (line st) = true -> brace_expansion st = Some (false, st).
Proof.
  intros H. unfold brace_expansion.
  rewrite (brace_scan_no_comma (line st) H) by lia. reflexivity.
Qed.

Lemma expand_braces_no_comma (st : State) :
  no_group_has_comma (line st) = true ->
  expand_braces st = un_escape (Some BRACE_ESCAPE) st.
Proof.
  intros H. unfold expand_braces. cbn [expand_braces_loop].
  rewrite (brace_expansion_no_comma st H). reflexivity.
Qed.

(** C10.  When no opening brace of the line opens a group with a comma at
    depth 1 outside quotes, [brace_expansion] returns FALSE and leaves the
    state as it is; [expand_braces] is then the removal of escape characters
    by [un_escape( BRACE_ESCAPE )] alone, and (for a line of less than 2^32
    characters) it returns a line that is the old one with some of its escape
    characters taken out. *)
Theorem brace_expansion_needs_comma (st : State) :
  no_group_has_comma (line st) = true ->
  brace_expansion st = Some (false, st)
  /\ expand_braces st = un_escape (Some BRACE_ESCAPE) st
  /\ (len st < 2 ^ 32 ->
      exists st', expand_braces st = Some st'
                  /\ removes_escapes (line st) (line st')).
Proof.
  intros H.
  split; [exact (brace_expansion_no_comma st H)|].
  split; [exact (expand_braces_no_comma st H)|].
  intros Hm. rewrite (expand_braces_no_comma st H). apply un_escape_spec. exact Hm.
Qed.

(** The line [a{b}c]. *)
Lemma brace_expansion_needs_comma_witness :
  let st := set_line (wstr "a{b}c") (initial default_option 100) in
  brace_expansion st = Some (false, st)
  /\ option_map line (expand_braces st) = Some (wstr "a{b}c").
Proof.
  intros st.
  assert (H : no_group_has_comma (line st) = true) by (vm_compute; reflexivity).
  destruct (brace_expansion_needs_comma st H) as (B & E & _).
  split; [exact B|]. rewrite E. vm_compute. reflexivity.
Defined.

(** ** Variable substitution: the whole pass *)











(** ** Internal commands *)

(** [_wcsnicmp] orders the texts: what is not below the key has everything
    above it above the key. *)
Lemma wcsnicmp_trans (n : nat) :
  forall a b k : list WCHAR,
    wcsnicmp a b n < 0 -> 0 <= wcsnicmp a k n -> 0 < wcsnicmp b k n.
Proof.
  induction n as [|n IH]; intros a b k Hab Hak; simpl in *; [lia|].
  set (fa := towlower (hd 0 a)) in *.
  set (fb := towlower (hd 0 b)) in *.
  set (fk := towlower (hd 0 k)) in *.
  destruct (Z.eqb_spec fa fb) as [Eab|Nab];
    destruct (Z.eqb_spec fa 0) as [Ea0|Na0]; simpl in Hab; try lia.
  - (* the first characters of a and b agree *)
    rewrite <- Eab.
    destruct (Z.eqb_spec fa fk) as [Eak|Nak]; simpl in Hak |- *.
    + destruct (Z.eqb_spec fa 0); [lia|]. simpl in *.
      apply (IH (tl a)); assumption.
    + lia.
  - destruct (Z.eqb_spec fb fk) as [Ebk|Nbk]; simpl.
    + exfalso. subst fk. rewrite <- Ebk in Hak.
      destruct (Z.eqb_spec fa fb); simpl in Hak; lia.
    + destruct (Z.eqb_spec fa fk); simpl in Hak; [|lia].
      destruct (Z.eqb_spec fa 0); simpl in Hak; lia.
  - destruct (Z.eqb_spec fb fk) as [Ebk|Nbk]; simpl.
    + exfalso. rewrite <- Ebk in Hak.
      destruct (Z.eqb_spec fa fb); simpl in Hak; lia.
    + destruct (Z.eqb_spec fa fk) as [Eak|Nak]; simpl in Hak; [|lia].
      destruct (Z.eqb_spec fa 0); simpl in Hak; lia.
Qed.

Lemma find_none_all {A : Type} (f : A -> bool) (l : list A) :
  (forall x, In x l -> f x = false) -> find f l = None.
Proof.
  induction l as [|x l IH]; intros H; simpl; [reflexivity|].
  rewrite (H x) by (left; reflexivity). apply IH. intros y Hy. apply H. right. exact Hy.
Qed.

Lemma find_at {A : Type} (f : A -> bool) (l : list A) :
  forall (m : nat) (e : A),
    nth_error l m = Some e -> f e = true ->
    (forall i e', (i < m)%nat -> nth_error l i = Some e' -> f e' = false) ->
    find f l = Some e.
Proof.
  induction l as [|x l IH]; intros m e Hm He Hb; [destruct m; discriminate|].
  destruct m as [|m]; simpl in *.
  - injection Hm as ->. rewrite He. reflexivity.
  - rewrite (Hb O x); [|lia|reflexivity].
    apply (IH m e Hm He). intros i e' Hi Hn. apply (Hb (S i) e'); [lia | exact Hn].
Qed.

(** The binary search of [search_cfg] finds what a search from the first
    entry finds, in a table that is sorted and whose names have [cnt]
    characters. *)
Lemma search_cfg_loop_sorted {F : Type} (k : list WCHAR) (cnt : Z)
  (cfg : list (list WCHAR * F)) :
  (forall i j e1 e2, (i < j)%nat ->
     nth_error cfg i = Some e1 -> nth_error cfg j = Some e2 ->
     wcsnicmp (fst e1) (fst e2) (Z.to_nat cnt) < 0) ->
  (forall e, In e cfg -> char_at (fst e) cnt = 0) ->
  forall (fuel : nat) (beg end_ : Z),
    0 <= beg -> end_ < Z.of_nat (length cfg) ->
    Z.max 0 (end_ - beg + 1) < Z.of_nat fuel ->
    (forall i e, Z.of_nat i < beg -> nth_error cfg i = Some e ->
                 wcsnicmp (fst e) k (Z.to_nat cnt) < 0) ->
    (forall i e, end_ < Z.of_nat i -> nth_error cfg i = Some e ->
                 0 < wcsnicmp (fst e) k (Z.to_nat cnt)) ->
    search_cfg_loop fuel k cnt cfg beg end_
    = Some (option_map snd
              (find (fun e => wcsnicmp (fst e) k (Z.to_nat cnt) =? 0) cfg)).
Proof.
  intros Hsorted Hlen.
  induction fuel as [|fuel IH]; intros beg end_ Hb He Hf Hlo Hhi; [lia|].
  simpl search_cfg_loop.
  destruct (end_ >=? beg) eqn:Ege; simpl negb; cbv iota.
  2:{ rewrite Z.geb_leb in Ege. apply Z.leb_gt in Ege.
      rewrite find_none_all; [reflexivity|].
      intros e Hin. apply In_nth_error in Hin. destruct Hin as [i Hi].
      apply Z.eqb_neq.
      destruct (Z_lt_le_dec (Z.of_nat i) beg) as [Hlt|Hge].
      - specialize (Hlo i e Hlt Hi). lia.
      - assert (Hgt : end_ < Z.of_nat i) by lia.
        specialize (Hhi i e Hgt Hi). lia. }
  rewrite Z.geb_leb in Ege. apply Z.leb_le in Ege.
  set (mid := (beg + end_) / 2).
  assert (Hmid : beg <= mid <= end_).
  { unfold mid. split.
    - apply Z.div_le_lower_bound; lia.
    - apply Z.div_le_upper_bound; lia. }
  destruct (nth_error cfg (Z.to_nat mid)) as [[cname func]|] eqn:En.
  2:{ apply nth_error_None in En. lia. }
  assert (Hin : In (cname, func) cfg) by (apply (nth_error_In _ _ En)).
  pose proof (Hlen _ Hin) as Hnul. simpl fst in Hnul.
  rewrite Hnul. change (0 =? 0) with true. rewrite andb_true_r.
  destruct (Z.eqb_spec (wcsnicmp cname k (Z.to_nat cnt)) 0) as [E0|N0].
  - (* found *)
    rewrite (find_at _ cfg (Z.to_nat mid) (cname, func) En);
      [reflexivity | simpl; apply Z.eqb_eq; exact E0 |].
    intros i e' Hi Hn. apply Z.eqb_neq. intros Hz.
    pose proof (Hsorted i (Z.to_nat mid) e' (cname, func) Hi Hn En) as Hs.
    simpl fst in Hs.
    pose proof (wcsnicmp_trans _ _ _ k Hs ltac:(lia)). lia.
  - destruct (wcsnicmp cname k (Z.to_nat cnt) >=? 0) eqn:Er.
    + rewrite Z.geb_leb in Er. apply Z.leb_le in Er.
      apply IH; [lia | lia | lia | exact Hlo |].
      intros i e Hi Hn.
      destruct (Z.eq_dec (Z.of_nat i) mid) as [Ei|Ni].
      * replace (Z.to_nat mid) with i in En by lia.
        rewrite En in Hn. injection Hn as <-. simpl. lia.
      * assert (Hlt : (Z.to_nat mid < i)%nat) by lia.
        pose proof (Hsorted _ _ _ _ Hlt En Hn) as Hs. simpl fst in Hs.
        apply (wcsnicmp_trans _ _ _ k Hs). lia.
    + rewrite Z.geb_leb in Er. apply Z.leb_gt in Er.
      apply IH; [lia | lia | lia | | exact Hhi].
      intros i e Hi Hn.
      destruct (Z.eq_dec (Z.of_nat i) mid) as [Ei|Ni].
      * replace (Z.to_nat mid) with i in En by lia.
        rewrite En in Hn. injection Hn as <-. simpl. lia.
      * assert (Hlt : (i < Z.to_nat mid)%nat) by lia.
        pose proof (Hsorted _ _ _ _ Hlt Hn En) as Hs. simpl fst in Hs.
        destruct (Z_lt_le_dec (wcsnicmp (fst e) k (Z.to_nat cnt)) 0) as [Hneg|Hpos];
          [exact Hneg|].
        pose proof (wcsnicmp_trans _ _ _ k Hs Hpos). lia.
Qed.

Lemma internal_sorted (i j : nat) (e1 e2 : list WCHAR * IntFunc) :
  (i < j)%nat ->
  nth_error internal i = Some e1 -> nth_error internal j = Some e2 ->
  wcsnicmp (fst e1) (fst e2) (Z.to_nat CMD_LEN) < 0.
Proof.
  intros Hij H1 H2.
  assert (Hj : (j < length internal)%nat) by (apply nth_error_Some; congruence).
  assert (Hall : forallb (fun i => forallb (fun j =>
             negb (i <? j)%nat
             || match nth_error internal i, nth_error internal j with
                | Some a, Some b => wcsnicmp (fst a) (fst b) (Z.to_nat CMD_LEN) <? 0
                | _, _ => true
                end) (seq 0 (length internal))) (seq 0 (length internal)) = true)
    by (vm_compute; reflexivity).
  rewrite forallb_forall in Hall.
  specialize (Hall i ltac:(apply in_seq; lia)).
  rewrite forallb_forall in Hall.
  specialize (Hall j ltac:(apply in_seq; lia)).
  rewrite H1, H2 in Hall.
  destruct (Nat.ltb_spec i j) as [_|Hn]; [|lia].
  simpl in Hall. apply Z.ltb_lt. exact Hall.
Qed.

Lemma wcsnicmp_zero_iff_l (n : nat) :
  forall s1 s2 : list WCHAR,
    (n <= length s1)%nat -> (n <= length s2)%nat ->
    (forall c, In c (firstn n s1) -> c <> 0) ->
    wcsnicmp s1 s2 n = 0 <-> map towlower (firstn n s1) = map towlower (firstn n s2).
Proof.
  induction n as [|n IH]; intros s1 s2 H1 H2 Hnul.
  - simpl. tauto.
  - destruct s1 as [|a s1]; [simpl in H1; lia|].
    destruct s2 as [|b s2]; [simpl in H2; lia|].
    simpl in H1, H2. simpl wcsnicmp. simpl firstn. simpl map.
    assert (Ha : towlower a <> 0).
    { intros Hz. apply (proj1 (towlower_zero a)) in Hz.
      apply (Hnul a); [left; reflexivity | exact Hz]. }
    destruct (Z.eqb_spec (towlower a) (towlower b)) as [E|N]; simpl.
    + destruct (Z.eqb_spec (towlower a) 0) as [E0|_]; [contradiction|]. simpl.
      rewrite (IH s1 s2) by (try lia; intros c Hc; apply Hnul; right; exact Hc).
      rewrite E. split; [intros ->; reflexivity | intros H; injection H; auto].
    + split; [lia|]. intros H. injection H as H _. contradiction.
Qed.

(** The names of the table: four characters each, in lower case. *)
Lemma internal_names (e : list WCHAR * IntFunc) :
  In e internal ->
  length (fst e) = 4%nat /\ map towlower (fst e) = fst e
  /\ (forall c, In c (fst e) -> c <> 0) /\ char_at (fst e) CMD_LEN = 0.
Proof.
  intros H.
  assert (Hall : forallb (fun e : list WCHAR * IntFunc =>
             (length (fst e) =? 4)%nat
             && list_eqb (map towlower (fst e)) (fst e)
             && forallb (fun c => negb (c =? 0)) (fst e)
             && (char_at (fst e) CMD_LEN =? 0)) internal = true)
    by (vm_compute; reflexivity).
  rewrite forallb_forall in Hall. specialize (Hall e H).
  rewrite !andb_true_iff in Hall. destruct Hall as [[[H1 H2] H3] H4].
  split; [apply Nat.eqb_eq; exact H1|].
  split; [apply list_eqb_eq; exact H2|].
  split; [|apply Z.eqb_eq; exact H4].
  intros c Hc Hz. rewrite forallb_forall in H3. specialize (H3 c Hc).
  subst c. discriminate.
Qed.

Lemma skip_blank_bounds (st : State) : 0 <= skip_blank st 0 <= len st.
Proof.
  unfold skip_blank, len.
  pose proof (skip_while_bounds isblank (skipn (Z.to_nat 0) (line st)) 0) as H.
  rewrite length_skipn in H. lia.
Qed.

Lemma skip_nonblank_bounds (st : State) (pos : Z) :
  0 <= pos <= len st -> pos <= skip_nonblank st pos <= len st.
Proof.
  intros Hp. unfold skip_nonblank, len in *.
  pose proof (skip_while_bounds (fun c => negb (isblank c))
                (skipn (Z.to_nat pos) (line st)) pos) as H.
  rewrite length_skipn in H. lia.
Qed.

Lemma first_word_length (st : State) :
  Z.of_nat (length (first_word st))
  = skip_nonblank st (skip_blank st 0) - skip_blank st 0.
Proof.
  unfold first_word. cbv zeta.
  pose proof (skip_blank_bounds st) as Hb.
  pose proof (skip_nonblank_bounds st _ Hb) as Hn.
  apply sub_length; unfold len in *; lia.
Qed.

(** The recognition of [internal_cmd]: the first word of the line has four
    characters and is, ignoring case, a name of the table. *)
Lemma internal_lookup_spec (st : State) :
  internal_lookup st
  = Some (if (length (first_word st) =? 4)%nat
          then option_map (fun f => (f, skip_blank st 0)) (command_of (first_word st))
          else None).
Proof.
  unfold internal_lookup. cbv zeta.
  pose proof (first_word_length st) as Hl.
  set (pos := skip_blank st 0) in *.
  set (cnt := skip_nonblank st pos - pos) in *.
  unfold CMD_LEN.
  destruct (Z.eqb_spec cnt 4) as [E|N]; simpl negb; cbv iota.
  2:{ destruct (Nat.eqb_spec (length (first_word st)) 4) as [E4|_]; [lia|reflexivity]. }
  destruct (Nat.eqb_spec (length (first_word st)) 4) as [E4|N4]; [|lia].
  rewrite E.
  set (key := skipn (Z.to_nat pos) (line st)).
  assert (Hw : first_word st = firstn 4 key) by (unfold first_word, sub; cbv zeta;
    fold pos; fold cnt; rewrite E; reflexivity).
  assert (Hkey : key = first_word st ++ skipn 4 key)
    by (rewrite Hw; symmetry; apply firstn_skipn).
  unfold search_cfg.
  rewrite (search_cfg_loop_sorted key 4 internal).
  - unfold bind, command_of.
    rewrite (find_ext_in _ (fun e => wcsnicmp (fst e) key (Z.to_nat 4) =? 0)
               (fun e => list_eqb (fst e) (map towlower (first_word st))) internal).
    + destruct (find _ internal) as [[nm f]|]; reflexivity.
    + intros e He. destruct (internal_names e He) as (L & T & Z0 & _).
      rewrite Hkey. rewrite wcsnicmp_key_prefix by (rewrite E4; simpl; lia).
      change (Z.to_nat 4) with 4%nat.
      pose proof (wcsnicmp_zero_iff_l 4 (fst e) (first_word st)) as Hz.
      rewrite !firstn_all2 in Hz by lia. rewrite T in Hz.
      specialize (Hz ltac:(lia) ltac:(lia) Z0).
      destruct (Z.eqb_spec (wcsnicmp (fst e) (first_word st) 4) 0) as [E0|N0];
        symmetry.
      * apply list_eqb_eq. apply Hz. exact E0.
      * destruct (list_eqb (fst e) (map towlower (first_word st))) eqn:Eq;
          [|reflexivity].
        apply list_eqb_eq in Eq. apply Hz in Eq. contradiction.
  - intros i j e1 e2. apply internal_sorted.
  - intros e He. apply (internal_names e He).
  - lia.
  - unfold INTERNAL_CMDS. lia.
  - unfold INTERNAL_CMDS. simpl length. lia.
  - intros i e Hi _. lia.
  - intros i e Hi Hn. unfold INTERNAL_CMDS in Hi.
    assert ((i < length internal)%nat) by (apply nth_error_Some; congruence). lia.
Qed.

Lemma history_un_escape_loop (unq : option (list WCHAR)) (f : nat) :
  forall quote pos st st',
    un_escape_loop f unq quote pos st = Some st' -> history st' = history st.
Proof.
  induction f as [|f IH]; intros quote pos st st' H; [discriminate|].
  simpl un_escape_loop in H.
  destruct (negb (pos <? len st)); [injection H as <-; reflexivity|].
  assert (Hdrop : forall q, un_escape_loop f unq q (pos + 1) (remove_chars pos 1 st)
                            = Some st' -> history st' = history st).
  { intros q E. apply IH in E. exact E. }
  destruct quote.
  - destruct (is_quote st pos); [apply (IH _ _ _ _ H)|].
    destruct unq as [set|]; [|apply (IH _ _ _ _ H)].
    destruct ((char_at (line st) pos =? ESCAPE) && (pos + 1 <? len st)
              && wcschr set (char_at (line st) (pos + 1)));
      [apply (Hdrop _ H) | apply (IH _ _ _ _ H)].
  - destruct (is_quote st pos); [apply (IH _ _ _ _ H)|].
    destruct unq as [set|]; [apply (IH _ _ _ _ H)|].
    destruct ((char_at (line st) pos =? ESCAPE) && (pos + 1 <? len st));
      [apply (Hdrop _ H) | apply (IH _ _ _ _ H)].
Qed.

Lemma history_un_escape (unq : option (list WCHAR)) (st st' : State) :
  un_escape unq st = Some st' -> history st' = history st.
Proof.
  unfold un_escape. destruct (negb (memchr (line st) ESCAPE)).
  - intros H. injection H as <-. reflexivity.
  - apply history_un_escape_loop.
Qed.

(** The plain keys typed are put at the end of the line, as long as there is
    room for them, when auto-recall is not active; the bell sounds for each
    key that finds no room. *)
Lemma type_char_plain (ovr : bool) (c : WCHAR) (e : Edit) (st : State) :
  ed_pos e = len st -> ed_recall e && ed_cont e = false -> len st <= max st ->
  exists e' st',
    type_char ovr c e st = Some (e', st')
    /\ line st' = (if len st <? max st then line st ++ [c] else line st)
    /\ ed_pos e' = len st' /\ ed_recall e' && ed_cont e' = false
    /\ max st' = max st /\ history st' = history st /\ histsize st' = histsize st
    /\ heap st' = heap st /\ opt st' = opt st /\ input st' = input st
    /\ file st' = file st /\ macro_stk st' = macro_stk st /\ mcmd st' = mcmd st
    /\ kbd st' = kbd st /\ defs_of st' = defs_of st
    /\ check_break st' = check_break st /\ def_macro st' = def_macro st.
Proof.
  intros Hpos Hrec Hle. unfold type_char. cbv zeta. rewrite Hrec, Hpos.
  rewrite orb_false_r.
  change (len (set_disp 0 0 st)) with (len st).
  change (max (set_disp 0 0 st)) with (max st).
  change (line (set_disp 0 0 st)) with (line st).
  pose proof (len_nonneg st) as Hn.
  assert (Happ : sub (line st) 0 (len st) ++ [c] ++ skipn (Z.to_nat (len st)) (line st)
                 = line st ++ [c]).
  { rewrite sub_0. unfold len. rewrite Nat2Z.id, firstn_all, skipn_all.
    reflexivity. }
  assert (Hset : forall s, line s = line st ++ [c] ->
                 line (set_char (len st) c s) = line st ++ [c]).
  { intros s Hs. unfold set_char. change (line (set_line ?l s)) with l.
    rewrite Hs, sub_0. unfold len. rewrite Nat2Z.id, firstn_app_exact.
    replace (Z.to_nat (Z.of_nat (length (line st)) + 1)) with (length (line st) + 1)%nat
      by lia.
    rewrite skipn_app_plus. reflexivity. }
  destruct (Z.ltb_spec (len st) (max st)) as [Hlt|Hge].
  - (* there is room *)
    assert (Hne : (len st =? max st) = false) by (apply Z.eqb_neq; lia).
    rewrite Hne, Z.eqb_refl. simpl negb. cbv iota.
    destruct ovr.
    + set (s1 := set_line _ _).
      assert (Hd : (dispend s1 =? 0) = false).
      { apply Z.eqb_neq. unfold s1. simpl.
        destruct (Z.gtb_spec (len st + 1) 0); lia. }
      rewrite Hd. simpl negb. cbv iota.
      eexists _, _. split; [reflexivity|].
      split; [apply Hset; reflexivity|].
      split.
      { simpl ed_pos. unfold len at 2. rewrite (Hset s1 eq_refl).
        rewrite length_app. simpl length. unfold len. lia. }
      repeat split.
    + set (s1 := set_display_marks _ _ _).
      assert (Hl1 : line s1 = line st ++ [c]) by (rewrite <- Happ; reflexivity).
      assert (Hd : (dispend s1 =? 0) = false).
      { apply Z.eqb_neq.
        change (dispend s1) with (if len s1 >? 0 then len s1 else 0).
        unfold len at 1 2. rewrite Hl1, length_app. simpl length.
        destruct (Z.gtb_spec (Z.of_nat (length (line st) + 1)) 0); lia. }
      rewrite Hd. simpl negb. cbv iota.
      eexists _, _. split; [reflexivity|].
      split; [apply Hset; exact Hl1|].
      split.
      { simpl ed_pos. unfold len at 2. rewrite (Hset s1 Hl1).
        rewrite length_app. simpl length. unfold len. lia. }
      repeat split.
  - (* the line is full *)
    assert (He : len st = max st) by lia.
    rewrite He, Z.eqb_refl. simpl negb. cbv iota.
    destruct ovr; cbv iota;
      change (dispend (set_disp 0 0 st)) with 0; simpl negb; cbv iota;
      (eexists _, _; split; [reflexivity|]);
      unfold bell; simpl opt;
      destruct (silent (opt st)); repeat split; unfold len in *; simpl; lia.
Qed.

Lemma type_chars_plain (ovr : bool) (l : list WCHAR) :
  forall (e : Edit) (st : State),
    ed_pos e = len st -> ed_recall e && ed_cont e = false -> len st <= max st ->
    forallb (fun c => 32 <=? c) l = true ->
    exists e' st',
      type_chars ovr l e st = Some (e', st')
      /\ line st' = line st ++ firstn (Z.to_nat (max st - len st)) l
      /\ max st' = max st /\ history st' = history st /\ histsize st' = histsize st
      /\ heap st' = heap st /\ opt st' = opt st /\ input st' = input st
      /\ file st' = file st /\ macro_stk st' = macro_stk st /\ mcmd st' = mcmd st
      /\ kbd st' = kbd st /\ defs_of st' = defs_of st
      /\ check_break st' = check_break st /\ def_macro st' = def_macro st.
Proof.
  induction l as [|c l IH]; intros e st Hpos Hrec Hle Hall.
  - exists e, st. split; [reflexivity|]. rewrite firstn_nil, app_nil_r. repeat split.
  - simpl in Hall. apply andb_true_iff in Hall. destruct Hall as [Hc Hall].
    apply Z.leb_le in Hc.
    cbn [type_chars].
    destruct (Z.ltb_spec c 32) as [Hlt|_]; [lia|].
    destruct (type_char_plain ovr c e st Hpos Hrec Hle)
      as (e1 & s1 & E1 & L1 & P1 & R1 & M1 & F1).
    rewrite E1. unfold bind. cbv beta iota.
    assert (Hle1 : len s1 <= max s1).
    { rewrite M1. unfold len. rewrite L1.
      destruct (Z.ltb_spec (len st) (max st)); [|exact Hle].
      rewrite length_app. simpl length. unfold len in *. lia. }
    destruct (IH e1 s1 P1 R1 Hle1 Hall) as (e2 & s2 & E2 & L2 & M2 & F2).
    exists e2, s2. split; [exact E2|]. split.
    + rewrite L2, M1. unfold len at 1. rewrite L1.
      destruct (Z.ltb_spec (len st) (max st)) as [Hlt|Hge].
      * rewrite length_app, <- app_assoc. simpl length. f_equal.
        replace (Z.to_nat (max st - len st))
          with (S (Z.to_nat (max st - Z.of_nat (length (line st) + 1))))
          by (unfold len in *; lia).
        reflexivity.
      * replace (Z.to_nat (max st - Z.of_nat (length (line st)))) with O
          by (unfold len in *; lia).
        replace (Z.to_nat (max st - len st)) with O by lia.
        reflexivity.
    + destruct F1 as (Fa & Fb & Fc & Fd & Fe & Ff & Fg & Fh & Fi & Fj & Fk & Fl).
      destruct F2 as (Ga & Gb & Gc & Gd & Ge & Gf & Gg & Gh & Gi & Gj & Gk & Gl).
      repeat split; congruence.
Qed.

(** C2, as the code has it.  Take a line, with no Control+Break pending,
    whose first blank-delimited word has four characters and is, ignoring
    case, the name of the internal command [f], any of the 18.
    [internal_cmd] finds [f] and calls it with the position behind the word
    (on a line from the keyboard the escape characters are taken out before,
    which leaves the history alone), and it returns TRUE whenever the handler
    returns, whatever the handler does: the line is not handed to the host
    shell.  [read_cmdfile] does not add such a line of a command file to the
    history.  For the commands [defs], [rsta], [rstm] and [rsts] the call
    returns and the history is what it was.  A line from the keyboard,
    though, typed with plain keys while auto-recall is off and no
    Control+Break is pending, has been added to the history by the Enter key
    when [get_next_line] returns it, before the command is looked for. *)
Theorem internal_cmd_dispatch (ext : Handlers) (st : State) (f : IntFunc) :
  check_break st <= 1 ->
  length (first_word st) = 4%nat ->
  command_of (first_word st) = Some f ->
  internal_lookup st = Some (Some (f, skip_blank st 0))
  /\ internal_cmd ext st
     = (s1 <- (if kbd st then un_escape None st else Some st) ;;
        s2 <- execute ext f (skip_blank s1 (skip_blank st 0 + CMD_LEN)) s1 ;;
        Some (true, s2))
  /\ (len st < 2 ^ 32 ->
      exists s1,
        (if kbd st then un_escape None st else Some st) = Some s1
        /\ history s1 = history st
        /\ forall s2,
             execute ext f (skip_blank s1 (skip_blank st 0 + CMD_LEN)) s1 = Some s2 ->
             internal_cmd ext st = Some (true, s2))
  /\ (forall r, internal_cmd ext st = Some r -> fst r = true)
  /\ (forall st0 fuel,
        get_file_line st0 = Some (FL_line, st) ->
        read_cmdfile_loop (S fuel) ext st0
        = (r <- internal_cmd ext st ;; read_cmdfile_loop fuel ext (snd r)))
  /\ (In f [DEFS; RSTA; RSTM; RSTS] -> len st < 2 ^ 32 ->
      exists s, internal_cmd ext st = Some (true, s) /\ history s = history st)
  /\ (forall st0 l rest,
        file st0 = None -> macro_stk st0 = [] -> mcmd_txt (mcmd st0) = None ->
        input st0 = l :: rest ->
        forallb (fun c => 32 <=? c) l = true ->
        auto_recall (opt st0) = false -> check_break st0 <= 1 ->
        Z.of_nat (length l) <= max st0 ->
        exists s1, get_next_line st0 = Some (add_to_history s1)
                   /\ line s1 = l /\ history s1 = history st0).
Proof.
  intros Hcb Hlen Hcmd.
  assert (HL : internal_lookup st = Some (Some (f, skip_blank st 0))).
  { rewrite internal_lookup_spec, Hlen, Hcmd. reflexivity. }
  assert (HI : internal_cmd ext st
               = (s1 <- (if kbd st then un_escape None st else Some st) ;;
                  s2 <- execute ext f (skip_blank s1 (skip_blank st 0 + CMD_LEN)) s1 ;;
                  Some (true, s2))).
  { unfold internal_cmd.
    destruct (Z.gtb_spec (check_break st) 1) as [Hgt|_]; [lia|].
    rewrite HL. reflexivity. }
  assert (HT : forall r, internal_cmd ext st = Some r -> fst r = true).
  { intros r. rewrite HI. unfold bind.
    destruct (if kbd st then un_escape None st else Some st) as [s1|]; [|discriminate].
    destruct (execute ext f _ s1) as [s2|]; [|discriminate].
    intros H. injection H as <-. reflexivity. }
  assert (H1 : len st < 2 ^ 32 ->
               exists s1, (if kbd st then un_escape None st else Some st) = Some s1
                          /\ history s1 = history st).
  { intros Hm. destruct (kbd st).
    - destruct (un_escape_spec None st Hm) as (s1 & E & _).
      exists s1. split; [exact E | apply (history_un_escape _ _ _ E)].
    - exists st. split; reflexivity. }
  split; [exact HL|]. split; [exact HI|].
  split.
  { intros Hm. destruct (H1 Hm) as (s1 & E1 & Hh1).
    exists s1. split; [exact E1|]. split; [exact Hh1|].
    intros s2 E2. rewrite HI, E1. unfold bind. rewrite E2. reflexivity. }
  split; [exact HT|].
  split.
  { intros st0 fuel Hg. cbn [read_cmdfile_loop]. rewrite Hg.
    unfold bind. cbv beta iota.
    destruct (internal_cmd ext st) as [[b s]|] eqn:E; [|reflexivity].
    pose proof (HT _ eq_refl) as Hb. simpl in Hb. subst b. reflexivity. }
  split.
  { intros Hin Hm. rewrite HI.
    destruct (H1 Hm) as (s1 & E1 & Hh1). rewrite E1. unfold bind.
    destruct Hin as [<-|[<-|[<-|[<-|[]]]]]; simpl execute; eexists;
      (split; [reflexivity|]); rewrite <- Hh1;
      [apply history_execute_defs | reflexivity | reflexivity | reflexivity]. }
  intros st0 l rest Hfile Hstk Hmcmd Hinput Hplain Har Hcb0 Hfit.
  unfold get_next_line. cbv zeta.
  change (file (set_kbd false (set_line [] st0))) with (file st0).
  change (macro_stk (set_kbd false (set_line [] st0))) with (macro_stk st0).
  change (mcmd (set_kbd false (set_line [] st0))) with (mcmd st0).
  rewrite Hfile, Hstk, Hmcmd. unfold edit_line.
  change (input (set_kbd true (set_kbd false (set_line [] st0)))) with (input st0).
  change (check_break (set_kbd true (set_kbd false (set_line [] st0))))
    with (check_break st0).
  rewrite Hinput.
  destruct (Z.gtb_spec (check_break st0) 1) as [Hgt|_]; [lia|].
  set (s0 := set_input rest (set_kbd true (set_kbd false (set_line [] st0)))).
  change (opt s0) with (opt st0). rewrite Har.
  destruct (type_chars_plain (overwrite (opt st0)) l (mkEdit 0 O false true) s0)
    as (e' & s' & E & L & M & Hh & _); [reflexivity|reflexivity| |exact Hplain|].
  { change (len s0) with 0. change (max s0) with (max st0). lia. }
  rewrite E. unfold bind. cbv beta iota.
  eexists. split; [reflexivity|].
  change (len s0) with 0 in L. change (max s0) with (max st0) in L.
  split.
  - change (line (set_disp 0 0 s')) with (line s'). rewrite L.
    change (line s0) with (@nil WCHAR). simpl app.
    apply firstn_all2. lia.
  - change (history (set_disp 0 0 s')) with (history s'). rewrite Hh. reflexivity.
Qed.

(** The line [DefS a b], as a command file gives it. *)
Lemma internal_cmd_dispatch_witness :
  let st := set_line (wstr "DefS a b") (initial default_option 100) in
  let ext : Handlers := fun _ _ s => Some s in
  internal_lookup st = Some (Some (DEFS, 0))
  /\ option_map (fun r => (fst r, sym_head (snd r), history (snd r))) (internal_cmd ext st)
     = Some (true, [mkDefine (wstr "a") [wstr "b"]], []).
Proof.
  intros st ext.
  assert (Hcb : check_break st <= 1) by (vm_compute; discriminate).
  assert (Hlen : length (first_word st) = 4%nat) by (vm_compute; reflexivity).
  assert (Hcmd : command_of (first_word st) = Some DEFS) by (vm_compute; reflexivity).
  destruct (internal_cmd_dispatch ext st DEFS Hcb Hlen Hcmd) as (HL & HI & _).
  split; [exact HL|]. rewrite HI. vm_compute. reflexivity.
Defined.

(** C2 as stated fails for a line from the keyboard: [defs a b] is typed, the
    command is run (the symbol is defined and the loop of [MyReadConsoleW]
    goes on to read the next line), and the history holds the line.  And with
    macro translation disabled the line is handed to the host shell as it
    is. *)
Lemma internal_cmd_history_counterexample :
  let ext : Handlers := fun _ _ s => Some s in
  let st := set_input [wstr "defs a b"] (initial default_option 100) in
  let off := set_input [wstr "defs a b"]
               (initial (mkOptions false true SPACE 1 50 false false) 100) in
  option_map (fun r => (fst r, sym_head (snd r), history (snd r))) (read_pass 10 ext st)
  = Some (true, [mkDefine (wstr "a") [wstr "b"]], [wstr "defs a b"])
  /\ option_map line (MyReadConsoleW 10 ext 102 off) = Some (wstr "defs a b" ++ [13; 10]).
Proof.
  vm_compute. split; reflexivity.
Qed.

(** ** The lines of a macro *)

(** A multi-line [defm] with a valid name: the macro is put at the head of
    its list, without lines, and the lines are read. *)
Lemma execute_defm_open (st : State) (pos : Z) :
  stores_ok st -> def_macro st = false -> name_ok st pos = true ->
  skip_blank st (skip_nondelim st pos) = len st -> heap st = [] ->
  exists st4 d t,
    execute_defm pos st
    = ('(ll, st5) <- defm_lines (lines_left st4) false st4 ;;
       Some (set_def_macro false (if ll then st5 else del_define MacHead st5)))
    /\ mac_head st4 = mkDefine (name d) [] :: t
    /\ canon (name d) = canon (name_at st pos)
    /\ ~ In (canon (name_at st pos)) (names t)
    /\ (defined_in (mac_head st) (name_at st pos) ->
        length (d :: t) = length (mac_head st))
    /\ heap st4 = [] /\ line st4 = line st
    /\ macro_stk st4 = macro_stk st
    /\ (file st4, input st4, mcmd st4, opt st4, max st4, check_break st4,
        def_macro st4)
       = (file st, input st, mcmd st, opt st, max st, check_break st, true).
Proof.
  intros Hok Hdm Hname Hdef Hheap. unfold execute_defm. rewrite Hdm.
  unfold name_ok in Hname. apply negb_true_iff in Hname.
  change (skip_nondelim (set_def_macro true st) pos) with (skip_nondelim st pos).
  change (len (set_def_macro true st)) with (len st).
  change (line (set_def_macro true st)) with (line st).
  rewrite Hname.
  destruct (name_at_key st pos) as (rest & Hk & Hcnt).
  set (nm := name_at st pos) in *.
  rewrite <- Hcnt.
  set (st0 := set_def_macro true st).
  set (proj := fun s : State =>
                 (file s, input s, mcmd s, opt s, max s, check_break s, def_macro s)).
  assert (Pj : forall h l s, proj (set_head h l s) = proj s)
    by (intros h l s; destruct h; reflexivity).
  assert (Hk0 : skipn (Z.to_nat pos) (line st0) = nm ++ rest) by exact Hk.
  (* the symbol list *)
  pose proof (find_del_spec SymHead pos nm rest st0 Hk0) as Hs. cbv zeta in Hs.
  pose proof (frame_find_define proj Pj SymHead pos (Z.of_nat (length nm)) st0) as P1.
  destruct (find_define SymHead pos (Z.of_nat (length nm)) st0) as [s st1].
  simpl fst in Hs. simpl snd in Hs, P1.
  assert (P2 : proj (if s then del_define SymHead st1 else st1) = proj st0)
    by (destruct s; [unfold del_define; rewrite Pj|]; exact P1).
  set (st2 := if s then del_define SymHead st1 else st1) in *.
  destruct Hs as (L2 & H2 & O2 & S2).
  assert (M2 : get_head MacHead st2 = mac_head st) by (apply (O2 MacHead); discriminate).
  assert (K2 : get_head MacroStk st2 = macro_stk st) by (apply (O2 MacroStk); discriminate).
  assert (Nm : NoDup (names (mac_head st))).
  { unfold stores_ok in Hok. apply List.NoDup_app_remove_l in Hok. exact Hok. }
  (* the macro list *)
  assert (Hk2 : skipn (Z.to_nat pos) (line st2) = nm ++ rest) by (rewrite L2; exact Hk).
  destruct (find_define_spec MacHead pos nm rest st2 Hk2) as (L3 & H3 & O3 & F3).
  pose proof (frame_find_define proj Pj MacHead pos (Z.of_nat (length nm)) st2) as P3.
  destruct (find_define MacHead pos (Z.of_nat (length nm)) st2) as [m st3].
  simpl fst in *. simpl snd in *.
  assert (K3 : get_head MacroStk st3 = macro_stk st)
    by (rewrite O3 by discriminate; exact K2).
  assert (H4 : exists st4 d t,
             (if m then (true, set_head_lines MacHead [] st3)
              else add_define MacHead pos (Z.of_nat (length nm)) st3) = (true, st4)
             /\ mac_head st4 = mkDefine (name d) [] :: t
             /\ canon (name d) = canon nm
             /\ ~ In (canon nm) (names t)
             /\ (defined_in (mac_head st) nm -> length (d :: t) = length (mac_head st))
             /\ heap st4 = [] /\ line st4 = line st
             /\ macro_stk st4 = macro_stk st
             /\ proj st4 = proj st0).
  { destruct m.
    - destruct F3 as (d & l' & Hd & Hc & Hp).
      destruct (names_set_lines MacHead [] st3) as (_ & _ & O5 & L5 & H5).
      exists (set_head_lines MacHead [] st3), d, l'.
      split; [reflexivity|].
      split; [apply (head_set_lines MacHead [] st3 _ _ Hd)|].
      split; [exact Hc|].
      rewrite M2 in Hp.
      split.
      { pose proof (names_perm _ _ Hp) as Hpn.
        apply (Permutation_NoDup Hpn) in Nm. simpl in Nm.
        inversion Nm as [|? ? Hx _]; subst. rewrite <- Hc. exact Hx. }
      split; [intros _; symmetry; apply Permutation_length; exact Hp|].
      split; [rewrite H5, H3, H2; exact Hheap|].
      split; [rewrite L5, L3; exact L2|].
      split; [change (get_head MacroStk (set_head_lines MacHead [] st3) = macro_stk st);
              rewrite O5 by discriminate; exact K3|].
      rewrite (frame_set_head_lines proj Pj). rewrite P3. exact P2.
    - destruct F3 as [E3 Hn3]. subst st3.
      assert (Hh2 : heap st2 = []) by (rewrite H2; exact Hheap).
      exists (set_head MacHead
                (mkDefine (sub (line st2) pos (Z.of_nat (length nm))) []
                 :: get_head MacHead st2) st2),
             (mkDefine (sub (line st2) pos (Z.of_nat (length nm))) []),
             (mac_head st).
      assert (Hnm : sub (line st2) pos (Z.of_nat (length nm)) = nm).
      { rewrite L2. change (line st0) with (line st). rewrite Hcnt. reflexivity. }
      split; [unfold add_define, malloc; rewrite Hh2; reflexivity|].
      split; [change (mac_head (set_head MacHead ?l ?s)) with l; rewrite M2; reflexivity|].
      split; [cbn [name]; rewrite Hnm; reflexivity|].
      split; [rewrite <- M2; exact Hn3|].
      split; [intros Hin; exfalso; apply Hn3; rewrite M2; exact Hin|].
      split; [exact Hh2|].
      split; [exact L2|].
      split; [exact K2|].
      rewrite Pj. exact P2. }
  destruct H4 as (st4 & d & t & E4 & Hm4 & Hc4 & Hn4 & Hl4 & Hh4 & L4 & K4 & P4).
  rewrite E4. cbn [negb].
  assert (Ldef : skip_blank st4 (skip_nondelim st pos) = len st4).
  { rewrite (skip_blank_line st st4 _ L4), (len_line st st4 L4). exact Hdef. }
  rewrite Ldef, Z.eqb_refl. cbn [negb].
  exists st4, d, t.
  split; [reflexivity|].
  split; [exact Hm4|]. split; [exact Hc4|]. split; [exact Hn4|].
  split; [exact Hl4|]. split; [exact Hh4|]. split; [exact L4|].
  split; [exact K4|]. exact P4.
Qed.

Lemma defm_lines_step (f : nat) (ll : bool) (st : State) :
  defm_lines (S f) ll st
  = (st1 <- get_next_line st ;;
     if endm_line (line st1) then Some (ll, st1)
     else
       let '(l, st2) := add_line 0 st1 in
       match l with
       | None => Some (false, st2)
       | Some l =>
           defm_lines f true
             (set_head_lines MacHead
                (match mac_head st2 with [] => [] | d :: _ => lines d end ++ [l]) st2)
       end).
Proof. reflexivity. Qed.

Section DefmSource.

(** [Src ls st]: the lines [ls] are the next that [get_next_line] gives. *)
Variable Src : list (list WCHAR) -> State -> Prop.
Hypothesis Src_next :
  forall l ls st, Src (l :: ls) st -> heap st = [] ->
    exists st', get_next_line st = Some st' /\ line st' = l /\ heap st' = []
                /\ Src ls st'.
Hypothesis Src_head :
  forall ls x st, Src ls st -> Src ls (set_head MacHead x st).

(** The loop of the multi-line definition adds the lines up to the first one
    that is [endm]. *)
Lemma defm_lines_run (body : list (list WCHAR)) :
  forall (fuel : nat) (ll : bool) (st : State) (e : list WCHAR)
         (more : list (list WCHAR)) (d : Define) (t : list Define),
    (length body < fuel)%nat -> Src (body ++ e :: more) st -> heap st = [] ->
    forallb (fun l => negb (endm_line l)) body = true -> endm_line e = true ->
    Forall (fun l => Z.of_nat (length l) < 2 ^ 32) body ->
    mac_head st = d :: t ->
    exists st',
      defm_lines fuel ll st = Some (ll || negb (length body =? 0)%nat, st')
      /\ mac_head st' = mkDefine (name d) (lines d ++ body) :: t
      /\ sym_head st' = sym_head st.
Proof.
  induction body as [|l body IH];
    intros fuel ll st e more d t Hf Hsrc Hheap Hbody He Hlen Hmac;
    (destruct fuel as [|f]; [simpl in Hf; lia|]); rewrite defm_lines_step.
  - destruct (Src_next e more st Hsrc Hheap) as (st1 & E1 & L1 & H1 & S1).
    rewrite E1. cbn [bind]. rewrite L1, He.
    apply defs_get_next_line in E1. unfold defs_of in E1. injection E1 as Es Em _.
    exists st1. split; [rewrite orb_false_r; reflexivity|].
    rewrite app_nil_r, Em, Hmac, Es. destruct d; split; reflexivity.
  - cbn [forallb] in Hbody. apply andb_true_iff in Hbody. destruct Hbody as [Hl Hbody].
    apply negb_true_iff in Hl.
    inversion Hlen as [|? ? Hl32 Hlen']; subst.
    destruct (Src_next l (body ++ e :: more) st Hsrc Hheap) as (st1 & E1 & L1 & H1 & S1).
    rewrite E1. cbn [bind]. rewrite L1, Hl.
    apply defs_get_next_line in E1. unfold defs_of in E1. injection E1 as Es Em _.
    unfold add_line, malloc. rewrite H1. cbv beta iota zeta.
    rewrite Em, Hmac.
    assert (Hcopy : sub (line st1) 0 (dw (len st1 - 0)) = l).
    { unfold len. rewrite L1, Z.sub_0_r, dw_small by lia.
      unfold sub. change (Z.to_nat 0) with O. rewrite skipn_O, Nat2Z.id.
      apply firstn_all. }
    rewrite Hcopy.
    assert (Hset : set_head_lines MacHead (lines d ++ [l]) st1
                   = set_head MacHead (mkDefine (name d) (lines d ++ [l]) :: t) st1).
    { unfold set_head_lines. change (get_head MacHead st1) with (mac_head st1).
      rewrite Em, Hmac. reflexivity. }
    rewrite Hset.
    destruct (IH f true (set_head MacHead (mkDefine (name d) (lines d ++ [l]) :: t) st1)
                e more (mkDefine (name d) (lines d ++ [l])) t)
      as (st' & Er & Mr & Sr); try assumption.
    + simpl in Hf. lia.
    + apply Src_head. exact S1.
    + reflexivity.
    + exists st'. split; [rewrite Er, orb_true_r; reflexivity|].
      split; [rewrite Mr; cbn [name lines]; rewrite <- app_assoc; reflexivity|].
      rewrite Sr. exact Es.
Qed.

End DefmSource.

(** *** The lines of a command file *)

Lemma skip_ignored_spec (ls : list (list WCHAR)) :
  filter file_line_kept (skip_ignored ls) = filter file_line_kept ls
  /\ (length (skip_ignored ls) <= length ls)%nat
  /\ match skip_ignored ls with
     | [] => True
     | b :: _ => file_line_kept b = true
     end.
Proof.
  induction ls as [|b rest IH]; [simpl; auto|].
  destruct IH as (H1 & H2 & H3).
  assert (Hk : file_line_kept b = negb ((hd 0 b =? 10) || (hd 0 b =? 45)))
    by reflexivity.
  cbn [skip_ignored filter].
  destruct ((hd 0 b =? 10) || (hd 0 b =? 45)); cbn [negb] in Hk; rewrite Hk.
  - split; [exact H1|]. split; [simpl; lia | exact H3].
  - split; [cbn [filter]; rewrite Hk; reflexivity|]. split; [lia | reflexivity].
Qed.

Lemma skip_ignored_forallb (p : list WCHAR -> bool) (ls : list (list WCHAR)) :
  forallb p ls = true -> forallb p (skip_ignored ls) = true.
Proof.
  induction ls as [|b rest IH]; [auto|]. intros H.
  cbn [skip_ignored]. destruct (_ || _); [|exact H].
  simpl in H. apply andb_true_iff in H. apply IH. apply H.
Qed.

Lemma c_string_hd (b : list WCHAR) :
  (hd 0 b =? 0) = false -> exists c t, c_string b = c :: t.
Proof.
  destruct b as [|c b]; [discriminate|]. simpl hd. intros H.
  rewrite c_string_cons, H. eexists _, _. reflexivity.
Qed.

Lemma c_string_length (b : list WCHAR) : (length (c_string b) <= length b)%nat.
Proof.
  induction b as [|c b IH]; [simpl; lia|].
  rewrite c_string_cons. destruct (c =? 0); simpl; lia.
Qed.

Lemma removelast_length_le (l : list WCHAR) : (length (removelast l) <= length l)%nat.
Proof.
  induction l as [|c l IH]; [simpl; lia|].
  simpl. destruct l; simpl in *; lia.
Qed.

Lemma file_line_length (b : list WCHAR) :
  fgets_string b = true -> Z.of_nat (length (file_line b)) < 2 ^ 32.
Proof.
  unfold fgets_string, file_line. intros H.
  apply andb_true_iff in H. destruct H as [_ H]. apply Z.ltb_lt in H.
  pose proof (removelast_length_le (c_string b)).
  pose proof (c_string_length b). lia.
Qed.

Lemma file_gives_next (l : list WCHAR) (ls : list (list WCHAR)) (st : State) :
  file_gives (l :: ls) st -> heap st = [] ->
  exists st', get_next_line st = Some st' /\ line st' = l /\ heap st' = []
              /\ file_gives ls st'.
Proof.
  intros (Hdm & content & more & Hfile & Hall & Hlines) Hheap.
  unfold get_next_line. cbv zeta.
  set (st0 := set_kbd false (set_line [] st)).
  change (file st0) with (file st). rewrite Hfile.
  unfold get_file_line. change (file st0) with (file st). rewrite Hfile.
  destruct (skip_ignored_spec content) as (Hfl & _ & Hkept).
  pose proof (skip_ignored_forallb fgets_string content Hall) as Hall'.
  unfold file_lines in Hlines. rewrite <- Hfl in Hlines.
  destruct (skip_ignored content) as [|b rest].
  - change (def_macro (set_file (Some []) st0)) with (def_macro st). rewrite Hdm.
    cbn [bind]. simpl in Hlines. injection Hlines as <- Hls.
    symmetry in Hls. apply app_eq_nil in Hls. destruct Hls as [-> ->].
    eexists. split; [reflexivity|]. split; [reflexivity|]. split; [exact Hheap|].
    split; [exact Hdm|]. exists [], [ENDM]. repeat split.
  - cbn [filter] in Hlines. rewrite Hkept in Hlines.
    cbn [map app] in Hlines. injection Hlines as <- Hls.
    cbn [forallb] in Hall'. apply andb_true_iff in Hall'. destruct Hall' as [Hb Hrest].
    unfold fgets_string in Hb. apply andb_true_iff in Hb. destruct Hb as [Hb0 _].
    apply negb_true_iff in Hb0.
    destruct (c_string_hd b Hb0) as (c & tl & Ebuf).
    unfold file_line. rewrite Ebuf.
    unfold malloc. change (heap (set_file (Some rest) st0)) with (heap st).
    rewrite Hheap.
    destruct (_ >? _); cbn [bind]; (eexists; split; [reflexivity|]);
      (split; [reflexivity|]); (split; [exact Hheap|]);
      (split; [exact Hdm|]); exists rest, more; repeat split; assumption.
Qed.

Lemma file_gives_head (ls : list (list WCHAR)) (x : list Define) (st : State) :
  file_gives ls st -> file_gives ls (set_head MacHead x st).
Proof. intros H. exact H. Qed.

(** *** The lines typed *)

Lemma add_to_history_keeps (st : State) :
  heap st = [] ->
  heap (add_to_history st) = []
  /\ line (add_to_history st) = line st
  /\ file (add_to_history st) = file st
  /\ macro_stk (add_to_history st) = macro_stk st
  /\ mcmd (add_to_history st) = mcmd st
  /\ opt (add_to_history st) = opt st
  /\ input (add_to_history st) = input st
  /\ max (add_to_history st) = max st
  /\ check_break (add_to_history st) = check_break st.
Proof.
  intros Hh. unfold add_to_history, malloc, remove_from_history.
  destruct (len st <? min_length (opt st)); [repeat split; assumption|].
  destruct (find_identical _ _); [repeat split; assumption|].
  destruct (_ && _); simpl heap; rewrite Hh; repeat split; assumption.
Qed.

Lemma keyboard_gives_next (l : list WCHAR) (ls : list (list WCHAR)) (st : State) :
  keyboard_gives (l :: ls) st -> heap st = [] ->
  exists st', get_next_line st = Some st' /\ line st' = l /\ heap st' = []
              /\ keyboard_gives ls st'.
Proof.
  intros (Hfile & Hstk & Hmcmd & Har & Hcb & (rest & Hinput) & Hall) Hheap.
  inversion Hall as [|? ? [Hplain Hfit] Hall']; subst.
  unfold get_next_line. cbv zeta.
  change (file (set_kbd false (set_line [] st))) with (file st).
  change (macro_stk (set_kbd false (set_line [] st))) with (macro_stk st).
  change (mcmd (set_kbd false (set_line [] st))) with (mcmd st).
  rewrite Hfile, Hstk, Hmcmd. unfold edit_line.
  change (input (set_kbd true (set_kbd false (set_line [] st)))) with (input st).
  change (check_break (set_kbd true (set_kbd false (set_line [] st))))
    with (check_break st).
  rewrite Hinput. cbn [app].
  destruct (Z.gtb_spec (check_break st) 1) as [Hgt|_]; [lia|].
  set (s0 := set_input (ls ++ rest) (set_kbd true (set_kbd false (set_line [] st)))).
  change (opt s0) with (opt st). rewrite Har.
  destruct (type_chars_plain (overwrite (opt st)) l (mkEdit 0 O false true) s0)
    as (e' & s' & E & L & M & _ & _ & Hp & Op & Ip & Fp & Sp & Mp & _ & _ & Cp & _);
    [reflexivity|reflexivity| |exact Hplain|].
  { change (len s0) with 0. change (max s0) with (max st). lia. }
  rewrite E. cbn [bind].
  destruct (add_to_history_keeps (set_disp 0 0 s'))
    as (A1 & A2 & A3 & A4 & A5 & A6 & A7 & A8 & A9).
  { change (heap (set_disp 0 0 s')) with (heap s'). rewrite Hp. exact Hheap. }
  eexists. split; [reflexivity|].
  change (len s0) with 0 in L. change (max s0) with (max st) in L.
  split.
  { rewrite A2. change (line (set_disp 0 0 s')) with (line s'). rewrite L.
    change (line s0) with (@nil WCHAR). simpl app. apply firstn_all2. unfold WCHAR in *. lia. }
  split; [exact A1|].
  unfold keyboard_gives. rewrite A3, A4, A5, A6, A7, A8, A9.
  change (check_break (set_disp 0 0 s')) with (check_break s').
  change (file (set_disp 0 0 s')) with (file s').
  change (macro_stk (set_disp 0 0 s')) with (macro_stk s').
  change (mcmd (set_disp 0 0 s')) with (mcmd s').
  change (opt (set_disp 0 0 s')) with (opt s').
  change (input (set_disp 0 0 s')) with (input s').
  change (max (set_disp 0 0 s')) with (max s').
  rewrite Fp, Sp, Mp, Op, Ip, M, Cp.
  repeat split; try assumption.
  exists rest. reflexivity.
Qed.

Lemma keyboard_gives_head (ls : list (list WCHAR)) (x : list Define) (st : State) :
  keyboard_gives ls st -> keyboard_gives ls (set_head MacHead x st).
Proof. intros H. exact H. Qed.

(** *** A multi-line definition *)

(** A multi-line [defm] with a valid name, the lines coming from a source
    that gives [body], then a line [e] that is [endm]: the macro has the
    lines [body]; without lines the name is no macro. *)
Lemma execute_defm_body (Src : list (list WCHAR) -> State -> Prop)
  (st : State) (pos : Z) (body : list (list WCHAR)) (e : list WCHAR)
  (more : list (list WCHAR)) :
  (forall l ls s, Src (l :: ls) s -> heap s = [] ->
     exists s', get_next_line s = Some s' /\ line s' = l /\ heap s' = []
                /\ Src ls s') ->
  (forall ls x s, Src ls s -> Src ls (set_head MacHead x s)) ->
  stores_ok st -> def_macro st = false -> name_ok st pos = true ->
  skip_blank st (skip_nondelim st pos) = len st -> heap st = [] ->
  (forall st4,
     macro_stk st4 = macro_stk st ->
     (file st4, input st4, mcmd st4, opt st4, max st4, check_break st4, def_macro st4)
     = (file st, input st, mcmd st, opt st, max st, check_break st, true) ->
     Src (body ++ e :: more) st4 /\ (length body < lines_left st4)%nat) ->
  forallb (fun l => negb (endm_line l)) body = true -> endm_line e = true ->
  Forall (fun l => Z.of_nat (length l) < 2 ^ 32) body ->
  exists st2,
    execute_defm pos st = Some st2
    /\ macro_defined (mac_head st) (mac_head st2) (name_at st pos) body.
Proof.
  intros Hnext Hhead Hok Hdm Hname Hdef Hheap Hsrc Hbody He Hlen.
  destruct (execute_defm_open st pos Hok Hdm Hname Hdef Hheap)
    as (st4 & d & t & E & Hm4 & Hc4 & Hn4 & Hl4 & Hh4 & L4 & K4 & P4).
  destruct (Hsrc st4 K4 P4) as [S4 F4].
  destruct (defm_lines_run Src Hnext Hhead body (lines_left st4) false st4 e more
              (mkDefine (name d) []) t F4 S4 Hh4 Hbody He Hlen Hm4)
    as (st5 & E5 & M5 & _).
  rewrite E, E5. cbn [bind orb name lines app] in *.
  eexists. split; [reflexivity|].
  destruct body as [|l body]; cbn [length Nat.eqb negb macro_defined].
  - change (mac_head (set_def_macro false (del_define MacHead st5)))
      with (tl (mac_head st5)).
    rewrite M5. exact Hn4.
  - change (mac_head (set_def_macro false st5)) with (mac_head st5).
    rewrite M5. split.
    + intros Hin. rewrite <- (Hl4 Hin). reflexivity.
    + eexists _, t. split; [reflexivity|]. split; [exact Hc4 | reflexivity].
Qed.

Lemma file_lines_length (content : list (list WCHAR)) :
  forallb fgets_string content = true ->
  Forall (fun l => Z.of_nat (length l) < 2 ^ 32) (file_lines content).
Proof.
  intros H. unfold file_lines. apply Forall_app. split.
  - apply Forall_forall. intros l Hl. apply in_map_iff in Hl.
    destruct Hl as (b & <- & Hb). apply filter_In in Hb. destruct Hb as [Hb _].
    apply file_line_length. rewrite forallb_forall in H. apply H. exact Hb.
  - constructor; [|constructor]. vm_compute. reflexivity.
Qed.

Lemma filter_length_le (A : Type) (p : A -> bool) (l : list A) :
  (length (filter p l) <= length l)%nat.
Proof. induction l as [|x l IH]; simpl; [lia|]. destruct (p x); simpl; lia. Qed.

(** C6.  Start with definition lists that hold no name twice, and run any
    sequence of [defs] and [defm] commands.  In the state that results no name
    is defined twice, so no name is both a symbol and a macro.  Whatever the
    next command is: a [defs] with a valid name leaves no macro of that name,
    and a [defm] with a valid name leaves no symbol of that name; a [defs]
    (a single-line [defm]) of a name that is a symbol (a macro) already keeps
    the number of symbols (macros), and the definition of the name, now at the
    head of its list, has the new text as its only line, provided that the
    allocation of the line succeeds; and a single-line [defm] returns.  A
    multi-line [defm] with a valid name, whose lines come from a command file
    or are typed, returns when memory is available: the lines up to the
    first one whose first word is [endm] (or up to the end of the file) are,
    in their order, the lines of the macro, which is at the head of its
    list, and the list is as long as before when the name was a macro
    already; when there is no line before [endm], the name is no macro
    afterwards.  (Typed lines: plain keys, within the buffer, auto-recall off
    and no Control+Break pending.) *)
Theorem defs_defm_exclusive (cs : list def_cmd) (st st1 : State) :
  stores_ok st -> def_macro st = false ->
  run_def_cmds cs st = Some st1 ->
  stores_ok st1
  /\ (forall nm, ~ (defined_in (sym_head st1) nm /\ defined_in (mac_head st1) nm))
  /\ (forall l pos,
        pos <> len (set_line l st1) -> name_ok (set_line l st1) pos = true ->
        ~ defined_in (mac_head (execute_defs pos (set_line l st1)))
                     (name_at (set_line l st1) pos))
  /\ (forall l pos st2,
        name_ok (set_line l st1) pos = true ->
        execute_defm pos (set_line l st1) = Some st2 ->
        ~ defined_in (sym_head st2) (name_at (set_line l st1) pos))
  /\ (forall l pos,
        pos <> len (set_line l st1) -> name_ok (set_line l st1) pos = true ->
        defined_in (sym_head st1) (name_at (set_line l st1) pos) ->
        skip_blank (set_line l st1) (skip_nondelim (set_line l st1) pos)
          <> len (set_line l st1) ->
        hd true (heap st1) = true ->
        length (sym_head (execute_defs pos (set_line l st1))) = length (sym_head st1)
        /\ exists d t,
             sym_head (execute_defs pos (set_line l st1)) = d :: t
             /\ canon (name d) = canon (name_at (set_line l st1) pos)
             /\ lines d = [def_text (set_line l st1) pos])
  /\ (forall l pos st2,
        name_ok (set_line l st1) pos = true ->
        defined_in (mac_head st1) (name_at (set_line l st1) pos) ->
        skip_blank (set_line l st1) (skip_nondelim (set_line l st1) pos)
          <> len (set_line l st1) ->
        hd true (heap st1) = true ->
        execute_defm pos (set_line l st1) = Some st2 ->
        length (mac_head st2) = length (mac_head st1)
        /\ exists d t,
             mac_head st2 = d :: t
             /\ canon (name d) = canon (name_at (set_line l st1) pos)
             /\ lines d = [def_text (set_line l st1) pos])
  /\ (forall l pos,
        skip_blank (set_line l st1) (skip_nondelim (set_line l st1) pos)
          <> len (set_line l st1) ->
        exists st2, execute_defm pos (set_line l st1) = Some st2)
  /\ (forall l pos content body e more,
        name_ok (set_line l st1) pos = true ->
        skip_blank (set_line l st1) (skip_nondelim (set_line l st1) pos)
          = len (set_line l st1) ->
        heap st1 = [] ->
        file st1 = Some content -> forallb fgets_string content = true ->
        file_lines content = body ++ e :: more ->
        forallb (fun b => negb (endm_line b)) body = true -> endm_line e = true ->
        exists st2,
          execute_defm pos (set_line l st1) = Some st2
          /\ macro_defined (mac_head st1) (mac_head st2)
                           (name_at (set_line l st1) pos) body)
  /\ (forall l pos body e more,
        name_ok (set_line l st1) pos = true ->
        skip_blank (set_line l st1) (skip_nondelim (set_line l st1) pos)
          = len (set_line l st1) ->
        heap st1 = [] ->
        file st1 = None -> macro_stk st1 = [] -> mcmd_txt (mcmd st1) = None ->
        auto_recall (opt st1) = false -> check_break st1 <= 1 -> max st1 < 2 ^ 32 ->
        input st1 = body ++ e :: more ->
        Forall (fun b => forallb (fun c => 32 <=? c) b = true
                         /\ Z.of_nat (length b) <= max st1) (body ++ [e]) ->
        forallb (fun b => negb (endm_line b)) body = true -> endm_line e = true ->
        exists st2,
          execute_defm pos (set_line l st1) = Some st2
          /\ macro_defined (mac_head st1) (mac_head st2)
                           (name_at (set_line l st1) pos) body).
Proof.
  intros Hok Hdm Hrun.
  destruct (run_def_cmds_inv cs st st1 Hok Hdm Hrun) as [Hok1 Hdm1].
  split; [exact Hok1|].
  split; [intros nm; apply stores_ok_disjoint; exact Hok1|].
  split.
  { intros l pos Hp Hn.
    apply (proj1 (proj2 (execute_defs_spec (set_line l st1) pos Hok1)) Hp Hn). }
  split.
  { intros l pos st2 Hn E.
    apply (proj1 (proj2 (execute_defm_spec (set_line l st1) st2 pos Hok1 E)) Hdm1 Hn). }
  split.
  { intros l pos Hp Hn Hin Hne Hheap.
    destruct (proj2 (proj2 (execute_defs_spec (set_line l st1) pos Hok1))
                Hp Hn Hin Hne Hheap) as (Hl & d & t & Hd & Hc & Hx).
    split; [exact Hl|]. exists d, t. split; [exact Hd|]. split; [exact Hc|].
    exact Hx. }
  split.
  { intros l pos st2 Hn Hin Hne Hheap E.
    destruct (proj2 (proj2 (execute_defm_spec (set_line l st1) st2 pos Hok1 E))
                Hdm1 Hn Hin Hne Hheap) as (Hl & d & t & Hd & Hc & Hx).
    split; [exact Hl|]. exists d, t. split; [exact Hd|]. split; [exact Hc|].
    exact Hx. }
  split.
  { intros l pos Hne. apply execute_defm_single. exact Hne. }
  split.
  { intros l pos content body e more Hn Hdef Hheap Hfile Hall Hlines Hbody He.
    pose proof (file_lines_length content Hall) as Hlen.
    rewrite Hlines in Hlen. apply Forall_app in Hlen. destruct Hlen as [Hlen _].
    apply (execute_defm_body file_gives (set_line l st1) pos body e more
             file_gives_next file_gives_head Hok1 Hdm1 Hn Hdef Hheap);
      try assumption.
    intros st4 K4 P4. injection P4 as Pf Pi Pm Po Px Pc Pd.
    change (file (set_line l st1)) with (file st1) in Pf.
    split.
    - split; [exact Pd|]. exists content, [].
      split; [rewrite Pf; exact Hfile|].
      split; [exact Hall | rewrite app_nil_r; exact Hlines].
    - unfold lines_left. rewrite Pf, Hfile.
      assert (Hc : (length (file_lines content) <= S (length content))%nat).
      { unfold file_lines. rewrite length_app, length_map. simpl.
        pose proof (filter_length_le _ file_line_kept content). lia. }
      rewrite Hlines, length_app in Hc. simpl in Hc. lia. }
  intros l pos body e more Hn Hdef Hheap Hfile Hstk Hmcmd Har Hcb Hmax Hinput Hall
         Hbody He.
  assert (Hlen : Forall (fun b => Z.of_nat (length b) < 2 ^ 32) body).
  { apply Forall_app in Hall. destruct Hall as [Hall _].
    apply Forall_forall. intros b Hb. rewrite Forall_forall in Hall.
    destruct (Hall b Hb) as [_ Hfit]. unfold WCHAR in *. lia. }
  apply (execute_defm_body keyboard_gives (set_line l st1) pos body e []
           keyboard_gives_next keyboard_gives_head Hok1 Hdm1 Hn Hdef Hheap);
    try assumption.
  intros st4 K4 P4. injection P4 as Pf Pi Pm Po Px Pc Pd.
  change (check_break (set_line l st1)) with (check_break st1) in Pc.
  change (file (set_line l st1)) with (file st1) in Pf.
  change (input (set_line l st1)) with (input st1) in Pi.
  change (mcmd (set_line l st1)) with (mcmd st1) in Pm.
  change (opt (set_line l st1)) with (opt st1) in Po.
  change (max (set_line l st1)) with (max st1) in Px.
  change (macro_stk (set_line l st1)) with (macro_stk st1) in K4.
  split.
  - unfold keyboard_gives. rewrite Pf, K4, Pm, Po, Pi, Px, Pc.
    repeat split; try assumption.
    exists more. rewrite Hinput, <- app_assoc. reflexivity.
  - unfold lines_left. rewrite Pi, Hinput, length_app. simpl. lia.
Qed.

(** The name [a] is defined as a symbol, then as a macro of two lines that a
    command file gives. *)
Lemma defs_defm_exclusive_witness :
  let st := set_file (Some [wstr "echo one" ++ [10]; wstr "- note" ++ [10];
                            wstr "echo two" ++ [10]; wstr "EndM" ++ [10];
                            wstr "dir" ++ [10]])
                     (initial default_option 100) in
  let cs := [Defs (wstr "defs a b") 5; Defm (wstr "defm a") 5] in
  exists st1,
    run_def_cmds cs st = Some st1
    /\ sym_head st1 = []
    /\ mac_head st1 = [mkDefine (wstr "a") [wstr "echo one"; wstr "echo two"]]
    /\ file st1 = Some [wstr "dir" ++ [10]]
    /\ forall nm, ~ (defined_in (sym_head st1) nm /\ defined_in (mac_head st1) nm).
Proof.
  intros st cs.
  assert (Hok : stores_ok st) by constructor.
  assert (Hdm : def_macro st = false) by reflexivity.
  destruct (run_def_cmds cs st) as [st1|] eqn:Hrun;
    [|vm_compute in Hrun; discriminate Hrun].
  exists st1. split; [reflexivity|].
  pose proof Hrun as Hv. vm_compute in Hv. injection Hv as Hv.
  split; [rewrite <- Hv; reflexivity|].
  split; [rewrite <- Hv; reflexivity|].
  split; [rewrite <- Hv; reflexivity|].
  apply (defs_defm_exclusive cs st st1 Hok Hdm Hrun).
Defined.

(** ** The expansion pipeline *)

Lemma skipn_char_at (l : list WCHAR) (pos : Z) :
  0 <= pos < Z.of_nat (length l) ->
  skipn (Z.to_nat pos) l = char_at l pos :: skipn (Z.to_nat (pos + 1)) l.
Proof.
  intros H. unfold char_at.
  destruct (pos <? 0) eqn:E; [apply Z.ltb_lt in E; lia|].
  replace (Z.to_nat (pos + 1)) with (S (Z.to_nat pos)) by lia.
  assert (Hn : (Z.to_nat pos < length l)%nat) by lia.
  revert Hn. generalize (Z.to_nat pos) as n. clear.
  induction l as [|x l IH]; intros n Hn; simpl in Hn; [lia|].
  destruct n as [|n]; [reflexivity|]. simpl. apply IH. lia.
Qed.

Lemma is_quote_at_other (l : list WCHAR) (pos : Z) :
  char_at l pos <> DQUOTE -> is_quote_at l pos = false.
Proof.
  intros H. unfold is_quote_at.
  destruct (Z.eqb_spec (char_at l pos) DQUOTE) as [E|_]; [contradiction|].
  rewrite andb_false_r. reflexivity.
Qed.

Lemma skip_nonblank_step (st : State) (pos : Z) :
  0 <= pos ->
  skip_nonblank st pos
  = if (pos <? len st) && negb (isblank (char_at (line st) pos))
    then skip_nonblank st (pos + 1) else pos.
Proof.
  intros Hp. unfold skip_nonblank, len.
  destruct (Z.ltb_spec pos (Z.of_nat (length (line st)))) as [Hlt|Hge].
  - rewrite (skipn_char_at (line st) pos) by lia. simpl.
    destruct (isblank (char_at (line st) pos)); reflexivity.
  - rewrite skipn_all2 by lia. reflexivity.
Qed.

(** On a word without quotes [get_string] goes to the next blank and leaves
    the line as it is. *)
Lemma get_string_loop_plain (keep : bool) (start : Z) (oq : bool) (cq : option Z)
  (st : State) (f : nat) :
  forall pos,
    0 <= pos -> (0 < f)%nat -> len st - pos < Z.of_nat f ->
    (forall i, pos <= i < skip_nonblank st pos -> char_at (line st) i <> DQUOTE) ->
    get_string_loop f keep start pos false oq cq st
    = Some (skip_nonblank st pos, oq, cq, st).
Proof.
  induction f as [|f IH]; intros pos Hp H0 Hf Hq; [lia|].
  simpl get_string_loop.
  pose proof (skip_nonblank_step st pos Hp) as Hs.
  destruct (Z.ltb_spec pos (len st)) as [Hlt|Hge]; simpl negb; simpl andb in Hs;
    cbv iota; [|rewrite Hs; reflexivity].
  unfold is_quote.
  destruct (isblank (char_at (line st) pos)) eqn:Eb; simpl negb in Hs; cbv iota in Hs.
  - rewrite is_quote_at_other; [rewrite Hs; reflexivity|].
    intros E. rewrite E in Eb. discriminate.
  - assert (Hlt' : pos < skip_nonblank st (pos + 1)).
    { pose proof (skip_while_bounds (fun c => negb (isblank c))
                    (skipn (Z.to_nat (pos + 1)) (line st)) (pos + 1)) as B.
      unfold skip_nonblank. lia. }
    rewrite is_quote_at_other by (apply Hq; lia).
    rewrite Hs. apply IH; [lia | lia | lia |].
    intros i Hi. apply Hq. lia.
Qed.

Lemma dw_le (x : Z) : 0 <= x -> 0 <= dw x <= x.
Proof.
  intros H. unfold dw. split.
  - apply Z.mod_pos_bound. lia.
  - apply Z.mod_le; lia.
Qed.

Lemma first_word_char (st : State) (i : Z) :
  skip_blank st 0 <= i < skip_nonblank st (skip_blank st 0) ->
  In (char_at (line st) i) (first_word st).
Proof.
  intros Hi. unfold first_word. cbv zeta.
  pose proof (skip_blank_bounds st) as Hb.
  pose proof (skip_nonblank_bounds st _ Hb) as Hn.
  set (start := skip_blank st 0) in *.
  set (p := skip_nonblank st start) in *.
  replace i with (start + (i - start)) by lia.
  replace (p - start) with (Z.of_nat (Z.to_nat (p - start))) by lia.
  apply char_at_sub; unfold len in *; lia.
Qed.

Lemma get_string_plain (st : State) :
  forallb (fun c => negb (c =? DQUOTE)) (first_word st) = true ->
  get_string 0 false st
  = Some (skip_blank st 0,
          dw (skip_nonblank st (skip_blank st 0) - skip_blank st 0),
          set_found_quote false st).
Proof.
  intros Hq. unfold get_string. cbv zeta.
  change (skip_blank (set_found_quote false st) 0) with (skip_blank st 0).
  change (line (set_found_quote false st)) with (line st).
  pose proof (skip_blank_bounds st) as Hb.
  rewrite (get_string_loop_plain false (skip_blank st 0) false None
             (set_found_quote false st)).
  - reflexivity.
  - lia.
  - lia.
  - change (len (set_found_quote false st)) with (len st). unfold len in *. lia.
  - intros i Hi.
    change (skip_nonblank (set_found_quote false st) (skip_blank st 0))
      with (skip_nonblank st (skip_blank st 0)) in Hi.
    change (line (set_found_quote false st)) with (line st).
    rewrite forallb_forall in Hq.
    specialize (Hq _ (first_word_char st i Hi)).
    intros E. rewrite E in Hq. discriminate.
Qed.

Lemma set_char_same (pos : Z) (c : WCHAR) (st : State) :
  0 <= pos < len st -> char_at (line st) pos = c ->
  line (set_char pos c st) = line st.
Proof.
  intros Hp Hc. unfold set_char, len in *.
  change (line (set_line ?l st)) with l.
  rewrite sub_0. simpl app. rewrite <- Hc, <- skipn_char_at by lia.
  apply firstn_skipn.
Qed.

(** When [associate] returns FALSE, it leaves the line as [get_string] has
    left it, unless the character it looks at first (the last one of the
    first string, or the one before a final [=]) is a slash: that one it
    turns into a backslash before it looks for an association. *)
Lemma associate_false_same (st sq s1 : State) (beg cnt : Z) :
  get_string 0 false st = Some (beg, cnt, sq) ->
  line sq = line st ->
  0 <= beg -> 0 <= cnt -> beg + cnt <= len st ->
  assoc_tests_slash (sub (line st) beg cnt) = false ->
  associate st = Some (false, s1) ->
  line s1 = line st.
Proof.
  intros Hg Lq Hb Hc Hle Hts.
  assert (Hns : cnt <> 0 ->
                char_at (line st)
                  (if (cnt >? 1) && (char_at (line st) (beg + cnt - 1) =? 61)
                   then beg + cnt - 2 else beg + cnt - 1) <> SLASH).
  { intros N0. unfold assoc_tests_slash in Hts. cbv zeta in Hts.
    rewrite sub_length in Hts by (unfold len in Hle; lia).
    assert (Hch : forall k, 0 <= k < cnt ->
                  char_at (sub (line st) beg cnt) k = char_at (line st) (beg + k)).
    { intros k Hk. unfold sub, char_at.
      destruct (Z.ltb_spec k 0); [lia|]. destruct (Z.ltb_spec (beg + k) 0); [lia|].
      rewrite nth_firstn.
      destruct (Nat.ltb_spec (Z.to_nat k) (Z.to_nat cnt)); [|lia].
      rewrite nth_skipn. f_equal. lia. }
    rewrite (Hch (cnt - 1)) in Hts by lia.
    replace (beg + (cnt - 1)) with (beg + cnt - 1) in Hts by lia.
    destruct ((cnt >? 1) && (char_at (line st) (beg + cnt - 1) =? 61)) eqn:Ea.
    - apply andb_true_iff in Ea. destruct Ea as [Ea _]. apply Z.gtb_lt in Ea.
      rewrite (Hch (cnt - 2)) in Hts by lia.
      replace (beg + (cnt - 2)) with (beg + cnt - 2) in Hts by lia.
      apply Z.eqb_neq. exact Hts.
    - rewrite (Hch (cnt - 1)) in Hts by lia.
      replace (beg + (cnt - 1)) with (beg + cnt - 1) in Hts by lia.
      apply Z.eqb_neq. exact Hts. }
  clear Hts.
  unfold associate. rewrite Hg. unfold bind at 1. cbv beta iota.
  rewrite Lq.
  destruct (Z.eqb_spec cnt 0) as [E0|N0].
  { intros H. injection H as <-. exact Lq. }
  (* the position of the last character of the word, or of the one before *)
  assert (Hext : exists alt ext cnt',
             (if (cnt >? 1) && (char_at (line st) (beg + cnt - 1) =? 61)
              then (1, beg + cnt - 1 - 1, cnt - 1)
              else (0, beg + cnt - 1, cnt)) = (alt, ext, cnt')
             /\ beg <= ext < beg + cnt
             /\ ext = (if (cnt >? 1) && (char_at (line st) (beg + cnt - 1) =? 61)
                       then beg + cnt - 2 else beg + cnt - 1)).
  { destruct ((cnt >? 1) && (char_at (line st) (beg + cnt - 1) =? 61)) eqn:Ea.
    - apply andb_true_iff in Ea. destruct Ea as [Ea _]. apply Z.gtb_lt in Ea.
      do 3 eexists. split; [reflexivity | lia].
    - do 3 eexists. split; [reflexivity | lia]. }
  destruct Hext as (alt & ext & cnt' & -> & Hext & Eext).
  specialize (Hns N0). rewrite <- Eext in Hns.
  destruct (Z.eqb_spec (char_at (line st) ext) SLASH) as [Es|_]; [contradiction|].
  simpl orb.
  destruct (Z.eqb_spec (char_at (line st) ext) BACKSLASH) as [Eb|Nb].
  - (* the word ends in a backslash *)
    assert (Lc : line (set_char ext BACKSLASH sq) = line st).
    { rewrite set_char_same; [exact Lq | | rewrite Lq; exact Eb].
      unfold len. rewrite Lq. fold (len st). lia. }
    pose proof (find_define_line AssocHead ext (1 + alt) (set_char ext BACKSLASH sq)) as Lf.
    destruct (find_define AssocHead ext (1 + alt) (set_char ext BACKSLASH sq)) as [a s].
    simpl snd in Lf.
    destruct a; simpl negb; cbv iota.
    + destruct ((cnt' >? 1) && negb (char_at (line s) (ext - 1) =? 58));
        intros H; cbv zeta in H;
        repeat match type of H with
               | match ?x with _ => _ end = _ => destruct x
               end; discriminate.
    + intros H. injection H as <-. rewrite Lf. exact Lc.
  - destruct ((char_at (line st) ext =? 46)
              && ((ext =? beg) || (char_at (line st) (ext - 1) =? 46))).
    { intros H. injection H as <-. exact Lq. }
    unfold bind.
    destruct (find_dot _ _ _ _ _) as [[[ext' cnt'']|]|]; [| |discriminate].
    + unfold find_assoc, bind.
      destruct (find_assoc_walk _ _ _ _) as [[[p' l']|]|]; [| |discriminate].
      * simpl negb. cbv iota. intros H. cbv zeta in H.
        repeat match type of H with
               | match ?x with _ => _ end = _ => destruct x
               end; discriminate.
      * simpl negb. cbv iota. intros H. injection H as <-. exact Lq.
    + intros H. injection H as <-. exact Lq.
Qed.

Lemma expand_symbol_false (st s : State) :
  expand_symbol st = (false, s) -> s = st.
Proof.
  unfold expand_symbol. cbv zeta. unfold find_define.
  destruct (find_walk _ _ _); simpl negb; cbv iota.
  - destruct (_ && _); discriminate.
  - intros H. injection H as <-. reflexivity.
Qed.

Lemma expand_macro_false_line (st s : State) :
  expand_macro st = Some (false, s) -> line s = line st.
Proof.
  unfold expand_macro. cbv zeta.
  pose proof (find_define_line MacHead (skip_blank st 0)
                (skip_nondelim st (skip_blank st 0) - skip_blank st 0) st) as L1.
  destruct (find_define MacHead _ _ st) as [m s1]. simpl snd in L1.
  destruct m; simpl negb; cbv iota.
  2:{ intros H. injection H as <-. exact L1. }
  destruct (add_define_spec MacroStk 0 (len s1) s1) as (L2 & _).
  destruct (add_define MacroStk 0 (len s1) s1) as [ok s2]. simpl snd in L2.
  destruct ok; simpl negb; cbv iota.
  - unfold bind. destruct (get_macro_line _); discriminate.
  - intros H. injection H as <-. rewrite L2. exact L1.
Qed.

(** *** A line that the pipeline leaves as it is *)

Lemma no_quote_in_spec (l : list WCHAR) (a b i : Z) :
  no_quote_in l a b = true -> a <= i < b -> is_quote_at l i = false.
Proof.
  unfold no_quote_in. intros H Hi. rewrite forallb_forall in H.
  specialize (H (Z.to_nat (i - a))).
  replace (a + Z.of_nat (Z.to_nat (i - a))) with i in H by lia.
  apply negb_true_iff. apply H. apply in_seq. lia.
Qed.

(** [un_escape( set )] goes through a line that holds no escape character
    for it to remove, and leaves it as it is. *)
Lemma un_escape_loop_fixed (set : list WCHAR) (st : State) (f : nat) :
  forall pos : nat,
    (length (line st) - pos < f)%nat ->
    (forall i, (pos <= i < length (line st))%nat ->
               quoted_escape_at set (line st) i = false) ->
    un_escape_loop f (Some set) (quote_open (line st) pos) (Z.of_nat pos) st = Some st.
Proof.
  induction f as [|f IH]; intros pos Hf Hno; [lia|].
  cbn [un_escape_loop]. unfold len.
  destruct (Z.ltb_spec (Z.of_nat pos) (Z.of_nat (length (line st)))) as [Hlt|Hge];
    cbn [negb]; [|reflexivity].
  assert (Hnext : forall q, q = quote_open (line st) (S pos) ->
            un_escape_loop f (Some set) q (Z.of_nat pos + 1) st = Some st).
  { intros q ->. replace (Z.of_nat pos + 1) with (Z.of_nat (S pos)) by lia.
    apply IH; [lia|]. intros i Hi. apply Hno. lia. }
  specialize (Hno pos ltac:(lia)). unfold quoted_escape_at in Hno.
  cbn [quote_open] in Hnext. unfold is_quote.
  destruct (quote_open (line st) pos); cbn [andb xorb] in *.
  - destruct (is_quote_at (line st) (Z.of_nat pos)).
    + apply Hnext. reflexivity.
    + rewrite Hno. apply Hnext. reflexivity.
  - destruct (is_quote_at (line st) (Z.of_nat pos)); apply Hnext; reflexivity.
Qed.

Lemma un_escape_fixed (set : list WCHAR) (st : State) :
  no_quoted_escape set (line st) = true -> un_escape (Some set) st = Some st.
Proof.
  intros H. unfold un_escape.
  destruct (memchr (line st) ESCAPE); cbn [negb]; [|reflexivity].
  apply (un_escape_loop_fixed set st (S (length (line st))) O); [lia|].
  intros i Hi. unfold no_quoted_escape in H. rewrite forallb_forall in H.
  apply negb_true_iff. apply H. apply in_seq. lia.
Qed.

(** Outside quotes [get_string] goes to the next blank, when it meets no
    quote. *)
Lemma get_string_loop_out (keep : bool) (start : Z) (oq : bool) (cq : option Z)
  (st : State) (f : nat) :
  forall pos,
    0 <= pos -> (0 < f)%nat -> len st - pos < Z.of_nat f ->
    (forall i, pos <= i < skip_nonblank st pos -> is_quote_at (line st) i = false) ->
    get_string_loop f keep start pos false oq cq st
    = Some (skip_nonblank st pos, oq, cq, st).
Proof.
  induction f as [|f IH]; intros pos Hp H0 Hf Hq; [lia|].
  simpl get_string_loop.
  pose proof (skip_nonblank_step st pos Hp) as Hs.
  destruct (Z.ltb_spec pos (len st)) as [Hlt|Hge]; simpl negb; simpl andb in Hs;
    cbv iota; [|rewrite Hs; reflexivity].
  unfold is_quote.
  destruct (isblank (char_at (line st) pos)) eqn:Eb; simpl negb in Hs; cbv iota in Hs.
  - rewrite is_quote_at_other; [rewrite Hs; reflexivity|].
    intros E. rewrite E in Eb. discriminate.
  - assert (Hlt' : pos < skip_nonblank st (pos + 1)).
    { pose proof (skip_while_bounds (fun c => negb (isblank c))
                    (skipn (Z.to_nat (pos + 1)) (line st)) (pos + 1)) as B.
      unfold skip_nonblank. lia. }
    rewrite (Hq pos) by lia.
    rewrite Hs. apply IH; [lia | lia | lia |].
    intros i Hi. apply Hq. lia.
Qed.

(** Inside quotes [get_string] goes to the next quote. *)
Lemma get_string_loop_in (keep : bool) (start : Z) (oq : bool) (cq : option Z)
  (st : State) (k : nat) :
  forall (f : nat) (pos : Z),
    0 <= pos -> pos + Z.of_nat k <= len st ->
    (forall i, pos <= i < pos + Z.of_nat k -> is_quote_at (line st) i = false) ->
    get_string_loop (k + f) keep start pos true oq cq st
    = get_string_loop f keep start (pos + Z.of_nat k) true oq cq st.
Proof.
  induction k as [|k IH]; intros f pos Hp Hl Hq.
  - simpl. f_equal. lia.
  - change (S k + f)%nat with (S (k + f)). cbn [get_string_loop].
    destruct (Z.ltb_spec pos (len st)) as [_|Hge]; [|lia]. cbn [negb].
    unfold is_quote. rewrite (Hq pos) by lia.
    rewrite IH; [f_equal; lia | lia | lia |].
    intros i Hi. apply Hq. lia.
Qed.

Lemma get_string_loop_close (start pos : Z) (oq : bool) (st : State) (f : nat) :
  pos < len st -> is_quote_at (line st) pos = true ->
  get_string_loop (S f) false start pos true oq None st
  = get_string_loop f false start (pos + 1) false oq (Some pos) st.
Proof.
  intros Hlt Hq. cbn [get_string_loop].
  destruct (Z.ltb_spec pos (len st)) as [_|Hge]; [|lia]. cbn [negb].
  unfold is_quote. rewrite Hq. reflexivity.
Qed.

Lemma get_string_loop_stop (keep : bool) (start pos : Z) (oq : bool)
  (cq : option Z) (st : State) (f : nat) :
  len st <= pos \/ isblank (char_at (line st) pos) = true ->
  get_string_loop (S f) keep start pos false oq cq st = Some (pos, oq, cq, st).
Proof.
  intros H. cbn [get_string_loop].
  destruct (Z.ltb_spec pos (len st)) as [Hlt|Hge]; cbn [negb]; [|reflexivity].
  destruct H as [H|H]; [lia|].
  unfold is_quote. rewrite is_quote_at_other.
  - rewrite H. reflexivity.
  - intros E. rewrite E in H. discriminate.
Qed.

(** [get_string( 0, &cnt, FALSE )] on a line whose first string has no quote
    to move: the string is found and the line stays as it is. *)
Lemma first_string_get (st : State) (beg cnt : Z) :
  first_string st beg cnt -> len st < 2 ^ 32 ->
  exists sq,
    get_string 0 false st = Some (beg, cnt, sq)
    /\ line sq = line st /\ 0 <= beg /\ 0 <= cnt /\ beg + cnt <= len st.
Proof.
  intros Hfs Hlen.
  pose proof (skip_blank_bounds st) as Hb.
  assert (Hfs' : (beg = skip_blank st 0
                  /\ cnt = skip_nonblank st (skip_blank st 0) - skip_blank st 0
                  /\ no_quote_in (line st) (skip_blank st 0)
                                 (skip_nonblank st (skip_blank st 0)) = true)
                 \/ (beg = skip_blank st 0 + 1 /\ 0 <= cnt
                     /\ is_quote_at (line st) (skip_blank st 0) = true
                     /\ no_quote_in (line st) (skip_blank st 0 + 1)
                                    (skip_blank st 0 + 1 + cnt) = true
                     /\ (skip_blank st 0 + 1 + cnt = len st
                         \/ (is_quote_at (line st) (skip_blank st 0 + 1 + cnt) = true
                             /\ (skip_blank st 0 + cnt + 2 = len st
                                 \/ isblank (char_at (line st)
                                               (skip_blank st 0 + cnt + 2)) = true))))).
  { inversion Hfs; subst; [left | right | right]; repeat split; auto. }
  clear Hfs.
  unfold get_string. cbv zeta.
  change (skip_blank (set_found_quote false st) 0) with (skip_blank st 0).
  change (line (set_found_quote false st)) with (line st).
  set (st0 := set_found_quote false st).
  set (b := skip_blank st 0) in *.
  assert (Hopen : forall f, is_quote_at (line st) b = true -> b < len st ->
            get_string_loop (S f) false b b false false None st0
            = get_string_loop f false b (b + 1) true true None
                (set_found_quote true st0)).
  { intros f Hq Hlt. cbn [get_string_loop].
    change (len st0) with (len st).
    destruct (Z.ltb_spec b (len st)) as [_|Hge]; [|lia]. cbn [negb].
    unfold is_quote. change (line st0) with (line st). rewrite Hq.
    rewrite Z.eqb_refl. reflexivity. }
  assert (Hqlt : is_quote_at (line st) b = true -> b < len st).
  { unfold is_quote_at, len. intros H.
    destruct (Z.ltb_spec b (Z.of_nat (length (line st)))) as [Hlt|Hge]; [exact Hlt|].
    rewrite andb_false_r in H. discriminate. }
  destruct Hfs' as [(-> & -> & Hq) | (-> & Hn & Hq & Hin & [Hend | [Hcl Hnext]])];
    try set (n := cnt) in *.
  - (* a word without quotes *)
    pose proof (skip_nonblank_bounds st b Hb) as Hnb.
    rewrite (get_string_loop_out false b false None st0).
    + cbn [bind]. exists st0.
      change (skip_nonblank st0 b) with (skip_nonblank st b).
      rewrite dw_small by lia.
      repeat split; try reflexivity; lia.
    + lia.
    + lia.
    + change (len st0) with (len st). unfold len in *. lia.
    + intros i Hi. change (line st0) with (line st).
      change (skip_nonblank st0 b) with (skip_nonblank st b) in Hi.
      apply (no_quote_in_spec _ _ _ _ Hq). lia.
  - (* an opening quote and no closing one *)
    specialize (Hqlt Hq).
    rewrite Hopen by assumption.
    replace (length (line st)) with (Z.to_nat n + S (Z.to_nat b))%nat
      by (unfold len in *; lia).
    rewrite get_string_loop_in.
    + rewrite Z2Nat.id by lia. cbn [get_string_loop].
      change (len (set_found_quote true st0)) with (len st).
      destruct (Z.ltb_spec (b + 1 + n) (len st)) as [Hlt|_]; [lia|]. cbn [negb bind].
      eexists. replace (b + 1 + n - (b + 1)) with n by lia. rewrite dw_small by lia.
      repeat split; try reflexivity; lia.
    + lia.
    + change (len (set_found_quote true st0)) with (len st). lia.
    + intros i Hi. change (line (set_found_quote true st0)) with (line st).
      apply (no_quote_in_spec _ _ _ _ Hin). lia.
  - (* a string between quotes *)
    specialize (Hqlt Hq).
    assert (Hclt : b + 1 + n < len st).
    { unfold is_quote_at, len in *.
      destruct (Z.ltb_spec (b + 1 + n) (Z.of_nat (length (line st)))) as [Hlt|Hge];
        [exact Hlt|].
      rewrite andb_false_r in Hcl. discriminate. }
    rewrite Hopen by assumption.
    replace (length (line st))
      with (Z.to_nat n + S (S (length (line st) - Z.to_nat n - 2)))%nat
      by (unfold len in *; lia).
    rewrite get_string_loop_in.
    + rewrite Z2Nat.id by lia.
      rewrite get_string_loop_close by assumption.
      rewrite get_string_loop_stop.
      2:{ change (len (set_found_quote true st0)) with (len st).
          change (line (set_found_quote true st0)) with (line st).
          replace (b + 1 + n + 1) with (b + n + 2) by lia.
          destruct Hnext as [Hnext|Hnext]; [left; lia | right; exact Hnext]. }
      cbn [bind].
      replace (b + 1 + n + 1 - 1) with (b + 1 + n) by lia.
      rewrite Z.eqb_refl. cbn [negb].
      eexists. replace (b + 1 + n - (b + 1)) with n by lia. rewrite dw_small by lia.
      repeat split; try reflexivity; lia.
    + lia.
    + change (len (set_found_quote true st0)) with (len st). lia.
    + intros i Hi. change (line (set_found_quote true st0)) with (line st).
      apply (no_quote_in_spec _ _ _ _ Hin). lia.
Qed.

(** C8, as the code has it.  Take a line of less than 2^32 characters that
    does not start with [@] or with the ignore character, that has no brace
    group with a comma at depth 1, in which no escape character inside quotes
    stands before a brace, a comma or an escape character, and whose first
    string has no quote for [get_string] to move (a word without quotes, or
    a string within quotes) and does not have a slash as the character that
    [associate] looks at (the last one, or the one before a final [=]).  If
    [associate], [expand_symbol] and [expand_macro] return FALSE on it, one
    after the other, the pass of the pipeline reports that nothing was
    expanded, the loop ends with this pass, and the line is what it was. *)
Theorem expand_pass_fixed (st s1 s2 s3 : State) (beg cnt : Z) :
  (len st =? 0)
  || negb ((char_at (line st) 0 =? 64)
           || (char_at (line st) 0 =? ignore_char (opt st))) = true ->
  len st < 2 ^ 32 ->
  no_group_has_comma (line st) = true ->
  no_quoted_escape BRACE_ESCAPE (line st) = true ->
  first_string st beg cnt ->
  assoc_tests_slash (sub (line st) beg cnt) = false ->
  associate st = Some (false, s1) ->
  expand_symbol s1 = (false, s2) ->
  expand_macro s2 = Some (false, s3) ->
  exists s, expand_pass st = Some (false, s)
            /\ line s = line st
            /\ forall n, expand_loop (S n) st = Some s.
Proof.
  intros Hfirst Hlen Hbr Hesc Hfs Hw Ha Hs Hm.
  assert (Hpass : exists s, expand_pass st = Some (false, s) /\ line s = line st).
  { unfold expand_pass.
    destruct (check_break st >? 1); [exists st; split; reflexivity|].
    assert (H1 : negb (len st =? 0) && (char_at (line st) 0 =? 64) = false).
    { destruct (len st =? 0); [reflexivity|]. simpl in *.
      apply negb_true_iff, orb_false_iff in Hfirst. apply Hfirst. }
    assert (H2 : negb (len st =? 0) && (char_at (line st) 0 =? ignore_char (opt st))
                 = false).
    { destruct (len st =? 0); [reflexivity|]. simpl in *.
      apply negb_true_iff, orb_false_iff in Hfirst. apply Hfirst. }
    rewrite H1. unfold bind at 1. cbv beta iota. rewrite H2.
    rewrite (expand_braces_no_comma st Hbr), (un_escape_fixed _ _ Hesc).
    unfold bind. rewrite Ha, Hs, Hm.
    exists s3. split; [reflexivity|].
    rewrite (expand_macro_false_line _ _ Hm), (expand_symbol_false _ _ Hs).
    destruct (first_string_get st beg cnt Hfs Hlen) as (sq & Hg & Lq & Hb & Hc & Hle).
    apply (associate_false_same st sq s1 beg cnt Hg Lq Hb Hc Hle Hw Ha). }
  destruct Hpass as (s & Hp & Hl). exists s.
  split; [exact Hp|]. split; [exact Hl|].
  intros n. simpl expand_loop. rewrite Hp. reflexivity.
Qed.

(** A line with a quoted first string, an escape character outside quotes
    and a group of braces without comma, with a symbol, a macro and an
    association defined that the line does not use. *)
Lemma expand_pass_fixed_witness :
  let st := set_line ([DQUOTE] ++ wstr "my prog/x" ++ [DQUOTE] ++ wstr " a^b/ {c}")
              (set_assoc_head [mkDefine (wstr ".txt") [wstr "notepad"]]
                 (set_mac_head [mkDefine (wstr "ll") [wstr "dir %*"]]
                    (set_sym_head [mkDefine (wstr "d") [wstr "dir"]]
                       (initial default_option 100)))) in
  option_map (fun r => (fst r, line (snd r))) (expand_pass st)
  = Some (false, [DQUOTE] ++ wstr "my prog/x" ++ [DQUOTE] ++ wstr " a^b/ {c}").
Proof.
  intros st.
  assert (Hfs : first_string st 1 9).
  { apply (fs_quoted st 9); [vm_compute; reflexivity | lia | vm_compute; reflexivity
                            | vm_compute; reflexivity | right; vm_compute; reflexivity]. }
  destruct (expand_pass_fixed st (set_found_quote true st) (set_found_quote true st)
              (set_found_quote true st) 1 9)
    as (s & Hp & Hl & _);
    [vm_compute; reflexivity | vm_compute; reflexivity | vm_compute; reflexivity
    | vm_compute; reflexivity | exact Hfs | vm_compute; reflexivity
    | vm_compute; reflexivity | vm_compute; reflexivity | vm_compute; reflexivity |].
  rewrite Hp. simpl. rewrite Hl. reflexivity.
Defined.

(** C8 as stated fails.  No association, symbol or macro is defined, so no
    rule fires on any line; yet the pipeline turns the quoted text [^^^^]
    into the quoted [^^], and run on that it gives the quoted [^]; a line
    that starts with the ignore character (a space) loses it; a first word
    that ends in a slash gets a backslash; and a quote inside the first word
    is moved to its start. *)
Lemma expand_pass_counterexample :
  let run := fun l => option_map line
                        (expand_loop 10 (set_line l (initial default_option 100))) in
  run ([DQUOTE] ++ wstr "^^^^" ++ [DQUOTE]) = Some ([DQUOTE] ++ wstr "^^" ++ [DQUOTE])
  /\ run ([DQUOTE] ++ wstr "^^" ++ [DQUOTE]) = Some ([DQUOTE] ++ wstr "^" ++ [DQUOTE])
  /\ run (wstr "  dir") = Some (wstr " dir")
  /\ run (wstr " dir") = Some (wstr "dir")
  /\ run (wstr "dir/") = Some (wstr "dir" ++ [BACKSLASH])
  /\ run (wstr "a" ++ [DQUOTE] ++ wstr "b" ++ [DQUOTE])
     = Some ([DQUOTE] ++ wstr "ab" ++ [DQUOTE]).
Proof.
  vm_compute. repeat split.
Qed.

(** ** Further properties *)

(** X1.  The recognition of an internal command is decided by the first
    blank-delimited word alone: [internal_cmd] finds a handler exactly when
    the word has four characters and is, ignoring case, a name of the table
    [internal]; the binary search of [search_cfg] always comes to an end. *)
Theorem internal_lookup_first_word (st : State) :
  internal_lookup st
  = Some (if (length (first_word st) =? 4)%nat
          then option_map (fun f => (f, skip_blank st 0)) (command_of (first_word st))
          else None).
Proof. apply internal_lookup_spec. Qed.

(** X2.  [un_escape] returns, on a line of less than 2^32 characters, and the
    line it leaves is the old one with some of its escape characters taken
    out; nothing else of the line changes, and the history is untouched. *)
Theorem un_escape_removes_escapes (unq : option (list WCHAR)) (st : State) :
  len st < 2 ^ 32 ->
  exists st', un_escape unq st = Some st'
              /\ removes_escapes (line st) (line st')
              /\ history st' = history st.
Proof.
  intros Hm. destruct (un_escape_spec unq st Hm) as (st' & E & R).
  exists st'. split; [exact E|]. split; [exact R|].
  apply (history_un_escape unq st st' E).
Qed.

(** The line [a^b], with the quoted [^{] behind it: [un_escape( NULL )] takes
    out the escape character that is not quoted. *)
Lemma un_escape_removes_escapes_witness :
  let st := set_line (wstr "a^b " ++ [DQUOTE] ++ wstr "^{" ++ [DQUOTE])
              (initial default_option 100) in
  option_map line (un_escape None st)
  = Some (wstr "ab " ++ [DQUOTE] ++ wstr "^{" ++ [DQUOTE])
  /\ exists st', un_escape None st = Some st'
                 /\ removes_escapes (line st) (line st')
                 /\ history st' = history st.
Proof.
  intros st. split; [vm_compute; reflexivity|].
  apply (un_escape_removes_escapes None st). vm_compute. reflexivity.
Defined.

(** ** Invariants of the history *)

Lemma Forall_remove_nth {A : Type} (P : A -> Prop) (k : nat) (h : list A) :
  Forall P h -> Forall P (remove_nth k h).
Proof.
  intros H. apply Forall_forall. intros x Hx.
  apply (proj1 (Forall_forall P h) H). apply (In_remove_nth _ k h x Hx).
Qed.

Lemma add_to_history_opt (st : State) : opt (add_to_history st) = opt st.
Proof.
  unfold add_to_history.
  destruct (len st <? min_length (opt st)); [reflexivity|].
  destruct (find_identical _ _); [reflexivity|].
  destruct (_ && _); unfold malloc, remove_from_history;
    simpl heap; destruct (heap st) as [|[|] h]; reflexivity.
Qed.

Lemma add_to_history_hist_ok (st : State) :
  hist_ok st -> hist_ok (add_to_history st).
Proof.
  intros (Hsz & Hnd & Hmax & Hmin).
  unfold hist_ok. rewrite add_to_history_opt.
  unfold add_to_history.
  destruct (Z.ltb_spec (len st) (min_length (opt st))) as [Hlt|Hge].
  { repeat split; assumption. }
  pose proof (find_identical_spec (history st) (line st)) as Hf.
  destruct (find_identical (rev (history st)) (line st)) as [k|].
  - (* the line is there: it becomes the most recent entry *)
    destruct Hf as (Hk & Hnth & _).
    change (history (set_history ?h ?n st)) with h.
    change (histsize (set_history ?h ?n st)) with n.
    split; [|split; [|split]].
    + rewrite length_app, remove_nth_length by exact Hk. simpl length. lia.
    + apply NoDup_snoc; [apply NoDup_remove_nth; exact Hnd|].
      apply NoDup_not_in_remove_nth; assumption.
    + exact Hmax.
    + apply Forall_app. split; [apply Forall_remove_nth; exact Hmin|].
      constructor; [|constructor].
      apply (proj1 (Forall_forall _ _) Hmin). apply nth_In. exact Hk.
  - (* a new line *)
    set (full := negb (opt_histsize (opt st) =? 0)
                 && (histsize st =? opt_histsize (opt st))).
    set (s1 := if full then remove_from_history 0 st else st).
    assert (H1 : histsize s1 = Z.of_nat (length (history s1))
                 /\ NoDup (history s1)
                 /\ ~ In (line st) (history s1)
                 /\ Forall (fun h => min_length (opt st) <= Z.of_nat (length h))
                           (history s1)
                 /\ (0 < opt_histsize (opt st) -> histsize s1 < opt_histsize (opt st)
                     \/ (full = false /\ histsize s1 <= opt_histsize (opt st)
                         /\ histsize s1 <> opt_histsize (opt st)))
                 /\ line s1 = line st).
    { unfold s1. destruct full eqn:Ef.
      - unfold full in Ef. apply andb_true_iff in Ef. destruct Ef as [E0 Ee].
        apply negb_true_iff, Z.eqb_neq in E0. apply Z.eqb_eq in Ee.
        unfold remove_from_history.
        change (history (set_history ?h ?n st)) with h.
        change (histsize (set_history ?h ?n st)) with n.
        assert (Hpos : (0 < length (history st))%nat).
        { destruct (history st); simpl in *; lia. }
        split; [rewrite remove_nth_length by exact Hpos; lia|].
        split; [apply NoDup_remove_nth; exact Hnd|].
        split; [intros Hin; apply Hf; apply (In_remove_nth _ _ _ _ Hin)|].
        split; [apply Forall_remove_nth; exact Hmin|].
        split; [intros Hp; left; lia | reflexivity].
      - split; [exact Hsz|]. split; [exact Hnd|]. split; [exact Hf|].
        split; [exact Hmin|]. split; [|reflexivity].
        intros Hp. specialize (Hmax Hp).
        unfold full in Ef. apply andb_false_iff in Ef.
        destruct Ef as [Ef|Ef].
        + apply negb_false_iff, Z.eqb_eq in Ef. lia.
        + apply Z.eqb_neq in Ef. right. repeat split; [exact Hmax | exact Ef]. }
    destruct H1 as (Hsz1 & Hnd1 & Hnin1 & Hmin1 & Hmax1 & Hl1).
    assert (Hm : history (snd (malloc s1)) = history s1
                 /\ histsize (snd (malloc s1)) = histsize s1
                 /\ line (snd (malloc s1)) = line s1).
    { unfold malloc. destruct (heap s1); repeat split. }
    destruct (malloc s1) as [ok s2]. simpl snd in Hm.
    destruct Hm as (Hh2 & Hs2 & Hl2).
    destruct ok.
    + change (history (set_history ?h ?n s2)) with h.
      change (histsize (set_history ?h ?n s2)) with n.
      rewrite Hh2, Hs2, Hl2, Hl1.
      split; [rewrite length_app; simpl length; lia|].
      split; [apply NoDup_snoc; assumption|].
      split; [intros Hp; destruct (Hmax1 Hp) as [H|(_ & H & H')]; lia|].
      apply Forall_app. split; [exact Hmin1|].
      constructor; [|constructor]. unfold len in Hge. exact Hge.
    + rewrite Hh2, Hs2.
      split; [exact Hsz1|]. split; [exact Hnd1|].
      split; [intros Hp; destruct (Hmax1 Hp) as [H|(_ & H & _)]; lia | exact Hmin1].
Qed.

(** X3.  Whatever lines are submitted and whatever the allocator answers,
    the history keeps its shape: the counter [histsize] is the number of
    entries, no line is stored twice, the number of entries does not exceed
    [option.histsize] (when that is not 0), and no entry is shorter than
    [option.min_length]. *)
Theorem history_invariant (ls : list (list WCHAR)) (st : State) :
  hist_ok st -> hist_ok (submit_all ls st).
Proof.
  revert st. induction ls as [|l ls IH]; intros st H; [exact H|].
  simpl. apply IH. apply add_to_history_hist_ok. exact H.
Qed.

(** Four lines, one of them twice and one too short, with room for two and an
    allocator that fails once. *)
Lemma history_invariant_witness :
  let st := set_heap [true; false]
              (initial (mkOptions false false SPACE 2 2 false false) 100) in
  let ls := [wstr "dir"; wstr "cd"; wstr "x"; wstr "dir"; wstr "ver"] in
  history (submit_all ls st) = [wstr "dir"; wstr "ver"]
  /\ hist_ok (submit_all ls st).
Proof.
  intros st ls. split; [vm_compute; reflexivity|].
  apply (history_invariant ls st).
  unfold hist_ok. simpl. repeat split; [constructor | lia | constructor].
Defined.

(** ** Deleting from the history *)

Lemma remove_nth_last {A : Type} (h : list A) :
  remove_nth (Nat.pred (length h)) h = removelast h.
Proof.
  induction h as [|x h IH]; [reflexivity|].
  destruct h as [|y h]; [reflexivity|].
  simpl length in *. simpl Nat.pred in *.
  change (remove_nth (S (length h)) (x :: y :: h))
    with (x :: remove_nth (length h) (y :: h)).
  rewrite IH. reflexivity.
Qed.

Lemma occurs_from_spec (entry text : list WCHAR) :
  (forall c, In c text -> c <> 0) ->
  forall (fuel : nat) (end_ : Z),
    end_ < Z.of_nat fuel ->
    end_ + Z.of_nat (length text) <= Z.of_nat (length entry) ->
    occurs_from fuel entry text end_ = true
    <-> exists i, 0 <= i <= end_
                  /\ map towlower (sub entry i (Z.of_nat (length text)))
                     = map towlower text.
Proof.
  intros Hnul. induction fuel as [|fuel IH]; intros end_ Hf Hl.
  - simpl. split; [discriminate|]. intros (i & Hi & _). lia.
  - simpl occurs_from.
    destruct (Z.ltb_spec end_ 0) as [Hneg|Hpos].
    { split; [discriminate|]. intros (i & Hi & _). lia. }
    pose proof (wcsnicmp_zero_iff (length text) (skipn (Z.to_nat end_) entry) text) as Hz.
    rewrite (firstn_all text) in Hz.
    specialize (Hz ltac:(rewrite length_skipn; lia) ltac:(lia) Hnul).
    destruct (Z.eqb_spec (wcsnicmp (skipn (Z.to_nat end_) entry) text (length text)) 0)
      as [E|N].
    + split; [intros _|reflexivity].
      exists end_. split; [lia|]. unfold sub. rewrite Nat2Z.id. apply Hz. exact E.
    + rewrite IH by lia. split; intros (i & Hi & Hm).
      * exists i. split; [lia | exact Hm].
      * exists i. split; [|exact Hm].
        destruct (Z.eq_dec i end_) as [->|Hne]; [|lia].
        exfalso. apply N. apply Hz. unfold sub in Hm. rewrite Nat2Z.id in Hm. exact Hm.
Qed.

(** The loop of [execute_delh] finds the text where it occurs. *)
Lemma occurs_in_spec (entry text : list WCHAR) :
  (forall c, In c text -> c <> 0) ->
  occurs_in entry text = true <-> contains_ci entry text.
Proof.
  intros Hnul. unfold occurs_in, contains_ci.
  rewrite (occurs_from_spec entry text Hnul) by lia.
  split.
  - intros (i & Hi & Hm).
    exists (firstn (Z.to_nat i) entry), (sub entry i (Z.of_nat (length text))),
           (skipn (length text) (skipn (Z.to_nat i) entry)).
    split; [|split; [|exact Hm]].
    + unfold sub. rewrite Nat2Z.id, firstn_skipn, firstn_skipn. reflexivity.
    + apply Nat2Z.inj. apply sub_length; lia.
  - intros (a & mid & b & -> & Hlen & Hm).
    exists (Z.of_nat (length a)). rewrite !length_app. split; [lia|].
    unfold sub. rewrite !Nat2Z.id, skipn_app_exact, <- Hlen, firstn_app_exact.
    exact Hm.
Qed.

(** X4.  [delh text] drops the most recent entry of the history (taken to be
    the DELH line, whether or not that line was stored) and every entry in
    which the text occurs, ignoring case; the other entries stay, in their
    order, and the counter follows.  Without a text only the most recent entry
    is dropped. *)
Theorem execute_delh_spec (pos : Z) (st : State) :
  histsize st = Z.of_nat (length (history st)) ->
  history st <> [] ->
  0 <= pos <= len st ->
  (forall c, In c (skipn (Z.to_nat pos) (line st)) -> c <> 0) ->
  (pos = len st -> history (execute_delh pos st) = removelast (history st))
  /\ (pos < len st ->
      forall h, In h (history (execute_delh pos st))
                <-> In h (removelast (history st))
                    /\ ~ contains_ci h (skipn (Z.to_nat pos) (line st)))
  /\ (exists keep, history (execute_delh pos st)
                   = filter keep (removelast (history st)))
  /\ histsize (execute_delh pos st) = Z.of_nat (length (history (execute_delh pos st))).
Proof.
  intros Hsz Hne Hpos Hnul. unfold execute_delh. cbv zeta.
  unfold remove_from_history. rewrite remove_nth_last.
  change (len (set_history ?h ?n st)) with (len st).
  change (line (set_history ?h ?n st)) with (line st).
  change (history (set_history ?h ?n st)) with h.
  change (histsize (set_history ?h ?n st)) with n.
  assert (Hlast : Z.of_nat (length (removelast (history st))) = histsize st - 1).
  { rewrite Hsz. rewrite <- remove_nth_last.
    assert (Hp : (0 < length (history st))%nat)
      by (destruct (history st); [contradiction | simpl; lia]).
    rewrite remove_nth_length by lia. lia. }
  destruct (Z.eqb_spec pos (len st)) as [E|N].
  - change (history (set_history ?h ?n st)) with h.
    change (histsize (set_history ?h ?n st)) with n.
    split; [reflexivity|]. split; [lia|].
    split; [|lia].
    exists (fun _ => true). symmetry. apply forallb_filter_id. apply forallb_forall.
    reflexivity.
  - change (history (set_history ?h ?n ?s)) with h.
    change (histsize (set_history ?h ?n ?s)) with n.
    set (text := skipn (Z.to_nat pos) (line st)) in *.
    split; [intros; contradiction|].
    split.
    + intros _ h. rewrite filter_In. rewrite negb_true_iff.
      rewrite <- (occurs_in_spec h text Hnul).
      destruct (occurs_in h text); split; intros [H1 H2];
        (split; [exact H1|]); congruence.
    + split; [eexists; reflexivity|]. lia.
Qed.

(** Three entries and the DELH line; the text [DIR] is given in capitals. *)
Lemma execute_delh_spec_witness :
  let st := set_line (wstr "delh DIR")
              (set_history [wstr "dir /w"; wstr "cd src"; wstr "chdir"; wstr "delh DIR"] 4
                 (initial default_option 100)) in
  history (execute_delh 5 st) = [wstr "cd src"]
  /\ histsize (execute_delh 5 st) = 1.
Proof.
  intros st.
  destruct (execute_delh_spec 5 st) as (_ & _ & _ & H4);
    [reflexivity | discriminate | vm_compute; split; discriminate | |].
  - vm_compute. intros c [<-|[<-|[<-|[]]]]; discriminate.
  - assert (Hh : history (execute_delh 5 st) = [wstr "cd src"]) by (vm_compute; reflexivity).
    split; [exact Hh|]. rewrite H4, Hh. reflexivity.
Defined.

(** ** Several commands on a line *)

Lemma first_sep_bound_le (n : nat) :
  forall (l : list WCHAR) quote k,
    (length l <= n)%nat -> first_sep quote l = Some k ->
    (k < length l)%nat /\ nth k l 0 = CMDSEP.
Proof.
  induction n as [|n IH]; intros l quote k Hn;
    (destruct l as [|c t]; [discriminate|]); simpl in Hn; [lia|].
  simpl first_sep.
  assert (Hstep : forall q, option_map S (first_sep q t) = Some k ->
                            (k < length (c :: t))%nat /\ nth k (c :: t) 0 = CMDSEP).
  { intros q H. destruct (first_sep q t) as [j|] eqn:E; [|discriminate].
    injection H as <-. apply IH in E; [|lia]. simpl. split; [lia | apply E]. }
  destruct quote; [apply Hstep|].
  destruct (c =? DQUOTE); [apply Hstep|].
  destruct (c =? ESCAPE).
  { destruct t as [|c' t']; [discriminate|].
    destruct (first_sep false t') as [j|] eqn:E; [|discriminate].
    intros H. injection H as <-. apply IH in E; [|simpl in Hn; lia].
    simpl. split; [lia | apply E]. }
  destruct (Z.eqb_spec c CMDSEP) as [->|_]; [|apply Hstep].
  intros H. injection H as <-. simpl. split; [lia | reflexivity].
Qed.

Lemma first_sep_bound (l : list WCHAR) (quote : bool) (k : nat) :
  first_sep quote l = Some k -> (k < length l)%nat /\ nth k l 0 = CMDSEP.
Proof. apply (first_sep_bound_le (length l)). lia. Qed.

(** The loop of [multi_cmd] stops at the first separator that is neither
    quoted nor escaped. *)
Lemma multi_cmd_loop_spec (st : State) (fuel : nat) :
  forall quote pos,
    0 <= pos -> (0 < fuel)%nat -> len st - pos < Z.of_nat fuel ->
    match first_sep quote (skipn (Z.to_nat pos) (line st)) with
    | None => multi_cmd_loop fuel quote pos st = Some st
    | Some k => multi_cmd_loop fuel quote pos st
                = multi_cmd_loop 1 false (pos + Z.of_nat k) st
    end.
Proof.
  remember 1%nat as one eqn:Hone.
  induction fuel as [|f IH]; intros quote pos Hp H0 Hf; [lia|].
  cbn [multi_cmd_loop].
  destruct (Z.ltb_spec pos (len st)) as [Hlt|Hge]; simpl negb; cbv iota.
  2:{ unfold len in Hge. rewrite skipn_all2 by lia. reflexivity. }
  unfold len in Hlt. rewrite (skipn_char_at (line st) pos) by lia.
  set (c := char_at (line st) pos).
  cbn [first_sep].
  assert (Hstep : forall q,
             match option_map S (first_sep q (skipn (Z.to_nat (pos + 1)) (line st))) with
             | None => multi_cmd_loop f q (pos + 1) st = Some st
             | Some k => multi_cmd_loop f q (pos + 1) st
                         = multi_cmd_loop one false (pos + Z.of_nat k) st
             end).
  { intros q. specialize (IH q (pos + 1) ltac:(lia) ltac:(unfold len in *; lia)
                            ltac:(unfold len in *; lia)).
    destruct (first_sep q (skipn (Z.to_nat (pos + 1)) (line st))) as [k|];
      cbn [option_map].
    - rewrite IH. replace (pos + Z.of_nat (S k)) with (pos + 1 + Z.of_nat k) by lia.
      reflexivity.
    - exact IH. }
  destruct quote; [apply Hstep|].
  destruct (c =? DQUOTE); [apply Hstep|].
  destruct (c =? ESCAPE).
  { destruct (Z.ltb_spec (pos + 1) (Z.of_nat (length (line st)))) as [Hlt1|Hge1].
    - rewrite (skipn_char_at (line st) (pos + 1)) by lia.
      specialize (IH false (pos + 1 + 1) ltac:(lia) ltac:(unfold len in *; lia)
                    ltac:(unfold len in *; lia)).
      destruct (first_sep false (skipn (Z.to_nat (pos + 1 + 1)) (line st))) as [k|];
        cbn [option_map].
      + rewrite IH.
        replace (pos + Z.of_nat (S (S k))) with (pos + 1 + 1 + Z.of_nat k) by lia.
        reflexivity.
      + exact IH.
    - rewrite (skipn_all2 (n := Z.to_nat (pos + 1))) by lia.
      destruct f as [|f]; [unfold len in *; lia|].
      cbn [multi_cmd_loop].
      destruct (Z.ltb_spec (pos + 1 + 1) (len st)); [unfold len in *; lia|].
      reflexivity. }
  destruct (Z.eqb_spec c CMDSEP) as [Ec|Nc]; [|apply Hstep].
  subst one. cbn [multi_cmd_loop]. replace (pos + Z.of_nat 0) with pos by lia.
  destruct (Z.ltb_spec pos (len st)) as [_|Hge]; [|unfold len in *; lia].
  simpl negb. cbv iota. fold c. rewrite Ec. reflexivity.
Qed.

Lemma memchr_none (l : list WCHAR) (c : Z) :
  0 <= c < 256 -> memchr l c = false -> forall x, In x l -> x <> c.
Proof.
  intros Hc H x Hx ->. unfold memchr in H.
  assert (E : existsb (fun w => (w mod 256 =? c) || (w / 256 mod 256 =? c)) l = true).
  { apply existsb_exists. exists c. split; [exact Hx|].
    rewrite Z.mod_small by lia. rewrite Z.eqb_refl. reflexivity. }
  congruence.
Qed.

Lemma first_sep_none (l : list WCHAR) :
  (forall x, In x l -> x <> CMDSEP) -> forall quote, first_sep quote l = None.
Proof.
  intros H quote. destruct (first_sep quote l) as [k|] eqn:E; [|reflexivity].
  apply first_sep_bound in E. destruct E as [Hk Hn].
  exfalso. apply (H (nth k l 0)); [apply nth_In; exact Hk | exact Hn].
Qed.

(** X5.  [multi_cmd] cuts the line before the first command separator that
    is neither quoted nor escaped and keeps what follows the separator:
    nothing of the line is lost, and the next call of [get_next_line] (with
    no command file and no macro being read) delivers exactly the rest.  A
    line without such a separator is left alone, and so is a line whose rest
    could not be allocated. *)
Theorem multi_cmd_split (st : State) :
  len st < 2 ^ 32 ->
  exists st',
    multi_cmd st = Some st'
    /\ match first_sep false (line st) with
       | None => st' = st
       | Some p =>
           (skipn (S p) (line st) = [] \/ hd true (heap st) = true ->
            line st' = firstn p (line st)
            /\ line st = line st' ++ CMDSEP :: skipn (S p) (line st)
            /\ mcmd_txt (mcmd st') = Some (skipn (S p) (line st))
            /\ (file st = None -> macro_stk st = [] -> len st <= max st ->
                exists s, get_next_line st' = Some s
                          /\ line s = skipn (S p) (line st)
                          /\ mcmd_txt (mcmd s) = None))
           /\ (skipn (S p) (line st) <> [] -> hd true (heap st) = false ->
               line st' = line st /\ mcmd_txt (mcmd st') = None)
       end.
Proof.
  intros Hm. unfold multi_cmd.
  destruct (memchr (line st) CMDSEP) eqn:Emem; simpl negb; cbv iota.
  2:{ exists st. split; [reflexivity|].
      rewrite first_sep_none; [reflexivity|].
      apply (memchr_none _ CMDSEP); [unfold CMDSEP; lia | exact Emem]. }
  pose proof (multi_cmd_loop_spec st (S (length (line st))) false 0
                ltac:(lia) ltac:(lia) ltac:(unfold len; lia)) as Hloop.
  change (skipn (Z.to_nat 0) (line st)) with (line st) in Hloop.
  destruct (first_sep false (line st)) as [p|] eqn:Ep.
  2:{ exists st. split; [exact Hloop | reflexivity]. }
  rewrite Hloop. clear Hloop.
  destruct (first_sep_bound _ _ _ Ep) as [Hp Hc].
  set (rest := skipn (S p) (line st)).
  assert (Hsplit : line st = firstn p (line st) ++ CMDSEP :: rest).
  { rewrite <- (firstn_skipn p (line st)) at 1. f_equal.
    rewrite <- Hc. unfold rest.
    generalize (line st) Hp. clear. intros l. revert p.
    induction l as [|x l IH]; intros p Hp; simpl in Hp; [lia|].
    destruct p as [|p]; [reflexivity|]. simpl. apply IH. lia. }
  assert (Hrl : Z.of_nat (length rest) = len st - (0 + Z.of_nat p + 1)).
  { unfold rest, len. rewrite length_skipn. lia. }
  cbn [multi_cmd_loop].
  destruct (Z.ltb_spec (0 + Z.of_nat p) (len st)) as [_|Hge]; [|unfold len in *; lia].
  simpl negb. cbv iota.
  assert (Hch : char_at (line st) (0 + Z.of_nat p) = CMDSEP).
  { unfold char_at. destruct (Z.ltb_spec (0 + Z.of_nat p) 0); [lia|].
    replace (Z.to_nat (0 + Z.of_nat p)) with p by lia. exact Hc. }
  rewrite Hch.
  change (CMDSEP =? DQUOTE) with false. change (CMDSEP =? ESCAPE) with false.
  change (CMDSEP =? CMDSEP) with true. cbv iota.
  rewrite dw_small by (unfold len in *; lia). rewrite <- Hrl.
  replace (0 + Z.of_nat p + 1 - 1) with (Z.of_nat p) by lia.
  replace (Z.to_nat (0 + Z.of_nat p + 1)) with (S p) by lia. fold rest.
  assert (Hfirst : forall s : State, line s = line st ->
                     sub (line s) 0 (Z.of_nat p) = firstn p (line st)).
  { intros s ->. rewrite sub_0, Nat2Z.id. reflexivity. }
  destruct (Z.eqb_spec (Z.of_nat (length rest)) 0) as [E0|N0].
  - (* the separator ends the line *)
    assert (Hr : rest = []) by (destruct rest; [reflexivity | simpl in E0; lia]).
    eexists. split; [reflexivity|].
    change (line (set_line ?l ?s)) with l.
    rewrite (Hfirst _ eq_refl).
    split; [|intros Hn; contradiction].
    intros _. split; [reflexivity|]. split; [exact Hsplit|].
    split; [rewrite Hr; reflexivity|].
    intros Hfile Hstk _. unfold get_next_line. cbv zeta.
    simpl file. simpl macro_stk. rewrite Hfile, Hstk. simpl mcmd.
    rewrite E0. simpl. eexists. split; [reflexivity|]. split; [symmetry; exact Hr|].
    reflexivity.
  - assert (Hrne : rest <> []) by (intros Hr; rewrite Hr in N0; simpl in N0; lia).
    unfold new_txt, malloc.
    destruct (heap st) as [|[|] hp] eqn:Eh.
    + (* the allocator has no limit *)
      eexists. split; [reflexivity|].
      change (line (set_line ?l ?s)) with l. rewrite (Hfirst _ eq_refl).
      split; [|intros _ Hf; discriminate].
      intros _. split; [reflexivity|]. split; [exact Hsplit|].
      rewrite sub_0, Nat2Z.id, firstn_all. split; [reflexivity|].
      intros Hfile Hstk Hfit. unfold get_next_line. cbv zeta.
      simpl file. simpl macro_stk. rewrite Hfile, Hstk. simpl mcmd.
      simpl mcmd_txt. simpl mcmd_len.
      destruct (Z.eqb_spec (Z.of_nat (length rest)) 0) as [|_]; [contradiction|].
      simpl negb. cbv iota. eexists. split; [reflexivity|].
      split; [|reflexivity].
      change (line (set_mcmd ?m ?s)) with (line s). rewrite copy_chars_line.
      change (max (set_kbd false (set_line [] ?s))) with (max st).
      destruct (Z.gtb_spec (Z.of_nat (length rest)) (max st)) as [Hgt|_];
        [unfold len in *; lia|].
      rewrite sub_0, Nat2Z.id, firstn_all. reflexivity.
    + eexists. split; [reflexivity|].
      change (line (set_line ?l ?s)) with l. rewrite (Hfirst (set_heap hp st) eq_refl).
      split; [|intros _ Hf; discriminate].
      intros _. split; [reflexivity|]. split; [exact Hsplit|].
      rewrite sub_0, Nat2Z.id, firstn_all. split; [reflexivity|].
      intros Hfile Hstk Hfit. unfold get_next_line. cbv zeta.
      simpl file. simpl macro_stk. rewrite Hfile, Hstk. simpl mcmd.
      simpl mcmd_txt. simpl mcmd_len.
      destruct (Z.eqb_spec (Z.of_nat (length rest)) 0) as [|_]; [contradiction|].
      simpl negb. cbv iota. eexists. split; [reflexivity|].
      split; [|reflexivity].
      change (line (set_mcmd ?m ?s)) with (line s). rewrite copy_chars_line.
      change (max (set_kbd false (set_line [] ?s))) with (max st).
      destruct (Z.gtb_spec (Z.of_nat (length rest)) (max st)) as [Hgt|_];
        [unfold len in *; lia|].
      rewrite sub_0, Nat2Z.id, firstn_all. reflexivity.
    + eexists. split; [reflexivity|].
      split; [intros [Hr|Hf]; [contradiction | discriminate]|].
      intros _ _. split; reflexivity.
Qed.

(** The line [dir], a separator, a quoted separator and [ver]. *)
Lemma multi_cmd_split_witness :
  let st := set_line (wstr "dir" ++ [CMDSEP; DQUOTE; CMDSEP; DQUOTE] ++ wstr "ver")
              (initial default_option 100) in
  exists st', multi_cmd st = Some st'
              /\ line st' = wstr "dir"
              /\ option_map line (get_next_line st')
                 = Some ([DQUOTE; CMDSEP; DQUOTE] ++ wstr "ver").
Proof.
  intros st.
  assert (Hm : len st < 2 ^ 32) by (vm_compute; reflexivity).
  destruct (multi_cmd_split st Hm) as (st' & E & M).
  assert (Ep : first_sep false (line st) = Some 3%nat) by (vm_compute; reflexivity).
  rewrite Ep in M. destruct M as [M _].
  destruct (M (or_intror eq_refl)) as (L & _ & _ & G).
  destruct (G eq_refl eq_refl) as (s & Es & Ls & _); [vm_compute; discriminate|].
  exists st'. split; [exact E|]. split; [exact L|].
  rewrite Es. simpl. rewrite Ls. reflexivity.
Defined.

(** ** A symbol, defined and used *)

Lemma max_execute_defs (pos : Z) (st : State) : max (execute_defs pos st) = max st.
Proof.
  apply (frame_execute_defs max); [intros h; destruct h|]; reflexivity.
Qed.

(** [defs name text], with a valid name, a text and an allocator that grants
    two requests, leaves the definition at the head of the symbols. *)
Lemma execute_defs_defines (st : State) (pos : Z) :
  pos <> len st -> name_ok st pos = true ->
  skip_blank st (skip_nondelim st pos) <> len st ->
  hd true (heap st) = true -> hd true (tl (heap st)) = true ->
  exists d t,
    sym_head (execute_defs pos st) = d :: t
    /\ canon (name d) = canon (name_at st pos)
    /\ lines d = [def_text st pos].
Proof.
  intros Hpos Hname Hdef Hh1 Hh2. unfold execute_defs.
  destruct (Z.eqb_spec pos (len st)) as [E|_]; [contradiction|].
  unfold name_ok in Hname. apply negb_true_iff in Hname. rewrite Hname.
  destruct (name_at_key st pos) as (rest & Hk & Hcnt).
  set (nm := name_at st pos) in *.
  rewrite <- Hcnt.
  pose proof (find_del_spec MacHead pos nm rest st Hk) as Hm. cbv zeta in Hm.
  destruct (find_define MacHead pos (Z.of_nat (length nm)) st) as [m st1].
  simpl fst in Hm. simpl snd in Hm.
  set (st2 := if m then del_define MacHead st1 else st1) in *.
  destruct Hm as (L2 & H2 & O2 & M2).
  assert (Hk2 : skipn (Z.to_nat pos) (line st2) = nm ++ rest) by (rewrite L2; exact Hk).
  destruct (find_define_spec SymHead pos nm rest st2 Hk2) as (L3 & H3 & O3 & F3).
  destruct (find_define SymHead pos (Z.of_nat (length nm)) st2) as [sym st3].
  simpl fst in *. simpl snd in *.
  unfold def_text. cbv zeta.
  set (def := skip_blank st (skip_nondelim st pos)) in *.
  destruct sym.
  - destruct F3 as (d & l' & Hd & Hc & _).
    destruct (names_set_lines SymHead [] st3) as (_ & _ & _ & L4 & H4).
    pose proof (head_set_lines SymHead [] st3 _ _ Hd) as S4.
    set (st4 := set_head_lines SymHead [] st3) in *.
    rewrite (skip_blank_line st st4) by (rewrite L4, L3, L2; reflexivity).
    rewrite (len_line st st4) by (rewrite L4, L3, L2; reflexivity).
    fold def. destruct (Z.eqb_spec def (len st)) as [E|_]; [contradiction|].
    simpl negb. cbv iota.
    destruct (add_line_spec def st4) as (L6 & H6 & O6 & A6).
    destruct (add_line def st4) as [l0 st6]. simpl in L6, H6, O6, A6.
    rewrite H4, H3, H2, Hh1 in A6. subst l0.
    assert (S6 : get_head SymHead st6 = mkDefine (name d) [] :: l')
      by (rewrite O6; exact S4).
    pose proof (head_set_lines SymHead [sub (line st4) def (dw (len st4 - def))]
                  st6 _ _ S6) as S7.
    exists (mkDefine (name d) [sub (line st4) def (dw (len st4 - def))]), l'.
    split; [exact S7|]. split; [exact Hc|]. simpl.
    rewrite (len_line st st4), L4, L3, L2 by (rewrite L4, L3, L2; reflexivity).
    reflexivity.
  - destruct F3 as [E3 _]. subst st3.
    rewrite (skip_blank_line st st2) by exact L2.
    rewrite (len_line st st2) by exact L2.
    fold def. destruct (Z.eqb_spec def (len st)) as [E|_]; [contradiction|].
    destruct (add_define_spec SymHead pos (Z.of_nat (length nm)) st2)
      as (L5 & H5 & A5 & O5 & S5).
    destruct (add_define SymHead pos (Z.of_nat (length nm)) st2) as [ok st5].
    simpl fst in *. simpl snd in *.
    rewrite H2, Hh1 in A5. subst ok. simpl negb. cbv iota.
    destruct (add_line_spec def st5) as (L6 & H6 & O6 & A6).
    destruct (add_line def st5) as [l0 st6]. simpl in L6, H6, O6, A6.
    rewrite H5, H2, Hh2 in A6. subst l0.
    assert (Hnm : sub (line st2) pos (Z.of_nat (length nm)) = nm).
    { rewrite L2, Hcnt. reflexivity. }
    rewrite Hnm in S5.
    assert (S6 : get_head SymHead st6 = mkDefine nm [] :: get_head SymHead st2)
      by (rewrite O6; exact S5).
    pose proof (head_set_lines SymHead [sub (line st5) def (dw (len st5 - def))]
                  st6 _ _ S6) as S7.
    exists (mkDefine nm [sub (line st5) def (dw (len st5 - def))]), (get_head SymHead st2).
    split; [exact S7|]. split; [reflexivity|]. simpl.
    rewrite (len_line st st5), L5, L2 by (rewrite L5, L2; reflexivity).
    reflexivity.
Qed.

Lemma skip_while_app (p : WCHAR -> bool) (a b : list WCHAR) :
  forallb p a = true -> (b = [] \/ p (hd 0 b) = false) ->
  forall pos, skip_while p (a ++ b) pos = pos + Z.of_nat (length a).
Proof.
  intros Ha Hb. induction a as [|x a IH]; intros pos.
  - simpl. destruct Hb as [->|Hb]; [simpl; lia|].
    destruct b as [|y b]; simpl in *; [lia|]. rewrite Hb. lia.
  - simpl in Ha. apply andb_true_iff in Ha. destruct Ha as [Hx Ha].
    simpl app. simpl skip_while. rewrite Hx, (IH Ha). simpl length. lia.
Qed.

(** [expand_symbol] on a line that starts with the name of the symbol at the
    head of the list. *)
Lemma expand_symbol_head (s : State) (d : Define) (t : list Define)
  (w rest : list WCHAR) :
  sym_head s = d :: t ->
  canon (name d) = canon w ->
  line s = w ++ rest ->
  w <> [] ->
  forallb (fun c => negb (wcschr DEF_TERM c)) w = true ->
  (rest = [] \/ wcschr DEF_TERM (hd 0 rest) = true) ->
  Z.of_nat (length (hd [] (lines d))) + Z.of_nat (length rest) + 1 <= max s ->
  max s < 2 ^ 32 -> len s < 2 ^ 32 ->
  exists s', expand_symbol s = (true, s')
             /\ line s'
                = hd [] (lines d)
                  ++ (if match rest with [] => false | c :: _ => negb (isblank c) end
                      then SPACE :: rest else rest).
Proof.
  intros Hhead Hc Hline Hw Hnd Hrest Hfit Hmax Hlen.
  unfold expand_symbol. cbv zeta.
  assert (Hsb : skip_blank s 0 = 0).
  { unfold skip_blank. change (Z.to_nat 0) with O. rewrite skipn_O, Hline.
    destruct w as [|c w]; [contradiction|]. simpl in Hnd |- *.
    apply andb_true_iff in Hnd. destruct Hnd as [Hc0 _].
    destruct (isblank c) eqn:Eb; [|reflexivity].
    exfalso. unfold isblank in Eb. apply negb_true_iff in Hc0.
    unfold wcschr, DEF_TERM in Hc0. simpl in Hc0.
    apply orb_true_iff in Eb.
    destruct Eb as [Eb|Eb]; apply Z.eqb_eq in Eb; subst c; discriminate. }
  rewrite Hsb.
  assert (Hend : skip_nondelim s 0 = Z.of_nat (length w)).
  { unfold skip_nondelim. change (Z.to_nat 0) with O. rewrite skipn_O, Hline.
    rewrite skip_while_app; [lia | exact Hnd |].
    destruct Hrest as [Hr|Hr]; [left; exact Hr | right; rewrite Hr; reflexivity]. }
  rewrite Hend. replace (Z.of_nat (length w) - 0) with (Z.of_nat (length w)) by lia.
  unfold find_define. change (Z.to_nat 0) with O. rewrite skipn_O, Hline.
  change (get_head SymHead s) with (sym_head s). rewrite Hhead.
  cbn [find_walk]. rewrite define_match_key_prefix.
  rewrite (proj2 (define_match_canon w d) Hc). simpl rev. simpl app.
  simpl negb. cbv iota.
  set (s1 := set_head SymHead (d :: t) s).
  assert (L1 : line s1 = w ++ rest) by exact Hline.
  assert (Hl1 : head_line SymHead s1 = hd [] (lines d)) by reflexivity.
  rewrite Hl1. set (text := hd [] (lines d)) in *.
  assert (Hlr : len s1 = Z.of_nat (length w) + Z.of_nat (length rest)).
  { unfold len. rewrite L1, length_app. lia. }
  pose proof (replace_chars_token s1 [] w rest text L1) as Hrep.
  simpl length in Hrep. change (Z.of_nat 0) with 0 in Hrep.
  specialize (Hrep ltac:(change (max s1) with (max s); lia)
                   ltac:(change (max s1) with (max s); lia)
                   ltac:(change (len s1) with (len s); lia)).
  simpl app in Hrep.
  set (s2 := replace_chars 0 (Z.of_nat (length w)) text (Z.of_nat (length text)) s1) in *.
  assert (Hch : char_at (line s1) (Z.of_nat (length w)) = hd 0 rest).
  { rewrite L1. destruct rest as [|c rest]; [|apply char_at_app_mid].
    rewrite app_nil_r. unfold char_at.
    destruct (Z.ltb_spec (Z.of_nat (length w)) 0); [reflexivity|].
    rewrite Nat2Z.id. apply nth_overflow. lia. }
  change (line s1) with (line s) in Hch. rewrite Hch, Hlr.
  destruct rest as [|c rest].
  - rewrite (proj2 (Z.ltb_ge _ _)) by (simpl length; lia).
    simpl andb. cbv iota. exists s2. split; [reflexivity | exact Hrep].
  - simpl hd. rewrite (proj2 (Z.ltb_lt _ _)) by (simpl length; lia).
    simpl andb. destruct (isblank c); simpl negb; cbv iota;
      [exists s2; split; [reflexivity | exact Hrep]|].
    eexists. split; [reflexivity|].
    rewrite insert_chars_line, Hrep.
    assert (Hl2 : len s2 = Z.of_nat (length text) + Z.of_nat (S (length rest))).
    { unfold len. rewrite Hrep, length_app. simpl length. lia. }
    rewrite Hl2. simpl length in Hfit.
    assert (Hm2 : max s2 = max s) by (unfold s2; rewrite replace_chars_max; reflexivity).
    rewrite Hm2.
    rewrite (dw_small (Z.of_nat (length text) + Z.of_nat (S (length rest)) + 1)) by lia.
    destruct (Z.gtb_spec (Z.of_nat (length text) + Z.of_nat (S (length rest)) + 1) (max s));
      [lia|].
    rewrite dw_small by lia.
    replace (0 + Z.of_nat (length text)) with (Z.of_nat (length text)) by lia.
    rewrite sub_0, Nat2Z.id, firstn_app_exact.
    unfold sub. rewrite Nat2Z.id, skipn_app_exact.
    replace (Z.to_nat (Z.of_nat (length text) + Z.of_nat (S (length rest))
                       - Z.of_nat (length text))) with (length (c :: rest))
      by (simpl length; lia).
    rewrite firstn_all. reflexivity.
Qed.

(** X6.  A symbol that [defs] has defined is expanded: after [defs name text]
    (valid name, a text, two allocations granted) a line that starts with the
    name, in any case, followed by the end of the line or a delimiter, is
    turned by [expand_symbol] into the text and what followed the name, with
    a space between them when a delimiter other than a blank followed. *)
Theorem defs_then_expand_symbol (st : State) (pos : Z) (w rest : list WCHAR) :
  pos <> len st -> name_ok st pos = true ->
  skip_blank st (skip_nondelim st pos) <> len st ->
  hd true (heap st) = true -> hd true (tl (heap st)) = true ->
  w <> [] -> canon w = canon (name_at st pos) ->
  forallb (fun c => negb (wcschr DEF_TERM c)) w = true ->
  (rest = [] \/ wcschr DEF_TERM (hd 0 rest) = true) ->
  Z.of_nat (length (def_text st pos)) + Z.of_nat (length rest) + 1 <= max st ->
  max st < 2 ^ 32 -> Z.of_nat (length (w ++ rest)) < 2 ^ 32 ->
  exists s', expand_symbol (set_line (w ++ rest) (execute_defs pos st)) = (true, s')
             /\ line s'
                = def_text st pos
                  ++ (if match rest with [] => false | c :: _ => negb (isblank c) end
                      then SPACE :: rest else rest).
Proof.
  intros Hpos Hname Hdef Hh1 Hh2 Hw Hc Hnd Hrest Hfit Hmax Hlen.
  destruct (execute_defs_defines st pos Hpos Hname Hdef Hh1 Hh2)
    as (d & t & Hd & Hcd & Hl).
  assert (Ht : hd [] (lines d) = def_text st pos) by (rewrite Hl; reflexivity).
  rewrite <- Ht.
  apply (expand_symbol_head (set_line (w ++ rest) (execute_defs pos st)) d t w rest).
  - exact Hd.
  - rewrite Hcd. symmetry. exact Hc.
  - reflexivity.
  - exact Hw.
  - exact Hnd.
  - exact Hrest.
  - change (max (set_line (w ++ rest) (execute_defs pos st)))
      with (max (execute_defs pos st)).
    rewrite max_execute_defs, Ht. exact Hfit.
  - change (max (set_line (w ++ rest) (execute_defs pos st)))
      with (max (execute_defs pos st)).
    rewrite max_execute_defs. exact Hmax.
  - exact Hlen.
Qed.

(** [defs ll dir /w], then the line [LL>x]. *)
Lemma defs_then_expand_symbol_witness :
  let st := set_line (wstr "defs ll dir /w") (initial default_option 100) in
  exists s', expand_symbol (set_line (wstr "LL>x") (execute_defs 5 st)) = (true, s')
             /\ line s' = wstr "dir /w >x".
Proof.
  intros st.
  destruct (defs_then_expand_symbol st 5 (wstr "LL") (wstr ">x"))
    as (s' & E & L);
    try (vm_compute; reflexivity); try (vm_compute; discriminate);
    try (right; vm_compute; reflexivity).
  exists s'. split; [exact E|]. rewrite L. vm_compute. reflexivity.
Defined.

(** ** The line handed to the host shell *)

Lemma add_to_history_line (st : State) : line (add_to_history st) = line st.
Proof.
  unfold add_to_history.
  destruct (len st <? min_length (opt st)); [reflexivity|].
  destruct (find_identical _ _); [reflexivity|].
  destruct (_ && _); unfold malloc, remove_from_history;
    simpl heap; destruct (heap st) as [|[|] h]; reflexivity.
Qed.

(** X7.  With macro translation disabled, auto-recall off and no
    Control+Break pending, a line typed
    with plain keys (characters from 32 on, each entered as it is, in insert
    or in overwrite mode) and ended by Enter is handed over by
    [MyReadConsoleW] cut to [nNumberOfCharsToRead - 2] characters, with a
    CRLF behind them: never more than [nNumberOfCharsToRead] characters. *)
Theorem MyReadConsoleW_disabled (fuel : nat) (ext : Handlers) (nchars : Z)
  (st : State) (l : list WCHAR) (rest : list (list WCHAR)) :
  disable_macro (opt st) = true ->
  file st = None -> macro_stk st = [] -> mcmd_txt (mcmd st) = None ->
  input st = l :: rest ->
  forallb (fun c => 32 <=? c) l = true ->
  auto_recall (opt st) = false -> check_break st <= 1 ->
  2 <= nchars < 2 ^ 32 ->
  exists st',
    MyReadConsoleW fuel ext nchars st = Some st'
    /\ line st' = firstn (Z.to_nat (nchars - 2)) l ++ [13; 10]
    /\ len st' <= nchars.
Proof.
  intros Hdis Hfile Hstk Hmcmd Hinput Hplain Hrec Hcb Hn.
  unfold MyReadConsoleW. cbv zeta.
  change (opt (set_max ?m st)) with (opt st). rewrite Hdis.
  unfold get_next_line. cbv zeta.
  simpl file. simpl macro_stk. simpl mcmd. rewrite Hfile, Hstk, Hmcmd.
  unfold edit_line. simpl input. rewrite Hinput.
  simpl check_break.
  destruct (Z.gtb_spec (check_break st) 1) as [Hgt|_]; [lia|].
  set (s0 := set_input rest _).
  change (opt s0) with (opt st). rewrite Hrec.
  assert (L0 : line s0 = []) by reflexivity.
  assert (M0 : max s0 = nchars - 2).
  { change (max s0) with (dw (nchars - 2)). apply dw_small. lia. }
  destruct (type_chars_plain (overwrite (opt st)) l (mkEdit 0 O false true) s0)
    as (e' & s1 & Et & Lt & Mt & _).
  - unfold len. rewrite L0. reflexivity.
  - reflexivity.
  - unfold len. rewrite L0, M0. simpl. lia.
  - exact Hplain.
  - rewrite Et. cbn [bind].
    eexists. split; [reflexivity|].
    change (line (set_line ?x ?s)) with x.
    rewrite add_to_history_line.
    change (line (set_disp 0 0 s1)) with (line s1).
    rewrite Lt, L0, M0.
    unfold len at 1. rewrite L0. simpl length. simpl app.
    replace (nchars - 2 - 0) with (nchars - 2) by lia.
    split; [reflexivity|].
    unfold len. change (line (set_line ?x ?s)) with x.
    rewrite length_app, length_firstn. simpl length. lia.
Qed.

(** Five characters typed into a buffer of six. *)
Lemma MyReadConsoleW_disabled_witness :
  let st := set_input [wstr "hello"] (initial (mkOptions false true SPACE 1 50 false false) 0) in
  option_map line (MyReadConsoleW 1 (fun _ _ s => Some s) 6 st)
  = Some (wstr "hell" ++ [13; 10]).
Proof.
  intros st.
  assert (Hn : 2 <= 6 < 2 ^ 32) by lia.
  assert (Hcb : check_break st <= 1) by (vm_compute; discriminate).
  destruct (MyReadConsoleW_disabled 1 (fun _ _ s => Some s) 6 st (wstr "hello") []
              eq_refl eq_refl eq_refl eq_refl eq_refl eq_refl eq_refl Hcb Hn)
    as (st' & E & L & _).
  rewrite E. simpl. rewrite L. reflexivity.
Defined.

(** ** Macros *)

(** What is kept by the functions that change the line and the display
    marks only. *)
Section LineFrame.
Context {T : Type} (proj : State -> T).
Hypothesis proj_line : forall l st, proj (set_line l st) = proj st.
Hypothesis proj_disp : forall b e st, proj (set_disp b e st) = proj st.

Lemma lframe_remove_chars (pos cnt : Z) (st : State) :
  proj (remove_chars pos cnt st) = proj st.
Proof.
  unfold remove_chars, set_display_marks. cbv zeta.
  rewrite proj_line, proj_disp. reflexivity.
Qed.

Lemma lframe_un_escape_loop (unq : option (list WCHAR)) (f : nat) :
  forall quote pos st st',
    un_escape_loop f unq quote pos st = Some st' -> proj st' = proj st.
Proof.
  induction f as [|f IH]; intros quote pos st st' H; [discriminate|].
  simpl un_escape_loop in H.
  destruct (negb (pos <? len st)); [injection H as <-; reflexivity|].
  assert (Hdrop : forall q, un_escape_loop f unq q (pos + 1) (remove_chars pos 1 st)
                            = Some st' -> proj st' = proj st).
  { intros q E. apply IH in E. rewrite E. apply lframe_remove_chars. }
  destruct quote.
  - destruct (is_quote st pos); [apply (IH _ _ _ _ H)|].
    destruct unq as [set|]; [|apply (IH _ _ _ _ H)].
    destruct ((char_at (line st) pos =? ESCAPE) && (pos + 1 <? len st)
              && wcschr set (char_at (line st) (pos + 1)));
      [apply (Hdrop _ H) | apply (IH _ _ _ _ H)].
  - destruct (is_quote st pos); [apply (IH _ _ _ _ H)|].
    destruct unq as [set|]; [apply (IH _ _ _ _ H)|].
    destruct ((char_at (line st) pos =? ESCAPE) && (pos + 1 <? len st));
      [apply (Hdrop _ H) | apply (IH _ _ _ _ H)].
Qed.

Lemma lframe_un_escape (unq : option (list WCHAR)) (st st' : State) :
  un_escape unq st = Some st' -> proj st' = proj st.
Proof.
  unfold un_escape. destruct (negb (memchr (line st) ESCAPE)).
  - intros H. injection H as <-. reflexivity.
  - apply lframe_un_escape_loop.
Qed.

End LineFrame.

Lemma removes_escapes_none (l l' : list WCHAR) :
  removes_escapes l l' -> (forall c, In c l -> c <> ESCAPE) -> l' = l.
Proof.
  intros H. induction H as [|c l l' H IH|l l' H IH]; intros Hn.
  - reflexivity.
  - f_equal. apply IH. intros x Hx. apply Hn. right. exact Hx.
  - exfalso. apply (Hn ESCAPE); [left|]; reflexivity.
Qed.

Lemma plain_no_escape (l : list WCHAR) :
  forallb plain l = true -> forall c, In c l -> c <> ESCAPE.
Proof.
  intros H c Hc ->. rewrite forallb_forall in H. specialize (H _ Hc). discriminate.
Qed.

(** A text without escape and variable characters has no argument to
    replace. *)
Lemma macro_args_loop_plain (args : list WCHAR) (st : State) (f : nat) :
  forall pos,
    0 <= pos -> (0 < f)%nat -> len st - pos < Z.of_nat f ->
    forallb plain (skipn (Z.to_nat pos) (line st)) = true ->
    macro_args_loop f args pos st = Some st.
Proof.
  induction f as [|f IH]; intros pos Hp H0 Hf Hpl; [lia|].
  cbn [macro_args_loop].
  destruct (Z.ltb_spec pos (len st)) as [Hlt|Hge]; simpl negb; cbv iota; [|reflexivity].
  unfold len in Hlt. rewrite (skipn_char_at (line st) pos) in Hpl by lia.
  simpl in Hpl. apply andb_true_iff in Hpl. destruct Hpl as [Hc Hpl].
  unfold plain in Hc. apply andb_true_iff in Hc. destruct Hc as [H1 H2].
  apply negb_true_iff in H1. apply negb_true_iff in H2. rewrite H1, H2.
  simpl andb. cbv iota.
  apply IH; [lia | unfold len in *; lia | unfold len in *; lia | exact Hpl].
Qed.

(** [get_macro_line] delivers a line without escape and variable characters
    as it is and steps to the next line of the macro. *)
Lemma get_macro_line_plain (s : State) (inv b : list WCHAR)
  (bs : list (list WCHAR)) (stk : list Define) :
  macro_stk s = mkDefine inv (b :: bs) :: stk ->
  forallb plain b = true ->
  Z.of_nat (length b) <= max s -> max s < 2 ^ 32 ->
  exists s',
    get_macro_line s = Some s'
    /\ line s' = b /\ file s' = file s /\ max s' = max s
    /\ macro_stk s' = match bs with [] => stk | _ => mkDefine inv bs :: stk end.
Proof.
  intros Hstk Hpl Hfit Hmax. unfold get_macro_line. rewrite Hstk. cbv zeta.
  simpl lines. simpl hd. simpl tl. simpl name.
  set (sc := copy_chars b (Z.of_nat (length b)) s).
  assert (Lc : line sc = b).
  { unfold sc. rewrite copy_chars_line.
    destruct (Z.gtb_spec (Z.of_nat (length b)) (max s)); [lia|].
    rewrite sub_0, Nat2Z.id. apply firstn_all. }
  assert (Mc : max sc = max s) by apply copy_chars_max.
  assert (Fc : file sc = file s).
  { unfold sc, copy_chars, set_display_marks, bell. cbv zeta.
    destruct (_ >? _); simpl; [destruct (silent (opt s))|]; reflexivity. }
  rewrite macro_args_loop_plain;
    [ | lia | lia | unfold len; rewrite Lc; lia
      | change (Z.to_nat 0) with O; rewrite skipn_O, Lc; exact Hpl ].
  unfold bind at 1. cbv beta iota.
  destruct (un_escape_spec (Some ARG_ESCAPE) sc) as (su & Eu & Ru).
  { unfold len. rewrite Lc. lia. }
  rewrite Eu. unfold bind. cbv beta iota.
  rewrite Lc in Ru.
  pose proof (removes_escapes_none _ _ Ru (plain_no_escape b Hpl)) as Lu.
  assert (Fu : file su = file s).
  { rewrite (lframe_un_escape file (fun _ _ => eq_refl) (fun _ _ _ => eq_refl) _ _ _ Eu).
    exact Fc. }
  assert (Mu : max su = max s).
  { rewrite (lframe_un_escape max (fun _ _ => eq_refl) (fun _ _ _ => eq_refl) _ _ _ Eu).
    exact Mc. }
  destruct bs as [|b' bs']; eexists; (split; [reflexivity|]);
    repeat split; assumption.
Qed.

Lemma delivers_plain (bs : list (list WCHAR)) :
  forall (s : State) (inv : list WCHAR) (stk : list Define) (M : Z),
    file s = None -> max s = M -> M < 2 ^ 32 ->
    Forall (fun l => forallb plain l = true /\ Z.of_nat (length l) <= M) bs ->
    macro_stk s = match bs with [] => stk | _ => mkDefine inv bs :: stk end ->
    delivers bs stk s.
Proof.
  induction bs as [|b bs IH]; intros s inv stk M Hfile Hmax HM Hall Hstk.
  - exact Hstk.
  - inversion Hall as [|? ? [Hpl Hfit] Hall']; subst.
    assert (Hstk' : macro_stk (set_kbd false (set_line [] s))
                    = mkDefine inv (b :: bs) :: stk) by exact Hstk.
    destruct (get_macro_line_plain (set_kbd false (set_line [] s)) inv b bs stk
                Hstk' Hpl Hfit HM) as (s' & E & L & F & Mx & S).
    simpl. exists s'. split; [|split; [exact L|]].
    + unfold get_next_line. cbv zeta.
      change (file (set_kbd false (set_line [] s))) with (file s). rewrite Hfile.
      rewrite Hstk'. exact E.
    + apply (IH s' inv stk (max s)); [rewrite F; exact Hfile | exact Mx | exact HM
                                      | exact Hall' | exact S].
Qed.

(** X8.  A macro whose lines hold no escape and no variable character, and
    fit the buffer, is delivered line by line: [expand_macro], on a line that
    starts with its name (in any case), puts the first line of the macro in
    place of the line, every further call of [get_next_line] delivers the next
    one, and behind the last line the macro stack is what it was. *)
Theorem macro_lines_in_order (st : State) (w rest : list WCHAR) (d : Define)
  (b : list WCHAR) (bs : list (list WCHAR)) :
  line st = w ++ rest ->
  w <> [] ->
  forallb (fun c => negb (wcschr DEF_TERM c)) w = true ->
  (rest = [] \/ wcschr DEF_TERM (hd 0 rest) = true) ->
  lookup_define (mac_head st) w = Some d ->
  lines d = b :: bs ->
  Forall (fun l => forallb plain l = true /\ Z.of_nat (length l) <= max st) (b :: bs) ->
  max st < 2 ^ 32 ->
  hd true (heap st) = true ->
  file st = None ->
  exists s1, expand_macro st = Some (true, s1)
             /\ line s1 = b
             /\ delivers bs (macro_stk st) s1.
Proof.
  intros Hline Hw Hnd Hrest Hlook Hlines Hall Hmax Hheap Hfile.
  unfold expand_macro. cbv zeta.
  assert (Hsb : skip_blank st 0 = 0).
  { unfold skip_blank. change (Z.to_nat 0) with O. rewrite skipn_O, Hline.
    destruct w as [|c w]; [contradiction|]. simpl in Hnd |- *.
    apply andb_true_iff in Hnd. destruct Hnd as [Hc0 _].
    destruct (isblank c) eqn:Eb; [|reflexivity].
    exfalso. unfold isblank in Eb. apply negb_true_iff in Hc0.
    unfold wcschr, DEF_TERM in Hc0. simpl in Hc0.
    apply orb_true_iff in Eb.
    destruct Eb as [Eb|Eb]; apply Z.eqb_eq in Eb; subst c; discriminate. }
  rewrite Hsb.
  assert (Hend : skip_nondelim st 0 = Z.of_nat (length w)).
  { unfold skip_nondelim. change (Z.to_nat 0) with O. rewrite skipn_O, Hline.
    rewrite skip_while_app; [lia | exact Hnd |].
    destruct Hrest as [Hr|Hr]; [left; exact Hr | right; rewrite Hr; reflexivity]. }
  rewrite Hend. replace (Z.of_nat (length w) - 0) with (Z.of_nat (length w)) by lia.
  destruct (find_define_lookup MacHead 0 w rest st d Hline Hlook) as (l' & Ef).
  rewrite Ef. simpl negb. cbv iota.
  set (s0 := set_head MacHead (d :: l') st).
  destruct (add_define_spec MacroStk 0 (len s0) s0) as (L1 & _ & A1 & O1 & S1).
  assert (Ph : forall (T : Type) (proj : State -> T),
             (forall h l s, proj (set_head h l s) = proj s) ->
             (forall h s, proj (set_heap h s) = proj s) ->
             proj (snd (add_define MacroStk 0 (len s0) s0)) = proj st).
  { intros T proj Ph Pp. rewrite (frame_add_define proj Ph Pp). apply Ph. }
  pose proof (Ph _ file ltac:(intros h; destruct h; reflexivity)
                ltac:(reflexivity)) as F1.
  pose proof (Ph _ max ltac:(intros h; destruct h; reflexivity)
                ltac:(reflexivity)) as M1.
  clear Ph.
  destruct (add_define MacroStk 0 (len s0) s0) as [ok s1].
  simpl fst in *. simpl snd in *.
  change (heap s0) with (heap st) in A1. rewrite Hheap in A1. subst ok.
  simpl negb. cbv iota.
  assert (Hm1 : mac_head s1 = d :: l').
  { change (get_head MacHead s1 = d :: l'). rewrite O1 by discriminate. reflexivity. }
  rewrite Hm1, Hlines.
  change (get_head MacroStk s0) with (macro_stk st) in S1.
  pose proof (head_set_lines MacroStk (b :: bs) s1 _ _ S1) as S2.
  assert (F2 : file (set_head_lines MacroStk (b :: bs) s1) = None).
  { rewrite (frame_set_head_lines file); [rewrite F1; exact Hfile|].
    intros h; destruct h; reflexivity. }
  assert (M2 : max (set_head_lines MacroStk (b :: bs) s1) = max st).
  { rewrite (frame_set_head_lines max); [exact M1|].
    intros h; destruct h; reflexivity. }
  set (s2 := set_head_lines MacroStk (b :: bs) s1) in *.
  change (get_head MacroStk s2) with (macro_stk s2) in S2. simpl name in S2.
  inversion Hall as [|? ? [Hpl Hfit] Hall']; subst.
  destruct (get_macro_line_plain s2 (sub (line s0) 0 (len s0)) b bs (macro_stk st)
              S2 Hpl ltac:(rewrite M2; exact Hfit) ltac:(rewrite M2; exact Hmax))
    as (s3 & E3 & L3 & F3 & M3 & S3).
  rewrite E3. unfold bind. cbv beta iota.
  exists s3. split; [reflexivity|]. split; [exact L3|].
  apply (delivers_plain bs s3 (sub (line s0) 0 (len s0)) (macro_stk st) (max st)).
  - rewrite F3. exact F2.
  - rewrite M3. exact M2.
  - exact Hmax.
  - exact Hall'.
  - exact S3.
Qed.

(** The macro [ll] of two lines, called as [LL]. *)
Lemma macro_lines_in_order_witness :
  let st := set_line (wstr "LL")
              (set_mac_head [mkDefine (wstr "ll") [wstr "cd src"; wstr "dir"]]
                 (initial default_option 100)) in
  exists s1 s2,
    expand_macro st = Some (true, s1) /\ line s1 = wstr "cd src"
    /\ get_next_line s1 = Some s2 /\ line s2 = wstr "dir" /\ macro_stk s2 = [].
Proof.
  intros st.
  destruct (macro_lines_in_order st (wstr "LL") []
              (mkDefine (wstr "ll") [wstr "cd src"; wstr "dir"]) (wstr "cd src")
              [wstr "dir"])
    as (s1 & E & L & s2 & E2 & L2 & S2);
    [reflexivity | discriminate | reflexivity | left; reflexivity | reflexivity
    | reflexivity | | vm_compute; reflexivity | reflexivity | reflexivity |].
  - repeat constructor; vm_compute; discriminate.
  - exists s1, s2. repeat split; assumption.
Defined.

(** ** The arguments of a macro *)

(** With [keep] set, [get_string] leaves the line as it is and comes to an
    end. *)
Lemma get_string_loop_keep (start : Z) (f : nat) :
  forall pos quote oq cq st,
    0 <= pos -> (0 < f)%nat -> len st - pos < Z.of_nat f ->
    exists p st',
      get_string_loop f true start pos quote oq cq st = Some (p, oq, cq, st')
      /\ line st' = line st.
Proof.
  induction f as [|f IH]; intros pos quote oq cq st Hp H0 Hf; [lia|].
  cbn [get_string_loop].
  destruct (Z.ltb_spec pos (len st)) as [Hlt|Hge]; simpl negb; cbv iota.
  2:{ exists pos, st. split; reflexivity. }
  assert (Hrec : forall q (s : State), line s = line st ->
             exists p st',
               get_string_loop f true start (pos + 1) q oq cq s = Some (p, oq, cq, st')
               /\ line st' = line st).
  { intros q s Hs.
    destruct (IH (pos + 1) q oq cq s) as (p & st' & E & L);
      [lia | unfold len in *; rewrite ?Hs; lia | unfold len in *; rewrite ?Hs; lia|].
    exists p, st'. split; [exact E | rewrite L; exact Hs]. }
  destruct quote.
  - destruct (is_quote st pos); apply Hrec; reflexivity.
  - destruct (is_quote st pos); [apply Hrec; reflexivity|].
    destruct (isblank (char_at (line st) pos)); [|apply Hrec; reflexivity].
    exists pos, st. split; reflexivity.
Qed.

Lemma get_string_keep (pos : Z) (st : State) :
  0 <= pos ->
  exists cnt st',
    get_string pos true st = Some (skip_blank st pos, cnt, st')
    /\ line st' = line st.
Proof.
  intros Hp. unfold get_string. cbv zeta.
  change (skip_blank (set_found_quote false st) pos) with (skip_blank st pos).
  change (line (set_found_quote false st)) with (line st).
  assert (Hs : pos <= skip_blank st pos).
  { unfold skip_blank. apply skip_while_bounds. }
  destruct (get_string_loop_keep (skip_blank st pos) (S (length (line st)))
              (skip_blank st pos) false false None (set_found_quote false st))
    as (p & st' & E & L); [lia | lia | unfold len; simpl; lia |].
  rewrite E. unfold bind. cbv beta iota.
  eexists _, st'. split; [reflexivity | exact L].
Qed.

(** The first argument of an invocation: behind the first word and the
    blanks that follow it. *)
Lemma get_arg_second (st : State) (w sp a : list WCHAR) :
  line st = w ++ sp ++ a ->
  w <> [] ->
  forallb (fun c => negb (isblank c) && negb (c =? DQUOTE)) w = true ->
  forallb isblank sp = true ->
  (sp = [] -> a = []) ->
  (a = [] \/ isblank (hd 0 a) = false) ->
  len st < 2 ^ 32 ->
  exists cnt sa,
    get_arg 2 0 0 st = Some (Z.of_nat (length w) + Z.of_nat (length sp), cnt, sa).
Proof.
  intros Hline Hw Hwp Hsp Hspa Ha Hlen.
  assert (Hnb : forallb (fun c => negb (isblank c)) w = true).
  { rewrite forallb_forall in *. intros c Hc. specialize (Hwp c Hc).
    apply andb_true_iff in Hwp. apply Hwp. }
  assert (Hsb0 : skip_blank st 0 = 0).
  { unfold skip_blank. change (Z.to_nat 0) with O. rewrite skipn_O, Hline.
    destruct w as [|c w]; [contradiction|]. simpl in Hnb |- *.
    apply andb_true_iff in Hnb. destruct Hnb as [Hc0 _].
    apply negb_true_iff in Hc0. rewrite Hc0. reflexivity. }
  assert (Hsn : skip_nonblank st 0 = Z.of_nat (length w)).
  { unfold skip_nonblank. change (Z.to_nat 0) with O. rewrite skipn_O, Hline.
    rewrite skip_while_app; [lia | exact Hnb |].
    destruct sp as [|c sp]; [left; rewrite Hspa; reflexivity|].
    right. simpl in Hsp |- *. apply andb_true_iff in Hsp. destruct Hsp as [Hc _].
    rewrite Hc. reflexivity. }
  (* the first word *)
  cbn [get_arg]. change (0 + 0) with 0.
  assert (Hq : forallb (fun c => negb (c =? DQUOTE)) (first_word st) = true).
  { unfold first_word. cbv zeta. rewrite Hsb0, Hsn.
    replace (Z.of_nat (length w) - 0) with (Z.of_nat (length w)) by lia.
    rewrite sub_0, Nat2Z.id, Hline, firstn_app_exact.
    rewrite forallb_forall in *. intros c Hc. specialize (Hwp c Hc).
    apply andb_true_iff in Hwp. apply Hwp. }
  assert (G1 : get_string 0 true st
               = Some (0, Z.of_nat (length w), set_found_quote false st)).
  { unfold get_string. cbv zeta.
    change (skip_blank (set_found_quote false st) 0) with (skip_blank st 0).
    change (line (set_found_quote false st)) with (line st).
    rewrite Hsb0.
    rewrite (get_string_loop_plain true 0 false None (set_found_quote false st)).
    - unfold bind. cbv beta iota.
      change (skip_nonblank (set_found_quote false st) 0) with (skip_nonblank st 0).
      rewrite Hsn. replace (Z.of_nat (length w) - 0) with (Z.of_nat (length w)) by lia.
      rewrite dw_small; [reflexivity|].
      unfold len in Hlen. rewrite Hline, length_app in Hlen. lia.
    - lia.
    - lia.
    - unfold len. simpl. lia.
    - intros i Hi.
      change (skip_nonblank (set_found_quote false st) 0)
        with (skip_nonblank st 0) in Hi.
      change (line (set_found_quote false st)) with (line st).
      rewrite forallb_forall in Hq.
      assert (Hi' : skip_blank st 0 <= i < skip_nonblank st (skip_blank st 0))
        by (rewrite Hsb0; exact Hi).
      specialize (Hq _ (first_word_char st i Hi')).
      intros E. rewrite E in Hq. discriminate. }
  rewrite G1. unfold bind at 1. cbv beta iota.
  (* the blanks and the argument *)
  set (s1 := set_found_quote false st).
  destruct (get_string_keep (0 + Z.of_nat (length w)) s1) as (cnt & sa & G2 & _); [lia|].
  rewrite G2. unfold bind. cbv beta iota.
  assert (Hsb : skip_blank s1 (0 + Z.of_nat (length w))
                = Z.of_nat (length w) + Z.of_nat (length sp)).
  { unfold skip_blank. change (line s1) with (line st). rewrite Hline.
    replace (Z.to_nat (0 + Z.of_nat (length w))) with (length w) by lia.
    rewrite skipn_app_exact.
    rewrite skip_while_app; [lia | exact Hsp |].
    destruct Ha as [Ha|Ha]; [left; exact Ha | right; exact Ha]. }
  rewrite Hsb. exists cnt, sa. reflexivity.
Qed.

Lemma macro_args_run_plain (args : list WCHAR) (st : State) (k : nat) :
  forall (f : nat) (pos : Z),
    0 <= pos -> pos + Z.of_nat k <= len st ->
    (forall i, 0 <= i < Z.of_nat k -> plain (char_at (line st) (pos + i)) = true) ->
    macro_args_loop (k + f) args pos st = macro_args_loop f args (pos + Z.of_nat k) st.
Proof.
  induction k as [|k IH]; intros f pos Hp Hl Hpl.
  - simpl. f_equal. lia.
  - change (S k + f)%nat with (S (k + f)). cbn [macro_args_loop].
    destruct (Z.ltb_spec pos (len st)) as [_|Hge]; [|lia]. simpl negb. cbv iota.
    pose proof (Hpl 0 ltac:(lia)) as Hc. rewrite Z.add_0_r in Hc.
    unfold plain in Hc. apply andb_true_iff in Hc. destruct Hc as [H1 H2].
    apply negb_true_iff in H1. apply negb_true_iff in H2. rewrite H1, H2.
    simpl andb. cbv iota.
    rewrite IH; [f_equal; lia | lia | lia |].
    intros i Hi. replace (pos + 1 + i) with (pos + (i + 1)) by lia. apply Hpl. lia.
Qed.

Lemma forallb_skipn {A : Type} (p : A -> bool) (n : nat) (l : list A) :
  forallb p l = true -> forallb p (skipn n l) = true.
Proof.
  intros H. rewrite forallb_forall in *. intros x Hx. apply H.
  rewrite <- (firstn_skipn n l). apply in_or_app. right. exact Hx.
Qed.

(** [expand_macro] pushes the invocation with the lines of the macro and
    reads the first line. *)
Lemma expand_macro_push (st : State) (d : Define) :
  skip_blank st 0 = 0 ->
  lookup_define (mac_head st) (name_at st 0) = Some d ->
  hd true (heap st) = true ->
  exists s2,
    expand_macro st = (s3 <- get_macro_line s2 ;; Some (true, s3))
    /\ macro_stk s2 = mkDefine (line st) (lines d) :: macro_stk st
    /\ max s2 = max st /\ file s2 = file st.
Proof.
  intros Hsb Hlook Hheap. unfold expand_macro. cbv zeta. rewrite Hsb.
  destruct (name_at_key st 0) as (rest & Hk & Hcnt). rewrite <- Hcnt.
  destruct (find_define_lookup MacHead 0 (name_at st 0) rest st d Hk Hlook) as (l' & Ef).
  rewrite Ef. simpl negb. cbv iota.
  set (s0 := set_head MacHead (d :: l') st).
  destruct (add_define_spec MacroStk 0 (len s0) s0) as (L1 & _ & A1 & O1 & S1).
  assert (Ph : forall (T : Type) (proj : State -> T),
             (forall h l s, proj (set_head h l s) = proj s) ->
             (forall h s, proj (set_heap h s) = proj s) ->
             proj (snd (add_define MacroStk 0 (len s0) s0)) = proj st).
  { intros T proj Ph Pp. rewrite (frame_add_define proj Ph Pp). apply Ph. }
  pose proof (Ph _ file ltac:(intros h; destruct h; reflexivity)
                ltac:(reflexivity)) as F1.
  pose proof (Ph _ max ltac:(intros h; destruct h; reflexivity)
                ltac:(reflexivity)) as M1.
  clear Ph.
  destruct (add_define MacroStk 0 (len s0) s0) as [ok s1].
  simpl fst in *. simpl snd in *.
  change (heap s0) with (heap st) in A1. rewrite Hheap in A1. subst ok.
  simpl negb. cbv iota.
  assert (Hm1 : mac_head s1 = d :: l').
  { change (get_head MacHead s1 = d :: l'). rewrite O1 by discriminate. reflexivity. }
  rewrite Hm1.
  change (get_head MacroStk s0) with (macro_stk st) in S1.
  change (line s0) with (line st) in S1. change (len s0) with (len st) in S1.
  assert (Hinv : sub (line st) 0 (len st) = line st).
  { rewrite sub_0. unfold len. rewrite Nat2Z.id. apply firstn_all. }
  rewrite Hinv in S1.
  pose proof (head_set_lines MacroStk (lines d) s1 _ _ S1) as S2.
  exists (set_head_lines MacroStk (lines d) s1).
  split; [reflexivity|]. split; [exact S2|]. split.
  - rewrite (frame_set_head_lines max); [exact M1|].
    intros h; destruct h; reflexivity.
  - rewrite (frame_set_head_lines file); [exact F1|].
    intros h; destruct h; reflexivity.
Qed.

(** [get_macro_line] on a line with one [%*]: the arguments of the invocation
    take its place. *)
Lemma get_macro_line_all_args (s : State) (w sp a pre post : list WCHAR)
  (stk : list Define) :
  macro_stk s = mkDefine (w ++ sp ++ a) [pre ++ [VARIABLE; 42] ++ post] :: stk ->
  w <> [] ->
  forallb (fun c => negb (isblank c) && negb (c =? DQUOTE)) w = true ->
  forallb isblank sp = true ->
  (sp = [] -> a = []) ->
  (a = [] \/ isblank (hd 0 a) = false) ->
  forallb plain pre = true -> forallb plain post = true -> forallb plain a = true ->
  Z.of_nat (length pre) + 2 + Z.of_nat (length post) <= max s ->
  Z.of_nat (length pre) + Z.of_nat (length a) + Z.of_nat (length post) <= max s ->
  max s < 2 ^ 32 ->
  Z.of_nat (length (w ++ sp ++ a)) < 2 ^ 32 ->
  exists s', get_macro_line s = Some s'
             /\ line s' = pre ++ a ++ post /\ macro_stk s' = stk.
Proof.
  intros Hstk Hw Hwp Hsp Hspa Ha Hpre Hpost Hpa Hfit1 Hfit2 Hmax Hinv.
  unfold get_macro_line. rewrite Hstk. cbv zeta.
  simpl lines. simpl hd. simpl tl. simpl name.
  set (inv := w ++ sp ++ a) in *.
  match goal with |- context [copy_chars ?b _ s] => set (body := b) end.
  set (p := Z.of_nat (length pre)).
  assert (Hbl : Z.of_nat (length body) = p + 2 + Z.of_nat (length post)).
  { unfold body, p. rewrite !length_app. simpl length. lia. }
  set (sc := copy_chars body (Z.of_nat (length body)) s).
  assert (Lc : line sc = body).
  { unfold sc. rewrite copy_chars_line.
    destruct (Z.gtb_spec (Z.of_nat (length body)) (max s)); [lia|].
    rewrite sub_0, Nat2Z.id. apply firstn_all. }
  assert (Mc : max sc = max s) by apply copy_chars_max.
  assert (Hlc : len sc = p + 2 + Z.of_nat (length post)) by (unfold len; rewrite Lc; exact Hbl).
  (* the scan passes the text before the variable *)
  replace (S (Z.to_nat (len sc + max sc)))
    with (length pre + S (Z.to_nat (len sc + max sc) - length pre))%nat by lia.
  rewrite macro_args_run_plain; [ | lia | lia | ].
  2:{ intros i Hi. rewrite Lc. rewrite Z.add_0_l.
      apply (plain_run body 0 (length pre)); [lia | lia | | lia].
      unfold body. rewrite sub_0, Nat2Z.id, firstn_app_exact. exact Hpre. }
  rewrite Z.add_0_l. fold p.
  set (f := (Z.to_nat (len sc + max sc) - length pre)%nat).
  cbn [macro_args_loop].
  destruct (Z.ltb_spec p (len sc)) as [_|Hge]; [|lia]. simpl negb. cbv iota.
  assert (Hc0 : char_at (line sc) p = VARIABLE).
  { rewrite Lc. unfold body, p. apply char_at_app_mid. }
  assert (Hc1 : char_at (line sc) (p + 1) = 42).
  { rewrite Lc. unfold body, p.
    change (pre ++ VARIABLE :: 42 :: post) with (pre ++ [VARIABLE] ++ 42 :: post).
    rewrite app_assoc.
    replace (Z.of_nat (length pre) + 1) with (Z.of_nat (length (pre ++ [VARIABLE])))
      by (rewrite length_app; simpl length; lia).
    apply char_at_app_mid. }
  rewrite Hc0, Hc1.
  change (VARIABLE =? ESCAPE) with false. change (VARIABLE =? VARIABLE) with true.
  destruct (Z.ltb_spec (p + 1) (len sc)) as [_|Hge]; [|lia].
  change (42 =? 42) with true. simpl andb. simpl orb. cbv iota.
  change (Z.to_nat 2) with 2%nat.
  (* the arguments *)
  destruct (get_arg_second (set_line inv sc) w sp a eq_refl Hw Hwp Hsp Hspa Ha)
    as (cnt & sa & Ga).
  { unfold len. exact Hinv. }
  rewrite Ga. unfold bind. cbv beta iota.
  set (s1 := set_found_quote (found_quote sa) sc).
  change (line s1) with (line sc).
  rewrite Hc1. change (42 =? 42) with true. cbv iota.
  set (arg := Z.of_nat (length w) + Z.of_nat (length sp)).
  assert (Hargs : skipn (Z.to_nat arg) inv = a).
  { unfold arg, inv. replace (Z.to_nat (Z.of_nat (length w) + Z.of_nat (length sp)))
      with (length w + length sp)%nat by lia.
    rewrite skipn_app_plus. apply skipn_app_exact. }
  assert (Hcnt : dw (Z.of_nat (length inv) - arg) = Z.of_nat (length a)).
  { rewrite dw_small; unfold arg, inv in *; rewrite !length_app in *; lia. }
  rewrite Hargs, Hcnt.
  replace (p + 1 - 2 + 1) with (Z.of_nat (length pre)) by (unfold p; lia).
  change 2 with (Z.of_nat (length [VARIABLE; 42])) at 1.
  pose proof (replace_chars_token s1 pre [VARIABLE; 42] post a) as Hrep.
  specialize (Hrep Lc ltac:(change (max s1) with (max sc); rewrite Mc; lia)
                   ltac:(change (max s1) with (max sc); rewrite Mc; lia)
                   ltac:(change (len s1) with (len sc); lia)).
  set (sr := replace_chars (Z.of_nat (length pre)) (Z.of_nat (length [VARIABLE; 42])) a
               (Z.of_nat (length a)) s1) in *.
  assert (Mr : max sr = max s).
  { unfold sr. rewrite replace_chars_max. exact Mc. }
  assert (Hlr : len sr = p + Z.of_nat (length a) + Z.of_nat (length post)).
  { unfold len. rewrite Hrep, !length_app. unfold p. lia. }
  (* the scan passes what is left *)
  rewrite macro_args_loop_plain.
  - destruct (un_escape_spec (Some ARG_ESCAPE) sr) as (su & Eu & Ru); [lia|].
    rewrite Eu.
    rewrite Hrep in Ru.
    assert (Hall : forallb plain (pre ++ a ++ post) = true).
    { rewrite !forallb_app, Hpre, Hpa, Hpost. reflexivity. }
    pose proof (removes_escapes_none _ _ Ru (plain_no_escape _ Hall)) as Lu.
    eexists. split; [reflexivity|]. split; [exact Lu | reflexivity].
  - lia.
  - unfold f. lia.
  - unfold f. lia.
  - rewrite Hrep. apply forallb_skipn.
    rewrite !forallb_app, Hpre, Hpa, Hpost. reflexivity.
Qed.

(** X9.  A macro of one line that holds [%*] once, and no other escape or
    variable character, called with arguments: [expand_macro] replaces the
    line by the line of the macro with everything behind the first word of
    the invocation, and the blanks that follow it, in place of [%*]; the macro
    stack is what it was. *)
Theorem macro_all_args (st : State) (w sp a pre post : list WCHAR) (d : Define) :
  line st = w ++ sp ++ a ->
  w <> [] ->
  forallb (fun c => negb (isblank c) && negb (c =? DQUOTE)) w = true ->
  forallb isblank sp = true ->
  (sp = [] -> a = []) ->
  (a = [] \/ isblank (hd 0 a) = false) ->
  lookup_define (mac_head st) (name_at st 0) = Some d ->
  lines d = [pre ++ [VARIABLE; 42] ++ post] ->
  forallb plain pre = true -> forallb plain post = true -> forallb plain a = true ->
  Z.of_nat (length pre) + 2 + Z.of_nat (length post) <= max st ->
  Z.of_nat (length pre) + Z.of_nat (length a) + Z.of_nat (length post) <= max st ->
  max st < 2 ^ 32 -> len st < 2 ^ 32 ->
  hd true (heap st) = true ->
  exists s1, expand_macro st = Some (true, s1)
             /\ line s1 = pre ++ a ++ post
             /\ macro_stk s1 = macro_stk st.
Proof.
  intros Hline Hw Hwp Hsp Hspa Ha Hlook Hlines Hpre Hpost Hpa Hfit1 Hfit2 Hmax Hlen Hheap.
  assert (Hsb : skip_blank st 0 = 0).
  { unfold skip_blank. change (Z.to_nat 0) with O. rewrite skipn_O, Hline.
    destruct w as [|c w]; [contradiction|]. simpl in Hwp |- *.
    apply andb_true_iff in Hwp. destruct Hwp as [Hc0 _].
    apply andb_true_iff in Hc0. destruct Hc0 as [Hc0 _].
    apply negb_true_iff in Hc0. rewrite Hc0. reflexivity. }
  destruct (expand_macro_push st d Hsb Hlook Hheap) as (s2 & E & S2 & M2 & _).
  rewrite Hlines, Hline in S2.
  destruct (get_macro_line_all_args s2 w sp a pre post (macro_stk st) S2 Hw Hwp Hsp
              Hspa Ha Hpre Hpost Hpa)
    as (s3 & E3 & L3 & S3);
    [rewrite M2; exact Hfit1 | rewrite M2; exact Hfit2 | rewrite M2; exact Hmax
    | unfold len in Hlen; rewrite Hline in Hlen; exact Hlen |].
  exists s3. split; [|split; [exact L3 | exact S3]].
  rewrite E, E3. reflexivity.
Qed.

(** The macro [ll], defined as [dir %* /w], called as [LL  a b]. *)
Lemma macro_all_args_witness :
  let st := set_line (wstr "LL  a b")
              (set_mac_head [mkDefine (wstr "ll") [wstr "dir %* /w"]]
                 (initial default_option 100)) in
  exists s1, expand_macro st = Some (true, s1) /\ line s1 = wstr "dir a b /w".
Proof.
  intros st.
  destruct (macro_all_args st (wstr "LL") (wstr "  ") (wstr "a b") (wstr "dir ")
              (wstr " /w") (mkDefine (wstr "ll") [wstr "dir %* /w"]))
    as (s1 & E & L & _);
    [reflexivity | discriminate | reflexivity | reflexivity | discriminate
    | right; reflexivity | reflexivity | reflexivity | reflexivity | reflexivity
    | reflexivity | vm_compute; discriminate | vm_compute; discriminate
    | vm_compute; reflexivity | vm_compute; reflexivity | reflexivity |].
  exists s1. split; [exact E | exact L].
Defined.

(** ** Deleting definitions *)

Lemma take_drop_while (p : WCHAR -> bool) (l : list WCHAR) :
  take_while p l ++ drop_while p l = l.
Proof.
  induction l as [|c t IH]; [reflexivity|]. simpl.
  destruct (p c); [simpl; rewrite IH|]; reflexivity.
Qed.

Lemma skip_while_take (p : WCHAR -> bool) (l : list WCHAR) :
  forall pos, skip_while p l pos = pos + Z.of_nat (length (take_while p l)).
Proof.
  induction l as [|c t IH]; intros pos; simpl; [lia|].
  destruct (p c); [rewrite IH; simpl length|simpl]; lia.
Qed.

Lemma skipn_skip_while (p : WCHAR -> bool) (L : list WCHAR) (pos : Z) :
  0 <= pos ->
  skipn (Z.to_nat (skip_while p (skipn (Z.to_nat pos) L) pos)) L
  = drop_while p (skipn (Z.to_nat pos) L).
Proof.
  intros Hp. rewrite skip_while_take.
  set (l := skipn (Z.to_nat pos) L).
  replace (Z.to_nat (pos + Z.of_nat (length (take_while p l))))
    with (length (take_while p l) + Z.to_nat pos)%nat by lia.
  rewrite <- skipn_skipn. fold l.
  rewrite <- (take_drop_while p l) at 2. apply skipn_app_exact.
Qed.

Lemma drop_while_length (p : WCHAR -> bool) (l : list WCHAR) :
  (length (drop_while p l) <= length l)%nat.
Proof.
  induction l as [|c t IH]; simpl; [lia|]. destruct (p c); simpl; lia.
Qed.

Lemma words_step_shorter (c : WCHAR) (t : list WCHAR) :
  (length (drop_while isblank (drop_while (fun c => negb (isblank c)) (c :: t)))
   <= length t)%nat.
Proof.
  simpl. destruct (isblank c) eqn:E; simpl.
  - rewrite E. apply drop_while_length.
  - etransitivity; [apply drop_while_length | apply drop_while_length].
Qed.

Lemma blank_words_fuel (n : nat) :
  forall (m : nat) (l : list WCHAR),
    (length l <= n)%nat -> (length l <= m)%nat -> blank_words n l = blank_words m l.
Proof.
  induction n as [|n IH]; intros m l Hn Hm.
  - destruct l; [|simpl in Hn; lia]. destruct m; reflexivity.
  - destruct l as [|c t]; [destruct m; reflexivity|].
    destruct m as [|m]; [simpl in Hm; lia|].
    cbn [blank_words]. f_equal.
    pose proof (words_step_shorter c t) as Hs. simpl in Hn, Hm.
    apply IH; lia.
Qed.

(** The loop of [delete_define] takes the words of the line, one after the
    other, out of the list. *)
Lemma delete_define_loop_spec (h : Head) (L : list WCHAR) (fuel : nat) :
  forall pos st,
    line st = L ->
    NoDup (names (get_head h st)) ->
    0 <= pos -> (0 < fuel)%nat -> Z.of_nat (length L) - pos < Z.of_nat fuel ->
    exists st',
      delete_define_loop fuel h pos st = Some st'
      /\ line st' = L
      /\ NoDup (names (get_head h st'))
      /\ (forall c, In c (names (get_head h st'))
                    <-> In c (names (get_head h st))
                        /\ ~ In c (map canon (blank_words fuel (skipn (Z.to_nat pos) L))))
      /\ (forall h', h' <> h -> get_head h' st' = get_head h' st).
Proof.
  induction fuel as [|f IH]; intros pos st HL Hnd Hp H0 Hf; [lia|].
  cbn [delete_define_loop].
  destruct (Z.ltb_spec pos (len st)) as [Hlt|Hge]; simpl negb; cbv iota.
  2:{ exists st. split; [reflexivity|]. split; [exact HL|]. split; [exact Hnd|].
      split; [|reflexivity].
      unfold len in Hge. rewrite HL in Hge. rewrite skipn_all2 by lia.
      simpl. tauto. }
  unfold len in Hlt. rewrite HL in Hlt.
  set (l := skipn (Z.to_nat pos) L).
  set (nm := take_while (fun c => negb (isblank c)) l).
  assert (Hend : skip_nonblank st pos = pos + Z.of_nat (length nm)).
  { unfold skip_nonblank. rewrite HL. apply skip_while_take. }
  assert (Hk : skipn (Z.to_nat pos) (line st)
               = nm ++ drop_while (fun c => negb (isblank c)) l).
  { rewrite HL. symmetry. apply take_drop_while. }
  rewrite Hend. replace (pos + Z.of_nat (length nm) - pos) with (Z.of_nat (length nm)) by lia.
  pose proof (find_del_spec h pos nm _ st Hk) as Hd. cbv zeta in Hd.
  destruct (find_define h pos (Z.of_nat (length nm)) st) as [dd st1].
  simpl fst in Hd. simpl snd in Hd.
  set (st2 := if dd then del_define h st1 else st1) in *.
  destruct Hd as (L2 & _ & O2 & N2).
  assert (HL2 : line st2 = L) by (rewrite L2; exact HL).
  assert (Hn2 : NoDup (names (get_head h st2))
                /\ forall c, In c (names (get_head h st2))
                             <-> In c (names (get_head h st)) /\ c <> canon nm).
  { destruct N2 as [Pm|[Eq Hnin]].
    - pose proof (Permutation_NoDup Pm Hnd) as Hnd'.
      inversion Hnd' as [|? ? Hx Hnd2]; subst. split; [exact Hnd2|].
      intros c. split.
      + intros Hin. split.
        * apply (Permutation_in _ (Permutation_sym Pm)). right. exact Hin.
        * intros ->. contradiction.
      + intros [Hin Hne]. apply (Permutation_in _ Pm) in Hin.
        destruct Hin as [E|Hin]; [symmetry in E; contradiction | exact Hin].
    - rewrite Eq. split; [exact Hnd|]. intros c. split.
      + intros Hin. split; [exact Hin|]. intros ->. contradiction.
      + tauto. }
  destruct Hn2 as [Hnd2 Hin2].
  set (pos' := skip_blank st2 (pos + Z.of_nat (length nm))).
  assert (Hl : exists c t, l = c :: t).
  { destruct l as [|c t] eqn:El; [|eauto].
    exfalso. assert (Hlen : length l = O) by (rewrite El; reflexivity).
    unfold l in Hlen. rewrite length_skipn in Hlen. lia. }
  destruct Hl as (c & t & El).
  assert (Hskip : skipn (Z.to_nat (pos + Z.of_nat (length nm))) L
                  = drop_while (fun c => negb (isblank c)) l).
  { pose proof (skipn_skip_while (fun c => negb (isblank c)) L pos Hp) as H.
    fold l in H. rewrite skip_while_take in H. exact H. }
  assert (Hpos' : skipn (Z.to_nat pos') L
                  = drop_while isblank (drop_while (fun c => negb (isblank c)) l)).
  { unfold pos', skip_blank. rewrite HL2.
    rewrite (skipn_skip_while isblank L) by lia. rewrite Hskip. reflexivity. }
  assert (Hadv : pos + 1 <= pos').
  { assert (Hlen : length (skipn (Z.to_nat pos') L) = (length L - Z.to_nat pos')%nat)
      by apply length_skipn.
    rewrite Hpos', El in Hlen.
    pose proof (words_step_shorter c t) as Hs.
    assert (Hlt' : Z.of_nat (length l) = Z.of_nat (length L) - pos).
    { unfold l. rewrite length_skipn. lia. }
    rewrite El in Hlt'. simpl length in Hlt'.
    assert (Hge' : pos + Z.of_nat (length nm) <= pos').
    { unfold pos', skip_blank. apply skip_while_bounds. }
    lia. }
  destruct (IH pos' st2 HL2 Hnd2 ltac:(lia) ltac:(lia) ltac:(lia))
    as (st' & E & L' & Nd' & In' & O').
  exists st'. split; [exact E|]. split; [exact L'|]. split; [exact Nd'|]. split.
  - intros x. rewrite In', Hin2. rewrite Hpos'.
    fold l. rewrite El at 2. cbn [blank_words]. rewrite <- El. fold nm.
    simpl map. simpl In. split.
    + intros [[H1 H2] H3]. split; [exact H1|]. intros [H|H]; [symmetry in H|]; contradiction.
    + intros [H1 H2]. split; [split; [exact H1|]|].
      * intros ->. apply H2. left. reflexivity.
      * intros H. apply H2. right. exact H.
  - intros h' Hh. rewrite O' by exact Hh. apply O2. exact Hh.
Qed.

(** X10.  [delete_define] (the commands [dels] and [delm]) comes to an end
    and takes out of the list exactly the definitions whose names are words
    of the line from [pos] on, compared as [find_define] compares names
    (length and characters, ignoring case); the other definitions, the other
    lists and the line stay. *)
Theorem delete_define_spec (h : Head) (pos : Z) (st : State) :
  NoDup (names (get_head h st)) ->
  0 <= pos ->
  exists st',
    delete_define h pos st = Some st'
    /\ line st' = line st
    /\ NoDup (names (get_head h st'))
    /\ (forall c, In c (names (get_head h st'))
                  <-> In c (names (get_head h st))
                      /\ ~ In c (map canon (words_of (skipn (Z.to_nat pos) (line st)))))
    /\ (forall h', h' <> h -> get_head h' st' = get_head h' st).
Proof.
  intros Hnd Hp. unfold delete_define.
  destruct (delete_define_loop_spec h (line st) (S (length (line st))) pos st
              eq_refl Hnd Hp ltac:(lia) ltac:(lia))
    as (st' & E & L & Nd & Hin & O).
  exists st'. split; [exact E|]. split; [exact L|]. split; [exact Nd|].
  split; [|exact O].
  intros c. rewrite Hin. unfold words_of.
  rewrite (blank_words_fuel (S (length (line st)))
             (length (skipn (Z.to_nat pos) (line st))));
    [tauto | rewrite length_skipn; lia | lia].
Qed.

(** Three symbols, of which [dels B  zz a] deletes two. *)
Lemma delete_define_spec_witness :
  let st := set_line (wstr "dels B  zz a")
              (set_sym_head [mkDefine (wstr "a") [wstr "1"];
                             mkDefine (wstr "b") [wstr "2"];
                             mkDefine (wstr "c") [wstr "3"]]
                 (initial default_option 100)) in
  exists st', execute_dels 5 st = Some st'
              /\ sym_head st' = [mkDefine (wstr "c") [wstr "3"]]
              /\ NoDup (names (sym_head st')).
Proof.
  intros st.
  destruct (delete_define_spec SymHead 5 st) as (st' & E & _ & Nd & _);
    [vm_compute; repeat constructor; intros H; simpl in H; intuition discriminate
    | lia |].
  exists st'. split; [exact E|]. split; [|exact Nd].
  assert (E' : execute_dels 5 st
               = Some (set_sym_head [mkDefine (wstr "c") [wstr "3"]] st))
    by (vm_compute; reflexivity).
  unfold execute_dels in E'. rewrite E in E'. injection E' as ->. reflexivity.
Defined.

(** ** Brace expansion of a list of items *)

Lemma brace_plain_spec (c : WCHAR) :
  brace_plain c = true -> c <> DQUOTE /\ c <> ESCAPE /\ c <> LBRACE.
Proof.
  unfold brace_plain. rewrite !andb_true_iff, !negb_true_iff, !Z.eqb_neq. tauto.
Qed.

Lemma char_at_seg (a seg b : list WCHAR) :
  match seg with
  | [] => True
  | c :: _ => char_at (a ++ seg ++ b) (Z.of_nat (length a)) = c
  end.
Proof. destruct seg as [|c seg]; [exact I|]. apply char_at_app_mid. Qed.

Lemma seg_shift (a : list WCHAR) (c : WCHAR) (seg b : list WCHAR) :
  a ++ (c :: seg) ++ b = (a ++ [c]) ++ seg ++ b.
Proof. rewrite <- app_assoc. reflexivity. Qed.

Lemma length_snoc (a : list WCHAR) (c : WCHAR) :
  Z.of_nat (length (a ++ [c])) = Z.of_nat (length a) + 1.
Proof. rewrite length_app. simpl. lia. Qed.

(** The first loop over characters that are no quote, escape or brace. *)
Lemma find_open_run (L : list WCHAR) (seg : list WCHAR) :
  forall (a b : list WCHAR) (f : nat) (term : WCHAR) (prepos : Z),
    L = a ++ seg ++ b ->
    forallb brace_plain seg = true ->
    exists term' prepos',
      find_open (length seg + f) L (Z.of_nat (length a)) false term prepos
      = find_open f L (Z.of_nat (length a) + Z.of_nat (length seg)) false term' prepos'
      /\ (forallb pend_char seg = true -> term' = term /\ prepos' = prepos).
Proof.
  induction seg as [|c seg IH]; intros a b f term prepos HL Hpl.
  - exists term, prepos. simpl. rewrite Z.add_0_r. split; [reflexivity | tauto].
  - simpl in Hpl. apply andb_true_iff in Hpl. destruct Hpl as [Hc Hpl].
    destruct (brace_plain_spec c Hc) as (Hq & He & Hb).
    assert (Hch : char_at L (Z.of_nat (length a)) = c) by (rewrite HL; apply char_at_app_mid).
    assert (Hlt : Z.of_nat (length a) < Z.of_nat (length L)).
    { rewrite HL, !length_app. simpl length. lia. }
    change (length (c :: seg) + f)%nat with (S (length seg + f)).
    cbn [find_open].
    rewrite (proj2 (Z.ltb_lt _ _) Hlt). simpl negb. cbv iota.
    rewrite is_quote_at_other by (rewrite Hch; exact Hq).
    rewrite Hch.
    rewrite (proj2 (Z.eqb_neq _ _) He), (proj2 (Z.eqb_neq _ _) Hb).
    simpl negb. cbv iota.
    rewrite seg_shift in HL.
    assert (Hpos : Z.of_nat (length a) + 1 = Z.of_nat (length (a ++ [c])))
      by (rewrite length_snoc; reflexivity).
    assert (Hfin : Z.of_nat (length a) + Z.of_nat (length (c :: seg))
                   = Z.of_nat (length (a ++ [c])) + Z.of_nat (length seg))
      by (rewrite length_snoc; simpl length; lia).
    rewrite Hfin.
    destruct (wcschr BRACE_TERM c) eqn:Et; [|destruct (wcschr BRACE_STOP c) eqn:Es];
      rewrite Hpos;
      [ destruct (IH (a ++ [c]) b f c (Z.of_nat (length (a ++ [c]))) HL Hpl)
          as (t' & p' & E & _)
      | destruct (IH (a ++ [c]) b f term (Z.of_nat (length (a ++ [c]))) HL Hpl)
          as (t' & p' & E & _)
      | destruct (IH (a ++ [c]) b f term prepos HL Hpl) as (t' & p' & E & Hk) ];
      exists t', p'; (split; [exact E|]); intros Hpe; simpl in Hpe;
      apply andb_true_iff in Hpe; destruct Hpe as [Hpc Hpe];
      unfold pend_char in Hpc; rewrite ?Et, ?Es, ?andb_false_r in Hpc;
      try discriminate.
    apply Hk. exact Hpe.
Qed.

(** The first loop of [brace_expansion] stops at the brace, with the prepend
    behind the last blank. *)
Lemma find_open_group (L head pre rest : list WCHAR) (f : nat) :
  L = head ++ pre ++ LBRACE :: rest ->
  forallb brace_plain head = true ->
  (head = [] \/ exists h', head = h' ++ [SPACE]) ->
  forallb pend_char pre = true ->
  find_open (length head + (length pre + S f)) L 0 false SPACE 0
  = Some (Z.of_nat (length head) + Z.of_nat (length pre), false, SPACE,
          Z.of_nat (length head)).
Proof.
  intros HL Hhead Hend Hpre.
  assert (Hprepl : forallb brace_plain pre = true).
  { rewrite forallb_forall in *. intros c Hc. specialize (Hpre c Hc).
    unfold pend_char in Hpre. rewrite !andb_true_iff in Hpre. apply Hpre. }
  (* the state behind the head *)
  assert (Hh : find_open (length head + (length pre + S f)) L 0 false SPACE 0
               = find_open (length pre + S f) L (Z.of_nat (length head)) false SPACE
                   (Z.of_nat (length head))).
  { destruct Hend as [->|(h' & ->)]; [reflexivity|].
    rewrite length_app. simpl length.
    replace (length h' + 1 + (length pre + S f))%nat
      with (length h' + S (length pre + S f))%nat by lia.
    rewrite forallb_app in Hhead. apply andb_true_iff in Hhead.
    destruct Hhead as [Hh' _].
    assert (HL' : L = [] ++ h' ++ ([SPACE] ++ pre ++ LBRACE :: rest)).
    { rewrite HL. simpl. rewrite <- !app_assoc. reflexivity. }
    destruct (find_open_run L h' [] _ (S (length pre + S f)) SPACE 0 HL' Hh')
      as (t' & p' & E & _).
    simpl length in E. change (Z.of_nat 0) with 0 in E. rewrite Z.add_0_l in E.
    rewrite E. cbn [find_open].
    assert (Hlt : Z.of_nat (length h') < Z.of_nat (length L)).
    { rewrite HL', !length_app. simpl length. lia. }
    rewrite (proj2 (Z.ltb_lt _ _) Hlt). simpl negb. cbv iota.
    assert (Hch : char_at L (Z.of_nat (length h')) = SPACE).
    { rewrite HL'. simpl app. apply char_at_app_mid. }
    rewrite is_quote_at_other by (rewrite Hch; discriminate).
    rewrite Hch. change (SPACE =? ESCAPE) with false. change (SPACE =? LBRACE) with false.
    simpl negb. cbv iota.
    change (wcschr BRACE_TERM SPACE) with true. cbv iota.
    replace (Z.of_nat (length h' + 1)) with (Z.of_nat (length h') + 1) by lia.
    reflexivity. }
  rewrite Hh.
  destruct (find_open_run L pre head (LBRACE :: rest) (S f) SPACE
              (Z.of_nat (length head)) HL Hprepl) as (t' & p' & E & Hk).
  destruct (Hk Hpre) as [-> ->]. rewrite E.
  cbn [find_open].
  assert (Hlt : Z.of_nat (length head) + Z.of_nat (length pre) < Z.of_nat (length L)).
  { rewrite HL, !length_app. simpl length. lia. }
  rewrite (proj2 (Z.ltb_lt _ _) Hlt). simpl negb. cbv iota.
  assert (Hch : char_at L (Z.of_nat (length head) + Z.of_nat (length pre)) = LBRACE).
  { rewrite HL, app_assoc.
    replace (Z.of_nat (length head) + Z.of_nat (length pre))
      with (Z.of_nat (length (head ++ pre))) by (rewrite length_app; lia).
    apply char_at_app_mid. }
  rewrite is_quote_at_other by (rewrite Hch; discriminate).
  rewrite Hch. change (LBRACE =? ESCAPE) with false. change (LBRACE =? LBRACE) with true.
  reflexivity.
Qed.

Lemma item_char_spec (c : WCHAR) :
  item_char c = true ->
  c <> DQUOTE /\ c <> ESCAPE /\ c <> LBRACE /\ c <> RBRACE /\ c <> COMMA.
Proof.
  unfold item_char, brace_plain.
  rewrite !andb_true_iff, !negb_true_iff, !Z.eqb_neq. tauto.
Qed.

(** The second loop over the characters of an item. *)
Lemma find_close_item (L : list WCHAR) (quote : bool) (seg : list WCHAR) :
  forall (a b : list WCHAR) (f : nat) (count : Z) (comma : bool),
    L = a ++ seg ++ b ->
    forallb item_char seg = true ->
    find_close (length seg + f) L quote (Z.of_nat (length a)) false count comma
    = find_close f L quote (Z.of_nat (length a) + Z.of_nat (length seg)) false count comma.
Proof.
  induction seg as [|c seg IH]; intros a b f count comma HL Hpl.
  - simpl. rewrite Z.add_0_r. reflexivity.
  - simpl in Hpl. apply andb_true_iff in Hpl. destruct Hpl as [Hc Hpl].
    destruct (item_char_spec c Hc) as (Hq & He & Hb & Hr & Hm).
    assert (Hch : char_at L (Z.of_nat (length a)) = c) by (rewrite HL; apply char_at_app_mid).
    assert (Hlt : Z.of_nat (length a) < Z.of_nat (length L)).
    { rewrite HL, !length_app. simpl length. lia. }
    change (length (c :: seg) + f)%nat with (S (length seg + f)).
    cbn [find_close].
    rewrite (proj2 (Z.ltb_lt _ _) Hlt). simpl negb. cbv iota.
    rewrite is_quote_at_other by (rewrite Hch; exact Hq).
    rewrite Hch.
    rewrite (proj2 (Z.eqb_neq _ _) He), (proj2 (Z.eqb_neq _ _) Hb),
      (proj2 (Z.eqb_neq _ _) Hr), (proj2 (Z.eqb_neq _ _) Hm).
    simpl andb. cbv iota.
    rewrite seg_shift in HL.
    rewrite <- (length_snoc a c).
    rewrite (IH (a ++ [c]) b f count comma HL Hpl).
    f_equal. rewrite length_snoc. simpl length. lia.
Qed.

(** The second loop over the items of a group. *)
Lemma find_close_items (L : list WCHAR) (quote : bool) (items : list (list WCHAR)) :
  forall (a b : list WCHAR) (f : nat) (comma : bool),
    L = a ++ join COMMA items ++ RBRACE :: b ->
    Forall (fun i => forallb item_char i = true) items ->
    items <> [] ->
    find_close (length (join COMMA items) + S f) L quote (Z.of_nat (length a)) false 1 comma
    = Some (Some (Z.of_nat (length a) + Z.of_nat (length (join COMMA items)), false, 0,
                  match items with _ :: _ :: _ => true | _ => comma end)).
Proof.
  induction items as [|i items IH]; intros a b f comma HL Hall Hne; [contradiction|].
  inversion Hall as [|? ? Hi Hall']; subst x l.
  destruct items as [|i2 items].
  - (* the last item, and the closing brace *)
    simpl join in *.
    rewrite (find_close_item L quote i a (RBRACE :: b) (S f) 1 comma HL Hi).
    cbn [find_close].
    assert (Hlt : Z.of_nat (length a) + Z.of_nat (length i) < Z.of_nat (length L)).
    { rewrite HL, !length_app. simpl length. lia. }
    rewrite (proj2 (Z.ltb_lt _ _) Hlt). simpl negb. cbv iota.
    assert (Hch : char_at L (Z.of_nat (length a) + Z.of_nat (length i)) = RBRACE).
    { rewrite HL, app_assoc.
      replace (Z.of_nat (length a) + Z.of_nat (length i))
        with (Z.of_nat (length (a ++ i))) by (rewrite length_app; lia).
      apply char_at_app_mid. }
    rewrite is_quote_at_other by (rewrite Hch; discriminate).
    rewrite Hch. reflexivity.
  - (* an item and a comma *)
    change (join COMMA (i :: i2 :: items)) with (i ++ COMMA :: join COMMA (i2 :: items)) in *.
    set (J := join COMMA (i2 :: items)) in *.
    rewrite length_app. simpl length.
    replace (length i + S (length J) + S f)%nat
      with (length i + S (length J + S f))%nat by lia.
    assert (HL1 : L = a ++ i ++ (COMMA :: J ++ RBRACE :: b)).
    { rewrite HL. rewrite <- app_assoc. reflexivity. }
    rewrite (find_close_item L quote i a _ _ 1 comma HL1 Hi).
    cbn [find_close].
    assert (Hlt : Z.of_nat (length a) + Z.of_nat (length i) < Z.of_nat (length L)).
    { rewrite HL1, !length_app. simpl length. lia. }
    rewrite (proj2 (Z.ltb_lt _ _) Hlt). simpl negb. cbv iota.
    assert (Hch : char_at L (Z.of_nat (length a) + Z.of_nat (length i)) = COMMA).
    { rewrite HL1, app_assoc.
      replace (Z.of_nat (length a) + Z.of_nat (length i))
        with (Z.of_nat (length (a ++ i))) by (rewrite length_app; lia).
      apply char_at_app_mid. }
    rewrite is_quote_at_other by (rewrite Hch; discriminate).
    rewrite Hch.
    change (COMMA =? ESCAPE) with false. change (COMMA =? LBRACE) with false.
    change (COMMA =? RBRACE) with false. change (COMMA =? COMMA) with true.
    change (1 =? 1) with true. simpl andb. cbv iota.
    assert (HL2 : L = (a ++ i ++ [COMMA]) ++ J ++ RBRACE :: b).
    { rewrite HL1. rewrite <- !app_assoc. reflexivity. }
    assert (Hpos : Z.of_nat (length a) + Z.of_nat (length i) + 1
                   = Z.of_nat (length (a ++ i ++ [COMMA]))).
    { rewrite !length_app. simpl length. lia. }
    rewrite Hpos.
    rewrite (IH (a ++ i ++ [COMMA]) b f true HL2 Hall' ltac:(discriminate)).
    f_equal. f_equal. f_equal; [|destruct items; reflexivity].
    f_equal. f_equal. rewrite !length_app. simpl length. lia.
Qed.

Lemma term_char_plain (t : WCHAR) :
  wcschr BRACE_TERM t || wcschr BRACE_STOP t = true -> brace_plain t = true.
Proof.
  unfold wcschr, BRACE_TERM, BRACE_STOP, brace_plain. simpl existsb.
  rewrite !orb_true_iff, !Z.eqb_eq. intros H.
  repeat match goal with H : _ \/ _ |- _ => destruct H as [H|H] end;
    try discriminate; subst t; reflexivity.
Qed.

Lemma pend_char_spec (c : WCHAR) :
  pend_char c = true ->
  c <> DQUOTE /\ c <> ESCAPE /\ c <> LBRACE
  /\ wcschr BRACE_TERM c = false /\ wcschr BRACE_STOP c = false.
Proof.
  unfold pend_char. rewrite !andb_true_iff, !negb_true_iff.
  intros [[Hp Ht] Hs]. destruct (brace_plain_spec c Hp) as (H1 & H2 & H3). tauto.
Qed.

(** The third loop over the characters of the postpend. *)
Lemma find_postpend_run (L : list WCHAR) (seg : list WCHAR) :
  forall (a b : list WCHAR) (f : nat) (term : WCHAR),
    L = a ++ seg ++ b ->
    forallb pend_char seg = true ->
    find_postpend (length seg + f) L (Z.of_nat (length a)) 0 false false term
    = find_postpend f L (Z.of_nat (length a) + Z.of_nat (length seg)) 0 false false term.
Proof.
  induction seg as [|c seg IH]; intros a b f term HL Hpl.
  - simpl. rewrite Z.add_0_r. reflexivity.
  - simpl in Hpl. apply andb_true_iff in Hpl. destruct Hpl as [Hc Hpl].
    destruct (pend_char_spec c Hc) as (Hq & He & Hb & Ht & Hs).
    assert (Hch : char_at L (Z.of_nat (length a)) = c) by (rewrite HL; apply char_at_app_mid).
    assert (Hlt : Z.of_nat (length a) < Z.of_nat (length L)).
    { rewrite HL, !length_app. simpl length. lia. }
    change (length (c :: seg) + f)%nat with (S (length seg + f)).
    cbn [find_postpend].
    rewrite (proj2 (Z.ltb_lt _ _) Hlt). simpl negb. cbv iota.
    change (0 =? 0) with true. simpl negb. cbv iota.
    rewrite is_quote_at_other by (rewrite Hch; exact Hq).
    rewrite Hch.
    rewrite (proj2 (Z.eqb_neq _ _) He), (proj2 (Z.eqb_neq _ _) Hb), Ht, Hs.
    simpl negb. cbv iota.
    rewrite seg_shift in HL.
    rewrite <- (length_snoc a c).
    rewrite (IH (a ++ [c]) b f term HL Hpl).
    f_equal. rewrite length_snoc. simpl length. lia.
Qed.

(** The separator that the expansion puts between the items: the character
    that ends the postpend when it is one of the separators, else a space. *)
Lemma find_postpend_end (L : list WCHAR) (a post tail : list WCHAR) (f : nat) :
  L = a ++ post ++ tail ->
  forallb pend_char post = true ->
  match tail with
  | [] => True
  | t :: _ => wcschr BRACE_TERM t || wcschr BRACE_STOP t = true
  end ->
  find_postpend (length post + S f) L (Z.of_nat (length a)) 0 false false SPACE
  = Some (Z.of_nat (length a) + Z.of_nat (length post), 0, false,
          brace_sep tail).
Proof.
  intros HL Hpost Htail.
  rewrite (find_postpend_run L post a tail (S f) SPACE HL Hpost).
  cbn [find_postpend].
  unfold brace_sep. destruct tail as [|t tail].
  - rewrite (proj2 (Z.ltb_ge _ _)); [reflexivity|].
    rewrite HL, !length_app. simpl length. lia.
  - assert (Hlt : Z.of_nat (length a) + Z.of_nat (length post) < Z.of_nat (length L)).
    { rewrite HL, !length_app. simpl length. lia. }
    rewrite (proj2 (Z.ltb_lt _ _) Hlt). simpl negb. cbv iota.
    change (0 =? 0) with true. simpl negb. cbv iota.
    assert (Hch : char_at L (Z.of_nat (length a) + Z.of_nat (length post)) = t).
    { rewrite HL, app_assoc.
      replace (Z.of_nat (length a) + Z.of_nat (length post))
        with (Z.of_nat (length (a ++ post))) by (rewrite length_app; lia).
      apply char_at_app_mid. }
    destruct (brace_plain_spec t (term_char_plain t Htail)) as (Hq & He & Hb).
    rewrite is_quote_at_other by (rewrite Hch; exact Hq).
    rewrite Hch.
    rewrite (proj2 (Z.eqb_neq _ _) He), (proj2 (Z.eqb_neq _ _) Hb).
    simpl negb. cbv iota.
    destruct (wcschr BRACE_TERM t) eqn:Et; [reflexivity|].
    simpl in Htail. rewrite Htail. reflexivity.
Qed.

Lemma insert_chars_exact (p : Z) (str : list WCHAR) (cnt : Z) (st : State) :
  0 <= p <= len st -> 0 <= cnt -> len st + cnt <= max st -> max st < 2 ^ 32 ->
  line (insert_chars p str cnt st)
  = firstn (Z.to_nat p) (line st) ++ firstn (Z.to_nat cnt) str
    ++ skipn (Z.to_nat p) (line st).
Proof.
  intros Hp Hc Hfit Hmax. rewrite insert_chars_line.
  pose proof (len_nonneg st) as H0.
  rewrite (dw_small (len st + cnt)) by lia.
  destruct (Z.gtb_spec (len st + cnt) (max st)) as [Hgt|_]; [lia|].
  rewrite (dw_small (len st - p)) by lia.
  rewrite !sub_0. f_equal. f_equal.
  unfold sub, len. apply firstn_all2. rewrite length_skipn. lia.
Qed.

Lemma join_length_le (sep : list WCHAR) (ls : list (list WCHAR)) :
  (1 <= length sep)%nat ->
  (length (join COMMA ls) <= length (joinl sep ls))%nat.
Proof.
  intros Hs. induction ls as [|x t IH]; [simpl; lia|].
  destruct t as [|y t]; [simpl; lia|].
  change (join COMMA (x :: y :: t)) with (x ++ COMMA :: join COMMA (y :: t)).
  change (joinl sep (x :: y :: t)) with (x ++ sep ++ joinl sep (y :: t)).
  rewrite !length_app, length_cons. lia.
Qed.

(** The last loop over the characters of an item. *)
Lemma brace_items_item (pend : list WCHAR) (postlen prepos prelen : Z) (st : State)
  (seg : list WCHAR) :
  forall (a b : list WCHAR) (f : nat),
    line st = a ++ seg ++ b ->
    forallb item_char seg = true ->
    brace_items (length seg + f) pend postlen prepos prelen (Z.of_nat (length a)) 0 false st
    = brace_items f pend postlen prepos prelen
                  (Z.of_nat (length a) + Z.of_nat (length seg)) 0 false st.
Proof.
  induction seg as [|c seg IH]; intros a b f HL Hpl.
  - simpl. rewrite Z.add_0_r. reflexivity.
  - simpl in Hpl. apply andb_true_iff in Hpl. destruct Hpl as [Hc Hpl].
    destruct (item_char_spec c Hc) as (Hq & He & Hb & Hr & Hm).
    assert (Hch : char_at (line st) (Z.of_nat (length a)) = c)
      by (rewrite HL; apply char_at_app_mid).
    change (length (c :: seg) + f)%nat with (S (length seg + f)).
    cbn [brace_items].
    change (0 >=? 0) with true. simpl negb. cbv iota.
    unfold is_quote.
    rewrite is_quote_at_other by (rewrite Hch; exact Hq).
    rewrite Hch.
    rewrite (proj2 (Z.eqb_neq _ _) He), (proj2 (Z.eqb_neq _ _) Hb),
            (proj2 (Z.eqb_neq _ _) Hr), (proj2 (Z.eqb_neq _ _) Hm).
    simpl andb. cbv iota.
    rewrite seg_shift in HL.
    rewrite <- (length_snoc a c).
    rewrite (IH (a ++ [c]) b f HL Hpl).
    f_equal. rewrite length_snoc. simpl length. lia.
Qed.

(** The last loop over the items: every comma between two items becomes the
    postpend, the separator and the prepend. *)
Ltac norm_len := repeat first [rewrite length_app | progress cbn [length]].

Lemma brace_items_run (head pre pend : list WCHAR) (b : list WCHAR)
  (items : list (list WCHAR)) :
  forall (x : list WCHAR) (st : State) (f : nat),
    items <> [] ->
    Forall (fun i => forallb item_char i = true) items ->
    (1 <= length pend)%nat ->
    line st = (head ++ pre ++ x) ++ join COMMA items ++ RBRACE :: b ->
    Z.of_nat (length ((head ++ pre ++ x) ++ joinl (pend ++ pre) items ++ RBRACE :: b))
    <= max st ->
    max st < 2 ^ 32 ->
    exists st',
      brace_items (length (join COMMA items) + S (S f)) pend (Z.of_nat (length pend))
                  (Z.of_nat (length head)) (Z.of_nat (length pre))
                  (Z.of_nat (length (head ++ pre ++ x))) 0 false st
      = Some (Z.of_nat (length ((head ++ pre ++ x) ++ joinl (pend ++ pre) items)) + 1, st')
      /\ line st' = (head ++ pre ++ x) ++ joinl (pend ++ pre) items ++ RBRACE :: b
      /\ max st' = max st.
Proof.
  induction items as [|i items IH]; intros x st f Hne Hall Hpend HL Hfit Hmax;
    [contradiction|].
  inversion Hall as [|? ? Hi Hall']; subst.
  set (a := head ++ pre ++ x) in *.
  destruct items as [|i2 items].
  - (* the last item, and the closing brace *)
    simpl join in *. simpl joinl in *.
    rewrite (brace_items_item pend _ _ _ st i a (RBRACE :: b) (S (S f)) HL Hi).
    assert (Hch : char_at (line st) (Z.of_nat (length a) + Z.of_nat (length i)) = RBRACE).
    { rewrite HL, app_assoc.
      replace (Z.of_nat (length a) + Z.of_nat (length i))
        with (Z.of_nat (length (a ++ i))) by (rewrite length_app; lia).
      apply char_at_app_mid. }
    exists st. split; [|split; [exact HL|reflexivity]].
    cbn [brace_items].
    change (0 >=? 0) with true. simpl negb. cbv iota.
    unfold is_quote.
    rewrite is_quote_at_other by (rewrite Hch; discriminate).
    rewrite Hch.
    change (RBRACE =? ESCAPE) with false. change (RBRACE =? LBRACE) with false.
    change (RBRACE =? RBRACE) with true. cbv iota.
    change (0 - 1 >=? 0) with false. simpl negb. cbv iota.
    rewrite length_app. do 2 f_equal. lia.
  - (* an item and the comma behind it *)
    set (t := i2 :: items) in *.
    change (join COMMA (i :: t)) with (i ++ COMMA :: join COMMA t) in *.
    change (joinl (pend ++ pre) (i :: t)) with (i ++ (pend ++ pre) ++ joinl (pend ++ pre) t) in *.
    assert (HL1 : line st = a ++ i ++ COMMA :: join COMMA t ++ RBRACE :: b).
    { rewrite HL, <- !app_assoc. reflexivity. }
    replace (length (i ++ COMMA :: join COMMA t) + S (S f))%nat
      with (length i + S (length (join COMMA t) + S (S f)))%nat
      by (rewrite length_app; simpl length; lia).
    rewrite (brace_items_item pend _ _ _ st i a _ _ HL1 Hi).
    assert (HL2 : line st = (a ++ i) ++ [COMMA] ++ join COMMA t ++ RBRACE :: b).
    { rewrite HL1, <- !app_assoc. reflexivity. }
    assert (Hch : char_at (line st) (Z.of_nat (length a) + Z.of_nat (length i)) = COMMA).
    { rewrite HL2.
      replace (Z.of_nat (length a) + Z.of_nat (length i))
        with (Z.of_nat (length (a ++ i))) by (rewrite length_app; lia).
      apply char_at_app_mid. }
    pose proof (join_length_le (pend ++ pre) t) as Hjl.
    rewrite length_app in Hjl. specialize (Hjl ltac:(lia)).
    assert (Hlen : len st = Z.of_nat (length a) + Z.of_nat (length i) + 1
                            + Z.of_nat (length (join COMMA t)) + 1 + Z.of_nat (length b)).
    { unfold len. rewrite HL1. norm_len. lia. }
    assert (Hfin : Z.of_nat (length a) + Z.of_nat (length i) + Z.of_nat (length pend)
                   + Z.of_nat (length pre) + Z.of_nat (length (joinl (pend ++ pre) t))
                   + 1 + Z.of_nat (length b) <= max st).
    { revert Hfit. norm_len. lia. }
    cbn [brace_items].
    change (0 >=? 0) with true. simpl negb. cbv iota.
    unfold is_quote.
    rewrite is_quote_at_other by (rewrite Hch; discriminate).
    rewrite Hch.
    change (COMMA =? ESCAPE) with false. change (COMMA =? LBRACE) with false.
    change (COMMA =? RBRACE) with false. change (COMMA =? COMMA) with true.
    change (0 =? 0) with true. simpl andb. cbv iota.
    (* the comma becomes the postpend and the separator *)
    set (st1 := replace_chars _ 1 pend _ st).
    assert (Hl1 : line st1 = (a ++ i) ++ pend ++ join COMMA t ++ RBRACE :: b).
    { unfold st1.
      replace (Z.of_nat (length a) + Z.of_nat (length i))
        with (Z.of_nat (length (a ++ i))) by (rewrite length_app; lia).
      change 1 with (Z.of_nat (length [COMMA])).
      apply replace_chars_token; [exact HL2| |exact Hmax|lia].
      norm_len. lia. }
    assert (Hm1 : max st1 = max st) by apply replace_chars_max.
    (* the prepend goes behind it *)
    set (st2 := insert_chars _ _ _ st1).
    assert (Hl2 : line st2 = (head ++ pre ++ (x ++ i ++ pend ++ pre))
                             ++ join COMMA t ++ RBRACE :: b).
    { assert (Hp1 : firstn (Z.to_nat (Z.of_nat (length pre)))
                      (skipn (Z.to_nat (Z.of_nat (length head))) (line st1)) = pre).
      { rewrite Hl1. unfold a. rewrite <- !app_assoc.
        rewrite !Nat2Z.id, skipn_app_exact, firstn_app_exact. reflexivity. }
      unfold st2. rewrite insert_chars_exact.
      - rewrite Hp1.
        replace (Z.to_nat (Z.of_nat (length a) + Z.of_nat (length i) + Z.of_nat (length pend)))
          with (length ((a ++ i) ++ pend)) by (rewrite !length_app; lia).
        rewrite Hl1.
        rewrite (app_assoc (a ++ i) pend), firstn_app_exact, skipn_app_exact.
        unfold a. rewrite <- !app_assoc. reflexivity.
      - unfold len. rewrite Hl1. norm_len. lia.
      - lia.
      - rewrite Hm1. unfold len. rewrite Hl1. norm_len. lia.
      - rewrite Hm1. exact Hmax. }
    assert (Hm2 : max st2 = max st).
    { unfold st2. rewrite insert_chars_max. exact Hm1. }
    destruct (IH (x ++ i ++ pend ++ pre) st2 f) as (st' & Hrun & Hline & Hmx).
    + discriminate.
    + exact Hall'.
    + exact Hpend.
    + exact Hl2.
    + rewrite Hm2. revert Hfin. unfold a. norm_len. lia.
    + rewrite Hm2. exact Hmax.
    + exists st'. split; [|split].
      * replace (Z.of_nat (length a) + Z.of_nat (length i)
                 + (Z.of_nat (length pend) + Z.of_nat (length pre) - 1) + 1)
          with (Z.of_nat (length (head ++ pre ++ x ++ i ++ pend ++ pre)))
          by (unfold a; rewrite !length_app; lia).
        rewrite Hrun. do 2 f_equal.
        unfold a. rewrite <- !app_assoc. reflexivity.
      * rewrite Hline. unfold a. rewrite <- !app_assoc. reflexivity.
      * rewrite Hmx. exact Hm2.
Qed.

Lemma joinl_expand (pre post : list WCHAR) (sep : WCHAR) (items : list (list WCHAR)) :
  items <> [] ->
  pre ++ joinl ((post ++ [sep]) ++ pre) items ++ post
  = join sep (map (fun i => pre ++ i ++ post) items).
Proof.
  induction items as [|i t IH]; intros Hne; [contradiction|].
  destruct t as [|i2 t]; [reflexivity|].
  change (joinl ((post ++ [sep]) ++ pre) (i :: i2 :: t))
    with (i ++ ((post ++ [sep]) ++ pre) ++ joinl ((post ++ [sep]) ++ pre) (i2 :: t)).
  change (join sep (map (fun i => pre ++ i ++ post) (i :: i2 :: t)))
    with ((pre ++ i ++ post) ++ sep :: join sep (map (fun i => pre ++ i ++ post) (i2 :: t))).
  rewrite <- IH by discriminate.
  rewrite <- !app_assoc. reflexivity.
Qed.

Lemma remove_char_at (st : State) (a b : list WCHAR) (c : WCHAR) :
  line st = a ++ c :: b -> len st < 2 ^ 32 ->
  line (remove_chars (Z.of_nat (length a)) 1 st) = a ++ b.
Proof.
  intros HL Hlen. rewrite remove_chars_line.
  assert (Hl : len st = Z.of_nat (length a) + 1 + Z.of_nat (length b)).
  { unfold len. rewrite HL. norm_len. lia. }
  rewrite dw_small by lia.
  rewrite sub_0, Nat2Z.id, HL, firstn_app_exact. f_equal.
  unfold sub.
  replace (Z.to_nat (Z.of_nat (length a) + 1)) with (length (a ++ [c]))
    by (norm_len; lia).
  replace (a ++ c :: b) with ((a ++ [c]) ++ b) by (rewrite <- app_assoc; reflexivity).
  rewrite skipn_app_exact.
  apply firstn_all2. lia.
Qed.

Lemma memchr_lbrace (l : list WCHAR) : In LBRACE l -> memchr l LBRACE = true.
Proof.
  intros H. unfold memchr. apply existsb_exists. exists LBRACE. split; [exact H|reflexivity].
Qed.

Lemma new_txt_ok (txt : list WCHAR) (n : Z) (st : State) :
  hd true (heap st) = true ->
  exists stm, new_txt txt n st = (Some (sub txt 0 n), stm)
              /\ line stm = line st /\ max stm = max st.
Proof.
  intros H. unfold new_txt, malloc. destruct (heap st) as [|b h].
  - exists st. repeat split.
  - simpl in H. subst b. exists (set_heap h st). repeat split.
Qed.

(** The scan finds the group, its prepend and its closing brace. *)
Lemma brace_scan_group (l head pre post tail : list WCHAR) (items : list (list WCHAR)) :
  l = head ++ pre ++ LBRACE :: join COMMA items ++ RBRACE :: post ++ tail ->
  forallb brace_plain head = true ->
  (head = [] \/ exists h', head = h' ++ [SPACE]) ->
  forallb pend_char pre = true ->
  Forall (fun i => forallb item_char i = true) items ->
  (2 <= length items)%nat ->
  brace_scan (S (length l)) l 0 0 SPACE false
  = Some (Some (mkBraceGroup (Z.of_nat (length head)) (Z.of_nat (length pre))
                  (Z.of_nat (length (head ++ pre ++ LBRACE :: join COMMA items)))
                  SPACE false false)).
Proof.
  intros HL Hhead Hend Hpre Hitems H2.
  assert (Hlen : length l = (length head + length pre + 1 + length (join COMMA items)
                             + 1 + length (post ++ tail))%nat).
  { rewrite HL. norm_len. lia. }
  cbn [brace_scan].
  change (Z.to_nat 0) with O. rewrite skipn_O.
  rewrite memchr_lbrace by (rewrite HL, !in_app_iff; right; right; left; reflexivity).
  simpl negb. cbv iota.
  replace (S (length l))
    with (length head + (length pre + S (S (length (join COMMA items) + 1
                                             + length (post ++ tail)))))%nat at 1 by lia.
  rewrite (find_open_group l head pre _ _ HL Hhead Hend Hpre).
  unfold bind. cbv beta iota.
  destruct (Z.geb_spec (Z.of_nat (length head) + Z.of_nat (length pre)) (Z.of_nat (length l)))
    as [Hge|_]; [lia|].
  assert (HL' : l = (head ++ pre ++ [LBRACE]) ++ join COMMA items ++ RBRACE :: post ++ tail).
  { rewrite HL, <- !app_assoc. reflexivity. }
  replace (Z.of_nat (length head) + Z.of_nat (length pre) + 1)
    with (Z.of_nat (length (head ++ pre ++ [LBRACE]))) by (norm_len; lia).
  replace (S (length l))
    with (length (join COMMA items) + S (length head + length pre + 2
                                         + length (post ++ tail)))%nat by lia.
  rewrite (find_close_items l false items _ _ _ false HL' Hitems)
    by (destruct items; [simpl in H2; lia|discriminate]).
  replace (match items with _ :: _ :: _ => true | _ => false end) with true
    by (destruct items as [|? [|? ?]]; simpl in H2; try lia; reflexivity).
  change (0 =? 0) with true. simpl negb. cbv iota.
  do 3 f_equal.
  - norm_len. lia.
  - norm_len. lia.
Qed.

(** X11.  A group of two or more plain items between braces, with a plain
    prepend that starts the line or follows a space and a plain postpend that
    ends the line or stands before a separator, is expanded in one call of
    [brace_expansion]: each item gets the prepend before it and the postpend
    behind it, and the items are separated by the character that follows the
    postpend when it is a blank, comma, semicolon or plus, and by a space
    otherwise.  What stands before the prepend and behind the postpend is
    kept.  The expanded line and one more character must fit in the buffer,
    and the copy of the postpend must be allocated. *)
Theorem brace_expansion_items (st : State) (head pre post tail : list WCHAR)
  (items : list (list WCHAR)) :
  line st = head ++ pre ++ LBRACE :: join COMMA items ++ RBRACE :: post ++ tail ->
  forallb brace_plain head = true ->
  (head = [] \/ exists h', head = h' ++ [SPACE]) ->
  forallb pend_char pre = true ->
  forallb pend_char post = true ->
  Forall (fun i => forallb item_char i = true) items ->
  (2 <= length items)%nat ->
  match tail with
  | [] => True
  | t :: _ => wcschr BRACE_TERM t || wcschr BRACE_STOP t = true
  end ->
  hd true (heap st) = true ->
  len st <= max st ->
  Z.of_nat (length (head ++ join (brace_sep tail) (map (fun i => pre ++ i ++ post) items)
                         ++ tail)) + 1 <= max st ->
  max st < 2 ^ 32 ->
  exists st',
    brace_expansion st = Some (true, st')
    /\ line st' = head ++ join (brace_sep tail) (map (fun i => pre ++ i ++ post) items)
                       ++ tail.
Proof.
  intros HL Hhead Hend Hpre Hpost Hitems H2 Htail Hheap Hlm Hfit Hmax.
  assert (Hne : items <> []) by (destruct items; [simpl in H2; lia|discriminate]).
  set (sep := brace_sep tail) in *.
  set (pend := post ++ [sep]).
  rewrite <- (joinl_expand pre post sep items Hne) in *.
  fold pend in Hfit |- *.
  assert (Hlen : len st = Z.of_nat (length head + length pre + 1
                                    + length (join COMMA items) + 1
                                    + length post + length tail)).
  { unfold len. rewrite HL. norm_len. lia. }
  unfold brace_expansion.
  rewrite (brace_scan_group (line st) head pre post tail items HL Hhead Hend Hpre Hitems H2).
  unfold bind at 1. cbv beta iota. cbn [bg_postpos bg_q1 bg_quote bg_term bg_prepos bg_prelen].
  (* the postpend *)
  assert (HLp : line st = (head ++ pre ++ LBRACE :: join COMMA items ++ [RBRACE])
                          ++ post ++ tail).
  { rewrite HL, <- !app_assoc. simpl. do 2 f_equal. rewrite <- app_assoc. reflexivity. }
  set (a := head ++ pre ++ LBRACE :: join COMMA items ++ [RBRACE]) in *.
  assert (Ha : Z.of_nat (length (head ++ pre ++ LBRACE :: join COMMA items)) + 1
               = Z.of_nat (length a)).
  { unfold a. norm_len. lia. }
  rewrite Ha.
  replace (S (length (line st)))
    with (length post + S (length a + length tail))%nat
    by (rewrite HLp; norm_len; lia).
  rewrite (find_postpend_end (line st) a post tail _ HLp Hpost Htail).
  fold sep.
  unfold bind at 1. cbv beta iota.
  change (0 =? 0) with true. simpl negb. simpl orb. cbv iota.
  replace (Z.of_nat (length a) + Z.of_nat (length post) - Z.of_nat (length a))
    with (Z.of_nat (length post)) by lia.
  destruct (Z.ltb_spec (Z.of_nat (length post)) 0) as [Hneg|_]; [lia|].
  destruct (Z.gtb_spec (Z.of_nat (length a) + Z.of_nat (length post)) (len st)) as [Hgt|_].
  { unfold len in Hgt. rewrite HLp in Hgt. revert Hgt. norm_len. lia. }
  destruct (new_txt_ok (skipn (Z.to_nat (Z.of_nat (length a))) (line st))
                       (Z.of_nat (length post) + 1) st Hheap)
    as (stm & Hnew & Hlm1 & Hmm).
  rewrite Hnew. cbv beta iota.
  assert (Hpend : sub (line st) (Z.of_nat (length a)) (Z.of_nat (length post)) ++ [sep]
                  = pend).
  { unfold pend. f_equal. unfold sub.
    rewrite !Nat2Z.id, HLp, skipn_app_exact, firstn_app_exact. reflexivity. }
  rewrite Hpend.
  (* the opening brace goes *)
  set (str := remove_chars _ 1 stm).
  assert (Hlr : line str = (head ++ pre ++ []) ++ join COMMA items ++ RBRACE :: post ++ tail).
  { unfold str.
    replace (Z.of_nat (length head) + Z.of_nat (length pre))
      with (Z.of_nat (length (head ++ pre))) by (norm_len; lia).
    rewrite (remove_char_at stm (head ++ pre)
               (join COMMA items ++ RBRACE :: post ++ tail) LBRACE).
    - rewrite app_nil_r, <- app_assoc. reflexivity.
    - rewrite Hlm1, HL, <- app_assoc. reflexivity.
    - unfold len. rewrite Hlm1. fold (len st). lia. }
  assert (Hmr : max str = max st) by (unfold str; rewrite remove_chars_max; exact Hmm).
  assert (Hlenr : len str = Z.of_nat (length head + length pre
                                      + length (join COMMA items) + 1
                                      + length post + length tail)).
  { unfold len. rewrite Hlr. norm_len. lia. }
  replace (S (S (Z.to_nat (len str + max str))))
    with (length (join COMMA items)
          + S (S (Z.to_nat (len str + max str) - length (join COMMA items))))%nat
    by (rewrite Hlenr, Hmr; lia).
  replace (Z.of_nat (length post) + 1) with (Z.of_nat (length pend))
    by (unfold pend; norm_len; lia).
  replace (Z.of_nat (length head) + Z.of_nat (length pre))
    with (Z.of_nat (length (head ++ pre ++ []))) by (norm_len; lia).
  destruct (brace_items_run head pre pend (post ++ tail) items [] str
              (Z.to_nat (len str + max str) - length (join COMMA items)) Hne Hitems)
    as (st' & Hrun & Hline & Hmx).
  - unfold pend. norm_len. lia.
  - exact Hlr.
  - rewrite Hmr. revert Hfit. norm_len. lia.
  - rewrite Hmr. exact Hmax.
  - rewrite Hrun. unfold bind. cbv beta iota.
    eexists. split; [reflexivity|].
    replace (Z.of_nat (length ((head ++ pre ++ []) ++ joinl (pend ++ pre) items)) + 1 - 1)
      with (Z.of_nat (length ((head ++ pre ++ []) ++ joinl (pend ++ pre) items))) by lia.
    rewrite (remove_char_at st' ((head ++ pre ++ []) ++ joinl (pend ++ pre) items)
               (post ++ tail) RBRACE).
    + rewrite app_nil_r, <- !app_assoc. reflexivity.
    + rewrite Hline, <- !app_assoc. reflexivity.
    + unfold len. rewrite Hline. rewrite Hmr in Hmx.
      revert Hfit. norm_len. lia.
Qed.

(** The example of the source: [a b{1,2}c,d] becomes [a b1c,b2c,d]. *)
Lemma brace_expansion_items_witness :
  let st := set_line (wstr "a b{1,2}c,d") (initial default_option 100) in
  exists st', brace_expansion st = Some (true, st')
              /\ line st' = wstr "a b1c,b2c,d".
Proof.
  intros st.
  destruct (brace_expansion_items st (wstr "a ") (wstr "b") (wstr "c") (wstr ",d")
              [wstr "1"; wstr "2"]) as (st' & E & L).
  - vm_compute; reflexivity.
  - vm_compute; reflexivity.
  - right. exists (wstr "a"). vm_compute; reflexivity.
  - vm_compute; reflexivity.
  - vm_compute; reflexivity.
  - repeat constructor.
  - simpl; lia.
  - vm_compute; reflexivity.
  - vm_compute; reflexivity.
  - vm_compute; intros H; discriminate H.
  - vm_compute; intros H; discriminate H.
  - vm_compute; reflexivity.
  - exists st'. split; [exact E|]. rewrite L. vm_compute; reflexivity.
Defined.

(** ** Association of an extension *)

Lemma ext_char_spec (c : WCHAR) :
  ext_char c = true ->
  isblank c = false /\ c <> DQUOTE /\ c <> 46 /\ c <> SLASH /\ c <> BACKSLASH
  /\ c <> 58 /\ c <> 61 /\ c <> 0.
Proof.
  unfold ext_char. rewrite !andb_true_iff, !negb_true_iff, !Z.eqb_neq. tauto.
Qed.

(** The walk back over the extension stops at its dot. *)
Lemma find_dot_run (L a : list WCHAR) (beg : Z) (e : list WCHAR) :
  forall (rest : list WCHAR) (f : nat) (cnt : Z),
    L = a ++ 46 :: e ++ rest ->
    forallb ext_char e = true ->
    beg <= Z.of_nat (length a) ->
    find_dot (S (length e + f)) L beg (Z.of_nat (length a) + Z.of_nat (length e)) cnt
    = Some (Some (Z.of_nat (length a), cnt + Z.of_nat (length e))).
Proof.
  induction e as [|x e IH] using rev_ind; intros rest f cnt HL He Hbeg.
  - simpl length. rewrite Z.add_0_r. cbn [find_dot].
    rewrite HL, char_at_app_mid. change (46 =? 46) with true. cbv iota.
    rewrite Z.add_0_r. reflexivity.
  - rewrite forallb_app in He. apply andb_true_iff in He. destruct He as [He Hx].
    simpl in Hx. rewrite andb_true_r in Hx.
    destruct (ext_char_spec x Hx) as (_ & _ & Hd & Hs & Hb & Hc & _).
    assert (HL' : L = a ++ 46 :: e ++ x :: rest).
    { rewrite HL, <- app_assoc. reflexivity. }
    assert (Hch : char_at L (Z.of_nat (length a) + Z.of_nat (length (e ++ [x]))) = x).
    { replace (Z.of_nat (length a) + Z.of_nat (length (e ++ [x])))
        with (Z.of_nat (length (a ++ 46 :: e))) by (norm_len; lia).
      rewrite HL'.
      replace (a ++ 46 :: e ++ x :: rest) with ((a ++ 46 :: e) ++ x :: rest)
        by (rewrite <- app_assoc; reflexivity).
      apply char_at_app_mid. }
    replace (S (length (e ++ [x]) + f)) with (S (S (length e + f))) by (norm_len; lia).
    remember (S (length e + f)) as f1 eqn:Ef1.
    cbn [find_dot]. subst f1. rewrite Hch.
    rewrite (proj2 (Z.eqb_neq _ _) Hd), (proj2 (Z.eqb_neq _ _) Hs),
            (proj2 (Z.eqb_neq _ _) Hb), (proj2 (Z.eqb_neq _ _) Hc).
    rewrite (proj2 (Z.eqb_neq _ _)) by (norm_len; lia).
    simpl orb. cbv iota.
    replace (Z.of_nat (length a) + Z.of_nat (length (e ++ [x])) - 1)
      with (Z.of_nat (length a) + Z.of_nat (length e)) by (norm_len; lia).
    rewrite (IH (x :: rest) f (cnt + 1) HL' He Hbeg).
    do 3 f_equal. norm_len. lia.
Qed.

(** An extension is found at the start of a list of extensions that begins
    with it, whatever the case of its letters. *)
Lemma match_ext_first (e e' more rest : list WCHAR) :
  map towlower e' = map towlower e ->
  forallb (fun c => negb (ext_sep c)) e' = true ->
  (more = [] \/ ext_sep (hd 0 more) = true) ->
  forallb ext_char e = true ->
  match_ext (46 :: e ++ rest) (Z.of_nat (length e) + 1) (46 :: e' ++ more) = Some (Some 0).
Proof.
  intros Hci He' Hmore He.
  assert (Hlen : length e' = length e).
  { rewrite <- (length_map towlower e'), Hci. apply length_map. }
  unfold match_ext. cbn [match_ext_loop].
  destruct (Z.ltb_spec 0 (Z.of_nat (length (46 :: e' ++ more)))) as [_|Hge];
    [|simpl length in Hge; lia].
  simpl negb. cbv iota.
  change (Z.to_nat (0 + 1)) with 1%nat. change (Z.to_nat 0) with 0%nat.
  cbn [skipn].
  fold ext_sep.
  rewrite skip_while_app; [|exact He'|].
  2: { destruct Hmore as [->|Hm]; [left; reflexivity|right; apply negb_false_iff; exact Hm]. }
  replace (0 + 1 + Z.of_nat (length e') - 0 =? Z.of_nat (length e) + 1) with true
    by (symmetry; apply Z.eqb_eq; lia).
  replace (wcsnicmp (46 :: e' ++ more) (46 :: e ++ rest) (Z.to_nat (Z.of_nat (length e) + 1)))
    with 0; [reflexivity|].
  symmetry.
  replace (Z.to_nat (Z.of_nat (length e) + 1)) with (S (length e)) by lia.
  apply wcsnicmp_zero_iff.
  - simpl length. rewrite length_app. lia.
  - simpl length. rewrite length_app. lia.
  - intros c Hc. cbn [firstn] in Hc. rewrite firstn_app_exact in Hc.
    destruct Hc as [<-|Hc]; [discriminate|].
    rewrite forallb_forall in He. specialize (He c Hc).
    apply ext_char_spec in He. tauto.
  - cbn [firstn]. rewrite <- Hlen at 1. rewrite !firstn_app_exact.
    simpl map. rewrite Hci. reflexivity.
Qed.

(** X12.  When the first word of the line is a file name that ends in an
    extension, and the first association of the list starts with that
    extension (whatever the case of its letters), [associate] puts the
    definition of the association and a space before the line.  The file
    name holds no blank and no quote, the extension none of the characters
    that end the walk back to its dot, and the longer line fits the buffer. *)
Theorem associate_first_extension (st : State) (file e rest e' more d : list WCHAR)
  (ls : list (list WCHAR)) (t : list Define) :
  line st = file ++ 46 :: e ++ rest ->
  forallb (fun c => negb (isblank c) && negb (c =? DQUOTE)) file = true ->
  e <> [] ->
  forallb ext_char e = true ->
  (rest = [] \/ isblank (hd 0 rest) = true) ->
  assoc_head st = mkDefine (46 :: e' ++ more) (d :: ls) :: t ->
  map towlower e' = map towlower e ->
  forallb (fun c => negb (ext_sep c)) e' = true ->
  (more = [] \/ ext_sep (hd 0 more) = true) ->
  len st + Z.of_nat (length d) + 1 <= max st ->
  max st < 2 ^ 32 ->
  exists st',
    associate st = Some (true, st')
    /\ line st' = d ++ SPACE :: line st.
Proof.
  intros HL Hfile Hne He Hrest Hassoc Hci He' Hmore Hfit Hmax.
  set (w := file ++ 46 :: e).
  assert (HLw : line st = w ++ rest).
  { rewrite HL. unfold w. rewrite <- app_assoc. reflexivity. }
  assert (Hw : forallb (fun c => negb (isblank c)) w = true).
  { unfold w. rewrite forallb_app. apply andb_true_iff. split.
    - rewrite forallb_forall in *. intros c Hc. specialize (Hfile c Hc).
      apply andb_true_iff in Hfile. apply Hfile.
    - simpl. rewrite forallb_forall in *. intros c Hc. specialize (He c Hc).
      apply ext_char_spec in He. destruct He as [-> _]. reflexivity. }
  assert (Hwq : forallb (fun c => negb (c =? DQUOTE)) w = true).
  { unfold w. rewrite forallb_app. apply andb_true_iff. split.
    - rewrite forallb_forall in *. intros c Hc. specialize (Hfile c Hc).
      apply andb_true_iff in Hfile. apply Hfile.
    - simpl. rewrite forallb_forall in *. intros c Hc. specialize (He c Hc).
      apply ext_char_spec in He. destruct He as (_ & Hq & _).
      apply negb_true_iff, Z.eqb_neq. exact Hq. }
  assert (Hsb : skip_blank st 0 = 0).
  { unfold skip_blank. change (Z.to_nat 0) with O. rewrite skipn_O, HLw.
    destruct w as [|c w'] eqn:Ew; [destruct file; discriminate|].
    simpl in Hw. apply andb_true_iff in Hw. destruct Hw as [Hc _].
    apply negb_true_iff in Hc. simpl. rewrite Hc. reflexivity. }
  assert (Hsn : skip_nonblank st 0 = Z.of_nat (length w)).
  { unfold skip_nonblank. change (Z.to_nat 0) with O. rewrite skipn_O, HLw.
    rewrite skip_while_app; [lia|exact Hw|].
    destruct Hrest as [->|Hr]; [left; reflexivity|right; rewrite Hr; reflexivity]. }
  assert (Hfw : first_word st = w).
  { unfold first_word. cbv zeta. rewrite Hsb, Hsn, Z.sub_0_r, sub_0, Nat2Z.id, HLw.
    apply firstn_app_exact. }
  assert (Hlen : len st = Z.of_nat (length w) + Z.of_nat (length rest)).
  { unfold len. rewrite HLw. norm_len. lia. }
  assert (Hwl : Z.of_nat (length w) = Z.of_nat (length file) + 1 + Z.of_nat (length e)).
  { unfold w. norm_len. lia. }
  destruct (exists_last Hne) as (e0 & x & Ee).
  assert (Hx : ext_char x = true).
  { rewrite Ee, forallb_app in He. apply andb_true_iff in He. destruct He as [_ Hx].
    simpl in Hx. rewrite andb_true_r in Hx. exact Hx. }
  destruct (ext_char_spec x Hx) as (_ & _ & Hxd & Hxs & Hxb & _ & Hxe & _).
  assert (Hel : Z.of_nat (length e) = Z.of_nat (length e0) + 1).
  { rewrite Ee. norm_len. lia. }
  assert (Hch : char_at (line st) (Z.of_nat (length w) - 1) = x).
  { replace (Z.of_nat (length w) - 1) with (Z.of_nat (length (file ++ 46 :: e0)))
      by (norm_len; lia).
    rewrite HL, Ee.
    replace (file ++ 46 :: (e0 ++ [x]) ++ rest) with ((file ++ 46 :: e0) ++ x :: rest)
      by (rewrite <- !app_assoc; reflexivity).
    apply char_at_app_mid. }
  unfold associate.
  rewrite get_string_plain by (rewrite Hfw; exact Hwq).
  unfold bind at 1. cbv beta iota.
  rewrite Hsb, Hsn, Z.sub_0_r.
  rewrite dw_small by lia.
  destruct (Z.eqb_spec (Z.of_nat (length w)) 0) as [E0|_]; [lia|].
  change (line (set_found_quote false st)) with (line st).
  replace (0 + Z.of_nat (length w) - 1) with (Z.of_nat (length w) - 1) by lia.
  rewrite Hch.
  rewrite (proj2 (Z.eqb_neq _ _) Hxe), andb_false_r.
  cbv beta iota zeta.
  rewrite Hch.
  rewrite (proj2 (Z.eqb_neq _ _) Hxs), (proj2 (Z.eqb_neq _ _) Hxb),
          (proj2 (Z.eqb_neq _ _) Hxd).
  simpl orb. simpl andb. cbv iota.
  replace (S (length (line st))) with (S (length e + (length file + length rest + 1)))
    by (rewrite HL; norm_len; lia).
  replace (Z.of_nat (length w) - 1) with (Z.of_nat (length file) + Z.of_nat (length e))
    by lia.
  rewrite (find_dot_run (line st) file 0 e rest _ 1 HL He) by lia.
  unfold bind at 1. cbv beta iota.
  (* the association *)
  unfold find_assoc.
  change (assoc_head (set_found_quote false st)) with (assoc_head st).
  rewrite Hassoc. cbn [find_assoc_walk name].
  rewrite Nat2Z.id, HL, skipn_app_exact.
  replace (1 + Z.of_nat (length e) + 0) with (Z.of_nat (length e) + 1) by lia.
  rewrite (match_ext_first e e' more rest Hci He' Hmore He).
  unfold bind. cbv beta iota. simpl negb. cbv iota.
  change (0 =? 0) with true. simpl negb. cbv iota.
  cbn [get_head assoc_head set_assoc_pos set_assoc_head lines].
  eexists. split; [reflexivity|].
  set (s1 := set_assoc_pos _ _).
  assert (Hl1 : line s1 = line st) by reflexivity.
  assert (Hm1 : max s1 = max st) by reflexivity.
  set (s2 := insert_chars 0 d _ s1).
  assert (Hl2 : line s2 = d ++ line st).
  { unfold s2. rewrite insert_chars_exact.
    - rewrite Hl1, Nat2Z.id, firstn_all. reflexivity.
    - pose proof (len_nonneg s1). lia.
    - lia.
    - unfold len. rewrite Hl1, Hm1. fold (len st). lia.
    - rewrite Hm1. exact Hmax. }
  assert (Hm2 : max s2 = max st) by (unfold s2; rewrite insert_chars_max; exact Hm1).
  rewrite insert_chars_exact.
  - rewrite Hl2, Nat2Z.id, firstn_app_exact, skipn_app_exact, HL. reflexivity.
  - unfold len. rewrite Hl2. norm_len. lia.
  - lia.
  - unfold len. rewrite Hl2, Hm2. norm_len. fold (len st). unfold len in Hfit |- *. lia.
  - rewrite Hm2. exact Hmax.
Qed.

(** [readme.TXT] with the association [.txt.doc] of [notepad]. *)
Lemma associate_first_extension_witness :
  let st := set_line (wstr "readme.TXT now")
              (set_assoc_head [mkDefine (wstr ".txt.doc") [wstr "notepad"]]
                 (initial default_option 100)) in
  exists st', associate st = Some (true, st')
              /\ line st' = wstr "notepad readme.TXT now".
Proof.
  intros st.
  destruct (associate_first_extension st (wstr "readme") (wstr "TXT") (wstr " now")
              (wstr "txt") (wstr ".doc") (wstr "notepad") [] []) as (st' & E & L).
  - vm_compute; reflexivity.
  - vm_compute; reflexivity.
  - discriminate.
  - vm_compute; reflexivity.
  - right. vm_compute; reflexivity.
  - vm_compute; reflexivity.
  - vm_compute; reflexivity.
  - vm_compute; reflexivity.
  - right. vm_compute; reflexivity.
  - vm_compute; intros H; discriminate H.
  - vm_compute; reflexivity.
  - exists st'. split; [exact E|]. rewrite L. vm_compute; reflexivity.
Defined.

(** ** Reading a command file *)

Lemma firstn_take_while (p : WCHAR -> bool) (l : list WCHAR) :
  firstn (length (take_while p l)) l = take_while p l.
Proof.
  rewrite <- (take_drop_while p l) at 2. apply firstn_app_exact.
Qed.

Lemma first_word_of_line (st : State) : first_word st = word_of (line st).
Proof.
  unfold first_word, word_of, sub. cbv zeta.
  unfold skip_nonblank.
  rewrite skip_while_take.
  unfold skip_blank.
  rewrite skipn_skip_while by lia.
  change (Z.to_nat 0) with O. rewrite skipn_O.
  set (w := take_while _ (drop_while isblank (line st))).
  replace (Z.to_nat (skip_while isblank (line st) 0 + Z.of_nat (length w)
                     - skip_while isblank (line st) 0))
    with (length w) by lia.
  apply firstn_take_while.
Qed.

(** With memory available, [defs] leaves it available. *)
Lemma heap_nil_execute_defs (pos : Z) (st : State) :
  heap st = [] -> heap (execute_defs pos st) = [].
Proof.
  intros H0. unfold execute_defs.
  destruct (pos =? len st); [exact H0|].
  destruct (_ && _); [exact H0|].
  assert (Hfd : forall h p c s, heap s = [] -> heap (snd (find_define h p c s)) = []).
  { intros h p c s Hs. unfold find_define.
    destruct (find_walk _ _ _); simpl snd; [rewrite heap_set_head|]; exact Hs. }
  assert (Hsl : forall h ls s, heap s = [] -> heap (set_head_lines h ls s) = []).
  { intros h ls s Hs. unfold set_head_lines.
    destruct (get_head h s); [|rewrite heap_set_head]; exact Hs. }
  assert (Hdd : forall h s, heap s = [] -> heap (del_define h s) = []).
  { intros h s Hs. unfold del_define. rewrite heap_set_head. exact Hs. }
  pose proof (Hfd MacHead pos (skip_nondelim st pos - pos) st H0) as H1.
  destruct (find_define MacHead pos (skip_nondelim st pos - pos) st) as [m st1].
  simpl snd in H1.
  assert (H2 : heap (if m then del_define MacHead st1 else st1) = [])
    by (destruct m; [apply Hdd|]; exact H1).
  set (st2 := if m then del_define MacHead st1 else st1) in *.
  pose proof (Hfd SymHead pos (skip_nondelim st pos - pos) st2 H2) as H3.
  destruct (find_define SymHead pos (skip_nondelim st pos - pos) st2) as [sym st3].
  simpl snd in H3.
  assert (H4 : heap (if sym then set_head_lines SymHead [] st3 else st3) = [])
    by (destruct sym; [apply Hsl|]; exact H3).
  set (st4 := if sym then set_head_lines SymHead [] st3 else st3) in *.
  destruct (skip_blank st4 (skip_nondelim st pos) =? len st4).
  { destruct sym; [apply Hdd|]; exact H4. }
  assert (H5 : forall ok st5,
             (if sym then (true, st4)
              else add_define SymHead pos (skip_nondelim st pos - pos) st4) = (ok, st5) ->
             heap st5 = []).
  { intros ok st5 E. destruct sym.
    - injection E as _ <-. exact H4.
    - unfold add_define, malloc in E. rewrite H4 in E. cbv beta iota zeta in E.
      injection E as _ <-. exact H4. }
  destruct (if sym then (true, st4)
            else add_define SymHead pos (skip_nondelim st pos - pos) st4) as [ok st5].
  specialize (H5 ok st5 eq_refl).
  destruct ok; simpl negb; cbv iota; [|exact H5].
  unfold add_line, malloc. rewrite H5. cbv beta iota zeta.
  apply Hsl. exact H5.
Qed.

(** The commands [defs], [rsta], [rstm] and [rsts] leave the history, the
    file and the memory alone. *)
Lemma execute_neutral (ext : Handlers) (f : IntFunc) (pos : Z) (st : State) :
  In f [DEFS; RSTA; RSTM; RSTS] -> heap st = [] ->
  exists s, execute ext f pos st = Some s
            /\ reading s = reading st /\ heap s = [].
Proof.
  intros Hin H0.
  destruct Hin as [<-|[<-|[<-|[<-|[]]]]]; cbn [execute]; eexists;
    (split; [reflexivity|]).
  - split; [|apply heap_nil_execute_defs; exact H0].
    apply (frame_execute_defs reading); [intros h; destruct h|]; reflexivity.
  - split; [reflexivity | exact H0].
  - split; [reflexivity | exact H0].
  - split; [reflexivity | exact H0].
Qed.

(** [add_to_history] looks at the line, the options and the history only. *)
Lemma add_to_history_sim (s t : State) :
  line s = line t -> opt s = opt t -> history s = history t ->
  histsize s = histsize t -> heap s = [] -> heap t = [] ->
  history (add_to_history s) = history (add_to_history t)
  /\ histsize (add_to_history s) = histsize (add_to_history t)
  /\ opt (add_to_history s) = opt (add_to_history t)
  /\ heap (add_to_history s) = []
  /\ heap (add_to_history t) = []
  /\ file (add_to_history s) = file s
  /\ def_macro (add_to_history s) = def_macro s
  /\ check_break (add_to_history s) = check_break s
  /\ kbd (add_to_history s) = kbd s.
Proof.
  intros Hl Ho Hh Hn Hs Ht.
  unfold add_to_history, len, malloc, remove_from_history.
  rewrite Hl, Ho, Hh, Hn.
  destruct (Z.of_nat (length (line t)) <? min_length (opt t)).
  { repeat split; assumption. }
  destruct (find_identical (rev (history t)) (line t)) as [k|].
  { simpl. repeat split; assumption. }
  destruct (negb (opt_histsize (opt t) =? 0) && (histsize t =? opt_histsize (opt t)));
    simpl heap; rewrite Hs, Ht; simpl; rewrite ?Hh, ?Hn, ?Hl; repeat split; assumption.
Qed.

(** The loop of [read_cmdfile] over ordinary lines and commands that leave
    the history alone. *)
Lemma read_cmdfile_loop_history (ext : Handlers) (f : nat) :
  forall (ls : list (list WCHAR)) (s t : State),
    (length ls < f)%nat ->
    file s = Some ls ->
    def_macro s = false -> check_break s <= 1 -> kbd s = false ->
    opt s = opt t -> history s = history t -> histsize s = histsize t ->
    heap s = [] -> heap t = [] ->
    forallb (fun b => negb (hd 0 b =? 0) && history_neutral (file_line b))
            (filter file_line_kept ls) = true ->
    let entered :=
      filter (fun l => match line_command l with None => true | Some _ => false end)
             (map file_line (filter file_line_kept ls)) in
    exists s',
      read_cmdfile_loop f ext s = Some s'
      /\ history s' = history (submit_all entered t)
      /\ histsize s' = histsize (submit_all entered t).
Proof.
  induction f as [|f IH]; intros ls s t Hf Hfile Hdm Hcb Hk Ho Hh Hn Hhs Hht Hall;
    [lia|].
  cbn [read_cmdfile_loop]. unfold get_file_line. rewrite Hfile.
  destruct (skip_ignored_spec ls) as (Hfl & Hln & Hkept).
  rewrite <- Hfl in Hall |- *.
  destruct (skip_ignored ls) as [|b rest].
  - (* the end of the file *)
    change (def_macro (set_file (Some []) s)) with (def_macro s). rewrite Hdm.
    cbn [bind]. eexists. split; [reflexivity|]. simpl. split; assumption.
  - cbn [filter map] in Hall |- *. rewrite Hkept in Hall |- *.
    cbn [forallb filter map] in Hall |- *.
    apply andb_true_iff in Hall. destruct Hall as [Hb Hall'].
    apply andb_true_iff in Hb. destruct Hb as [Hb0 Hneu].
    apply negb_true_iff in Hb0.
    destruct (c_string_hd b Hb0) as (c & tl & Ebuf).
    set (l := file_line b) in *.
    assert (Hl : removelast (c_string b) = l) by reflexivity.
    rewrite Ebuf. rewrite <- Ebuf, Hl.
    set (n := Z.of_nat (length (c_string b)) + 1).
    set (s2 := if n >? max (set_file (Some rest) s)
               then set_line l (set_max n (set_file (Some rest) s))
               else set_line l (set_file (Some rest) s)).
    assert (Hstep : (if n >? max (set_file (Some rest) s)
                     then let '(ok, st) := malloc (set_file (Some rest) s) in
                          if ok then Some (FL_line, set_line l (set_max n st))
                          else Some (FL_nomem, set_line [] st)
                     else Some (FL_line, set_line l (set_file (Some rest) s)))
                    = Some (FL_line, s2)).
    { unfold s2, malloc. change (heap (set_file (Some rest) s)) with (heap s). rewrite Hhs.
      destruct (n >? max (set_file (Some rest) s)); reflexivity. }
    rewrite Hstep. clear Hstep. cbn [bind].
    assert (Hs2 : line s2 = l /\ file s2 = Some rest /\ def_macro s2 = false
                  /\ check_break s2 = check_break s /\ opt s2 = opt s
                  /\ history s2 = history s /\ histsize s2 = histsize s /\ heap s2 = []
                  /\ kbd s2 = false).
    { unfold s2. destruct (_ >? _); simpl; repeat split; assumption. }
    destruct Hs2 as (L2 & F2 & D2 & C2 & O2 & H2 & N2 & P2 & K2).
    unfold internal_cmd. rewrite C2.
    destruct (Z.gtb_spec (check_break s) 1) as [Hgt|_]; [lia|].
    rewrite internal_lookup_spec, first_word_of_line, L2. cbn [bind].
    unfold history_neutral in Hneu. unfold line_command in Hneu |- *.
    destruct (length (word_of l) =? 4)%nat;
      [destruct (command_of (word_of l)) as [fn|] eqn:Ecmd|].
    + (* an internal command *)
      cbn [option_map]. rewrite K2. cbn [bind].
      destruct (execute_neutral ext fn
                  (skip_blank s2 (skip_blank s2 0 + CMD_LEN)) s2) as (s3 & E3 & R3 & P3);
        [destruct fn; try discriminate; simpl; tauto | exact P2 |].
      rewrite E3. cbn [bind].
      unfold reading in R3. injection R3 as R3h R3n R3o R3f R3d R3c R3k.
      destruct (IH rest s3 t) as (s' & Hrun & Hhist & Hsize);
        [simpl in Hln; lia | congruence | congruence | rewrite R3c, C2; exact Hcb
        | congruence | congruence | congruence | congruence | exact P3 | exact Hht
        | exact Hall' |].
      exists s'. split; [exact Hrun|]. split; assumption.
    + (* an ordinary line *)
      cbn [option_map].
      destruct (add_to_history_sim s2 (set_line l t))
        as (A1 & A2 & A3 & A4 & A5 & A6 & A7 & A8 & A9);
        [exact L2|rewrite O2; exact Ho|rewrite H2; exact Hh|rewrite N2; exact Hn
        |exact P2|exact Hht|].
      destruct (IH rest (add_to_history s2) (add_to_history (set_line l t)))
        as (s' & Hrun & Hhist & Hsize);
        [simpl in Hln; lia | congruence | congruence | rewrite A8, C2; exact Hcb
        | congruence | exact A3 | exact A1 | exact A2 | exact A4 | exact A5
        | exact Hall' |].
      exists s'. split; [exact Hrun|]. simpl. split; assumption.
    + destruct (add_to_history_sim s2 (set_line l t))
        as (A1 & A2 & A3 & A4 & A5 & A6 & A7 & A8 & A9);
        [exact L2|rewrite O2; exact Ho|rewrite H2; exact Hh|rewrite N2; exact Hn
        |exact P2|exact Hht|].
      destruct (IH rest (add_to_history s2) (add_to_history (set_line l t)))
        as (s' & Hrun & Hhist & Hsize);
        [simpl in Hln; lia | congruence | congruence | rewrite A8, C2; exact Hcb
        | congruence | exact A3 | exact A1 | exact A2 | exact A4 | exact A5
        | exact Hall' |].
      exists s'. split; [exact Hrun|]. simpl. split; assumption.
Qed.

(** X13.  A command file whose lines are ordinary lines or the commands
    [defs], [rsta], [rstm] and [rsts] is read to its end.  Of every string
    that [fgets] gives, the last character (the line feed) is cut off;
    strings that start with the line feed or with '-' are passed over and the
    command lines are run; the ordinary lines go to the history in the order
    of the file, as lines entered one after the other do.  (No break is
    pending, no macro is being defined, memory is available and no string
    starts with NUL.) *)
Theorem read_cmdfile_history (ext : Handlers) (content : list (list WCHAR))
  (st : State) :
  check_break st <= 1 ->
  def_macro st = false ->
  heap st = [] ->
  forallb (fun b => negb (hd 0 b =? 0) && history_neutral (file_line b))
          (filter file_line_kept content) = true ->
  let entered :=
    filter (fun l => match line_command l with None => true | Some _ => false end)
           (map file_line (filter file_line_kept content)) in
  exists st',
    read_cmdfile ext content st = Some st'
    /\ history st' = history (submit_all entered st)
    /\ histsize st' = histsize (submit_all entered st)
    /\ file st' = None.
Proof.
  intros Hcb Hdm Hheap Hall entered. unfold read_cmdfile. cbv zeta.
  destruct (read_cmdfile_loop_history ext (S (length content)) content
              (set_max 0 (set_line [] (set_file (Some content) (set_kbd false st)))) st)
    as (s' & Hrun & Hh & Hn); try reflexivity; try assumption; [lia|].
  rewrite Hrun. unfold bind. cbv beta iota.
  eexists. split; [reflexivity|]. repeat split; assumption.
Qed.

(** A file with a comment line, a blank line, a command and two lines for
    the history, the last of them without a line feed: its last character is
    lost. *)
Lemma read_cmdfile_history_witness :
  let st := initial default_option 100 in
  let content := [wstr "- history" ++ [10]; wstr "dir /w" ++ [10]; [10];
                  wstr "defs a b" ++ [10]; wstr "cd .."] in
  exists st',
    read_cmdfile (fun _ _ s => Some s) content st = Some st'
    /\ history st' = [wstr "dir /w"; wstr "cd ."].
Proof.
  intros st content.
  destruct (read_cmdfile_history (fun _ _ s => Some s) content st)
    as (st' & E & H & _).
  - vm_compute; intros H; discriminate H.
  - reflexivity.
  - reflexivity.
  - vm_compute. reflexivity.
  - exists st'. split; [exact E|]. rewrite H. vm_compute; reflexivity.
Defined.

(** ** Conversion of a UNIX-style command *)

Lemma set_char_length (pos : Z) (c : WCHAR) (st : State) :
  0 <= pos < len st -> length (line (set_char pos c st)) = length (line st).
Proof.
  intros Hp. unfold set_char, len in *.
  change (line (set_line ?l st)) with l.
  rewrite sub_0. norm_len. rewrite length_firstn, length_skipn. lia.
Qed.

Lemma char_at_set_char (pos : Z) (c : WCHAR) (st : State) (i : Z) :
  0 <= pos < len st -> 0 <= i ->
  char_at (line (set_char pos c st)) i = if i =? pos then c else char_at (line st) i.
Proof.
  intros Hp Hi. unfold set_char, len in *.
  change (line (set_line ?l st)) with l.
  rewrite sub_0. unfold char_at.
  destruct (Z.ltb_spec i 0) as [Hn|_]; [lia|].
  assert (Hfl : length (firstn (Z.to_nat pos) (line st)) = Z.to_nat pos).
  { rewrite length_firstn. lia. }
  destruct (Z.eqb_spec i pos) as [->|Hne].
  - rewrite app_nth2 by lia. rewrite Hfl, Nat.sub_diag. reflexivity.
  - destruct (Z.ltb_spec i pos) as [Hlt|Hge].
    + rewrite app_nth1 by lia.
      rewrite nth_firstn.
      destruct (Nat.ltb_spec (Z.to_nat i) (Z.to_nat pos)) as [_|H]; [reflexivity|lia].
    + rewrite app_nth2 by lia. rewrite Hfl.
      replace (Z.to_nat i - Z.to_nat pos)%nat with (S (Z.to_nat i - Z.to_nat (pos + 1)))
        by lia.
      cbn [app nth]. rewrite nth_skipn. f_equal. lia.
Qed.

Lemma dosified_refl (c : WCHAR) :
  (c =? SLASH) || (c =? BACKSLASH) = false -> dosified c c.
Proof.
  intros H. unfold dosified. rewrite H. destruct (c =? 45) eqn:E; [|reflexivity].
  left. apply Z.eqb_eq. exact E.
Qed.

(** The loop of [dosify] from a position on. *)
Lemma dosify_loop_spec (f : nat) :
  forall (pos : Z) (st : State),
    0 <= pos ->
    (Z.to_nat (len st - pos) < f)%nat ->
    exists st',
      dosify_loop f pos st = Some st'
      /\ length (line st') = length (line st)
      /\ history st' = history st
      /\ (forall i, 0 <= i < pos -> char_at (line st') i = char_at (line st) i)
      /\ (forall i, pos <= i < len st ->
                    dosified (char_at (line st) i) (char_at (line st') i)).
Proof.
  induction f as [|f IH]; intros pos st Hp Hf; [lia|].
  cbn [dosify_loop].
  destruct (Z.ltb_spec pos (len st)) as [Hlt|Hge]; cbn [negb]; cbv iota.
  2: { exists st. repeat split; try reflexivity. intros i Hi. lia. }
  (* the state behind the character at pos *)
  assert (Hstep : exists s1,
             (let c := char_at (line st) pos in
              if (c =? SLASH) || (c =? BACKSLASH) then
                let st0 := set_char pos BACKSLASH st in
                if ((pos + 1 =? len st0) || isblank (char_at (line st0) (pos + 1)))
                   && (pos >? 0) && negb (char_at (line st0) (pos - 1) =? 58)
                   && negb (isblank (char_at (line st0) (pos - 1)))
                then dosify_loop f (pos + 1) (set_char pos SPACE st0)
                else dosify_loop f (pos + 1) st0
              else if (c =? 45) && (pos >? 0) && isblank (char_at (line st) (pos - 1))
              then dosify_loop f (pos + 1) (set_char pos SLASH st)
              else dosify_loop f (pos + 1) st)
             = dosify_loop f (pos + 1) s1
             /\ length (line s1) = length (line st)
             /\ history s1 = history st
             /\ (forall i, 0 <= i -> i <> pos -> char_at (line s1) i = char_at (line st) i)
             /\ dosified (char_at (line st) pos) (char_at (line s1) pos)).
  { cbv zeta.
    assert (Hl0 : forall c, len (set_char pos c st) = len st).
    { intros c. unfold len. rewrite set_char_length by lia. reflexivity. }
    destruct ((char_at (line st) pos =? SLASH) || (char_at (line st) pos =? BACKSLASH))
      eqn:Es.
    - match goal with |- context [if ?b then _ else _] => destruct b end.
      + exists (set_char pos SPACE (set_char pos BACKSLASH st)).
        split; [reflexivity|]. split; [|split; [reflexivity|split]].
        * rewrite !set_char_length; [reflexivity|lia|rewrite Hl0; lia].
        * intros i Hi Hne.
          rewrite !char_at_set_char by (rewrite ?Hl0; lia).
          rewrite (proj2 (Z.eqb_neq _ _) Hne). reflexivity.
        * unfold dosified. rewrite Es. right.
          rewrite char_at_set_char by (rewrite ?Hl0; lia).
          rewrite Z.eqb_refl. reflexivity.
      + exists (set_char pos BACKSLASH st).
        split; [reflexivity|]. split; [|split; [reflexivity|split]].
        * apply set_char_length. lia.
        * intros i Hi Hne.
          rewrite char_at_set_char by lia.
          rewrite (proj2 (Z.eqb_neq _ _) Hne). reflexivity.
        * unfold dosified. rewrite Es. left.
          rewrite char_at_set_char by lia.
          rewrite Z.eqb_refl. reflexivity.
    - destruct ((char_at (line st) pos =? 45) && (pos >? 0)
                && isblank (char_at (line st) (pos - 1))) eqn:Ed.
      + exists (set_char pos SLASH st).
        split; [reflexivity|]. split; [|split; [reflexivity|split]].
        * apply set_char_length. lia.
        * intros i Hi Hne.
          rewrite char_at_set_char by lia.
          rewrite (proj2 (Z.eqb_neq _ _) Hne). reflexivity.
        * unfold dosified. rewrite Es.
          apply andb_true_iff in Ed. destruct Ed as [Ed _].
          apply andb_true_iff in Ed. destruct Ed as [Ed _]. rewrite Ed. right.
          rewrite char_at_set_char by lia.
          rewrite Z.eqb_refl. reflexivity.
      + exists st. split; [reflexivity|]. split; [reflexivity|]. split; [reflexivity|].
        split; [reflexivity|]. apply dosified_refl. exact Es. }
  destruct Hstep as (s1 & Hrun & Hlen1 & Hh1 & Hoth & Hat).
  cbv zeta in Hrun. cbv zeta. rewrite Hrun.
  assert (Hl1 : len s1 = len st) by (unfold len; rewrite Hlen1; reflexivity).
  destruct (IH (pos + 1) s1) as (st' & Hrun' & Hlen' & Hh' & Hlow & Hup);
    [lia|rewrite Hl1; lia|].
  exists st'. split; [exact Hrun'|]. split; [congruence|]. split; [congruence|]. split.
  - intros i Hi. rewrite Hlow by lia. apply Hoth; lia.
  - intros i Hi. destruct (Z.eq_dec i pos) as [->|Hne].
    + rewrite Hlow by lia. exact Hat.
    + rewrite <- (Hoth i) by lia. apply Hup. rewrite Hl1. lia.
Qed.

(** X14.  [dosify] comes to an end and keeps the length of the line; a slash
    or backslash becomes a backslash or a space, a dash stays or becomes a
    slash, and no other character changes.  The history is not touched. *)
Theorem dosify_spec (st : State) :
  exists st',
    dosify st = Some st'
    /\ length (line st') = length (line st)
    /\ history st' = history st
    /\ forall i, 0 <= i < len st ->
                 dosified (char_at (line st) i) (char_at (line st') i).
Proof.
  unfold dosify.
  destruct (dosify_loop_spec (S (length (line st))) 0 st) as (st' & Hrun & Hlen & Hh & _ & Hup).
  - lia.
  - unfold len. lia.
  - exists st'. repeat split; assumption.
Qed.
